(* ===== verification/_CoqProject ===== *)
-Q . S2P
Prelude.v
Bytes.v
Trim.v
Backend.v
Journal.v
JournalSim.v
Model.v
Control.v
Controller.v
ControllerSpec.v
AuraWake.v
Bluez.v
AuraBluez.v
BluezIo.v
BluezIoSpec.v
JblGatt.v
Tcp.v
BroadcastGena.v
GenaBody.v
GenaHttp.v
GenaHttpSpec.v
BackendNative.v
Gena.v
NativeSpec.v
GenaSpec.v
Ip.v
Web.v
WebSpec.v
Http.v
LocalModel.v
LocalClient.v
HttpSpec.v
ClientSpec.v
Service.v
ServiceSpec.v
WebServer.v
WebServerSpec.v
ServerLoop.v
System.v
BodySpec.v
Loopback.v
JblClient.v
JblSpec.v
PrivateFile.v
Tls.v
Config.v
ConfigSpec.v
Cli.v
CliSpec.v
Signals.v
Native.v
NativeServiceSpec.v
Legacy.v
LegacySpec.v
Session.v
Process.v
ProcessSpec.v
Simulation.v
BluezSimulation.v
NetSimulation.v
HostSimulation.v
GenaSimulation.v
NativeSimulation.v
LegacySimulation.v
Witnesses.v
NetWitnesses.v
HostWitnesses.v
GenaWitnesses.v
BluezWitnesses.v
NativeWitnesses.v
LegacyWitnesses.v
SessionWitnesses.v
ProcessWitnesses.v
