(* ===== verification/Prelude.v ===== *)
(** * Verification of the JBL/Aura Play Together service (rust/src)

    The program pairs two speakers from different generations, a JBL Authentics
    300 (the broadcaster) and an Aura Studio 5 (the receiver), into one Play
    Together group, and keeps exactly one owner of that pair: a user service
    with a loopback HTTP interface and a command-line client.  Its hard part is
    uncertainty: a role command that may have reached a speaker is never
    repeated, and never forgotten, not even by a crash, until an explicit
    recovery settled it.

    ** The parts, and the files that model them

    Every definition is translated from the function its name names.  A
    component with state is a record, its operations are functions from the
    state to a result and the next state; the calls of a component it does not
    own are a type class, whose laws (a second class, [..Laws]) are what it
    relies on.  The implementation of an interface is an instance, so the
    theorems of a client hold for every implementation.

    - [Prelude], [Bytes], [Trim]: results with [?], saturating and checked
      arithmetic, the hint database [rust]; the byte-string operations of Rust's
      standard library with their lemmas, those on [str::trim] in [Trim].
    - [Backend] (backend.rs): vocabulary, [PairBackend], transaction guard.
    - [Journal] (journal.rs): the two-file uncertainty journal over an abstract
      directory, with what POSIX promises about a crash.
    - [Model] (model.rs, error.rs), [Control] (control.rs, aura_protocol.rs):
      identities, JSON projections, command frames and acknowledgements.
    - [Controller], [ControllerSpec] (controller.rs): status and mutation of the
      single owner; the invariant, the latch and its abstract automaton.
    - [AuraWake] (aura_wake.rs), [AuraBluez] (aura_bluez.rs), [JblGatt]
      (jbl_gatt.rs) over [Bluez] (the Bluetooth stack): the two Bluetooth
      transports.  [AuraBluez] is the transport over an abstract exchange of
      frames; [BluezIo] (the second half of aura_bluez.rs) is that exchange:
      sockets, the stable and the low-energy connection, the scan window and
      the wake profile, which share one state of the stack; [BluezIoSpec].
    - [BroadcastGena], [GenaBody], [GenaHttp], [Gena] (broadcast_gena.rs): the
      observer of business results: vocabulary, the envelopes of a
      notification, the HTTP reader, and the subscription with its callback
      loop over an interface of the network; [GenaHttpSpec], [GenaSpec].
    - [JblClient], [JblSpec] (client.rs, the probe of backend_native.rs): the
      pinned LAN client, over the interface [Ureq] of its HTTP agents.
    - [BackendNative], [NativeSpec] (backend_native.rs): the pair core that
      drives all of these, as an instance of [PairBackend].
    - [Web], [WebSpec] (web.rs): framing, parsing, the gate and the routes.
    - [Tcp], [WebServer], [WebServerSpec] (web_server.rs): the accept loop, over
      an interface of sockets.
    - [Service], [ServiceSpec] (service_runtime.rs): the actor around the
      controller, which implements the interface [WebActor] of the boundary;
      exit, ownership locks, start of the user service.
    - [LocalModel], [LocalClient], [ClientSpec] (local_client.rs): the decoders
      and the flows of the command-line client.
    - [PrivateFile] (private_file.rs): the checks before a private file is read.
      [Tls] (tls.rs): the pinned connector over an interface of OpenSSL.
      [Config], [ConfigSpec] (config.rs): the configuration, its text and its
      installation.  [Cli], [CliSpec] (main.rs): arguments and commands.
    - [Ip]: textual IP addresses as the standard library has them.  [Signals]
      (service_runtime.rs): the termination handlers and their flag.
    - [Native], [NativeServiceSpec] (the constructors of client.rs,
      backend_native.rs and service_runtime.rs): the HTTP agents, the pair backend
      over its concrete clients and the service actor with its process lock, on
      the parts of a host; it implements the interface [NativeRuntime] of [Cli].
    - [Legacy], [LegacySpec] (backend_legacy.rs): the second implementation of
      [PairBackend], a client of an older supervisor on a Unix socket, over an
      interface of such sockets; it is compiled with the tests only.
    - [Http], [HttpSpec]: the two ends of the connection read each other.
      [BodySpec]: the serializers of web.rs against the decoders of
      local_client.rs.  [Loopback]: client and service over one network;
      [Session]: any number of mutations of the client, one after the other,
      with the service as [Native] builds it.
      [System]: service, journal, crash and restart.
    - [ServerLoop]: the accept loop as a sequence of calls, and that it ends.
      [Process], [ProcessSpec] (serve of main.rs): [Cli.run_service] on one
      machine of a host, a network and the signals that arrive, from the
      configuration to the exit.
    - [JournalSim], [Simulation], [NetSimulation], [HostSimulation],
      [GenaSimulation], [BluezSimulation], [NativeSimulation],
      [LegacySimulation]: concrete instances of every interface; [Witnesses],
      [NetWitnesses], [HostWitnesses], [GenaWitnesses], [BluezWitnesses],
      [NativeWitnesses], [LegacyWitnesses], [SessionWitnesses],
      [ProcessWitnesses]: every property at concrete inputs on them.  They model no code of the program.

    How they interact: a request reaches [WebServer.serve], which hands one
    complete request to [Web.handle]; that asks its actor
    ([Service.ControllerWebActor]) to compare the revision and mutate;
    [Controller.mutate] checks the membership through the probe ([JblClient]),
    marks the journal, runs one backend action ([BackendNative]) and settles
    or latches the outcome.

    ** What the theorems show

    - Uncertainty: [unresolved_latch_holds], [backend_runs_behind_latch],
      [mutate_refines_latch], [accepted_is_complete], [rejected_sends_nothing]
      for the controller; [mark_survives_crash] for the
      journal; [native_latch_terminal],
      [aura_role_on_the_wire], [jbl_gatt_one_frame_per_arm],
      [role_command_sent_once] for the three ways a command leaves, and
      [legacy_action_classified] for the socket of the other backend; and
      [uncertainty_outlives_crash] for the whole, across a crash and a restart;
      [native_service_fails_closed] for the assembled service, as it is built
      again from its configuration on what the crash left on disk, and
      [pending_process_stays_silent] for the process that runs it.
    - The process: [service_process_refines], from the configuration over the
      complete requests to the exit, with what its success means;
      [service_process_ends].
    - Assembly: [service_built_under_lock]; the laws of every interface are
      discharged by the concrete parts, a bearer's route included
      ([BluezIo_bearer_laws], which [served_status_accepted] relies on).
    - Order: [native_start_order], [native_stop_order],
      [acquire_aura_wake_cleans_up], [retained_bearer_verified].
    - Business results: [confirmed_broadcast_is_genuine],
      [listener_open_iff_subscribed], [message_framing].
    - The host: [pinned_session_only], [private_file_whole_or_refused],
      [configure_all_or_nothing], [local_command_truthful], and
      [installed_config_loads_back]: what the configure command installed loads
      back as it was, except that the expected model loses the white space
      around it, and then quotes around what is left.
    - The boundary: [mutation_needs_authorization] and
      [framing_agrees_with_parsing]; and, as lemmas,
      [one_mutation_per_revision] and what [service_process_refines] rests on,
      [server_runs_complete_requests] and [exit_is_safe].
    - Client and service: [client_session_drives_service] end to end, for any
      number of mutations; [mutation_posts_once], [server_responses_read_back],
      [served_status_accepted], [membership_read_exact].
    - Termination: [mutation_ends], [service_started_at_most_once], and the
      lemmas [read_message_enough] and [observe_returns] of the observer;
      [legacy_action_classified] includes that the action returns.

    ** Fuel

    The loops on a deadline take fuel, and [None] means it ran out.  The
    exchange of the client ends with one turn per byte that a response may
    have (65537) and one per interrupted call; the polls of the service start
    with 202 turns (fifteen seconds at 100 ms, five at 25 ms); the release poll
    with one per 10 ms ([release_poll_returns]); the reader of the observer takes one turn per byte of
    its largest message, its callback loop 3066 (64 connections, and fifteen
    seconds at 5 ms); the socket backend one per 2 ms of its timeout, one per byte
    of the longest reply and one per interrupted call ([legacy_fuel]); these are
    theorems.  The discovery window of [BluezIo]
    needs none: how many events [select!] delivers before its timer branch is
    the stack's choice ([select_turns]), and the loop is structural in it.  The accept loop runs until it is
    asked to stop: from some fuel on its result no longer changes, if a
    termination signal comes at some time ([service_process_ends]).

    ** Not modelled

    Time is an integer of nanoseconds that the world provides; threads are not
    modelled, because the service has one.  Third-party code is a parameter:
    serde_json, roxmltree, ureq and OpenSSL, the kernel, bluetoothd and
    systemd.  Zeroizing,
    logging and the redacted [Debug] texts are left out.  The parts of the
    assembled service each own a part of the host: what one does to the
    Bluetooth stack is not seen by another.  The signals that arrive between two
    polls of the flag are delivered at the poll.  The drop of the actor when
    [run_service] returns is not a part of that function; it is
    [native_actor_drop].  Of the items compiled with the tests only, the
    socket backend, the journal in memory and their constructors are modelled;
    the tests themselves and their fault injection are not.

    ** Open

    The interplay of the two Bluetooth transports on one stack, and of the
    client's probe with the backend's client on one speaker, would need one
    stack that both parts share. *)
From stdpp Require Export base tactics option list gmap numbers strings.
From Stdlib Require Export Lia.

(** * Rust results *)

(** [Result<T, E>]. *)
Inductive result (T E : Type) : Type :=
| Ok (value : T)
| Err (error : E).
Arguments Ok {T E} value.
Arguments Err {T E} error.

#[global] Instance result_eq_dec {T E} `{EqDecision T, EqDecision E} :
  EqDecision (result T E).
Proof. solve_decision. Defined.

Declare Scope rust_scope.
Delimit Scope rust_scope with rust.

(** The [?] operator on a pure result: [let? x := m in k]. *)
Notation "'let?' x ':=' m 'in' k" :=
  (match m with Ok x => k | Err e => Err e end)
  (at level 10, x pattern, m at level 100, k at level 200) : rust_scope.

(** The [?] operator on a call that threads a mutable receiver (or any other
    state [s]): [let?! (x, s) := m in k] returns the error together with the
    state the failing call left behind. *)
Notation "'let?!' ( x , s ) ':=' m 'in' k" :=
  (match m with (Ok x, s) => k | (Err e, s) => (Err e, s) end)
  (at level 10, x pattern, s name, m at level 100, k at level 200) : rust_scope.

Open Scope rust_scope.

Definition is_ok {T E} (r : result T E) : bool :=
  match r with Ok _ => true | Err _ => false end.

Definition is_err {T E} (r : result T E) : bool := negb (is_ok r).

(** [Option::ok_or]. *)
Definition ok_or {T E} (o : option T) (e : E) : result T E :=
  match o with Some x => Ok x | None => Err e end.

(** [Result::ok]. *)
Definition result_ok {T E} (r : result T E) : option T :=
  match r with Ok x => Some x | Err _ => None end.

(** [Result::map_err]. *)
Definition map_err {T E F} (f : E -> F) (r : result T E) : result T F :=
  match r with Ok x => Ok x | Err e => Err (f e) end.

(** [Result::map]. *)
Definition map_ok {T U E} (f : T -> U) (r : result T E) : result U E :=
  match r with Ok x => Ok (f x) | Err e => Err e end.

(** * Machine integers *)

Definition u8_max : Z := 255.
Definition u16_max : Z := 65535.
Definition u32_max : Z := 4294967295.
Definition u64_max : Z := 18446744073709551615.

(** [x.saturating_add(1)] on an unsigned type with maximum [m]. *)
Definition saturating_succ (m x : Z) : Z := Z.min (x + 1) m.

(** [checked_add] on an unsigned type with maximum [m]. *)
Definition checked_add (m x y : Z) : option Z :=
  if (x + y <=? m)%Z then Some (x + y)%Z else None.

(** [checked_mul] on an unsigned type with maximum [m]. *)
Definition checked_mul (m x y : Z) : option Z :=
  if (x * y <=? m)%Z then Some (x * y)%Z else None.

(** * Durations and instants *)

(** A [Duration] and an [Instant] count nanoseconds. *)
Definition from_secs (n : Z) : Z := n * 1000000000.
Definition from_millis (n : Z) : Z := n * 1000000.
Definition as_millis (d : Z) : Z := d / 1000000.
Definition duration_max : Z := u64_max * 1000000000 + 999999999.

Lemma saturating_succ_bounds (m x : Z) :
  (0 <= x <= m)%Z -> (0 <= saturating_succ m x <= m)%Z.
Proof. unfold saturating_succ; lia. Qed.

Lemma saturating_succ_lt (m x : Z) :
  (x < m)%Z -> (x < saturating_succ m x)%Z.
Proof. unfold saturating_succ; lia. Qed.

Lemma saturating_succ_le (m x : Z) :
  (x <= m)%Z -> (x <= saturating_succ m x)%Z.
Proof. unfold saturating_succ; lia. Qed.

Create HintDb rust.
#[export] Hint Resolve saturating_succ_bounds saturating_succ_lt saturating_succ_le : rust.

(** * Results, lemmas *)

Lemma ok_or_Ok {T E} (o : option T) (e : E) (x : T) :
  ok_or o e = Ok x <-> o = Some x.
Proof. destruct o; simpl; split; congruence. Qed.

Lemma ok_or_Err {T E} (o : option T) (e e' : E) :
  ok_or o e = Err e' <-> o = None /\ e = e'.
Proof. destruct o; simpl; split; intuition congruence. Qed.

Lemma map_err_Ok {T E F} (f : E -> F) (r : result T E) (x : T) :
  map_err f r = Ok x <-> r = Ok x.
Proof. destruct r; simpl; split; congruence. Qed.

Lemma is_ok_true {T E} (r : result T E) : is_ok r = true <-> exists x, r = Ok x.
Proof. destruct r; simpl; split; [eauto| |done|]; [done|intros [? ?]; done]. Qed.

(** * Tactics *)

(** Case analysis on every [match] and [if] of the goal and the hypotheses,
    discarding the impossible branches. *)
Ltac split_cases :=
  repeat (case_match; simplify_eq/=; try done).

(** The same, looking at one hypothesis only. *)
Ltac split_cases_in H :=
  repeat (match type of H with
          | context [match ?x with _ => _ end] =>
              let E := fresh "E" in destruct x eqn:E; simplify_eq/=; try done
          end).

(** Turns boolean connectives and comparisons in hypotheses into propositions. *)
Ltac bool_hyps :=
  repeat match goal with
  | H : _ && _ = true |- _ => apply andb_true_iff in H as [? ?]
  | H : _ || _ = false |- _ => apply orb_false_iff in H as [? ?]
  | H : negb _ = true |- _ => apply negb_true_iff in H
  | H : negb _ = false |- _ => apply negb_false_iff in H
  | H : bool_decide _ = true |- _ => apply bool_decide_eq_true in H
  | H : bool_decide _ = false |- _ => apply bool_decide_eq_false in H
  | H : (_ =? _)%Z = true |- _ => apply Z.eqb_eq in H
  | H : (_ =? _)%Z = false |- _ => apply Z.eqb_neq in H
  | H : (_ <=? _)%Z = true |- _ => apply Z.leb_le in H
  | H : (_ <=? _)%Z = false |- _ => apply Z.leb_gt in H
  | H : (_ <? _)%Z = true |- _ => apply Z.ltb_lt in H
  | H : (_ <? _)%Z = false |- _ => apply Z.ltb_ge in H
  | H : (_ =? _)%nat = true |- _ => apply Nat.eqb_eq in H
  | H : (_ =? _)%nat = false |- _ => apply Nat.eqb_neq in H
  | H : (_ <=? _)%nat = true |- _ => apply Nat.leb_le in H
  | H : (_ <=? _)%nat = false |- _ => apply Nat.leb_gt in H
  | H : (_ <? _)%nat = true |- _ => apply Nat.ltb_lt in H
  | H : (_ <? _)%nat = false |- _ => apply Nat.ltb_ge in H
  end.
