(* ===== verification/Bytes.v ===== *)
(** Byte strings and the operations of Rust's [str], [[u8]] and integer types
    that the program uses on them: searching and splitting, trimming, ASCII
    case, decimal and hexadecimal text, little-endian integers and UTF-8
    validity.  A byte is an [ascii] (eight bits), [&str] and [&[u8]] are lists
    of bytes.  These definitions model the standard library, so no file of the
    program maps to them; every parser of the development is built on them. *)
From Stdlib Require Import Ascii.
From S2P Require Import Prelude.

Abbreviation byte := ascii (only parsing).
Abbreviation bytes := (list ascii) (only parsing).

(** The value of a byte and the byte of a value ([as u8] truncates). *)
Definition b2z (c : byte) : Z := Z.of_N (N_of_ascii c).
Definition z2b (z : Z) : byte := ascii_of_N (Z.to_N (z mod 256)).

(** String literals as byte strings. *)
Definition str (s : String.string) : bytes := String.list_ascii_of_string s.
#[global] Arguments str : simpl never.
Coercion str : String.string >-> list.

Definition CR : byte := z2b 13.
Definition LF : byte := z2b 10.
Definition TAB : byte := z2b 9.
Definition SP : byte := z2b 32.
Definition DQUOTE : byte := z2b 34.
Definition CRLF : bytes := [CR; LF].

Definition in_range (lo hi : Z) (c : byte) : bool :=
  (lo <=? b2z c)%Z && (b2z c <=? hi)%Z.

(** * Classification of bytes *)

Definition is_ascii_digit (c : byte) : bool := in_range 48 57 c.
Definition is_ascii_uppercase (c : byte) : bool := in_range 65 90 c.
Definition is_ascii_lowercase (c : byte) : bool := in_range 97 122 c.
Definition is_ascii_alphanumeric (c : byte) : bool :=
  is_ascii_digit c || is_ascii_uppercase c || is_ascii_lowercase c.
Definition is_ascii_hexdigit (c : byte) : bool :=
  is_ascii_digit c || in_range 65 70 c || in_range 97 102 c.
Definition is_ascii_graphic (c : byte) : bool := in_range 33 126 c.
(** [u8::is_ascii_whitespace]: space, tab, line feed, form feed, return. *)
Definition is_ascii_whitespace (c : byte) : bool :=
  bool_decide (c = SP \/ c = TAB \/ c = LF \/ c = z2b 12 \/ c = CR).

Definition to_ascii_lowercase1 (c : byte) : byte :=
  if is_ascii_uppercase c then z2b (b2z c + 32) else c.
Definition to_ascii_lowercase (s : bytes) : bytes := map to_ascii_lowercase1 s.
Definition eq_ignore_ascii_case (a b : bytes) : bool :=
  bool_decide (to_ascii_lowercase a = to_ascii_lowercase b).

(** * Prefixes, suffixes, searching *)

Fixpoint strip_prefix (p s : bytes) : option bytes :=
  match p, s with
  | [], _ => Some s
  | c :: p', d :: s' => if decide (c = d) then strip_prefix p' s' else None
  | _ :: _, [] => None
  end.

Definition starts_with (p s : bytes) : bool :=
  match strip_prefix p s with Some _ => true | None => false end.

Definition strip_suffix (p s : bytes) : option bytes :=
  reverse <$> strip_prefix (reverse p) (reverse s).

Definition ends_with (p s : bytes) : bool :=
  match strip_suffix p s with Some _ => true | None => false end.

Definition contains_byte (c : byte) (s : bytes) : bool :=
  existsb (fun d => bool_decide (c = d)) s.

(** [haystack.windows(needle.len()).position(|w| w == needle)], for a
    non-empty needle. *)
Fixpoint find_subslice (haystack needle : bytes) : option nat :=
  if starts_with needle haystack then Some 0
  else match haystack with
       | [] => None
       | _ :: t => S <$> find_subslice t needle
       end.

(** [s.split("\r\n")]: always at least one piece. *)
Fixpoint split_crlf (s : bytes) : list bytes :=
  match s with
  | [] => [[]]
  | c :: t =>
      match t with
      | d :: t' =>
          if decide (c = CR /\ d = LF) then [] :: split_crlf t'
          else match split_crlf t with
               | piece :: rest => (c :: piece) :: rest
               | [] => [[c]]
               end
      | [] => [[c]]
      end
  end.

(** [s.split(c)]: always at least one piece. *)
Fixpoint split_byte (sep : byte) (s : bytes) : list bytes :=
  match s with
  | [] => [[]]
  | c :: t =>
      if decide (c = sep) then [] :: split_byte sep t
      else match split_byte sep t with
           | piece :: rest => (c :: piece) :: rest
           | [] => [[c]]
           end
  end.

(** [s.split_once(c)]. *)
Fixpoint split_once (sep : byte) (s : bytes) : option (bytes * bytes) :=
  match s with
  | [] => None
  | c :: t =>
      if decide (c = sep) then Some ([], t)
      else match split_once sep t with
           | Some (a, b) => Some (c :: a, b)
           | None => None
           end
  end.

(** [s.rsplit_once(c)]. *)
Definition rsplit_once (sep : byte) (s : bytes) : option (bytes * bytes) :=
  match split_once sep (reverse s) with
  | Some (a, b) => Some (reverse b, reverse a)
  | None => None
  end.

(** * Trimming *)

Fixpoint trim_start_matches (p : byte -> bool) (s : bytes) : bytes :=
  match s with
  | c :: t => if p c then trim_start_matches p t else s
  | [] => []
  end.

Definition trim_end_matches (p : byte -> bool) (s : bytes) : bytes :=
  reverse (trim_start_matches p (reverse s)).

Definition trim_matches (p : byte -> bool) (s : bytes) : bytes :=
  trim_end_matches p (trim_start_matches p s).

(** The pattern [[' ', '\t']]. *)
Definition is_blank (c : byte) : bool := bool_decide (c = SP \/ c = TAB).

(** One leading character of the Unicode property White_Space, as the bytes
    that encode it in UTF-8. *)
Definition strip_white (s : bytes) : option bytes :=
  match map b2z (take 3 s) with
  | a :: rest =>
      if ((9 <=? a) && (a <=? 13) || (a =? 32))%Z then Some (drop 1 s)
      else match rest with
           | b :: rest' =>
               if ((a =? 0xC2) && ((b =? 0x85) || (b =? 0xA0)))%Z then Some (drop 2 s)
               else match rest' with
                    | c :: _ =>
                        if ((a =? 0xE1) && (b =? 0x9A) && (c =? 0x80)
                            || (a =? 0xE2) && (b =? 0x80) &&
                               ((0x80 <=? c) && (c <=? 0x8A)
                                || (c =? 0xA8) || (c =? 0xA9) || (c =? 0xAF))
                            || (a =? 0xE2) && (b =? 0x81) && (c =? 0x9F)
                            || (a =? 0xE3) && (b =? 0x80) && (c =? 0x80))%Z
                        then Some (drop 3 s) else None
                    | [] => None
                    end
           | [] => None
           end
  | [] => None
  end.

(** One trailing White_Space character, on the reversed bytes. *)
Definition strip_white_rev (r : bytes) : option bytes :=
  match r with
  | c :: r1 =>
      match strip_white [c] with
      | Some _ => Some r1
      | None =>
          match r1 with
          | b :: r2 =>
              match strip_white [b; c] with
              | Some [] => Some r2
              | _ =>
                  match r2 with
                  | a :: r3 =>
                      match strip_white [a; b; c] with
                      | Some [] => Some r3
                      | _ => None
                      end
                  | [] => None
                  end
              end
          | [] => None
          end
      end
  | [] => None
  end.

Fixpoint strip_all (step : bytes -> option bytes) (fuel : nat) (s : bytes) : bytes :=
  match fuel with
  | O => s
  | S f => match step s with Some s' => strip_all step f s' | None => s end
  end.

(** [str::trim]: White_Space characters removed at both ends.  Every step
    removes at least one byte, so the length is enough fuel. *)
Definition trim (s : bytes) : bytes :=
  let s1 := strip_all strip_white (length s) s in
  reverse (strip_all strip_white_rev (length s1) (reverse s1)).

(** * Decimal text *)

Definition digit_value (c : byte) : Z := b2z c - 48.
Definition digit_byte (d : Z) : byte := z2b (48 + d).

Definition dec_value (s : bytes) : Z :=
  fold_left (fun acc c => acc * 10 + digit_value c)%Z s 0%Z.

(** [s.parse()] into an unsigned type with maximum [m], for a text the caller
    has checked to be non-empty ASCII digits: the only failure left is
    overflow. *)
Definition parse_digits (m : Z) (s : bytes) : option Z :=
  if (dec_value s <=? m)%Z then Some (dec_value s) else None.

(** [s.parse()] into an unsigned type with maximum [m], on any text: a leading
    plus sign is accepted, the rest must be one digit or more. *)
Definition parse_unsigned (m : Z) (s : bytes) : option Z :=
  let digits := match strip_prefix (str "+") s with Some t => t | None => s end in
  if bool_decide (digits = []) || negb (forallb is_ascii_digit digits) then None
  else parse_digits m digits.

(** [format!("{n}")].  Twenty digits hold every [u64]. *)
Fixpoint dec_go (fuel : nat) (n : Z) (acc : bytes) : bytes :=
  match fuel with
  | O => acc
  | S f =>
      let acc' := digit_byte (n mod 10) :: acc in
      if (n <? 10)%Z then acc' else dec_go f (n / 10) acc'
  end.
Definition dec (n : Z) : bytes := dec_go 20 n [].

(** * Hexadecimal text *)

Definition hex_digit_lower (d : Z) : byte :=
  if (d <? 10)%Z then z2b (48 + d) else z2b (87 + d).
Definition hex_digit_upper (d : Z) : byte :=
  if (d <? 10)%Z then z2b (48 + d) else z2b (55 + d).
(** [format!("{byte:02x}")] and [format!("{byte:02X}")]. *)
Definition hex_lower (c : byte) : bytes :=
  [hex_digit_lower (b2z c / 16); hex_digit_lower (b2z c mod 16)].
Definition hex_upper (c : byte) : bytes :=
  [hex_digit_upper (b2z c / 16); hex_digit_upper (b2z c mod 16)].

(** * Little-endian 16-bit integers *)

(** [u16::to_le_bytes] and [u16::from_le_bytes]. *)
Definition u16_to_le_bytes (n : Z) : bytes :=
  [z2b (Z.land n 0xFF); z2b (Z.shiftr n 8)].
Definition u16_from_le_bytes (low high : byte) : Z :=
  Z.lor (b2z low) (Z.shiftl (b2z high) 8).

(** * UTF-8 validity ([str::from_utf8]) *)

Definition utf8_tail (c : byte) : bool := in_range 0x80 0xBF c.

(** The bytes left after one well-formed character (RFC 3629). *)
Definition utf8_char (s : bytes) : option bytes :=
  match s with
  | [] => None
  | a :: t =>
      if in_range 0 0x7F a then Some t
      else match t with
      | b :: t1 =>
          if in_range 0xC2 0xDF a then (if utf8_tail b then Some t1 else None)
          else match t1 with
          | c :: t2 =>
              if in_range 0xE0 0xE0 a && in_range 0xA0 0xBF b && utf8_tail c
                 || in_range 0xE1 0xEC a && utf8_tail b && utf8_tail c
                 || in_range 0xED 0xED a && in_range 0x80 0x9F b && utf8_tail c
                 || in_range 0xEE 0xEF a && utf8_tail b && utf8_tail c
              then Some t2
              else match t2 with
              | d :: t3 =>
                  if in_range 0xF0 0xF0 a && in_range 0x90 0xBF b && utf8_tail c && utf8_tail d
                     || in_range 0xF1 0xF3 a && utf8_tail b && utf8_tail c && utf8_tail d
                     || in_range 0xF4 0xF4 a && in_range 0x80 0x8F b && utf8_tail c && utf8_tail d
                  then Some t3 else None
              | [] => None
              end
          | [] => None
          end
      | [] => None
      end
  end.

Fixpoint utf8_go (fuel : nat) (s : bytes) : bool :=
  match s, fuel with
  | [], _ => true
  | _ :: _, O => false
  | _ :: _, S f => match utf8_char s with Some t => utf8_go f t | None => false end
  end.
(** Every character takes at least one byte, so the length is enough fuel. *)
Definition utf8_valid (s : bytes) : bool := utf8_go (length s) s.

(** * Lemmas: bytes and their values *)

Lemma b2z_bounds (c : byte) : (0 <= b2z c < 256)%Z.
Proof. unfold b2z. pose proof (N_ascii_bounded c). lia. Qed.

Lemma z2b_b2z (c : byte) : z2b (b2z c) = c.
Proof.
  unfold z2b. rewrite Z.mod_small by apply b2z_bounds.
  unfold b2z. by rewrite N2Z.id, ascii_N_embedding.
Qed.

Lemma b2z_z2b (z : Z) : (0 <= z < 256)%Z -> b2z (z2b z) = z.
Proof.
  intros. unfold z2b. rewrite Z.mod_small by done. unfold b2z.
  rewrite N_ascii_embedding by lia. lia.
Qed.

#[global] Instance b2z_inj : Inj (=) (=) b2z.
Proof. intros x y H. by rewrite <- (z2b_b2z x), H, z2b_b2z. Qed.

Lemma in_range_spec (lo hi : Z) (c : byte) :
  in_range lo hi c = true <-> (lo <= b2z c <= hi)%Z.
Proof. unfold in_range. rewrite andb_true_iff, !Z.leb_le. done. Qed.

(** A boolean property of every byte, decided by running it on all 256. *)
Definition all_bytes : bytes := map (fun n => z2b (Z.of_nat n)) (seq 0 256).

Lemma all_bytes_complete (c : byte) : In c all_bytes.
Proof.
  pose proof (b2z_bounds c). unfold all_bytes. apply in_map_iff.
  exists (Z.to_nat (b2z c)). split.
  - rewrite Z2Nat.id by lia. apply z2b_b2z.
  - apply in_seq. lia.
Qed.

Lemma forall_bytes (p : byte -> bool) : forallb p all_bytes = true -> forall c, p c = true.
Proof. rewrite forallb_forall. eauto using all_bytes_complete. Qed.

Lemma forall_bytes_eq {A} `{EqDecision A} (f g : byte -> A) :
  forallb (fun c => bool_decide (f c = g c)) all_bytes = true -> forall c, f c = g c.
Proof.
  intros Hall c. apply (forall_bytes _) with (c := c) in Hall.
  by apply bool_decide_eq_true in Hall.
Qed.

(** Proves a closed equation about one byte by evaluation. *)
Ltac by_all_bytes_eq c :=
  revert c;
  match goal with |- forall c, @?f c = @?g c =>
    apply (forall_bytes_eq f g); vm_compute; reflexivity end.

(** Proves a closed statement about one byte by evaluation: the goal must be a
    boolean equation over the byte [c]. *)
Ltac by_all_bytes c :=
  revert c;
  match goal with |- forall c, @?p c = true =>
    apply (forall_bytes p); vm_compute; reflexivity end.

(** * Lemmas: prefixes and searching *)

Lemma strip_prefix_app (p s : bytes) : strip_prefix p (p ++ s) = Some s.
Proof. induction p; simpl; [done|]. by rewrite decide_True. Qed.

Lemma strip_prefix_Some (p s t : bytes) : strip_prefix p s = Some t <-> s = p ++ t.
Proof.
  split; [|intros ->; apply strip_prefix_app].
  revert s. induction p as [|c p IH]; intros [|d s]; simpl; try congruence.
  case_decide; [subst|done]. intros H. by rewrite (IH _ H).
Qed.

Lemma starts_with_true (p s : bytes) : starts_with p s = true <-> exists t, s = p ++ t.
Proof.
  unfold starts_with. destruct (strip_prefix p s) as [t|] eqn:E.
  - apply strip_prefix_Some in E. split; eauto.
  - split; [done|]. intros [t ->]. by rewrite strip_prefix_app in E.
Qed.

Lemma strip_suffix_app (p s : bytes) : strip_suffix p (s ++ p) = Some s.
Proof.
  unfold strip_suffix. rewrite reverse_app, strip_prefix_app. simpl.
  by rewrite reverse_involutive.
Qed.

Lemma strip_suffix_Some (p s t : bytes) : strip_suffix p s = Some t <-> s = t ++ p.
Proof.
  split; [|intros ->; apply strip_suffix_app].
  unfold strip_suffix. destruct (strip_prefix _ _) as [r|] eqn:E; simpl; [|done].
  intros [= <-]. apply strip_prefix_Some in E.
  rewrite <- (reverse_involutive s), E, reverse_app, reverse_involutive. done.
Qed.

Lemma find_subslice_Some (h n : bytes) (i : nat) :
  find_subslice h n = Some i -> exists t, h = take i h ++ n ++ t /\ length (take i h) = i.
Proof.
  revert i. induction h as [|c h IH]; intros i; cbn [find_subslice].
  - destruct (starts_with n []) eqn:E; [|done]. intros [= <-].
    apply starts_with_true in E as [t ->]. eauto.
  - destruct (starts_with n (c :: h)) eqn:E.
    + intros [= <-]. apply starts_with_true in E as [t ->]. eauto.
    + destruct (find_subslice h n) as [j|] eqn:F; [|done]. intros [= <-].
      destruct (IH j eq_refl) as (t & Ht & Hl). exists t. simpl. by rewrite <- Ht, Hl.
Qed.

Lemma find_subslice_length (h n : bytes) (i : nat) :
  find_subslice h n = Some i -> i + length n <= length h.
Proof.
  intros (t & Ht & Hl)%find_subslice_Some. rewrite Ht, !length_app, Hl. lia.
Qed.

(** A match found in a buffer stays the first match when bytes are appended. *)
Lemma find_subslice_extend (h n t : bytes) (i : nat) :
  find_subslice h n = Some i -> find_subslice (h ++ t) n = Some i.
Proof.
  revert i. induction h as [|c h IH]; intros i; cbn [find_subslice app].
  - destruct (starts_with n []) eqn:E; [|done]. intros [= <-].
    apply starts_with_true in E as [u E]. symmetry in E. apply app_eq_nil in E as [-> ->].
    destruct t; done.
  - destruct (starts_with n (c :: h)) eqn:E.
    + intros [= <-]. apply starts_with_true in E as [u E].
      assert (starts_with n (c :: h ++ t) = true) as ->; [|done].
      apply starts_with_true. exists (u ++ t). rewrite app_comm_cons, E. by rewrite app_assoc.
    + destruct (find_subslice h n) as [j|] eqn:F; [|done]. intros [= <-].
      assert (starts_with n (c :: h ++ t) = false) as ->; [|by rewrite (IH j)].
      apply not_true_iff_false. intros [u Hu]%starts_with_true.
      apply find_subslice_length in F.
      assert (starts_with n (c :: h) = true); [|congruence].
      apply starts_with_true. exists (take (length (c :: h) - length n) u).
      assert (Hc : c :: h = take (length (c :: h)) (c :: h ++ t))
        by (simpl; f_equal; symmetry; apply take_app_length).
      rewrite Hc at 1. rewrite Hu. rewrite take_app, take_ge by (simpl; lia). done.
Qed.

(** * Lemmas: trimming *)

Lemma strip_all_length (step : bytes -> option bytes) fuel s :
  (forall x y, step x = Some y -> length y < length x) ->
  length (strip_all step fuel s) = length s -> strip_all step fuel s = s.
Proof.
  intros Hstep.
  assert (Hle : forall f x, length (strip_all step f x) <= length x).
  { induction f as [|f IH]; intros x; simpl; [done|].
    destruct (step x) eqn:E; [|done]. apply Hstep in E. specialize (IH l). lia. }
  destruct fuel as [|f]; simpl; [done|].
  destruct (step s) eqn:E; [|done]. apply Hstep in E. specialize (Hle f l). lia.
Qed.

Lemma strip_all_le (step : bytes -> option bytes) fuel s :
  (forall x y, step x = Some y -> length y < length x) ->
  length (strip_all step fuel s) <= length s.
Proof.
  intros Hstep. revert s. induction fuel as [|f IH]; intros s; simpl; [done|].
  destruct (step s) eqn:E; [|done]. apply Hstep in E. specialize (IH l). lia.
Qed.

Lemma strip_white_shorter x y : strip_white x = Some y -> length y < length x.
Proof.
  unfold strip_white. destruct x as [|a [|b [|c x]]]; simpl; intros;
    repeat case_match; simplify_eq/=; rewrite ?drop_0; lia.
Qed.

Lemma strip_white_rev_shorter x y : strip_white_rev x = Some y -> length y < length x.
Proof.
  unfold strip_white_rev. destruct x as [|a [|b [|c x]]]; simpl; intros;
    repeat case_match; simplify_eq/=; lia.
Qed.

(** A text that trimming does not shorten is not changed by it. *)
Lemma trim_same_length s : length (trim s) = length s -> trim s = s.
Proof.
  unfold trim. cbv zeta. rewrite length_reverse. intros Hl.
  set (s1 := strip_all strip_white (length s) s) in *.
  pose proof (strip_all_le strip_white (length s) s strip_white_shorter) as L1.
  pose proof (strip_all_le strip_white_rev (length s1) (reverse s1) strip_white_rev_shorter) as L2.
  fold s1 in L1. rewrite length_reverse in L2.
  rewrite (strip_all_length _ _ (reverse s1) strip_white_rev_shorter)
    by (rewrite length_reverse; lia).
  rewrite reverse_involutive. apply strip_all_length; [apply strip_white_shorter|].
  fold s1. lia.
Qed.

Lemma strip_white_graphic c x : is_ascii_graphic c = true -> strip_white (c :: x) = None.
Proof.
  intros Hc%in_range_spec. unfold strip_white. simpl.
  repeat case_match; try done; bool_hyps; lia.
Qed.

Lemma strip_white_rev_graphic c x :
  is_ascii_graphic c = true -> strip_white_rev (c :: x) = None.
Proof.
  intros Hc. pose proof Hc as Hr%in_range_spec. unfold strip_white_rev.
  rewrite strip_white_graphic by done.
  destruct x as [|b [|a x]]; [done| |];
    unfold strip_white; simpl; repeat case_match; simplify_eq/=; try done; bool_hyps;
    repeat match goal with H : _ || _ = true |- _ => apply orb_true_iff in H as [?|?]; bool_hyps end;
    try lia; done.
Qed.

(** A text of graphic ASCII bytes is its own trimming. *)
Lemma trim_graphic s : forallb is_ascii_graphic s = true -> trim s = s.
Proof.
  intros Hs. unfold trim.
  assert (strip_all strip_white (length s) s = s) as ->.
  { destruct s as [|c s]; [done|]. simpl in Hs |- *. apply andb_true_iff in Hs as [Hc _].
    by rewrite strip_white_graphic. }
  destruct (reverse s) as [|c r] eqn:E.
  - apply (f_equal reverse) in E. rewrite reverse_involutive in E. by subst.
  - assert (Hc : is_ascii_graphic c = true).
    { rewrite forallb_forall in Hs. apply Hs, list_elem_of_In.
      rewrite <- (reverse_involutive s), E, elem_of_reverse. by left. }
    assert (strip_all strip_white_rev (length s) (c :: r) = c :: r) as ->.
    { destruct s; cbn [length strip_all]; [done|]. by rewrite strip_white_rev_graphic. }
    rewrite <- E. apply reverse_involutive.
Qed.

Lemma length_to_ascii_lowercase s : length (to_ascii_lowercase s) = length s.
Proof. apply length_map. Qed.

Lemma to_ascii_lowercase1_idem c :
  to_ascii_lowercase1 (to_ascii_lowercase1 c) = to_ascii_lowercase1 c.
Proof. by_all_bytes_eq c. Qed.

Lemma to_ascii_lowercase_idem s : to_ascii_lowercase (to_ascii_lowercase s) = to_ascii_lowercase s.
Proof. induction s; simpl; [done|]. by rewrite to_ascii_lowercase1_idem, IHs. Qed.

Lemma trim_le s : length (trim s) <= length s.
Proof.
  unfold trim. cbv zeta. rewrite length_reverse.
  etransitivity; [apply strip_all_le, strip_white_rev_shorter|].
  rewrite length_reverse. apply strip_all_le, strip_white_shorter.
Qed.

(** * Lemmas: decimal text *)

Lemma digit_value_byte d : (0 <= d < 10)%Z -> digit_value (digit_byte d) = d.
Proof. intros. unfold digit_value, digit_byte. rewrite b2z_z2b; lia. Qed.

Lemma digit_byte_value c : is_ascii_digit c = true -> digit_byte (digit_value c) = c.
Proof.
  intros _. unfold digit_value, digit_byte. replace (48 + (b2z c - 48))%Z with (b2z c) by lia.
  apply z2b_b2z.
Qed.

Lemma digit_value_bounds c : is_ascii_digit c = true -> (0 <= digit_value c < 10)%Z.
Proof. intros H%in_range_spec. unfold digit_value. lia. Qed.

Lemma digit_byte_digit d : (0 <= d < 10)%Z -> is_ascii_digit (digit_byte d) = true.
Proof. intros. apply in_range_spec. unfold digit_byte. rewrite b2z_z2b; lia. Qed.

Lemma dec_value_snoc s c : dec_value (s ++ [c]) = (dec_value s * 10 + digit_value c)%Z.
Proof. unfold dec_value. by rewrite fold_left_app. Qed.

Lemma dec_value_from_bounds s acc k :
  forallb is_ascii_digit s = true -> (k <= acc)%Z -> (0 <= k)%Z ->
  (k <= fold_left (fun acc c => acc * 10 + digit_value c) s acc)%Z.
Proof.
  revert acc. induction s as [|c s IH]; simpl; intros acc; [done|].
  intros [Hc%digit_value_bounds Hs]%andb_true_iff ? ?. apply IH; [done|lia|done].
Qed.

Lemma dec_value_nonneg s : forallb is_ascii_digit s = true -> (0 <= dec_value s)%Z.
Proof. intros. by apply dec_value_from_bounds. Qed.

(** The form [format!] produces: digits, no leading zero. *)
Record canonical_decimal (s : bytes) : Prop := {
  cd_some : s <> [];
  cd_digits : forallb is_ascii_digit s = true;
  cd_lead : 1 < length s -> starts_with (str "0") s = false;
}.

Lemma canonical_snoc s c :
  canonical_decimal (s ++ [c]) ->
  is_ascii_digit c = true /\ (s = [] \/ canonical_decimal s /\ (1 <= dec_value s)%Z).
Proof.
  intros [_ Hd Hl]. rewrite forallb_app in Hd. apply andb_true_iff in Hd as [Hd Hc].
  simpl in Hc. rewrite andb_true_r in Hc. split; [done|].
  destruct s as [|a s]; [by left|right].
  assert (Ha : starts_with (str "0") (a :: s) = false).
  { destruct (starts_with (str "0") (a :: s)) eqn:E; [|done].
    rewrite <- Hl by (rewrite length_app; simpl; lia).
    symmetry. apply starts_with_true in E as [t E]. apply starts_with_true.
    exists (t ++ [c]). rewrite E. by rewrite app_assoc. }
  split; [by split|]. pose proof Hd as Hd'. simpl in Hd'. apply andb_true_iff in Hd' as [Hda Hds].
  unfold dec_value. simpl. apply dec_value_from_bounds; [done| |lia].
  pose proof (digit_value_bounds a Hda). assert (digit_value a <> 0%Z); [|lia].
  intros E. assert (a = z2b 48) as ->.
  { rewrite <- (digit_byte_value a Hda), E. done. }
  done.
Qed.

Lemma dec_go_app fuel n acc : dec_go fuel n acc = dec_go fuel n [] ++ acc.
Proof.
  revert n acc. induction fuel as [|fuel IH]; intros n acc; cbn [dec_go]; [done|].
  destruct (n <? 10)%Z; [done|]. rewrite IH, (IH _ [_]), <- app_assoc. done.
Qed.

Lemma canonical_length fuel s :
  canonical_decimal s -> (dec_value s < 10 ^ Z.of_nat fuel)%Z -> 0 < fuel -> length s <= fuel.
Proof.
  revert fuel. induction s as [|c s IH] using rev_ind; intros fuel Hs Hv Hf; [by destruct Hs|].
  apply canonical_snoc in Hs as [Hc Hs]. rewrite length_app. simpl. destruct Hs as [->|[Hs Hp]].
  - simpl. lia.
  - rewrite dec_value_snoc in Hv. apply digit_value_bounds in Hc.
    destruct fuel as [|[|fuel]]; [lia|simpl in Hv; lia|].
    rewrite Nat2Z.inj_succ, Z.pow_succ_r in Hv by lia.
    specialize (IH (S fuel) Hs). lia.
Qed.

Lemma dec_go_value fuel s :
  canonical_decimal s -> length s <= fuel -> dec_go fuel (dec_value s) [] = s.
Proof.
  revert fuel. induction s as [|c s IH] using rev_ind; intros fuel Hs Hf; [by destruct Hs|].
  apply canonical_snoc in Hs as [Hc Hs]. rewrite dec_value_snoc.
  pose proof (digit_value_bounds c Hc). rewrite length_app in Hf. simpl in Hf.
  destruct fuel as [|fuel]; [lia|]. cbn [dec_go].
  rewrite Z.add_comm, Z.mod_add, Z.mod_small, digit_byte_value by (done || lia).
  destruct Hs as [->|[Hs Hp]].
  - change (dec_value []) with 0%Z. simpl. rewrite (proj2 (Z.ltb_lt _ _)) by lia. done.
  - rewrite (proj2 (Z.ltb_ge _ _)) by lia. rewrite Z.div_add, Z.div_small by lia.
    rewrite dec_go_app. simpl. rewrite IH by (done || lia). done.
Qed.

Lemma dec_go_canonical fuel n :
  (0 <= n < 10 ^ Z.of_nat fuel)%Z -> 0 < fuel ->
  canonical_decimal (dec_go fuel n []) /\ dec_value (dec_go fuel n []) = n /\
  ((1 <= n)%Z -> starts_with (str "0") (dec_go fuel n []) = false).
Proof.
  revert n. induction fuel as [|fuel IH]; intros n Hn Hf; [lia|]. cbn [dec_go].
  destruct (n <? 10)%Z eqn:G; bool_hyps.
  - rewrite Z.mod_small by lia. split_and!.
    + split; [done|simpl; by rewrite digit_byte_digit by lia|simpl; lia].
    + unfold dec_value. simpl. rewrite digit_value_byte; lia.
    + intros H1. destruct (starts_with _ _) eqn:E; [|done]. exfalso.
      apply starts_with_true in E as [t E]. injection E as E _.
      apply (f_equal digit_value) in E. rewrite digit_value_byte in E by lia.
      change (digit_value _) with 0%Z in E. lia.
  - rewrite Nat2Z.inj_succ, Z.pow_succ_r in Hn by lia.
    assert (Hf' : 0 < fuel) by (destruct fuel; [simpl in Hn; lia|lia]).
    assert (Hq : (0 <= n / 10 < 10 ^ Z.of_nat fuel)%Z).
    { split; [apply Z.div_pos; lia|apply Z.div_lt_upper_bound; lia]. }
    assert (H1 : (1 <= n / 10)%Z) by (apply Z.div_le_lower_bound; lia).
    destruct (IH (n / 10)%Z Hq Hf') as (C & V & L). specialize (L H1).
    rewrite dec_go_app. pose proof (Z.mod_pos_bound n 10 ltac:(lia)).
    assert (Hst : starts_with (str "0")
      (dec_go fuel (n / 10) [] ++ [digit_byte (n mod 10)]) = false).
    { destruct C as [Hne _ _]. destruct (dec_go fuel (n / 10) []) as [|a s]; [done|].
      revert L. unfold starts_with. cbn [strip_prefix str app]. simpl.
      destruct (decide _); done. }
    split_and!; [split|  |done].
    + by destruct (dec_go fuel (n / 10) []).
    + rewrite forallb_app, (cd_digits _ C). simpl. by rewrite digit_byte_digit by lia.
    + done.
    + rewrite dec_value_snoc, V, digit_value_byte by lia. pose proof (Z.div_mod n 10). lia.
Qed.

(** [dec] writes and [parse_digits] reads the same canonical texts. *)
Lemma u64_max_digits : (u64_max < 10 ^ Z.of_nat 20)%Z.
Proof. done. Qed.

Lemma dec_canonical n :
  (0 <= n <= u64_max)%Z -> canonical_decimal (dec n) /\ dec_value (dec n) = n.
Proof.
  intros [Hn Hm]. destruct (dec_go_canonical 20 n) as (C & V & _).
  - split; [done|]. exact (Z.le_lt_trans _ _ _ Hm u64_max_digits).
  - apply Nat.lt_0_succ.
  - by split.
Qed.

Lemma canonical_is_dec s :
  canonical_decimal s -> (dec_value s <= u64_max)%Z -> s = dec (dec_value s).
Proof.
  intros C Hv. symmetry. apply dec_go_value; [done|].
  apply canonical_length; [done| |apply Nat.lt_0_succ].
  exact (Z.le_lt_trans _ _ _ Hv u64_max_digits).
Qed.

(** Distinct literal texts, by computation. *)
Lemma nodup_compute (l : list bytes) : bool_decide (NoDup l) = true -> NoDup l.
Proof. apply bool_decide_eq_true. Qed.

(** * Lemmas: boolean predicates on texts, decimal texts, splitting *)

Lemma by_bytes_impl (p q : byte -> bool) :
  forallb (fun c => negb (p c) || q c) all_bytes = true -> forall c, p c = true -> q c = true.
Proof. intros Hall c Hp. pose proof (forall_bytes _ Hall c) as Hc. simpl in Hc. by rewrite Hp in Hc. Qed.

Lemma forallb_impl {A} (p q : A -> bool) l :
  (forall x, p x = true -> q x = true) -> forallb p l = true -> forallb q l = true.
Proof. intros Hpq. rewrite !forallb_forall. auto. Qed.

Lemma forallb_reverse {A} (p : A -> bool) l : forallb p (reverse l) = forallb p l.
Proof.
  induction l as [|x l IH]; [done|]. rewrite reverse_cons, forallb_app, IH. simpl.
  rewrite andb_true_r. apply andb_comm.
Qed.

Lemma digit_graphic c : is_ascii_digit c = true -> is_ascii_graphic c = true.
Proof. apply by_bytes_impl. by vm_compute. Qed.

Lemma dec_digits n : (0 <= n <= u64_max)%Z -> forallb is_ascii_digit (dec n) = true.
Proof. intros [[_ Hd _] _]%dec_canonical. done. Qed.

Lemma dec_graphic n : (0 <= n <= u64_max)%Z -> forallb is_ascii_graphic (dec n) = true.
Proof. intros Hn. by apply (forallb_impl _ _ _ digit_graphic), dec_digits. Qed.

Lemma parse_unsigned_dec m n :
  (0 <= n <= m)%Z -> (m <= u64_max)%Z -> parse_unsigned m (dec n) = Some n.
Proof.
  intros Hn Hm. pose proof (dec_digits n ltac:(lia)) as Hd.
  destruct (dec_canonical n ltac:(lia)) as [[Hne _ _] Hv].
  unfold parse_unsigned. destruct (strip_prefix (str "+") (dec n)) as [t|] eqn:E.
  - apply strip_prefix_Some in E. by rewrite E in Hd.
  - rewrite bool_decide_eq_false_2, Hd by done. simpl. unfold parse_digits. rewrite Hv.
    by rewrite (proj2 (Z.leb_le n m)) by lia.
Qed.

Lemma split_byte_none sep s :
  forallb (fun c => negb (bool_decide (c = sep))) s = true -> split_byte sep s = [s].
Proof.
  induction s as [|c s IH]; [done|]. cbn [forallb split_byte]. intros [Hc Hs]%andb_true_iff.
  bool_hyps. rewrite decide_False by done. by rewrite IH.
Qed.

Lemma split_byte_app sep s rest :
  forallb (fun c => negb (bool_decide (c = sep))) s = true ->
  split_byte sep (s ++ sep :: rest) = s :: split_byte sep rest.
Proof.
  induction s as [|c s IH]; cbn [forallb split_byte app]; [by rewrite decide_True|].
  intros [Hc Hs]%andb_true_iff. bool_hyps. rewrite decide_False by done. by rewrite IH.
Qed.

Lemma split_once_app sep s rest :
  forallb (fun c => negb (bool_decide (c = sep))) s = true ->
  split_once sep (s ++ sep :: rest) = Some (s, rest).
Proof.
  induction s as [|c s IH]; cbn [forallb split_once app]; [by rewrite decide_True|].
  intros [Hc Hs]%andb_true_iff. bool_hyps. rewrite decide_False by done. by rewrite IH.
Qed.

Lemma split_once_none sep s :
  forallb (fun c => negb (bool_decide (c = sep))) s = true -> split_once sep s = None.
Proof.
  induction s as [|c s IH]; [done|]. cbn [forallb split_once]. intros [Hc Hs]%andb_true_iff.
  bool_hyps. rewrite decide_False by done. by rewrite IH.
Qed.

Lemma rsplit_once_app sep a b :
  forallb (fun c => negb (bool_decide (c = sep))) b = true ->
  rsplit_once sep (a ++ sep :: b) = Some (a, b).
Proof.
  intros Hb. unfold rsplit_once. rewrite reverse_app, reverse_cons, <- app_assoc. cbn [app].
  rewrite split_once_app by (by rewrite forallb_reverse). by rewrite !reverse_involutive.
Qed.

(** * Lemmas: UTF-8 *)

Lemma utf8_char_app s t rest :
  utf8_char s = Some rest -> utf8_char (s ++ t) = Some (rest ++ t).
Proof.
  unfold utf8_char. destruct s as [|a [|b [|c [|d s]]]]; cbn [app]; intros;
    repeat case_match; simplify_eq; done.
Qed.

Lemma utf8_go_more fuel fuel' s :
  utf8_go fuel s = true -> fuel <= fuel' -> utf8_go fuel' s = true.
Proof.
  revert fuel' s. induction fuel as [|f IH]; intros [|f'] [|c s]; cbn [utf8_go]; try done; [lia|].
  case_match; [|done]. intros. apply IH; [done|lia].
Qed.

Lemma utf8_go_app fuel fuel' a b :
  utf8_go fuel a = true -> utf8_go fuel' b = true -> utf8_go (fuel + fuel') (a ++ b) = true.
Proof.
  revert a. induction fuel as [|f IH]; intros [|c a] Ha Hb; cbn [utf8_go] in Ha; try done.
  - eapply utf8_go_more; [exact Hb|lia].
  - destruct (utf8_char (c :: a)) as [rest|] eqn:E; [|done].
    apply (utf8_char_app _ b) in E. cbn [app plus utf8_go] in E |- *. rewrite E. by apply IH.
Qed.

Lemma utf8_valid_app a b :
  utf8_valid a = true -> utf8_valid b = true -> utf8_valid (a ++ b) = true.
Proof. unfold utf8_valid. rewrite length_app. apply utf8_go_app. Qed.

Lemma utf8_valid_concat l :
  Forall (fun s => utf8_valid s = true) l -> utf8_valid (concat l) = true.
Proof. induction 1; [done|]. cbn [concat]. by apply utf8_valid_app. Qed.

Lemma utf8_graphic s : forallb is_ascii_graphic s = true -> utf8_valid s = true.
Proof.
  unfold utf8_valid. induction s as [|c s IH]; [done|]. cbn [forallb length utf8_go utf8_char].
  intros [Hc Hs]%andb_true_iff.
  assert (in_range 0 0x7F c = true) as -> by (revert c Hc; apply by_bytes_impl; by vm_compute).
  by apply IH.
Qed.
