(* ===== verification/Trim.v ===== *)
(** [str::trim] on bytes: a text is white space, its trimming, and white space,
    and the trimming is the only such middle.  Trimming again changes nothing,
    and the trimming of valid UTF-8 is valid. *)
From S2P Require Import Prelude Bytes.

(** * One character of white space *)

Definition white_char (w : bytes) : Prop := strip_white w = Some [].

(** A text that trimming leaves alone. *)
Abbreviation trimmed := (fun v : bytes => trim v = v).

Lemma strip_all_stuck step fuel s : step s = None -> strip_all step fuel s = s.
Proof. intros E. destruct fuel; simpl; [done|]. by rewrite E. Qed.

Lemma strip_white_app s t y : strip_white s = Some y -> strip_white (s ++ t) = Some (y ++ t).
Proof.
  unfold strip_white. destruct s as [|a [|b [|c s]]]; cbn [app map take drop]; intros;
    repeat case_match; simplify_eq/=; rewrite ?drop_0, ?take_0 in *; simplify_eq/=; done.
Qed.

Lemma strip_white_char s y : strip_white s = Some y -> exists w, s = w ++ y /\ white_char w.
Proof.
  unfold white_char, strip_white. intros E.
  destruct s as [|a [|b [|c s]]]; cbn [map take drop] in E; repeat case_match; simplify_eq/=;
    first [exists [a]; simpl; split; [done|]; by repeat case_match
          |exists [a; b]; simpl; split; [done|]; by repeat case_match
          |exists [a; b; c]; simpl; split; [done|]; by repeat case_match].
Qed.

Lemma strip_white_one c y : strip_white [c] = Some y -> y = [].
Proof. unfold strip_white. simpl. case_match; by intros [= <-]. Qed.

Lemma strip_white_rev_char r y :
  strip_white_rev r = Some y -> exists w, r = reverse w ++ y /\ white_char w.
Proof.
  unfold strip_white_rev, white_char. intros E. destruct r as [|c r]; [done|].
  destruct (strip_white [c]) as [z|] eqn:E1.
  { apply strip_white_one in E1 as ?. subst. injection E as ->. by exists [c]. }
  destruct r as [|b r]; [done|].
  destruct (strip_white [b; c]) as [[|? ?]|] eqn:E2; [injection E as ->; by exists [b; c]|..];
    (destruct r as [|d r]; [done|]; destruct (strip_white [d; b; c]) as [[|? ?]|] eqn:E3; try done;
     injection E as ->; by exists [d; b; c]).
Qed.

Lemma byte_of c z : (b2z c =? z)%Z = true -> c = z2b z.
Proof. intros <-%Z.eqb_eq. symmetry. apply z2b_b2z. Qed.

(** A character of white space: its first byte is not a continuation byte of
    UTF-8, the others are, and it is found from either end. *)
Record white_bytes (a : byte) (t : bytes) : Prop := {
  wb_head : utf8_tail a = false;
  wb_tail : forallb utf8_tail t = true;
  wb_utf8 : utf8_char (a :: t) = Some [];
  wb_rev x : strip_white_rev (reverse (a :: t) ++ x) = Some x;
}.

Lemma white_one a : (((9 <=? b2z a) && (b2z a <=? 13) || (b2z a =? 32))%Z) = true -> white_bytes a [].
Proof.
  intros Ha. assert (utf8_tail a = false /\ in_range 0 0x7F a = true) as [Ht Hr].
  { revert a Ha. assert (forall a, ((9 <=? b2z a) && (b2z a <=? 13) || (b2z a =? 32))%Z = true ->
      negb (utf8_tail a) && in_range 0 0x7F a = true) as Hall by (apply by_bytes_impl; by vm_compute).
    intros a Ha%Hall. bool_hyps. done. }
  split; [done..| |].
  - simpl. by rewrite Hr.
  - intros x. change (reverse [a]) with [a]. cbn [app]. unfold strip_white_rev, strip_white. simpl.
    by rewrite Ha.
Qed.

(** Two and three bytes, whose last byte is [c]. *)
Definition last_of_white (front : bytes) (c : byte) : bool :=
  bool_decide (strip_white [c] = None) && utf8_tail c
  && bool_decide (utf8_char (front ++ [c]) = Some [])
  && bool_decide (strip_white (front ++ [c]) = Some []).

Lemma white_two a c :
  last_of_white [a] c = true -> utf8_tail a = false -> white_bytes a [c].
Proof.
  unfold last_of_white. intros Hl Ha. bool_hyps. cbn [app] in *. split; try done.
  - simpl. by rewrite andb_true_r.
  - intros x. change (reverse [a; c]) with [c; a]. cbn [app].
    unfold strip_white_rev. by repeat match goal with E : strip_white _ = _ |- _ => rewrite E; clear E end.
Qed.

Lemma white_three a b c :
  last_of_white [a; b] c = true -> utf8_tail a = false -> utf8_tail b = true ->
  strip_white [b; c] = None -> white_bytes a [b; c].
Proof.
  unfold last_of_white. intros Hl Ha Hb Hn. bool_hyps. cbn [app] in *. split; try done.
  - simpl. rewrite Hb. by rewrite andb_true_r.
  - intros x. change (reverse [a; b; c]) with [c; b; a]. cbn [app].
    unfold strip_white_rev. by repeat match goal with E : strip_white _ = _ |- _ => rewrite E; clear E end.
Qed.

Lemma white_char_bytes w : white_char w -> exists a t, w = a :: t /\ white_bytes a t.
Proof.
  unfold white_char. intros E. destruct w as [|a w]; [done|]. exists a, w. split; [done|].
  unfold strip_white in E. cbn [map take] in E.
  destruct (((9 <=? b2z a) && (b2z a <=? 13) || (b2z a =? 32))%Z) eqn:E1.
  { simpl in E. rewrite drop_0 in E. injection E as ->. by apply white_one. }
  destruct w as [|b w]; [done|]. cbn [map take] in E.
  destruct (((b2z a =? 0xC2) && ((b2z b =? 0x85) || (b2z b =? 0xA0)))%Z) eqn:E2.
  { simpl in E. rewrite drop_0 in E. injection E as ->. clear E1. bool_hyps.
    repeat match goal with H : _ || _ = true |- _ => apply orb_true_iff in H as [?|?] end;
      repeat match goal with H : (b2z ?c =? _)%Z = true |- _ => apply byte_of in H; subst c
                        | H : b2z ?c = _ |- _ => apply Z.eqb_eq, byte_of in H; subst c end;
      by apply white_two; vm_compute. }
  destruct w as [|c w]; [done|]. cbn [map take] in E. clear E1 E2.
  match type of E with (if ?b then _ else _) = _ => destruct b eqn:E3; [|done] end.
  simpl in E. rewrite drop_0 in E. injection E as ->.
  assert (Hrange : forall c,
    ((0x80 <=? b2z c) && (b2z c <=? 0x8A) || (b2z c =? 0xA8) || (b2z c =? 0xA9) || (b2z c =? 0xAF))%Z = true ->
    last_of_white [z2b 0xE2; z2b 0x80] c && bool_decide (strip_white [z2b 0x80; c] = None) = true)
    by (apply by_bytes_impl; by vm_compute).
  repeat rewrite orb_true_iff in E3. rewrite !andb_true_iff in E3.
  destruct E3 as [[[[[Ha Hb] Hc]|[[Ha Hb] Hc]]|[[Ha Hb] Hc]]|[[Ha Hb] Hc]];
    apply byte_of in Ha, Hb; subst a b; try (apply byte_of in Hc; subst c; by apply white_three; vm_compute).
  apply Hrange in Hc. bool_hyps. by apply white_three.
Qed.

(** * White space *)

Inductive blank : bytes -> Prop :=
| blank_nil : blank []
| blank_char w b : white_char w -> blank b -> blank (w ++ b).

Lemma blank_app b1 b2 : blank b1 -> blank b2 -> blank (b1 ++ b2).
Proof. induction 1 as [|w b Hw _ IH]; intros; [done|]. rewrite <- app_assoc. constructor; auto. Qed.

Lemma white_char_blank w : white_char w -> blank w.
Proof. intros Hw. rewrite <- (app_nil_r w). by repeat constructor. Qed.

(** White space is taken off by one step per character, at either end. *)
Lemma blank_front b :
  blank b -> exists n, n <= length b /\
    forall fuel x, strip_all strip_white (n + fuel) (b ++ x) = strip_all strip_white fuel x.
Proof.
  induction 1 as [|w b Hw _ (n & Hn & IH)]; [by exists 0|].
  destruct (white_char_bytes w Hw) as (a & t & Ew & _).
  exists (S n). split; [rewrite length_app, Ew; simpl; lia|]. intros fuel x. rewrite <- app_assoc.
  cbn [plus strip_all]. rewrite (strip_white_app _ _ _ Hw). apply IH.
Qed.

Lemma blank_back b :
  blank b -> exists n, n <= length b /\
    forall fuel x, strip_all strip_white_rev (n + fuel) (reverse b ++ x) = strip_all strip_white_rev fuel x.
Proof.
  induction 1 as [|w b Hw _ (n & Hn & IH)]; [by exists 0|].
  destruct (white_char_bytes w Hw) as (a & t & Ew & Hb).
  exists (n + 1). split; [rewrite length_app, Ew; simpl; lia|]. intros fuel x.
  rewrite reverse_app, <- app_assoc, <- Nat.add_assoc, IH. cbn [plus strip_all].
  by rewrite Ew, (wb_rev _ _ Hb).
Qed.

Lemma strip_white_blank fuel s : exists b, s = b ++ strip_all strip_white fuel s /\ blank b.
Proof.
  revert s. induction fuel as [|fuel IH]; intros s; cbn [strip_all]; [by exists []; split; [|constructor]|].
  destruct (strip_white s) as [y|] eqn:E; [|by exists []; split; [|constructor]].
  apply strip_white_char in E as (w & -> & Hw). destruct (IH y) as (b & Hy & Hb).
  exists (w ++ b). split; [rewrite <- app_assoc; by f_equal|by constructor].
Qed.

Lemma strip_back_blank fuel r :
  exists b, r = reverse b ++ strip_all strip_white_rev fuel r /\ blank b.
Proof.
  revert r. induction fuel as [|fuel IH]; intros r; cbn [strip_all]; [by exists []; split; [|constructor]|].
  destruct (strip_white_rev r) as [y|] eqn:E; [|by exists []; split; [|constructor]].
  apply strip_white_rev_char in E as (w & -> & Hw). destruct (IH y) as (b & Hy & Hb).
  exists (b ++ w). split; [|by apply blank_app; [|apply white_char_blank]].
  rewrite reverse_app, <- app_assoc. by f_equal.
Qed.

Lemma blank_head b c k : blank b -> b = c :: k -> utf8_tail c = false.
Proof.
  intros [|w b' Hw _] E; [done|]. destruct (white_char_bytes w Hw) as (a & t & -> & Hb).
  injection E as -> _. apply Hb.
Qed.

(** A text that does not begin with white space still does not when white space
    follows it. *)
Lemma stuck_before_blank m b :
  m <> [] -> strip_white m = None -> blank b -> strip_white (m ++ b) = None.
Proof.
  intros Hm Hs Hb. destruct (strip_white (m ++ b)) as [y|] eqn:E; [|done]. exfalso.
  apply strip_white_char in E as (w & E & Hw).
  apply app_eq_inv in E as [(k & -> & _)|(k & -> & Hk)].
  { by rewrite (strip_white_app _ k _ Hw) in Hs. }
  destruct k as [|c k]; [by rewrite app_nil_r in Hw; unfold white_char in Hw; rewrite Hs in Hw|].
  apply (blank_head _ c (k ++ y)) in Hb; [|done].
  destruct (white_char_bytes _ Hw) as (a & t & Ew & Hwb). destruct m as [|d m]; [done|].
  injection Ew as -> <-. pose proof (wb_tail _ _ Hwb) as Ht. rewrite forallb_app in Ht.
  cbn [forallb] in Ht. rewrite Hb in Ht. by rewrite andb_false_r in Ht.
Qed.

(** * Trimming *)

Lemma trim_blank b : blank b -> trim b = [].
Proof.
  intros Hb. unfold trim. cbv zeta. destruct (blank_front b Hb) as (n & Hn & E).
  specialize (E (length b - n) []). rewrite app_nil_r, Nat.add_comm, Nat.sub_add in E by done.
  rewrite E, (strip_all_stuck strip_white) by done. done.
Qed.

Lemma trim_between b1 m b2 :
  blank b1 -> blank b2 -> strip_white m = None -> strip_white_rev (reverse m) = None ->
  trim (b1 ++ m ++ b2) = m.
Proof.
  intros H1 H2 Hs Hr. destruct m as [|c m]; [by apply trim_blank, blank_app|].
  unfold trim. cbv zeta. destruct (blank_front b1 H1) as (n & Hn & E1).
  specialize (E1 (length (b1 ++ (c :: m) ++ b2) - n) ((c :: m) ++ b2)).
  rewrite Nat.add_comm, Nat.sub_add in E1 by (rewrite length_app; lia).
  rewrite E1, (strip_all_stuck strip_white) by by apply stuck_before_blank.
  destruct (blank_back b2 H2) as (k & Hk & E2).
  specialize (E2 (length ((c :: m) ++ b2) - k) (reverse (c :: m))).
  rewrite Nat.add_comm, Nat.sub_add in E2 by (rewrite length_app; lia).
  rewrite reverse_app, E2, (strip_all_stuck strip_white_rev) by done. apply reverse_involutive.
Qed.

Lemma strip_all_done step fuel s :
  (forall x y, step x = Some y -> length y < length x) -> length s <= fuel ->
  step [] = None -> step (strip_all step fuel s) = None.
Proof.
  intros Hs. revert s. induction fuel as [|f IH]; intros s Hl Hn; simpl.
  - by destruct s; [|simpl in Hl; lia].
  - destruct (step s) as [y|] eqn:E; [|done]. apply IH; [|done]. apply Hs in E. lia.
Qed.

(** A text is white space, its trimming and white space, and nothing more can be
    taken off the trimming. *)
Record trimming (s m b1 b2 : bytes) : Prop := {
  tr_split : s = b1 ++ m ++ b2;
  tr_front : blank b1;
  tr_back : blank b2;
  tr_start : strip_white m = None;
  tr_end : strip_white_rev (reverse m) = None;
}.

Lemma strip_back s :
  exists m b, s = m ++ b /\ blank b /\ strip_white_rev (reverse m) = None.
Proof.
  destruct (strip_back_blank (length s) (reverse s)) as (b & E & Hb).
  exists (reverse (strip_all strip_white_rev (length s) (reverse s))), b. split_and!; [|done|].
  - rewrite <- (reverse_involutive s), E at 1. by rewrite reverse_app, reverse_involutive.
  - rewrite reverse_involutive. apply strip_all_done; [apply strip_white_rev_shorter| |done].
    by rewrite length_reverse.
Qed.

Lemma trim_spec s : exists b1 b2, trimming s (trim s) b1 b2.
Proof.
  destruct (strip_white_blank (length s) s) as (b1 & E1 & H1).
  assert (Hs : strip_white (strip_all strip_white (length s) s) = None)
    by (apply strip_all_done; [apply strip_white_shorter|done|done]).
  set (s1 := strip_all strip_white (length s) s) in *.
  destruct (strip_back s1) as (m & b2 & E2 & H2 & Hr).
  assert (Hm : strip_white m = None).
  { destruct (strip_white m) as [y|] eqn:E; [|done].
    apply (strip_white_app _ b2) in E. congruence. }
  exists b1, b2. assert (trim s = m) as ->; [|split; [by rewrite E1, E2|done..]].
  rewrite E1, E2. by apply trim_between.
Qed.

(** The edges of a trimmed text, and back. *)
Lemma trimmed_of v :
  strip_white v = None -> strip_white_rev (reverse v) = None -> trimmed v.
Proof.
  intros Hs Hr. pose proof (trim_between [] v [] blank_nil blank_nil Hs Hr) as E.
  by rewrite app_nil_r in E.
Qed.

Lemma trim_trimmed s : trimmed (trim s).
Proof. destruct (trim_spec s) as (b1 & b2 & []). by apply trimmed_of. Qed.

Lemma trimmed_start v : trimmed v -> strip_white v = None.
Proof. intros E. destruct (trim_spec v) as (b1 & b2 & []). by rewrite <- E. Qed.

Lemma trimmed_end v : trimmed v -> strip_white_rev (reverse v) = None.
Proof. intros E. destruct (trim_spec v) as (b1 & b2 & []). by rewrite <- E. Qed.

Lemma trim_before_blank s b : blank b -> trim (s ++ b) = trim s.
Proof.
  intros Hb. destruct (trim_spec s) as (b1 & b2 & [E H1 H2 Hs Hr]). rewrite E at 1.
  rewrite <- !app_assoc. apply trim_between; [done|by apply blank_app|done..].
Qed.

(** An ASCII byte between two texts keeps the trailing white space of the
    second apart from the first. *)
Lemma strip_white_rev_app r c x :
  is_ascii_graphic c = true -> strip_white_rev r = None -> strip_white_rev (r ++ c :: x) = None.
Proof.
  intros Hc Hr. destruct (strip_white_rev (r ++ c :: x)) as [y|] eqn:E; [|done]. exfalso.
  apply strip_white_rev_char in E as (w & E & Hw).
  destruct (white_char_bytes w Hw) as (a & t & -> & Hb).
  apply app_eq_inv in E as [(k & -> & _)|(k & E & Hk)].
  { by rewrite (wb_rev _ _ Hb) in Hr. }
  destruct k as [|d k].
  { rewrite app_nil_r in E. subst r. pose proof (wb_rev _ _ Hb []) as Hrev.
    by rewrite app_nil_r, Hr in Hrev. }
  injection Hk as <- _.
  assert (c ∈ a :: t) as [->|Hin]%elem_of_cons.
  { rewrite <- (reverse_involutive (a :: t)), E. apply elem_of_reverse, elem_of_app. right. by left. }
  - unfold white_char in Hw. by rewrite strip_white_graphic in Hw.
  - pose proof (wb_tail _ _ Hb) as Ht. rewrite forallb_forall in Ht.
    rewrite list_elem_of_In in Hin. apply Ht in Hin. revert Hc Hin. unfold is_ascii_graphic, utf8_tail.
    rewrite !in_range_spec. lia.
Qed.

(** A graphic prefix stays in front of what trimming leaves of the rest. *)
Lemma trim_after_graphic a c m b :
  forallb is_ascii_graphic (a ++ [c]) = true -> strip_white_rev (reverse m) = None -> blank b ->
  trim ((a ++ [c]) ++ m ++ b) = (a ++ [c]) ++ m.
Proof.
  intros G Hr Hb. rewrite app_assoc, trim_before_blank by done. rewrite forallb_app in G.
  apply andb_true_iff in G as [Ga Gc]. simpl in Gc. rewrite andb_true_r in Gc. apply trimmed_of.
  - destruct a as [|d a]; simpl; apply strip_white_graphic; [done|].
    simpl in Ga. by apply andb_true_iff in Ga as [? _].
  - rewrite reverse_app, reverse_snoc. by apply strip_white_rev_app.
Qed.

(** * UTF-8 *)

Lemma utf8_char_shorter s y : utf8_char s = Some y -> length y < length s.
Proof.
  unfold utf8_char. destruct s as [|a [|b [|c [|d s]]]]; intros;
    repeat case_match; simplify_eq/=; lia.
Qed.

Lemma utf8_go_enough fuel s : utf8_go fuel s = true -> utf8_valid s = true.
Proof.
  unfold utf8_valid. revert s. induction fuel as [|fuel IH]; intros [|c s] E; cbn [utf8_go length] in *;
    try done.
  destruct (utf8_char (c :: s)) as [y|] eqn:Ec; [|done]. apply IH in E.
  eapply utf8_go_more; [exact E|]. apply utf8_char_shorter in Ec. simpl in Ec. lia.
Qed.

Lemma utf8_valid_char s y : utf8_char s = Some y -> utf8_valid s = true -> utf8_valid y = true.
Proof.
  intros E. unfold utf8_valid at 1. destruct s as [|c s]; [done|]. cbn [length utf8_go]. rewrite E.
  apply utf8_go_enough.
Qed.

(** No character goes on over a byte that continues none. *)
Lemma utf8_char_unapp p a t y :
  p <> [] -> utf8_tail a = false -> utf8_char (p ++ a :: t) = Some y ->
  exists q, y = q ++ a :: t /\ utf8_char p = Some q.
Proof.
  intros Hp Ha E.
  assert (Hsub : forall lo hi, (0x80 <= lo)%Z -> (hi <= 0xBF)%Z -> in_range lo hi a = false).
  { intros lo hi Hlo Hhi. apply not_true_iff_false. rewrite in_range_spec. intros Hr.
    assert (utf8_tail a = true); [|congruence]. apply in_range_spec. lia. }
  assert (Hranges : in_range 0xA0 0xBF a = false /\ in_range 0x80 0x9F a = false /\
    in_range 0x90 0xBF a = false /\ in_range 0x80 0x8F a = false)
    by (split_and!; apply Hsub; lia).
  destruct Hranges as (R1 & R2 & R3 & R4). clear Hsub.
  destruct p as [|b [|c [|d [|e p]]]]; [done| | | |]; unfold utf8_char in *; cbn [app] in *;
    try (destruct t as [|t1 [|t2 t]]);
    rewrite ?R1, ?R2, ?R3, ?R4, ?Ha, ?andb_false_r, ?andb_false_l, ?orb_false_r in E; cbn [andb orb] in E;
    repeat case_match; simplify_eq; (eexists; split; [|reflexivity]; reflexivity).
Qed.

Lemma utf8_after_blank b m : blank b -> utf8_valid (b ++ m) = true -> utf8_valid m = true.
Proof.
  induction 1 as [|w b Hw _ IH]; intros E; [done|]. apply IH.
  rewrite <- app_assoc in E. eapply utf8_valid_char; [|exact E].
  destruct (white_char_bytes w Hw) as (a & t & -> & Hb). exact (utf8_char_app _ _ _ (wb_utf8 _ _ Hb)).
Qed.

Lemma utf8_before fuel p a t :
  utf8_tail a = false -> utf8_go fuel (p ++ a :: t) = true -> utf8_go fuel p = true.
Proof.
  intros Ha. revert p. induction fuel as [|fuel IH]; intros [|c p] E; try done.
  cbn [utf8_go app] in *. destruct (utf8_char (c :: p ++ a :: t)) as [y|] eqn:Ec; [|done].
  apply (utf8_char_unapp (c :: p) a t) in Ec as (q & -> & ->); [|done..]. by apply IH.
Qed.

Lemma utf8_before_blank b m : blank b -> utf8_valid (m ++ b) = true -> utf8_valid m = true.
Proof.
  destruct b as [|a t]; [by rewrite app_nil_r|]. intros Hb E. unfold utf8_valid in E.
  apply utf8_before in E; [by apply utf8_go_enough in E|]. by eapply blank_head.
Qed.

(** The trimming of a text is a text. *)
Lemma trim_utf8 s : utf8_valid s = true -> utf8_valid (trim s) = true.
Proof.
  intros Hu. destruct (trim_spec s) as (b1 & b2 & [E H1 H2 _ _]). rewrite E in Hu.
  apply utf8_after_blank in Hu; [|done]. by apply utf8_before_blank in Hu.
Qed.
