(* ===== verification/Backend.v ===== *)
(** The whole-pair backend boundary (rust/src/backend.rs): the lifecycle,
    health and result vocabulary, the [PairBackend] trait as a type class, the
    transaction guard that pins one backend, and the contract a backend owes
    its caller ([PairBackendLaws]). *)
From S2P Require Import Prelude.
From S2P Require Import Bytes.

(** * Data *)

Module PairBackendKind.
Inductive t := LegacyV04WholePair | NativePair.
#[global] Instance eq_dec : EqDecision t. Proof. solve_decision. Defined.
End PairBackendKind.

Module PairLifecycle.
Inductive t :=
| Offline | Initializing | Connecting | Ready | Linking | Linked | Unlinking
| Degraded | Recovering | ShuttingDown | Failed.
#[global] Instance eq_dec : EqDecision t. Proof. solve_decision. Defined.
End PairLifecycle.

Module PairHealthLevel.
Inductive t := Healthy | Transitioning | Degraded | Unavailable.
#[global] Instance eq_dec : EqDecision t. Proof. solve_decision. Defined.
End PairHealthLevel.

Module AuraControlTransport.
Inductive t := Le | BrEdr | Unresolved | Unknown.
#[global] Instance eq_dec : EqDecision t. Proof. solve_decision. Defined.
End AuraControlTransport.

Module AuraAcquisitionRoute.
Inductive t := StableDirect | A2dpWakeThenStable | FreshLe | Unresolved.
#[global] Instance eq_dec : EqDecision t. Proof. solve_decision. Defined.
End AuraAcquisitionRoute.

Definition health_level (l : PairLifecycle.t) : PairHealthLevel.t :=
  match l with
  | PairLifecycle.Ready | PairLifecycle.Linked => PairHealthLevel.Healthy
  | PairLifecycle.Initializing | PairLifecycle.Connecting | PairLifecycle.Linking
  | PairLifecycle.Unlinking | PairLifecycle.Recovering | PairLifecycle.ShuttingDown =>
      PairHealthLevel.Transitioning
  | PairLifecycle.Degraded => PairHealthLevel.Degraded
  | PairLifecycle.Offline | PairLifecycle.Failed => PairHealthLevel.Unavailable
  end.

Record PairHealth := mkPairHealth {
  health_backend : PairBackendKind.t;
  health_lifecycle : PairLifecycle.t;
  health_level_of : PairHealthLevel.t;
  reported_error : bool;
  aura_transport : AuraControlTransport.t;
  aura_acquisition_route : AuraAcquisitionRoute.t;
}.
#[global] Instance PairHealth_eq_dec : EqDecision PairHealth.
Proof. solve_decision. Defined.

Definition new_with_route (backend : PairBackendKind.t) (lifecycle : PairLifecycle.t)
    (err : bool) (transport : AuraControlTransport.t)
    (route : AuraAcquisitionRoute.t) : PairHealth :=
  let level :=
    if err && bool_decide (lifecycle = PairLifecycle.Ready \/ lifecycle = PairLifecycle.Linked)
    then PairHealthLevel.Degraded
    else health_level lifecycle in
  mkPairHealth backend lifecycle level err transport route.

Definition health_new (backend : PairBackendKind.t) (lifecycle : PairLifecycle.t)
    (err : bool) (transport : AuraControlTransport.t) : PairHealth :=
  new_with_route backend lifecycle err transport AuraAcquisitionRoute.Unresolved.

Module PairBackendEvidence.
Inductive t :=
| LocalSessionState | LifecycleAcknowledgement
| BroadcastAcknowledgementOnly | BroadcastBusinessNotification.
#[global] Instance eq_dec : EqDecision t. Proof. solve_decision. Defined.
End PairBackendEvidence.

(** Eight of the variants, those of the socket backend alone, exist only in the
    build with the tests, as that backend does. *)
Module PairBackendError.
Inductive t :=
| InvalidSocketPath | UntrustedSocket | InvalidTimeout
| Unavailable | AuraAdapterUnavailable | AuraDiscoveryUnavailable
| AuraVerifiedAdvertisementNotFound | AuraDeviceConnectionFailed
| AuraWakeProfileConnectFailed | AuraWakeFddfTimedOut | AuraWakeFddfInvalid
| AuraWakeFddfUnavailable | AuraWakeProfileReleaseFailed
| AuraGattProfileInvalid | AuraNotificationSetupFailed
| AuraWriteUnknown | AuraAcknowledgementTimedOut
| AuraAcknowledgementChannelClosed | AuraUnexpectedAcknowledgement
| JblEnterOutcomeUnknown | JblExitOutcomeUnknown
| JblBroadcastResultTimedOut | JblBroadcastResultUnavailable
| JblBroadcastResultRejected | AuraStartOutcomeUnknown
| TimedOut | ResponseTooLarge | InvalidResponse
| BackendReportedFailure | InvalidLifecycle | UnexpectedLifecycle
| RecoveryUnsupported | BackendChangedDuringTransaction.
#[global] Instance eq_dec : EqDecision t. Proof. solve_decision. Defined.

Definition display (e : t) : bytes :=
  match e with
  | InvalidSocketPath => str "legacy backend socket path must be explicit and absolute"
  | UntrustedSocket => str "legacy backend socket failed local trust checks"
  | InvalidTimeout => str "legacy backend timeout must be greater than zero"
  | Unavailable => str "pair backend is unavailable"
  | AuraAdapterUnavailable => str "Aura Bluetooth adapter is unavailable"
  | AuraDiscoveryUnavailable => str "Aura Bluetooth discovery is unavailable"
  | AuraVerifiedAdvertisementNotFound => str "no verified Aura FDDF advertisement was observed"
  | AuraDeviceConnectionFailed => str "verified Aura LE connection failed"
  | AuraWakeProfileConnectFailed => str "Aura wake A2DP profile connection failed"
  | AuraWakeFddfTimedOut => str "Aura wake FDDF observation timed out"
  | AuraWakeFddfInvalid => str "Aura wake FDDF observation was invalid"
  | AuraWakeFddfUnavailable => str "Aura wake FDDF observation was unavailable"
  | AuraWakeProfileReleaseFailed => str "Aura wake A2DP profile release failed"
  | AuraGattProfileInvalid => str "Aura vendor GATT profile was unavailable or invalid"
  | AuraNotificationSetupFailed => str "Aura notification setup failed"
  | AuraWriteUnknown => str "Aura write outcome is unknown"
  | AuraAcknowledgementTimedOut => str "Aura acknowledgement timed out"
  | AuraAcknowledgementChannelClosed => str "Aura acknowledgement channel closed"
  | AuraUnexpectedAcknowledgement => str "Aura acknowledgement was unexpected"
  | JblEnterOutcomeUnknown => str "JBL enter outcome is unknown"
  | JblExitOutcomeUnknown => str "JBL exit outcome is unknown"
  | JblBroadcastResultTimedOut => str "JBL broadcast result timed out"
  | JblBroadcastResultUnavailable => str "JBL broadcast result is unavailable"
  | JblBroadcastResultRejected => str "JBL broadcast result was rejected"
  | AuraStartOutcomeUnknown => str "Aura start outcome is unknown"
  | TimedOut => str "pair backend request timed out"
  | ResponseTooLarge => str "pair backend response exceeded the size limit"
  | InvalidResponse => str "pair backend returned an invalid response"
  | BackendReportedFailure => str "pair backend reported a lifecycle command failure"
  | InvalidLifecycle => str "pair backend returned an unknown lifecycle"
  | UnexpectedLifecycle => str "pair backend returned an unexpected post-state"
  | RecoveryUnsupported => str "pair backend does not support explicit recovery"
  | BackendChangedDuringTransaction => str "pair backend changed during one lifecycle transaction"
  end.
End PairBackendError.

Record PairActionReceipt := mkPairActionReceipt {
  receipt_backend : PairBackendKind.t;
  receipt_lifecycle : PairLifecycle.t;
  receipt_evidence : PairBackendEvidence.t;
  idempotent : bool;
}.
#[global] Instance PairActionReceipt_eq_dec : EqDecision PairActionReceipt.
Proof. solve_decision. Defined.

Record PairActionFailure := mkPairActionFailure {
  failure_backend : PairBackendKind.t;
  reason : PairBackendError.t;
  failure_observed_lifecycle : option PairLifecycle.t;
}.
#[global] Instance PairActionFailure_eq_dec : EqDecision PairActionFailure.
Proof. solve_decision. Defined.

Module PairActionResult.
Inductive t :=
| Accepted (receipt : PairActionReceipt)
| RejectedBeforeSend (failure : PairActionFailure)
| OutcomeUnknown (failure : PairActionFailure).
#[global] Instance eq_dec : EqDecision t. Proof. solve_decision. Defined.

Definition backend (r : t) : PairBackendKind.t :=
  match r with
  | Accepted receipt => receipt_backend receipt
  | RejectedBeforeSend failure | OutcomeUnknown failure => failure_backend failure
  end.

Definition observed_lifecycle (r : t) : option PairLifecycle.t :=
  match r with
  | Accepted receipt => Some (receipt_lifecycle receipt)
  | RejectedBeforeSend failure | OutcomeUnknown failure =>
      failure_observed_lifecycle failure
  end.
End PairActionResult.

(** * The [PairBackend] trait *)

(** Every method takes [&self] or [&mut self]; a mutable receiver is threaded.
    [recover_stop] and [teardown_transport] have the default bodies
    [recover_stop_default] and [teardown_transport_default]. *)
Class PairBackend (B : Type) := {
  backend_kind : B -> PairBackendKind.t;
  backend_health : B -> result PairHealth PairBackendError.t * B;
  backend_start : B -> PairActionResult.t * B;
  backend_stop : B -> PairActionResult.t * B;
  backend_shutdown : B -> PairActionResult.t * B;
  backend_recover_stop : B -> PairActionResult.t * B;
  backend_teardown_transport : B -> result unit PairBackendError.t * B;
}.

Definition recover_stop_default {B} (kind : B -> PairBackendKind.t) (b : B)
  : PairActionResult.t * B :=
  (PairActionResult.RejectedBeforeSend
     (mkPairActionFailure (kind b) PairBackendError.RecoveryUnsupported None), b).

Definition teardown_transport_default {B} (b : B)
  : result unit PairBackendError.t * B := (Ok tt, b).

(** * The transaction guard *)

Record PairBackendTransaction (B : Type) := mkTransaction {
  expected_kind : PairBackendKind.t;
  txn_backend : B;
  txn_unresolved : option PairActionFailure;
}.
Arguments mkTransaction {B}.
Arguments expected_kind {B}.
Arguments txn_backend {B}.
Arguments txn_unresolved {B}.

Section Transaction.
Context {B : Type} `{PairBackend B}.

Definition transaction_new (b : B) : PairBackendTransaction B :=
  mkTransaction (backend_kind b) b None.

Definition ensure_backend_is_pinned (t : PairBackendTransaction B)
  : result unit PairBackendError.t :=
  if decide (backend_kind (txn_backend t) = expected_kind t) then Ok tt
  else Err PairBackendError.BackendChangedDuringTransaction.

Definition checked_action (call : B -> PairActionResult.t * B)
    (t : PairBackendTransaction B)
  : PairActionResult.t * PairBackendTransaction B :=
  match txn_unresolved t with
  | Some failure => (PairActionResult.OutcomeUnknown failure, t)
  | None =>
  match ensure_backend_is_pinned t with
  | Err reason =>
      (PairActionResult.RejectedBeforeSend
         (mkPairActionFailure (expected_kind t) reason None), t)
  | Ok _ =>
      let '(attempted, b') := call (txn_backend t) in
      let t' := mkTransaction (expected_kind t) b' (txn_unresolved t) in
      let backend_still_pinned := is_ok (ensure_backend_is_pinned t') in
      let claimed_backend_is_pinned :=
        bool_decide (PairActionResult.backend attempted = expected_kind t) in
      let res :=
        if backend_still_pinned && claimed_backend_is_pinned then attempted
        else
          let failure := mkPairActionFailure (expected_kind t)
            PairBackendError.BackendChangedDuringTransaction
            (PairActionResult.observed_lifecycle attempted) in
          match attempted with
          | PairActionResult.RejectedBeforeSend _ =>
              PairActionResult.RejectedBeforeSend failure
          | PairActionResult.Accepted _ | PairActionResult.OutcomeUnknown _ =>
              PairActionResult.OutcomeUnknown failure
          end in
      let latched :=
        match res with
        | PairActionResult.OutcomeUnknown failure => Some failure
        | _ => txn_unresolved t'
        end in
      (res, mkTransaction (expected_kind t) b' latched)
  end end.

Definition txn_start := checked_action backend_start.
Definition txn_stop := checked_action backend_stop.
Definition txn_shutdown := checked_action backend_shutdown.
Definition txn_recover_stop := checked_action backend_recover_stop.
End Transaction.

(** * The contract of a backend *)

(** What [PairActionResult] documents, stated with a ghost count of the role
    commands that may have reached a device: [RejectedBeforeSend] is reserved
    for failures known to occur before any command byte was written, and the
    health read and the transport teardown send no role command. *)
Class PairBackendLaws (B : Type) `{PairBackend B} := {
  role_writes : B -> nat;
  start_rejected_no_write b f b' :
    backend_start b = (PairActionResult.RejectedBeforeSend f, b') ->
    role_writes b' = role_writes b;
  stop_rejected_no_write b f b' :
    backend_stop b = (PairActionResult.RejectedBeforeSend f, b') ->
    role_writes b' = role_writes b;
  shutdown_rejected_no_write b f b' :
    backend_shutdown b = (PairActionResult.RejectedBeforeSend f, b') ->
    role_writes b' = role_writes b;
  recover_stop_rejected_no_write b f b' :
    backend_recover_stop b = (PairActionResult.RejectedBeforeSend f, b') ->
    role_writes b' = role_writes b;
  health_no_write b r b' : backend_health b = (r, b') -> role_writes b' = role_writes b;
  teardown_no_write b r b' :
    backend_teardown_transport b = (r, b') -> role_writes b' = role_writes b;
}.

(** * Lemmas *)

(** A receipt of an unreported error never projects as healthy unless the
    lifecycle is one of the two stable ones. *)
Lemma new_with_route_healthy kind lifecycle err transport route :
  health_level_of (new_with_route kind lifecycle err transport route) =
    PairHealthLevel.Healthy <->
  err = false /\ (lifecycle = PairLifecycle.Ready \/ lifecycle = PairLifecycle.Linked).
Proof.
  unfold new_with_route. destruct err, lifecycle; simpl;
    try case_bool_decide; intuition congruence.
Qed.

Section TransactionLemmas.
Context {B : Type} `{PairBackend B}.

(** What one action of a fresh transaction returns, given what the backend
    itself returned. *)
Lemma checked_action_fresh (call : B -> PairActionResult.t * B) (b : B) :
  let '(attempted, b') := call b in
  let '(res, t') := checked_action call (transaction_new b) in
  txn_backend t' = b' /\
  match res with
  | PairActionResult.Accepted receipt =>
      attempted = PairActionResult.Accepted receipt /\
      backend_kind b' = backend_kind b /\ receipt_backend receipt = backend_kind b
  | PairActionResult.RejectedBeforeSend _ =>
      exists f, attempted = PairActionResult.RejectedBeforeSend f
  | PairActionResult.OutcomeUnknown f => txn_unresolved t' = Some f
  end.
Proof.
  unfold checked_action, ensure_backend_is_pinned. simpl.
  rewrite decide_True by done. destruct (call b) as [attempted b'].
  case_decide as Hk; simpl; [case_bool_decide as Hc; simpl|];
    destruct attempted; simpl in *; eauto.
Qed.

(** An uncertain action is terminal for its transaction. *)
Lemma checked_action_latched (call : B -> PairActionResult.t * B) t f :
  txn_unresolved t = Some f ->
  checked_action call t = (PairActionResult.OutcomeUnknown f, t).
Proof. unfold checked_action. by intros ->. Qed.
End TransactionLemmas.
