(* ===== verification/Journal.v ===== *)
(** The crash-persistent uncertainty journal (rust/src/journal.rs).  The
    directory the journal lives in is an interface ([JournalDir]): the calls
    the code makes on it, and what POSIX promises about them across a crash
    ([JournalDirLaws]).  The journal promises its client
    [UncertaintyJournalLaws]; the file journal discharges them. *)
From S2P Require Import Prelude Bytes.

(** * Data *)

Definition APPLICATION_DIRECTORY : bytes := str "jbl-aura-link-rust".
Definition JOURNAL_FILE : bytes := str "uncertainty.state".
Definition PENDING_FILE : bytes := str "uncertainty.pending".
Definition MAX_JOURNAL_BYTES : nat := 128.

Module JournalAction.
Inductive t := Start | Stop | Shutdown | RecoverStop.
#[global] Instance eq_dec : EqDecision t. Proof. solve_decision. Defined.

Definition label (a : t) : bytes :=
  match a with
  | Start => str "start"
  | Stop => str "stop"
  | Shutdown => str "shutdown"
  | RecoverStop => str "recover-stop"
  end.

Definition parse (value : bytes) : option t :=
  if decide (value = str "start") then Some Start
  else if decide (value = str "stop") then Some Stop
  else if decide (value = str "shutdown") then Some Shutdown
  else if decide (value = str "recover-stop") then Some RecoverStop
  else None.
End JournalAction.

Module JournalState.
Inductive t := Clean | Pending (action : JournalAction.t).
#[global] Instance eq_dec : EqDecision t. Proof. solve_decision. Defined.
End JournalState.

Module JournalError.
Inductive t :=
| StateDirectoryUnavailable | StateDirectoryUntrusted | JournalUntrusted
| JournalInvalid | JournalWriteFailed.
#[global] Instance eq_dec : EqDecision t. Proof. solve_decision. Defined.

Definition display (e : t) : bytes :=
  match e with
  | StateDirectoryUnavailable => str "controller state directory is unavailable"
  | StateDirectoryUntrusted => str "controller state directory failed trust checks"
  | JournalUntrusted => str "controller uncertainty journal failed trust checks"
  | JournalInvalid => str "controller uncertainty journal is invalid"
  | JournalWriteFailed => str "controller uncertainty journal could not be committed"
  end.
End JournalError.

(** * The [UncertaintyJournal] trait and its contract *)

Class UncertaintyJournal (J : Type) := {
  is_pending : J -> bool;
  mark_pending : JournalAction.t -> J -> result unit JournalError.t * J;
  clear : J -> result unit JournalError.t * J;
}.

(** [latched j] means that no crash from [j] on can restart as clean. *)
Class UncertaintyJournalLaws (J : Type) `{UncertaintyJournal J} := {
  latched : J -> Prop;
  mark_pending_ok a j j' :
    mark_pending a j = (Ok tt, j') -> is_pending j' = true /\ latched j';
  mark_pending_err a j e j' :
    mark_pending a j = (Err e, j') ->
    (is_pending j = true -> is_pending j' = true) /\ (latched j -> latched j');
  clear_ok j j' : clear j = (Ok tt, j') -> is_pending j' = false;
  clear_err j e j' :
    clear j = (Err e, j') ->
    is_pending j' = is_pending j /\ (latched j -> latched j');
}.

(** * The journal in memory *)

(** The journal of a controller without a file, compiled with the tests: it
    keeps its record for the life of one process. *)
Record MemoryJournal := mkMemoryJournal { memory_state : JournalState.t }.

Definition memory_clean : MemoryJournal := mkMemoryJournal JournalState.Clean.
Definition memory_pending (action : JournalAction.t) : MemoryJournal :=
  mkMemoryJournal (JournalState.Pending action).

Definition memory_is_pending (j : MemoryJournal) : bool :=
  match memory_state j with JournalState.Pending _ => true | JournalState.Clean => false end.

#[export] Instance MemoryJournal_journal : UncertaintyJournal MemoryJournal := {
  is_pending := memory_is_pending;
  mark_pending action _ := (Ok tt, memory_pending action);
  clear _ := (Ok tt, memory_clean);
}.

(** There is no crash to restart from: the process is all there is. *)
#[export] Instance MemoryJournal_laws : UncertaintyJournalLaws MemoryJournal.
Proof. refine {| latched j := is_pending j = true |}; intros; by simplify_eq/=. Defined.

(** * The text of a journal record *)

Definition clean_text : bytes :=
  str "version=1" ++ [LF] ++ str "state=clean" ++ [LF].
Definition pending_prefix : bytes :=
  str "version=1" ++ [LF] ++ str "state=pending" ++ [LF] ++ str "action=".

Definition encode_state (state : JournalState.t) : bytes :=
  match state with
  | JournalState.Clean => clean_text
  | JournalState.Pending action => pending_prefix ++ JournalAction.label action ++ [LF]
  end.
#[global] Arguments encode_state : simpl never.

Definition parse_state (payload : bytes) : option JournalState.t :=
  if decide (payload = clean_text) then Some JournalState.Clean
  else match strip_prefix pending_prefix payload with
       | None => None
       | Some rest =>
           match strip_suffix [LF] rest with
           | None => None
           | Some action => JournalState.Pending <$> JournalAction.parse action
           end
       end.

(** * File metadata checks *)

Module FileType.
Inductive t := Regular | Directory | Socket | Other.
#[global] Instance eq_dec : EqDecision t. Proof. solve_decision. Defined.
End FileType.

Record Metadata := mkMetadata {
  file_type : FileType.t; uid : Z; mode : Z; nlink : Z; len : Z;
}.

Definition validate_directory_metadata (euid : Z) (metadata : Metadata)
  : result unit JournalError.t :=
  if negb (bool_decide (file_type metadata = FileType.Directory))
     || negb (uid metadata =? euid)%Z
     || negb (Z.land (mode metadata) 511 =? 448)%Z
  then Err JournalError.StateDirectoryUntrusted else Ok tt.

Definition validate_journal_metadata (euid : Z) (metadata : Metadata)
    (enforce_size : bool) : result unit JournalError.t :=
  if negb (bool_decide (file_type metadata = FileType.Regular))
     || negb (uid metadata =? euid)%Z
     || negb (Z.land (mode metadata) 511 =? 384)%Z
     || negb (nlink metadata =? 1)%Z
     || (enforce_size && (Z.of_nat MAX_JOURNAL_BYTES <? len metadata)%Z)
  then Err JournalError.JournalUntrusted else Ok tt.

(** * The directory the journal lives in *)

Module IoError.
(** What the code distinguishes of an operating-system error. *)
Inductive t := NotFound | Other.
#[global] Instance eq_dec : EqDecision t. Proof. solve_decision. Defined.
End IoError.

(** The kernel's numbers (Linux on x86-64 and most others), and [struct open_how]. *)
Definition O_RDONLY : Z := 0.
Definition O_WRONLY : Z := 1.
Definition O_RDWR : Z := 2.
Definition O_CREAT : Z := 0x40.
Definition O_EXCL : Z := 0x80.
Definition O_TRUNC : Z := 0x200.
Definition O_NONBLOCK : Z := 0x800.
Definition O_DIRECTORY : Z := 0x10000.
Definition O_NOFOLLOW : Z := 0x20000.
Definition O_CLOEXEC : Z := 0x80000.
Definition RESOLVE_NO_SYMLINKS : Z := 4.
Definition RESOLVE_BENEATH : Z := 8.

Record OpenHow := mkOpenHow { how_flags : Z; how_mode : Z; how_resolve : Z }.

(** The call creates the file or fails; it leaves the directory alone. *)
Definition creates_new (how : OpenHow) : bool :=
  let both := Z.lor O_CREAT O_EXCL in (Z.land (how_flags how) both =? both)%Z.
Definition reads_only (how : OpenHow) : bool :=
  (Z.land (how_flags how) (Z.lor (Z.lor O_WRONLY O_RDWR) (Z.lor O_CREAT O_TRUNC)) =? 0)%Z.

(** The calls made through the directory descriptor: [openat2], [fstat],
    [write], [fsync], [renameat], [unlinkat], and the random source for the
    temporary name.  An open file is identified by the name it was opened
    under. *)
Class JournalDir (D : Type) := {
  geteuid : D -> Z;
  rand_bytes : nat -> D -> result bytes unit * D;
  openat : bytes -> OpenHow -> D -> result unit IoError.t * D;
  fstat : bytes -> D -> result Metadata IoError.t * D;
  write_all : bytes -> bytes -> D -> result unit IoError.t * D;
  sync_file : bytes -> D -> result unit IoError.t * D;
  renameat : bytes -> bytes -> D -> result unit IoError.t * D;
  unlinkat : bytes -> Z -> D -> result unit IoError.t * D;
  sync_dir : D -> result unit IoError.t * D;
  (** [file.take(limit).read_to_string()]. *)
  read_to_string : bytes -> nat -> D -> result bytes IoError.t * D;
  (** [directory.metadata()] on the descriptor itself. *)
  dir_metadata : D -> result Metadata IoError.t * D;
}.

(** What the journal relies on, in terms of two ghost views of a directory:
    [vis d n] is the content of the entry [n] as calls see it, and
    [possible d n c] says that after a host crash at [d] the entry may hold
    [c].  [synced d n] says that the data of the file behind [n] is durable.
    These are the guarantees of [fsync], [rename] and [unlink]. *)
Class JournalDirLaws (D : Type) `{JournalDir D} := {
  vis : D -> bytes -> option bytes;
  possible : D -> bytes -> option bytes -> Prop;
  synced : D -> bytes -> Prop;
  (** A call that may change the entries [ns] only. *)
  untouched (ns : list bytes) (d d' : D) :=
    forall n, n ∉ ns ->
      vis d' n = vis d n /\ (forall c, possible d' n c -> possible d n c) /\
      (synced d n -> synced d' n);
  rand_bytes_frame k d r d' : rand_bytes k d = (r, d') -> untouched [] d d';
  create_frame n how d r d' :
    openat n how d = (r, d') -> creates_new how = true -> untouched [n] d d';
  create_ok n how d d' :
    openat n how d = (Ok tt, d') -> creates_new how = true -> vis d' n = Some [];
  read_open_frame n how d r d' :
    openat n how d = (r, d') -> reads_only how = true -> untouched [] d d';
  read_open_ok n how d d' :
    openat n how d = (Ok tt, d') -> reads_only how = true -> is_Some (vis d n);
  read_open_missing n how d d' :
    openat n how d = (Err IoError.NotFound, d') -> reads_only how = true -> vis d n = None;
  fstat_frame n d r d' : fstat n d = (r, d') -> untouched [] d d';
  read_frame n k d r d' : read_to_string n k d = (r, d') -> untouched [] d d';
  read_ok n k d p d' :
    read_to_string n k d = (Ok p, d') ->
    exists content, vis d n = Some content /\ p = take k content;
  dir_metadata_frame d r d' : dir_metadata d = (r, d') -> untouched [] d d';
  write_frame n p d r d' : write_all n p d = (r, d') -> untouched [n] d d';
  write_ok n p d d' content :
    write_all n p d = (Ok tt, d') -> vis d n = Some content ->
    vis d' n = Some (content ++ p);
  sync_file_frame n d r d' : sync_file n d = (r, d') -> untouched [] d d';
  sync_file_ok n d d' : sync_file n d = (Ok tt, d') -> synced d' n;
  rename_frame n m d r d' : renameat n m d = (r, d') -> untouched [n; m] d d';
  (** Whatever the result, a crash sees the old target or the whole new file. *)
  rename_atomic n m d r d' c :
    renameat n m d = (r, d') -> synced d n -> possible d' m c ->
    possible d m c \/ c = vis d n;
  rename_ok n m d d' :
    renameat n m d = (Ok tt, d') -> vis d' m = vis d n /\ (synced d n -> synced d' m);
  rename_err n m d e d' : renameat n m d = (Err e, d') -> vis d' m = vis d m;
  sync_dir_frame d r d' : sync_dir d = (r, d') -> untouched [] d d';
  sync_dir_ok d d' n c :
    sync_dir d = (Ok tt, d') -> synced d n -> possible d' n c -> c = vis d n;
  unlink_frame n d r d' : unlinkat n 0 d = (r, d') -> untouched [n] d d';
  unlink_ok n d d' : unlinkat n 0 d = (Ok tt, d') -> vis d' n = None;
  unlink_missing n d d' :
    unlinkat n 0 d = (Err IoError.NotFound, d') -> vis d' n = None;
  unlink_err n d e d' : unlinkat n 0 d = (Err e, d') -> untouched [] d d';
}.

Section FileJournal.
Context {D : Type} `{JournalDir D}.

Record FileUncertaintyJournal := mkFileJournal {
  directory : D;
  state : JournalState.t;
}.

(** The calls on an entry, relative to the directory and never out of it. *)
Definition entry_how (flags mode : Z) : OpenHow :=
  mkOpenHow flags mode (Z.lor RESOLVE_BENEATH RESOLVE_NO_SYMLINKS).
Definition open_entry (name : bytes) (flags mode : Z) : D -> result unit IoError.t * D :=
  openat name (entry_how flags mode).

Definition rename_entry (source target : bytes) (d : D) : result unit JournalError.t * D :=
  let '(r, d) := renameat source target d in
  (map_err (fun _ => JournalError.JournalWriteFailed) r, d).

Definition unlink_entry (name : bytes) : D -> result unit IoError.t * D := unlinkat name 0.

Definition temporary_flags : Z := Z.lor (Z.lor (Z.lor O_WRONLY O_CREAT) O_EXCL) O_CLOEXEC.
Definition record_flags : Z := Z.lor (Z.lor O_RDONLY O_CLOEXEC) O_NONBLOCK.

Definition temporary_name (random : bytes) : bytes :=
  str ".uncertainty." ++ concat (map hex_lower random) ++ str ".tmp".

(** The closure of [commit] that writes, publishes and syncs. *)
Definition publish (temporary target payload : bytes) (d : D)
  : result unit JournalError.t * D :=
  let write_failed := fun '(r, d) =>
    (map_err (fun _ : IoError.t => JournalError.JournalWriteFailed) r, d) in
  let?! (_, d) := write_failed (write_all temporary payload d) in
  let?! (_, d) := write_failed (sync_file temporary d) in
  let?! (_, d) := rename_entry temporary target d in
  write_failed (sync_dir d).

Definition commit (target : bytes) (s : JournalState.t) (d : D)
  : result unit JournalError.t * D :=
  let payload := encode_state s in
  match rand_bytes 8 d with
  | (Err _, d) => (Err JournalError.JournalWriteFailed, d)
  | (Ok random, d) =>
  let temporary := temporary_name random in
  match open_entry temporary temporary_flags 384 d with
  | (Err _, d) => (Err JournalError.JournalWriteFailed, d)
  | (Ok _, d) =>
  match fstat temporary d with
  | (Err _, d) => (Err JournalError.JournalWriteFailed, d)
  | (Ok metadata, d) =>
  match validate_journal_metadata (geteuid d) metadata false with
  | Err _ => (Err JournalError.JournalWriteFailed, d)
  | Ok _ =>
      let '(commit_result, d) := publish temporary target payload d in
      if is_err commit_result
      then let '(_, d) := unlink_entry temporary d in (commit_result, d)
      else (commit_result, d)
  end end end end.

Definition read_state (name : bytes) (d : D)
  : result (option JournalState.t) JournalError.t * D :=
  match open_entry name record_flags 0 d with
  | (Err IoError.NotFound, d) => (Ok None, d)
  | (Err IoError.Other, d) => (Err JournalError.JournalUntrusted, d)
  | (Ok _, d) =>
  match fstat name d with
  | (Err _, d) => (Err JournalError.JournalUntrusted, d)
  | (Ok opened, d) =>
  match validate_journal_metadata (geteuid d) opened true with
  | Err e => (Err e, d)
  | Ok _ =>
  match read_to_string name (MAX_JOURNAL_BYTES + 1) d with
  | (Err _, d) => (Err JournalError.JournalInvalid, d)
  | (Ok payload, d) =>
      if (MAX_JOURNAL_BYTES <? length payload)%nat
      then (Err JournalError.JournalInvalid, d)
      else (ok_or (Some <$> parse_state payload) JournalError.JournalInvalid, d)
  end end end end.

(** The part of [open_under] that follows the trusted directory descriptor:
    both records are read, the marker decides, and a pending record without a
    marker is migrated. *)
Definition open_records (d : D) : result FileUncertaintyJournal JournalError.t * D :=
  let?! (snapshot, d) := read_state JOURNAL_FILE d in
  let?! (marker, d) := read_state PENDING_FILE d in
  match
    match marker with
    | Some (JournalState.Pending action) => Ok (JournalState.Pending action)
    | Some JournalState.Clean => Err JournalError.JournalInvalid
    | None => Ok (default JournalState.Clean snapshot)
    end
  with
  | Err e => (Err e, d)
  | Ok s =>
      match marker, snapshot with
      | None, Some (JournalState.Pending _) =>
          let?! (_, d) := commit PENDING_FILE s d in
          (Ok (mkFileJournal d s), d)
      | _, _ => (Ok (mkFileJournal d s), d)
      end
  end.

Definition file_is_pending (j : FileUncertaintyJournal) : bool :=
  match state j with JournalState.Pending _ => true | JournalState.Clean => false end.

Definition file_mark_pending (action : JournalAction.t) (j : FileUncertaintyJournal)
  : result unit JournalError.t * FileUncertaintyJournal :=
  let s := JournalState.Pending action in
  let latch := fun '(r, d) => (r, mkFileJournal d s) in
  let?! (_, j) := latch (commit PENDING_FILE s (directory j)) in
  let?! (_, j) := latch (commit JOURNAL_FILE s (directory j)) in
  (Ok tt, j).

Definition file_clear (j : FileUncertaintyJournal)
  : result unit JournalError.t * FileUncertaintyJournal :=
  let keep := fun '(r, d) => (r, mkFileJournal d (state j)) in
  let?! (_, j) := keep (commit JOURNAL_FILE JournalState.Clean (directory j)) in
  match unlink_entry PENDING_FILE (directory j) with
  | (Ok _, d) | (Err IoError.NotFound, d) =>
      (Ok tt, mkFileJournal d JournalState.Clean)
  | (Err IoError.Other, d) =>
      (Err JournalError.JournalWriteFailed, mkFileJournal d (state j))
  end.

#[export] Instance FileUncertaintyJournal_journal
  : UncertaintyJournal FileUncertaintyJournal := {
  is_pending := file_is_pending;
  mark_pending := file_mark_pending;
  clear := file_clear;
}.
End FileJournal.
Arguments FileUncertaintyJournal : clear implicits.

(** * Opening the journal *)

(** [Path::is_absolute] and [Path::join] on Unix. *)
Definition is_absolute (path : bytes) : bool := starts_with (str "/") path.
Definition path_join (base leaf : bytes) : bytes :=
  if is_absolute leaf then leaf
  else if bool_decide (base = []) || ends_with (str "/") base then base ++ leaf
  else base ++ str "/" ++ leaf.

(** The calls made before a descriptor of the directory exists. *)
Class JournalRoot (W D : Type) := {
  root_euid : W -> Z;
  create_dir_all : bytes -> W -> result unit IoError.t * W;
  create_dir : bytes -> W -> result unit IoError.t * W;
  symlink_metadata : bytes -> W -> result Metadata IoError.t * W;
  (** [openat2(AT_FDCWD, path, ..)]. *)
  openat2_directory : bytes -> OpenHow -> W -> result D IoError.t * W;
}.

Definition default_state_root (XDG_STATE_HOME HOME : option bytes)
  : result bytes JournalError.t :=
  let non_empty := fun o : option bytes =>
    match o with Some [] => None | _ => o end in
  match non_empty XDG_STATE_HOME with
  | Some root =>
      if is_absolute root then Ok root else Err JournalError.StateDirectoryUntrusted
  | None =>
      match non_empty HOME with
      | Some root =>
          if is_absolute root
          then Ok (path_join (path_join root (str ".local")) (str "state"))
          else Err JournalError.StateDirectoryUnavailable
      | None => Err JournalError.StateDirectoryUnavailable
      end
  end.

Section Open.
Context {W D : Type} `{JournalRoot W D} `{JournalDir D}.

(** The directory exists and passes the trust checks, or is created. *)
Definition prepare_directory (path : bytes) (w : W)
  : result unit JournalError.t * W :=
  match symlink_metadata path w with
  | (Ok metadata, w) => (validate_directory_metadata (root_euid w) metadata, w)
  | (Err IoError.NotFound, w) =>
      match create_dir path w with
      | (Err _, w) => (Err JournalError.StateDirectoryUnavailable, w)
      | (Ok _, w) =>
          match symlink_metadata path w with
          | (Err _, w) => (Err JournalError.StateDirectoryUnavailable, w)
          | (Ok metadata, w) => (validate_directory_metadata (root_euid w) metadata, w)
          end
      end
  | (Err IoError.Other, w) => (Err JournalError.StateDirectoryUnavailable, w)
  end.

(** [CString::new] refuses a path with a NUL byte. *)
Definition directory_how : OpenHow :=
  mkOpenHow (Z.lor (Z.lor (Z.lor O_RDONLY O_DIRECTORY) O_CLOEXEC) O_NOFOLLOW) 0 RESOLVE_NO_SYMLINKS.
Definition open_directory (path : bytes) (w : W) : result D JournalError.t * W :=
  if contains_byte (z2b 0) path then (Err JournalError.StateDirectoryUntrusted, w)
  else
    let '(r, w) := openat2_directory path directory_how w in
    (map_err (fun _ => JournalError.StateDirectoryUntrusted) r, w).

Definition open_under (root : bytes) (w : W)
  : result (FileUncertaintyJournal D) JournalError.t * W :=
  if negb (is_absolute root) then (Err JournalError.StateDirectoryUntrusted, w)
  else
    match create_dir_all root w with
    | (Err _, w) => (Err JournalError.StateDirectoryUnavailable, w)
    | (Ok _, w) =>
    let path := path_join root APPLICATION_DIRECTORY in
    let?! (_, w) := prepare_directory path w in
    match open_directory path w with
    | (Err e, w) => (Err e, w)
    | (Ok d, w) =>
    match dir_metadata d with
    | (Err _, _) => (Err JournalError.StateDirectoryUntrusted, w)
    | (Ok metadata, d) =>
    match validate_directory_metadata (geteuid d) metadata with
    | Err e => (Err e, w)
    | Ok _ => (fst (open_records d), w)
    end end end end.

Definition open_default (XDG_STATE_HOME HOME : option bytes) (w : W)
  : result (FileUncertaintyJournal D) JournalError.t * W :=
  match default_state_root XDG_STATE_HOME HOME with
  | Err e => (Err e, w)
  | Ok root => open_under root w
  end.
End Open.

(** * The record text *)

Lemma parse_label (a : JournalAction.t) :
  JournalAction.parse (JournalAction.label a) = Some a.
Proof. by destruct a. Qed.

Lemma label_parse (value : bytes) (a : JournalAction.t) :
  JournalAction.parse value = Some a -> value = JournalAction.label a.
Proof. unfold JournalAction.parse. intros; split_cases. Qed.

Lemma parse_encode (s : JournalState.t) : parse_state (encode_state s) = Some s.
Proof. by destruct s as [|[]]; vm_compute. Qed.

Lemma encode_parse (p : bytes) (s : JournalState.t) :
  parse_state p = Some s -> p = encode_state s.
Proof.
  unfold parse_state. case_decide as Hp; [by intros [= <-]|].
  destruct (strip_prefix _ p) as [rest|] eqn:Hr; [|done].
  apply strip_prefix_Some in Hr as ->.
  destruct (strip_suffix _ rest) as [label|] eqn:Hl; [|done].
  apply strip_suffix_Some in Hl as ->.
  destruct (JournalAction.parse label) as [a|] eqn:Ha; [|done].
  apply label_parse in Ha as ->. by intros [= <-].
Qed.

Lemma encode_length (s : JournalState.t) :
  length (encode_state s) <= MAX_JOURNAL_BYTES.
Proof. unfold MAX_JOURNAL_BYTES. destruct s as [|[]]; vm_compute; lia. Qed.

Lemma encode_inj (s s' : JournalState.t) : encode_state s = encode_state s' -> s = s'.
Proof.
  intros E. pose proof (parse_encode s) as H1. rewrite E, parse_encode in H1. congruence.
Qed.

(** * The file journal keeps its contract *)

Section Commit.
Context {D : Type} `{JournalDirLaws D}.

Lemma rename_entry_inv source target d r d' :
  rename_entry source target d = (r, d') ->
  exists raw, renameat source target d = (raw, d') /\
    r = map_err (fun _ => JournalError.JournalWriteFailed) raw.
Proof. unfold rename_entry. destruct (renameat _ _ d) as [raw d1]. intros [= <- <-]. eauto. Qed.

(** Nothing a crash can show of the entry [n] is new, and calls see it as
    before. *)
Definition kept (n : bytes) (d d' : D) : Prop :=
  vis d' n = vis d n /\ (forall c, possible d' n c -> possible d n c) /\
  (synced d n -> synced d' n).

Lemma kept_refl n d : kept n d d.
Proof. by split; [|split]. Qed.

Lemma kept_trans n d1 d2 d3 : kept n d1 d2 -> kept n d2 d3 -> kept n d1 d3.
Proof. intros (?&?&?) (?&?&?). repeat split; try congruence; eauto. Qed.

Definition is_temporary (n : bytes) : bool := starts_with (str ".uncertainty.") n.

Lemma temporary_name_is_temporary random : is_temporary (temporary_name random) = true.
Proof.
  unfold is_temporary, temporary_name. apply starts_with_true. eauto.
Qed.

Lemma temporary_ne n random : is_temporary n = false -> n <> temporary_name random.
Proof. intros Hn ->. by rewrite temporary_name_is_temporary in Hn. Qed.

Lemma kept_of n ns d d' : untouched ns d d' -> n ∉ ns -> kept n d d'.
Proof. intros Hu Hn. exact (Hu n Hn). Qed.

Ltac not_listed :=
  repeat (apply not_elem_of_cons; split); first [done | congruence | apply not_elem_of_nil].
Ltac chain := repeat first
  [ eassumption | apply kept_refl
  | match goal with
    | U : untouched _ ?d1 ?d2 |- kept _ _ ?d2 =>
        eapply kept_trans; [|eapply kept_of; [exact U|not_listed]]
    | K : kept _ ?d1 ?d2 |- kept _ _ ?d2 =>
        eapply kept_trans; [|exact K]
    end ].
Ltac frames := repeat match goal with
  | E : rand_bytes _ _ = _ |- _ => apply rand_bytes_frame in E
  | E : open_entry _ temporary_flags _ _ = _ |- _ => apply create_frame in E; [|done]
  | E : open_entry _ record_flags _ _ = _ |- _ => apply read_open_frame in E; [|done]
  | E : fstat _ _ = _ |- _ => apply fstat_frame in E
  | E : read_to_string _ _ _ = _ |- _ => apply read_frame in E
  | E : write_all _ _ _ = _ |- _ => apply write_frame in E
  | E : sync_file _ _ = _ |- _ => apply sync_file_frame in E
  | E : rename_entry _ _ _ = _ |- _ => apply rename_entry_inv in E as (? & E & _); apply rename_frame in E
  | E : sync_dir _ = _ |- _ => apply sync_dir_frame in E
  | E : unlink_entry _ _ = _ |- _ => apply unlink_frame in E
  end.
Ltac kept_by_frames := frames; chain.

(** What publishing [payload] through an empty temporary file leaves of the
    target, whatever the outcome. *)
Record published (target payload : bytes) (d d' : D) : Prop := {
  published_possible c : possible d' target c -> possible d target c \/ c = Some payload;
  published_vis : vis d' target = vis d target \/ vis d' target = Some payload;
}.

(** [target] holds [payload] now and after any crash. *)
Definition durable (target payload : bytes) (d : D) : Prop :=
  vis d target = Some payload /\ forall c, possible d target c -> c = Some payload.

Lemma published_kept target payload d d' : kept target d d' -> published target payload d d'.
Proof. intros (?&?&?). split; eauto. Qed.

Lemma published_kept_l target payload d1 d2 d3 :
  kept target d1 d2 -> published target payload d2 d3 -> published target payload d1 d3.
Proof. intros (Hv&Hp&?) [P V]. split; [intros c Hc; destruct (P c Hc); eauto|]. by rewrite <- Hv. Qed.

Lemma published_kept_r target payload d1 d2 d3 :
  published target payload d1 d2 -> kept target d2 d3 -> published target payload d1 d3.
Proof. intros [P V] (Hv&Hp&?). split; [eauto|]. by rewrite Hv. Qed.

Lemma rename_published temporary target payload d r d' :
  rename_entry temporary target d = (r, d') ->
  synced d temporary -> vis d temporary = Some payload ->
  published target payload d d'.
Proof.
  intros (raw & E & _)%rename_entry_inv Hs Hv. split.
  - intros c Hc. destruct (rename_atomic _ _ _ _ _ _ E Hs Hc) as [?| ->]; eauto.
  - destruct raw as [[]|e].
    + right. apply rename_ok in E as [-> _]. done.
    + left. by eapply rename_err.
Qed.

Lemma publish_frame temporary target payload d r d' n :
  publish temporary target payload d = (r, d') ->
  n <> temporary -> n <> target -> kept n d d'.
Proof. unfold publish. intros E ? ?. split_cases; kept_by_frames. Qed.

Lemma publish_spec temporary target payload d r d' :
  publish temporary target payload d = (r, d') -> target <> temporary ->
  vis d temporary = Some [] ->
  published target payload d d' /\ (r = Ok tt -> durable target payload d').
Proof.
  unfold publish. intros E Hne Hv.
  destruct (write_all temporary payload d) as [[[]|e1] d1] eqn:E1; simplify_eq/=; last first.
  { split; [|done]. apply published_kept. kept_by_frames. }
  pose proof (write_ok _ _ _ _ _ E1 Hv) as Hv1.
  destruct (sync_file temporary d1) as [[[]|e2] d2] eqn:E2; simplify_eq/=; last first.
  { split; [|done]. apply published_kept. kept_by_frames. }
  pose proof (sync_file_ok _ _ _ E2) as Hs2.
  assert (Hv2 : vis d2 temporary = Some payload).
  { rewrite <- Hv1. apply sync_file_frame in E2. apply (E2 temporary), not_elem_of_nil. }
  assert (K : kept target d d2) by kept_by_frames.
  destruct (rename_entry temporary target d2) as [r3 d3] eqn:E3.
  pose proof (rename_published _ _ _ _ _ _ E3 Hs2 Hv2) as P3.
  destruct r3 as [[]|e3]; simplify_eq/=; last first.
  { split; [|done]. eauto using published_kept_l. }
  apply rename_entry_inv in E3 as ([[]|] & E3 & ?); [|done]. apply rename_ok in E3 as [Hv3 Hs3].
  destruct (sync_dir d3) as [r4 d4] eqn:E4.
  assert (K4 : kept target d3 d4) by kept_by_frames.
  assert (P : published target payload d d4)
    by eauto using published_kept_l, published_kept_r.
  destruct r4 as [[]|e4]; simplify_eq/=; [|done].
  split; [done|]. intros _. split.
  - destruct K4 as [-> _]. congruence.
  - intros c Hc. rewrite (sync_dir_ok _ _ _ _ E4 (Hs3 Hs2) Hc). congruence.
Qed.

Lemma commit_frame target s d r d' n :
  commit target s d = (r, d') -> n <> target -> is_temporary n = false -> kept n d d'.
Proof.
  unfold commit. intros E ? Hn.
  destruct (rand_bytes 8 d) as [[random|] d1] eqn:E1; [|simplify_eq; kept_by_frames].
  pose proof (temporary_ne n random Hn) as Ht. revert E Ht.
  generalize (temporary_name random). intros temporary E Ht.
  destruct (open_entry temporary temporary_flags 384 d1) as [[[]|] d2] eqn:E2; [|simplify_eq; kept_by_frames].
  destruct (fstat temporary d2) as [[metadata|] d3] eqn:E3; [|simplify_eq; kept_by_frames].
  destruct (validate_journal_metadata _ _ _); [|simplify_eq; kept_by_frames].
  destruct (publish temporary target _ d3) as [r4 d4] eqn:E4.
  apply (publish_frame _ _ _ _ _ _ n) in E4; [|done..].
  destruct (is_err r4); [|simplify_eq; kept_by_frames].
  destruct (unlink_entry temporary d4) as [r5 d5] eqn:E5. simplify_eq. kept_by_frames.
Qed.

Lemma commit_spec target s d r d' :
  commit target s d = (r, d') -> is_temporary target = false ->
  published target (encode_state s) d d' /\
  (r = Ok tt -> durable target (encode_state s) d').
Proof.
  unfold commit. intros E Hn.
  destruct (rand_bytes 8 d) as [[random|] d1] eqn:E1;
    [|simplify_eq; split; [apply published_kept; kept_by_frames|done]].
  pose proof (temporary_ne target random Hn) as Ht. revert E Ht.
  generalize (temporary_name random). intros temporary E Ht.
  destruct (open_entry temporary temporary_flags 384 d1) as [[[]|] d2] eqn:E2;
    [|simplify_eq; split; [apply published_kept; kept_by_frames|done]].
  pose proof (create_ok _ _ _ _ E2 eq_refl) as Hv2.
  destruct (fstat temporary d2) as [[metadata|] d3] eqn:E3;
    [|simplify_eq; split; [apply published_kept; kept_by_frames|done]].
  destruct (validate_journal_metadata _ _ _);
    [|simplify_eq; split; [apply published_kept; kept_by_frames|done]].
  assert (Hv3 : vis d3 temporary = Some []).
  { rewrite <- Hv2. apply fstat_frame in E3. apply (E3 temporary), not_elem_of_nil. }
  assert (K : kept target d d3) by kept_by_frames.
  destruct (publish temporary target _ d3) as [r4 d4] eqn:E4.
  apply publish_spec in E4 as [P4 D4]; [|done..].
  destruct r4 as [[]|e4]; simpl in *.
  - simplify_eq. split; [eauto using published_kept_l|done].
  - destruct (unlink_entry temporary d4) as [r5 d5] eqn:E5. simplify_eq.
    assert (K5 : kept target d4 d') by kept_by_frames.
    split; [eauto using published_kept_l, published_kept_r|done].
Qed.
End Commit.

Section FileJournalLaws.
Context {D : Type} `{JournalDirLaws D}.

(** Every content a crash may leave in the marker is a pending record. *)
Definition marker_latched (d : D) : Prop :=
  forall c, possible d PENDING_FILE c ->
    exists action, c = Some (encode_state (JournalState.Pending action)).

Definition file_latched (j : FileUncertaintyJournal D) : Prop :=
  marker_latched (directory j).

Lemma marker_latched_kept d d' : kept PENDING_FILE d d' -> marker_latched d -> marker_latched d'.
Proof. intros (_&Hp&_) Hl c Hc. eauto. Qed.

Lemma commit_pending d action r d' :
  commit PENDING_FILE (JournalState.Pending action) d = (r, d') ->
  (marker_latched d -> marker_latched d') /\ (r = Ok tt -> marker_latched d').
Proof.
  intros E. apply commit_spec in E as [[P _] Hd]; [|done]. split.
  - intros Hl c Hc. destruct (P c Hc) as [?| ->]; eauto.
  - intros Hr. destruct (Hd Hr) as [_ Hp]. intros c Hc. eauto.
Qed.

Lemma commit_journal d s r d' :
  commit JOURNAL_FILE s d = (r, d') -> kept PENDING_FILE d d'.
Proof. intros E. by eapply commit_frame. Qed.

Lemma file_mark_pending_spec a j r j' :
  file_mark_pending a j = (r, j') ->
  state j' = JournalState.Pending a /\ (file_latched j -> file_latched j') /\
  (r = Ok tt -> file_latched j').
Proof.
  unfold file_mark_pending, file_latched. intros E.
  destruct (commit PENDING_FILE _ _) as [r1 d1] eqn:E1.
  apply commit_pending in E1 as [L1 O1].
  destruct r1 as [[]|e1]; simplify_eq/=; [|by eauto].
  destruct (commit JOURNAL_FILE _ d1) as [r2 d2] eqn:E2.
  apply commit_journal in E2. pose proof (marker_latched_kept _ _ E2).
  destruct r2 as [[]|e2]; simplify_eq/=; split_and!; eauto; done.
Qed.

Lemma file_clear_err_spec j e j' :
  file_clear j = (Err e, j') ->
  state j' = state j /\ (file_latched j -> file_latched j').
Proof.
  unfold file_clear, file_latched. intros E.
  destruct (commit JOURNAL_FILE _ _) as [r1 d1] eqn:E1.
  apply commit_journal in E1. pose proof (marker_latched_kept _ _ E1).
  destruct r1 as [[]|e1]; simplify_eq/=; [|done].
  destruct (unlink_entry PENDING_FILE d1) as [[[]|[]] d2] eqn:E2; simplify_eq/=.
  split; [done|]. intros Hl. apply unlink_err in E2.
  apply (marker_latched_kept d1); [|eauto]. eapply kept_of; [exact E2|apply not_elem_of_nil].
Qed.

Lemma file_clear_ok_spec j j' :
  file_clear j = (Ok tt, j') ->
  state j' = JournalState.Clean /\ vis (directory j') PENDING_FILE = None /\
  vis (directory j') JOURNAL_FILE = Some clean_text.
Proof.
  unfold file_clear. intros E.
  destruct (commit JOURNAL_FILE _ _) as [[[]|e1] d1] eqn:E1; simplify_eq/=.
  apply commit_spec in E1 as [_ E1]; [|done]. destruct (E1 eq_refl) as [Hv _].
  destruct (unlink_entry PENDING_FILE d1) as [r d2] eqn:E2.
  assert (Hj : vis d2 JOURNAL_FILE = Some clean_text).
  { destruct (unlink_frame _ _ _ _ E2 JOURNAL_FILE) as [-> _]; [|done].
    by apply not_elem_of_cons; split; [|apply not_elem_of_nil]. }
  destruct r as [[]|[]]; simplify_eq/=; eauto using unlink_ok, unlink_missing.
Qed.

#[export] Instance FileUncertaintyJournal_laws
  : UncertaintyJournalLaws (FileUncertaintyJournal D).
Proof.
  refine {| latched := file_latched |}; simpl.
  - intros a j j' E. apply file_mark_pending_spec in E as (Hs&_&Hl).
    unfold file_is_pending. rewrite Hs. eauto.
  - intros a j e j' E. apply file_mark_pending_spec in E as (Hs&Hl&_).
    unfold file_is_pending at 2. rewrite Hs. eauto.
  - intros j j' E. apply file_clear_ok_spec in E as (Hs&_).
    unfold file_is_pending. by rewrite Hs.
  - intros j e j' E. apply file_clear_err_spec in E as [Hs Hl].
    unfold file_is_pending. by rewrite Hs.
Defined.

(** ** Reading the records back *)

Lemma read_state_frame n m d r d' : read_state m d = (r, d') -> kept n d d'.
Proof.
  unfold read_state. intros E.
  destruct (open_entry m record_flags 0 d) as [[[]|[]] d1] eqn:E1; simplify_eq;
    try (eapply kept_of; [by eapply read_open_frame|apply not_elem_of_nil]).
  assert (K1 : kept n d d1) by
    (eapply kept_of; [by eapply read_open_frame|apply not_elem_of_nil]).
  destruct (fstat m d1) as [[metadata|] d2] eqn:E2;
    (assert (K2 : kept n d d2) by
      (eapply kept_trans; [exact K1|eapply kept_of;
        [by eapply fstat_frame|apply not_elem_of_nil]])); [|by simplify_eq].
  destruct (validate_journal_metadata _ _ _); [|by simplify_eq].
  destruct (read_to_string m _ d2) as [[p|] d3] eqn:E3;
    (assert (K3 : kept n d d3) by
      (eapply kept_trans; [exact K2|eapply kept_of;
        [by eapply read_frame|apply not_elem_of_nil]]));
    repeat case_match; by simplify_eq.
Qed.

(** A record is read only as the exact text of that state. *)
Lemma read_state_spec m d o d' :
  read_state m d = (Ok o, d') -> vis d m = encode_state <$> o.
Proof.
  unfold read_state. intros E.
  destruct (open_entry m record_flags 0 d) as [[[]|[]] d1] eqn:E1; simplify_eq/=;
    [|by eapply read_open_missing].
  destruct (fstat m d1) as [[metadata|] d2] eqn:E2; [|by simplify_eq].
  destruct (validate_journal_metadata _ _ _); [|by simplify_eq].
  destruct (read_to_string m _ d2) as [[p|] d3] eqn:E3; [|by simplify_eq].
  apply read_ok in E3 as (content & Hv & ->).
  assert (Hvis : vis d m = Some content).
  { rewrite <- Hv. symmetry. transitivity (vis d1 m).
    - eapply fstat_frame; [exact E2|apply not_elem_of_nil].
    - eapply read_open_frame; [exact E1|done|apply not_elem_of_nil]. }
  case_match eqn:Hl; [by simplify_eq|]. apply Nat.ltb_ge in Hl.
  rewrite length_take in Hl. unfold MAX_JOURNAL_BYTES in Hl.
  rewrite take_ge in E by lia.
  destruct (parse_state content) as [s|] eqn:Hp; simplify_eq/=.
  apply encode_parse in Hp as ->. done.
Qed.
End FileJournalLaws.

(** * Crash safety *)

Section CrashSafety.
Context {D : Type} `{JournalDirLaws D}.

(** What is in a directory just after a host start is durable. *)
Definition booted (d : D) : Prop := forall n c, possible d n c -> c = vis d n.

(** The host crashed at [d] and restarted with [d0]. *)
Definition crashed (d d0 : D) : Prop :=
  booted d0 /\ forall n, possible d n (vis d0 n).

(** The process stopped at [d] and restarted; the host kept running. *)
Definition restarted (d d0 : D) : Prop := forall n, kept n d d0.

(** Steps that do not resolve a pending action: marking another one,
    successfully or not, and failing to clear. *)
Inductive unresolved_step : FileUncertaintyJournal D -> FileUncertaintyJournal D -> Prop :=
| unresolved_mark a r j j' :
    file_mark_pending a j = (r, j') -> unresolved_step j j'
| unresolved_clear e j j' :
    file_clear j = (Err e, j') -> unresolved_step j j'.

Lemma unresolved_step_latched j j' :
  unresolved_step j j' -> file_latched j -> file_latched j'.
Proof.
  destruct 1 as [a r j j' E|e j j' E].
  - apply file_mark_pending_spec in E as (_&?&_). done.
  - apply file_clear_err_spec in E as (_&?). done.
Qed.

Lemma unresolved_steps_latched j j' :
  rtc unresolved_step j j' -> file_latched j -> file_latched j'.
Proof. induction 1; eauto using unresolved_step_latched. Qed.

Lemma open_records_marker d j d' action :
  open_records d = (Ok j, d') ->
  vis d PENDING_FILE = Some (encode_state (JournalState.Pending action)) ->
  kept PENDING_FILE d (directory j) /\ state j = JournalState.Pending action.
Proof.
  unfold open_records. intros E Hv.
  destruct (read_state JOURNAL_FILE d) as [[snapshot|] d1] eqn:E1; [|done].
  pose proof (read_state_frame PENDING_FILE _ _ _ _ E1) as K1.
  destruct (read_state PENDING_FILE d1) as [[marker|] d2] eqn:E2; [|done].
  pose proof (read_state_frame PENDING_FILE _ _ _ _ E2) as K2.
  apply read_state_spec in E2. destruct K1 as (Hv1&?&?). rewrite Hv1, Hv in E2.
  destruct marker as [s|]; simplify_eq/=. apply encode_inj in E2 as <-.
  simplify_eq/=. split; [|done]. eapply kept_trans; [|exact K2]. by repeat split.
Qed.

Lemma open_records_booted d j d' :
  open_records d = (Ok j, d') -> booted d -> file_is_pending j = true -> file_latched j.
Proof.
  unfold open_records. intros E Hb Hp.
  destruct (read_state JOURNAL_FILE d) as [[snapshot|] d1] eqn:E1; [|done].
  pose proof (read_state_frame PENDING_FILE _ _ _ _ E1) as K1.
  destruct (read_state PENDING_FILE d1) as [[marker|] d2] eqn:E2; [|done].
  pose proof (kept_trans _ _ _ _ K1 (read_state_frame PENDING_FILE _ _ _ _ E2)) as K2.
  apply read_state_spec in E2. destruct K1 as (Hv1&_&_). rewrite Hv1 in E2.
  destruct marker as [[|action]|]; simplify_eq/=.
  - intros c Hc. destruct K2 as (_&Hposs&_). apply Hposs, Hb in Hc. rewrite E2 in Hc. eauto.
  - destruct snapshot as [[|action]|]; simplify_eq/=.
    destruct (commit PENDING_FILE _ d2) as [r3 d3] eqn:E3.
    apply commit_pending in E3 as [_ Hl]. destruct r3 as [[]|]; simplify_eq/=.
    by apply Hl.
Qed.

(** Opening a directory that lists no marker and a clean or absent snapshot. *)
Lemma open_records_clean d j d' :
  open_records d = (Ok j, d') -> file_is_pending j = false ->
  vis d PENDING_FILE = None /\
  (vis d JOURNAL_FILE = None \/ vis d JOURNAL_FILE = Some clean_text).
Proof.
  unfold open_records, file_is_pending. intros E Hp.
  destruct (read_state JOURNAL_FILE d) as [[snapshot|] d1] eqn:E1; [|done].
  destruct (read_state_frame PENDING_FILE _ _ _ _ E1) as (Hv1&_&_).
  apply read_state_spec in E1.
  destruct (read_state PENDING_FILE d1) as [[marker|] d2] eqn:E2; [|done].
  apply read_state_spec in E2. rewrite Hv1 in E2.
  destruct marker as [[|action]|]; simplify_eq/=.
  split; [done|]. destruct snapshot as [[|action]|]; simplify_eq/=; [by right| |by left].
  destruct (commit PENDING_FILE _ d2) as [[|] ?]; simplify_eq/=.
Qed.

Lemma open_records_no_pending d j d' :
  open_records d = (Ok j, d') ->
  vis d PENDING_FILE = None -> vis d JOURNAL_FILE = Some clean_text ->
  state j = JournalState.Clean.
Proof.
  unfold open_records. intros E Hm Hj.
  destruct (read_state JOURNAL_FILE d) as [[snapshot|] d1] eqn:E1; [|done].
  destruct (read_state_frame PENDING_FILE _ _ _ _ E1) as (Hv1&_&_).
  apply read_state_spec in E1.
  destruct (read_state PENDING_FILE d1) as [[marker|] d2] eqn:E2; [|done].
  apply read_state_spec in E2. rewrite Hv1, Hm in E2.
  destruct marker as [s|]; [done|]. rewrite Hj in E1.
  destruct snapshot as [s|]; [|done]. injection E1 as E1.
  apply (encode_inj JournalState.Clean) in E1 as <-. by simplify_eq/=.
Qed.

(** A restart of the process alone sees what the calls left. *)
Lemma restarted_vis d d0 n : restarted d d0 -> vis d0 n = vis d n.
Proof. intros Hr. apply (Hr n). Qed.

(** ** Properties *)

(** The text of a journal record is canonical: a payload parses to a state
    exactly when it is the encoding of that state, so encoding and parsing
    are inverse and no other text is accepted. *)
Theorem parse_state_exact (payload : bytes) (s : JournalState.t) :
  parse_state payload = Some s <-> payload = encode_state s.
Proof.
  split; [apply encode_parse|]. intros ->. apply parse_encode.
Qed.

(** A latched journal survives a crash. *)
Lemma latched_survives_crash j2 d0 j3 d3 :
  file_latched j2 -> crashed (directory j2) d0 -> open_records d0 = (Ok j3, d3) ->
  file_is_pending j3 = true /\ file_latched j3.
Proof.
  intros Hl [Hb Hc] Ho. destruct (Hl _ (Hc PENDING_FILE)) as [b Hv].
  assert (Hp : file_is_pending j3 = true).
  { unfold file_is_pending. by destruct (open_records_marker _ _ _ _ Ho Hv) as [_ ->]. }
  split; [done|]. by eapply open_records_booted.
Qed.

(** C3 Once [mark_pending] has succeeded, no sequence of further marks and
    failing clears followed by a host crash lets the service reopen the
    journal as clean: if it opens at all it is pending and latched again. *)
Theorem mark_survives_crash a j j1 j2 d0 j3 d3 :
  file_mark_pending a j = (Ok tt, j1) ->
  rtc unresolved_step j1 j2 ->
  crashed (directory j2) d0 ->
  open_records d0 = (Ok j3, d3) ->
  file_is_pending j3 = true /\ file_latched j3.
Proof.
  intros Hm Hs. apply file_mark_pending_spec in Hm as (_&_&Hl).
  eauto using latched_survives_crash, unresolved_steps_latched.
Qed.

(** Opening is fail-closed. A journal opened as clean had no marker and
    a clean or absent snapshot; one opened as pending from a directory that
    is wholly on disk is latched, a snapshot-only record of the one-file
    format having been migrated to a durable marker. *)
Theorem open_records_fail_closed d j d' :
  open_records d = (Ok j, d') ->
  (file_is_pending j = false ->
     vis d PENDING_FILE = None /\
     (vis d JOURNAL_FILE = None \/ vis d JOURNAL_FILE = Some clean_text)) /\
  (file_is_pending j = true -> booted d -> file_latched j).
Proof.
  intros Ho. split; intros.
  - by eapply open_records_clean.
  - by eapply open_records_booted.
Qed.

(** After a successful clear, restarting the process on the directory the
    clear left opens a clean journal. *)
Theorem clear_restarts_clean j j1 d0 j2 d2 :
  file_clear j = (Ok tt, j1) ->
  restarted (directory j1) d0 ->
  open_records d0 = (Ok j2, d2) ->
  state j2 = JournalState.Clean.
Proof.
  intros Hc Hr Ho. apply file_clear_ok_spec in Hc as (_&Hm&Hj).
  rewrite <- (restarted_vis _ d0 PENDING_FILE Hr) in Hm.
  rewrite <- (restarted_vis _ d0 JOURNAL_FILE Hr) in Hj.
  by eapply open_records_no_pending.
Qed.
End CrashSafety.
