(* ===== verification/JournalSim.v ===== *)
(** A concrete directory: an in-memory file system with a fault plan, which
    satisfies the directory interface and its laws.  It instantiates the
    journal's parameter in the witnesses; it models no code of the program. *)
From S2P Require Import Prelude Bytes Journal.

(** [entries] is a log of the contents given to the entries, newest first;
    [past] holds the contents that were replaced since the last directory
    [fsync], any of which a crash may bring back.  [faults] makes the next
    modifying calls fail (head first). *)
Record SimDir := mkSimDir {
  entries : list (bytes * option bytes);
  past : list (bytes * option bytes);
  faults : list bool;
  counter : nat;
}.

Fixpoint look (n : bytes) (l : list (bytes * option bytes)) : option bytes :=
  match l with
  | [] => None
  | (m, c) :: l => if decide (m = n) then c else look n l
  end.

Definition sim_new (e : list (bytes * option bytes)) (f : list bool) : SimDir := mkSimDir e [] f 0.
Definition content_of (n : bytes) (d : SimDir) : option bytes := look n (entries d).

Definition fault (d : SimDir) : bool := default false (head (faults d)).
Definition tick (d : SimDir) : SimDir :=
  mkSimDir (entries d) (past d) (tail (faults d)) (S (counter d)).

Definition put (n : bytes) (c : option bytes) (d : SimDir) : SimDir :=
  mkSimDir ((n, c) :: entries d) ((n, content_of n d) :: past d) (faults d) (counter d).

(** A modifying call: fails without effect when the plan says so. *)
Definition guarded {R} (d : SimDir) (k : SimDir -> result R IoError.t * SimDir)
  : result R IoError.t * SimDir :=
  if fault d then (Err IoError.Other, tick d) else k (tick d).

Definition sim_metadata (content : bytes) : Metadata :=
  mkMetadata FileType.Regular 0 384 1 (Z.of_nat (length content)).

#[export] Instance SimDir_dir : JournalDir SimDir := {
  geteuid _ := 0%Z;
  rand_bytes k d := (Ok (replicate k (z2b (Z.of_nat (counter d)))), tick d);
  openat n how d :=
    if creates_new how then guarded d (fun d =>
      match content_of n d with
      | Some _ => (Err IoError.Other, d)
      | None => (Ok tt, put n (Some []) d)
      end)
    else
      match content_of n d with
      | Some _ => (Ok tt, d) | None => (Err IoError.NotFound, d)
      end;
  fstat n d :=
    match content_of n d with
    | Some c => (Ok (sim_metadata c), d) | None => (Err IoError.Other, d)
    end;
  write_all n p d := guarded d (fun d =>
    match content_of n d with
    | Some c => (Ok tt, put n (Some (c ++ p)) d) | None => (Err IoError.Other, d)
    end);
  sync_file _ d := guarded d (fun d => (Ok tt, d));
  renameat n m d := guarded d (fun d =>
    match content_of n d with
    | Some c => (Ok tt, put m (Some c) (if decide (n = m) then d else put n None d))
    | None => (Err IoError.NotFound, d)
    end);
  unlinkat n _ d := guarded d (fun d =>
    match content_of n d with
    | Some _ => (Ok tt, put n None d) | None => (Err IoError.NotFound, d)
    end);
  sync_dir d := guarded d (fun d => (Ok tt, mkSimDir (entries d) [] (faults d) (counter d)));
  read_to_string n k d :=
    match content_of n d with
    | Some c => (Ok (take k c), d) | None => (Err IoError.Other, d)
    end;
  dir_metadata d := (Ok (mkMetadata FileType.Directory 0 448 2 0), d);
}.

Definition sim_possible (d : SimDir) (n : bytes) (c : option bytes) : Prop :=
  c = content_of n d \/ (n, c) ∈ past d.

(** Shared by the frame laws: [put] touches one entry. *)
Lemma content_put n c d m :
  content_of m (put n c d) = if decide (n = m) then c else content_of m d.
Proof. done. Qed.

Lemma content_put_eq n c d : content_of n (put n c d) = c.
Proof. rewrite content_put. by rewrite decide_True. Qed.

Lemma possible_put n c d m x :
  sim_possible (put n c d) m x -> n = m /\ x = c \/ sim_possible d m x.
Proof.
  unfold sim_possible. rewrite content_put. simpl.
  intros [Hx|[Hx|Hx]%elem_of_cons]; simplify_eq; [case_decide|..]; auto.
Qed.

Definition sim_untouched (ns : list bytes) (d d' : SimDir) : Prop :=
  forall n, n ∉ ns ->
    content_of n d' = content_of n d /\
    (forall c, sim_possible d' n c -> sim_possible d n c) /\ (True -> True).

Lemma sim_untouched_refl ns d d' :
  entries d' = entries d -> past d' = past d \/ past d' = [] -> sim_untouched ns d d'.
Proof.
  intros He Hp n _. unfold sim_possible, content_of. rewrite He.
  split_and!; [done| |done]. intros c [?|Hc]; [by left|].
  destruct Hp as [E|E]; rewrite E in Hc; [by right|by apply elem_of_nil in Hc].
Qed.

Lemma sim_untouched_put n ns c d0 d :
  n ∈ ns -> sim_untouched ns d0 d -> sim_untouched ns d0 (put n c d).
Proof.
  intros Hin Hu m Hm. destruct (Hu m Hm) as (He & Hp & _). assert (n <> m) by congruence.
  split_and!; [rewrite content_put; by rewrite decide_False| |done].
  intros x [[??]|Hx]%possible_put; [done|auto].
Qed.

Lemma reads_create_nothing how : reads_only how = true -> creates_new how = false.
Proof.
  unfold reads_only, creates_new. intros E%Z.eqb_eq. apply Z.eqb_neq. intros Ec.
  apply (f_equal (fun x => Z.land x O_CREAT)) in E. apply (f_equal (fun x => Z.land x O_CREAT)) in Ec.
  rewrite <- Z.land_assoc in E, Ec.
  change (Z.land (how_flags how) O_CREAT = 0%Z) in E.
  change (Z.land (how_flags how) O_CREAT = O_CREAT) in Ec.
  by rewrite E in Ec.
Qed.

(** Unfolds the simulated calls in the hypotheses and splits their cases. *)
Ltac sim_cases :=
  repeat match goal with
  | E : reads_only _ = true |- _ => apply reads_create_nothing in E
  end;
  simpl in *; unfold guarded in *; simplify_eq/=; repeat (case_match; simplify_eq/=).
Ltac sim_frame :=
  intros;
  match goal with
  | Hm : ?m ∉ ?ns |- content_of ?m ?d' = content_of ?m ?d /\ _ =>
      revert m Hm; change (sim_untouched ns d d')
  end;
  sim_cases;
  repeat (apply sim_untouched_put; [by repeat first [left|right]|]);
  apply sim_untouched_refl; simpl; auto.

#[export] Instance SimDir_laws : JournalDirLaws SimDir.
Proof.
  refine {| vis d n := content_of n d; possible := sim_possible; synced d n := True |}.
  all: try by sim_frame.
  - intros n how d d' E Hc. sim_cases. apply content_put_eq.
  - intros n how d d' E Hc. sim_cases. eauto.
  - intros n how d d' E Hc. by sim_cases.
  - intros n k d p d' E. sim_cases. eauto.
  - intros n p d d' content E Hv. sim_cases. rewrite content_put_eq.
    change (content_of n d = Some l) in H0. congruence.
  - done.
  - intros n m d r d' c E _ Hc. sim_cases; auto;
      apply possible_put in Hc as [[_ ->]|Hc]; auto.
    apply possible_put in Hc as [[? _]|Hc]; [congruence|auto].
  - intros n m d d' E. sim_cases; (split; [by rewrite content_put_eq|done]).
  - intros n m d e d' E. by sim_cases.
  - intros d d' n c E _ [Hc|Hc]; sim_cases; [done|].
    by apply elem_of_nil in Hc.
  - intros n d d' E. sim_cases. apply content_put_eq.
  - intros n d d' E. by sim_cases.
Defined.

(** * Witnesses *)

(** A mark (two commits of six calls each), then a clear whose directory
    [fsync] fails, so that the clean snapshot is already in place, then a
    crash. *)
Definition fresh_journal (f : list bool) : FileUncertaintyJournal SimDir :=
  mkFileJournal (sim_new [] f) JournalState.Clean.
Definition marked : FileUncertaintyJournal SimDir :=
  snd (file_mark_pending JournalAction.Start (fresh_journal (replicate 17 false ++ [true]))).
Definition failed_clear : FileUncertaintyJournal SimDir := snd (file_clear marked).
Definition rebooted (d : SimDir) : SimDir := sim_new (entries d) [].

Lemma booted_sim_new e f : booted (sim_new e f).
Proof. intros n c [Hc|Hc]; [done|]. by apply elem_of_nil in Hc. Qed.

Lemma crashed_rebooted d : crashed d (rebooted d).
Proof. split; [apply booted_sim_new|]. intros n. by left. Qed.

Lemma mark_survives_crash_witness :
  is_err (fst (file_clear marked)) = true /\
  file_is_pending (default marked (result_ok (fst (open_records (rebooted (directory failed_clear)))))) = true.
Proof.
  split; [by vm_compute|].
  refine (proj1 (mark_survives_crash JournalAction.Start
    (fresh_journal (replicate 17 false ++ [true])) marked failed_clear
    (rebooted (directory failed_clear)) _
    (snd (open_records (rebooted (directory failed_clear)))) _ _ (crashed_rebooted _) _)).
  - by vm_compute.
  - eapply rtc_l; [|apply rtc_refl]. apply (unresolved_clear JournalError.JournalWriteFailed).
    by vm_compute.
  - by vm_compute.
Defined.

(** A directory written by the one-file format is migrated when opened. *)
Definition legacy_dir : SimDir :=
  sim_new [(JOURNAL_FILE, Some (encode_state (JournalState.Pending JournalAction.Stop)))] [].

Lemma open_records_fail_closed_witness :
  exists j d, open_records legacy_dir = (Ok j, d) /\ file_latched j.
Proof.
  eexists _, _. split; [by vm_compute|].
  eapply (open_records_fail_closed legacy_dir); [by vm_compute|by vm_compute|apply booted_sim_new].
Defined.

Definition cleared : FileUncertaintyJournal SimDir :=
  snd (file_clear (snd (file_mark_pending JournalAction.Start (fresh_journal [])))).

Lemma clear_restarts_clean_witness :
  exists j d, open_records (directory cleared) = (Ok j, d) /\ state j = JournalState.Clean.
Proof.
  eexists _, _. split; [by vm_compute|].
  eapply (clear_restarts_clean
    (snd (file_mark_pending JournalAction.Start (fresh_journal []))) cleared
    (directory cleared)).
  - by vm_compute.
  - intros n. apply kept_refl.
  - by vm_compute.
Defined.
