(* ===== verification/Model.v ===== *)
(** The device model (rust/src/model.rs): normalized Bluetooth identities, the
    sanitized device and group projections, and the JSON values they are read
    from.  The JSON parser itself is third-party code; the values it returns
    are [Value]. *)
From S2P Require Import Prelude Bytes.

(** * Errors (rust/src/error.rs) *)

Module JblError.
Inductive t :=
| ConfigUnavailable | ConfigPermissions | ConfigTooLarge | InvalidConfig
| MissingSetting (name : bytes) | InvalidTimeout | InvalidAddress
| CertificateUnavailable | CertificatePermissions
| PrivateKeyUnavailable | PrivateKeyPermissions
| InvalidTlsFingerprint | InvalidClientIdentity
| CredentialFileInvalid | CredentialTooLarge
| TlsConfiguration | PeerCertificateMismatch | NetworkUnreachable
| HttpStatus (code : Z) | ResponseTooLarge | InvalidJson | InvalidXml
| BasicResponseNotObject | BasicResponseCodeMissing | BasicResponseCodeInvalid
| ControlCommandRejected | DeviceInfoMissing | ControlDeviceInfoMissing
| UnexpectedDeviceModel | DeviceReportedError
| GroupInfoMissing | GroupMembersMissing | GroupDisabledInvalid | GroupMemberInvalid
| InvalidArguments | OutputFailed.
#[global] Instance eq_dec : EqDecision t. Proof. solve_decision. Defined.

Definition display (e : t) : bytes :=
  match e with
  | ConfigUnavailable => str "private configuration is unavailable"
  | ConfigPermissions => str "private configuration permissions allow another POSIX user"
  | ConfigTooLarge => str "private configuration exceeded the size limit"
  | InvalidConfig => str "private configuration is invalid"
  | MissingSetting name => str "missing setting: " ++ name
  | InvalidTimeout => str "JBL local API timeout must be 1 through 30 seconds"
  | InvalidAddress => str "device address must be an IP literal"
  | CertificateUnavailable => str "client certificate is unavailable"
  | CertificatePermissions => str "client certificate permissions allow another POSIX user"
  | PrivateKeyUnavailable => str "client private key is unavailable"
  | PrivateKeyPermissions => str "client private key permissions allow another POSIX user"
  | InvalidTlsFingerprint =>
      str "server TLS fingerprint must contain exactly 64 hexadecimal digits"
  | InvalidClientIdentity => str "client certificate or private key is invalid"
  | CredentialFileInvalid => str "client credential must be an owner-only regular file"
  | CredentialTooLarge => str "client credential exceeded the size limit"
  | TlsConfiguration => str "TLS configuration failed"
  | PeerCertificateMismatch => str "server TLS certificate fingerprint did not match"
  | NetworkUnreachable => str "JBL local API is unreachable"
  | HttpStatus _ => str "JBL local API returned an unsuccessful HTTP status"
  | ResponseTooLarge => str "JBL local API response exceeded the size limit"
  | InvalidJson => str "JBL local API returned invalid JSON"
  | InvalidXml => str "JBL UPnP service returned invalid XML"
  | BasicResponseNotObject => str "JBL control response was not a JSON object"
  | BasicResponseCodeMissing => str "JBL control response omitted error_code"
  | BasicResponseCodeInvalid => str "JBL control response contained invalid error_code"
  | ControlCommandRejected => str "JBL rejected the control command"
  | DeviceInfoMissing => str "JBL device information is missing"
  | ControlDeviceInfoMissing => str "JBL model identity is missing"
  | UnexpectedDeviceModel => str "the discovered JBL model did not match configuration"
  | DeviceReportedError => str "JBL reported a command error"
  | GroupInfoMissing => str "JBL group information is missing"
  | GroupMembersMissing => str "JBL group members are missing"
  | GroupDisabledInvalid => str "JBL group disabled state is missing or invalid"
  | GroupMemberInvalid => str "JBL group member data is invalid"
  | InvalidArguments => str "invalid command-line arguments"
  | OutputFailed => str "command output could not be written"
  end.
End JblError.

(** * JSON values *)

(** [serde_json::Number]: an unsigned or a negative 64-bit integer, or a
    float. *)
Module Number.
Inductive t := PosInt (n : Z) | NegInt (n : Z) | Float.
#[global] Instance eq_dec : EqDecision t. Proof. solve_decision. Defined.

Definition as_i64 (n : t) : option Z :=
  match n with
  | PosInt n => if (n <=? 9223372036854775807)%Z then Some n else None
  | NegInt n => Some n
  | Float => None
  end.
Definition as_u64 (n : t) : option Z :=
  match n with PosInt n => Some n | NegInt _ | Float => None end.
End Number.

Module Value.
#[warnings="-register-all"]
Inductive t :=
| Null | Bool (b : bool) | Number (n : Number.t) | String (s : bytes)
| Array (items : list t) | Object (fields : list (bytes * t)).

Definition as_str (v : t) : option bytes :=
  match v with String s => Some s | _ => None end.
Definition as_bool (v : t) : option bool :=
  match v with Bool b => Some b | _ => None end.
Definition as_array (v : t) : option (list t) :=
  match v with Array items => Some items | _ => None end.
Definition as_object (v : t) : option (list (bytes * t)) :=
  match v with Object fields => Some fields | _ => None end.
End Value.

(** [Map::get] and [Value::get]. *)
Fixpoint field (key : bytes) (fields : list (bytes * Value.t)) : option Value.t :=
  match fields with
  | [] => None
  | (k, v) :: rest => if decide (k = key) then Some v else field key rest
  end.
(** [.get(key).and_then(f)]. *)
Definition field_as {T} (f : Value.t -> option T) (key : bytes)
    (fields : list (bytes * Value.t)) : option T :=
  match field key fields with Some v => f v | None => None end.
Definition value_get (key : bytes) (v : Value.t) : option Value.t :=
  Value.as_object v ≫= field key.

(** * Device identities *)

(** [DeviceIdentity([u8; 6])]. *)
Inductive DeviceIdentity := mkDeviceIdentity (o0 o1 o2 o3 o4 o5 : byte).
#[global] Instance DeviceIdentity_eq_dec : EqDecision DeviceIdentity.
Proof. solve_decision. Defined.

Definition binary (identity : DeviceIdentity) : bytes :=
  let 'mkDeviceIdentity a b c d e f := identity in [a; b; c; d; e; f].

Definition hex_nibble (c : byte) : option Z :=
  if in_range 48 57 c then Some (b2z c - 48)%Z
  else if in_range 97 102 c then Some (b2z c - 97 + 10)%Z
  else if in_range 65 70 c then Some (b2z c - 65 + 10)%Z
  else None.

(** The 17-byte form: the separator at every third place, digits elsewhere. *)
Fixpoint strip_separators (separator : byte) (index : nat) (value : bytes)
  : option bytes :=
  match value with
  | [] => Some []
  | c :: rest =>
      if bool_decide (index = 2 \/ index = 5 \/ index = 8 \/ index = 11 \/ index = 14) then
        if bool_decide (c <> separator) then None
        else strip_separators separator (S index) rest
      else cons c <$> strip_separators separator (S index) rest
  end.

(** The twelve digits of either accepted form. *)
Definition identity_digits (value : bytes) : option bytes :=
  if (length value =? 12)%nat then Some value
  else if (length value =? 17)%nat then
    separator ← value !! 2;
    if bool_decide (separator = z2b 58 \/ separator = z2b 45)
    then strip_separators separator 0 value
    else None
  else None.

(** One octet from two digits: [(high << 4) | low]. *)
Definition hex_octet (high low : byte) : option byte :=
  h ← hex_nibble high; l ← hex_nibble low;
  Some (z2b (Z.lor (Z.shiftl h 4) l)).

Fixpoint hex_octets (digits : bytes) : option bytes :=
  match digits with
  | high :: low :: rest => o ← hex_octet high low; cons o <$> hex_octets rest
  | _ => Some []
  end.

Definition identity_parse (value : bytes) : option DeviceIdentity :=
  digits ← identity_digits (trim value);
  octets ← hex_octets digits;
  match octets with
  | [a; b; c; d; e; f] =>
      if bool_decide (octets = replicate 6 (z2b 0)) || negb (Z.land (b2z a) 1 =? 0)%Z
      then None
      else Some (mkDeviceIdentity a b c d e f)
  | _ => None
  end.

Definition from_member_id (value : bytes) : option DeviceIdentity :=
  if negb (length value =? 12)%nat then None else identity_parse value.

Definition matches_binary (identity : DeviceIdentity) (candidate : bytes) : bool :=
  bool_decide (candidate = binary identity).

Definition compact_config_value (identity : DeviceIdentity) : bytes :=
  concat (map hex_lower (binary identity)).

(** * Sanitized projections *)

Definition SUPPORTED_JBL_MODEL : bytes := str "JBL Authentics 300".
Definition JBL_PUBLIC_ROLE : bytes := str "JBL Authentics 300".
Definition AURA_PUBLIC_ROLE : bytes := str "Aura Studio 5".
Definition UNKNOWN : bytes := str "unknown".
Definition ALLOWED_CHANNELS : list bytes :=
  [str "front_left"; str "front_right"; str "left"; str "right"; str "mono"; str "stereo"].

Record DeviceInfo := mkDeviceInfo {
  info_name : option bytes; info_model : option bytes;
  firmware : option bytes; one_os_version : option bytes;
}.

Record GroupMember := mkGroupMember { member_name : bytes; channels : list bytes }.
#[global] Instance GroupMember_eq_dec : EqDecision GroupMember.
Proof. solve_decision. Defined.

Record GroupStatus := mkGroupStatus {
  expected_pair_configured : bool;
  disabled : option bool;
  member_count : nat;
  members : list GroupMember;
  group_error : option bytes;
}.

Record SanitizedStatus := mkSanitizedStatus {
  device : DeviceInfo; play_together : GroupStatus;
}.

Definition safe_version (value : option Value.t) : option bytes :=
  v ← value; s ← Value.as_str v;
  let raw := trim s in
  if bool_decide (raw = []) || (40 <? length raw)%nat
     || negb (forallb (fun c => is_ascii_alphanumeric c || contains_byte c (str ".-_")) raw)
  then None else Some raw.

Definition error_code_is_zero (value : option Value.t) : bool :=
  match value with
  | Some (Value.String code) => bool_decide (code = str "0")
  | Some (Value.Number code) => bool_decide (Number.as_i64 code = Some 0%Z)
  | _ => false
  end.

Definition parse_device_info (response : Value.t) : result DeviceInfo JblError.t :=
  if negb (error_code_is_zero (value_get (str "error_code") response))
  then Err JblError.DeviceReportedError
  else
    let? info := ok_or (value_get (str "device_info") response ≫= Value.as_object)
                       JblError.DeviceInfoMissing in
    Ok (mkDeviceInfo None None (safe_version (field (str "firmware") info))
          (safe_version (field (str "one_os_ver") info))).

(** [iterator.map(f).collect::<Result<Vec<_>, _>>()]: stops at the first error. *)
Fixpoint collect {A T E} (f : A -> result T E) (l : list A) : result (list T) E :=
  match l with
  | [] => Ok []
  | a :: l' => let? x := f a in let? xs := collect f l' in Ok (x :: xs)
  end.

Definition project_channel (raw_channel : Value.t) : result bytes JblError.t :=
  let? raw := ok_or (Value.as_str raw_channel) JblError.GroupMemberInvalid in
  let channel := to_ascii_lowercase (trim raw) in
  Ok (if bool_decide (channel ∈ ALLOWED_CHANNELS) then channel else UNKNOWN).

(** The name a member is projected under, with what it adds to [jbl_count] and
    to [aura_count]. *)
Definition project_name (expected_jbl expected_aura : DeviceIdentity)
    (raw_name : bytes) (raw_identity : DeviceIdentity) : bytes * nat * nat :=
  if bool_decide (raw_name = JBL_PUBLIC_ROLE /\ raw_identity = expected_jbl)
  then (JBL_PUBLIC_ROLE, 1, 0)
  else if bool_decide (raw_name = AURA_PUBLIC_ROLE /\ raw_identity = expected_aura)
  then (AURA_PUBLIC_ROLE, 0, 1)
  else (UNKNOWN, 0, 0).

(** The body of the closure over the raw members. *)
Definition project_member (expected_jbl expected_aura : DeviceIdentity)
    (raw_member : Value.t) : result (GroupMember * nat * nat) JblError.t :=
  let invalid := JblError.GroupMemberInvalid in
  let? member := ok_or (Value.as_object raw_member) invalid in
  let? raw_name := ok_or
    (match field_as Value.as_str (str "device_name") member with
     | Some [] => None | o => o end) invalid in
  let? raw_identity := ok_or
    (field_as Value.as_str (str "id") member ≫= from_member_id) invalid in
  let '(name, jbl, aura) :=
    project_name expected_jbl expected_aura raw_name raw_identity in
  let? raw_channels := ok_or (field_as Value.as_array (str "channel") member) invalid in
  let? projected := collect project_channel raw_channels in
  Ok (mkGroupMember name projected, jbl, aura).

Definition parse_group_status (response : Value.t)
    (expected_jbl_identity expected_aura_identity : DeviceIdentity)
  : result GroupStatus JblError.t :=
  if decide (expected_jbl_identity = expected_aura_identity) then Err JblError.InvalidConfig
  else if negb (error_code_is_zero (value_get (str "error_code") response))
  then Err JblError.DeviceReportedError
  else
    let? group := ok_or (value_get (str "group_info") response ≫= Value.as_object)
                        JblError.GroupInfoMissing in
    let? raw_members := ok_or (field_as Value.as_array (str "members") group)
                              JblError.GroupMembersMissing in
    if negb (length raw_members =? 2)%nat then Err JblError.GroupMemberInvalid
    else
    let? disabled := ok_or (field_as Value.as_bool (str "disabled") group)
                           JblError.GroupDisabledInvalid in
    let? projected := collect (project_member expected_jbl_identity expected_aura_identity)
                              raw_members in
    let members := map (fun '(m, _, _) => m) projected in
    let jbl_count := sum_list (map (fun '(_, jbl, _) => jbl) projected) in
    let aura_count := sum_list (map (fun '(_, _, aura) => aura) projected) in
    let configured :=
      (jbl_count =? 1)%nat && (aura_count =? 1)%nat && negb disabled in
    Ok (mkGroupStatus configured (Some disabled) (length members) members
          (if configured then None else Some (str "expected_pair_not_configured"))).

(** * Identities, lemmas *)

(** What the parser guarantees: unicast and not all zero. *)
Definition identity_valid (identity : DeviceIdentity) : Prop :=
  binary identity <> replicate 6 (z2b 0) /\
  match identity with mkDeviceIdentity o0 _ _ _ _ _ => Z.land (b2z o0) 1 = 0%Z end.

#[global] Instance identity_valid_dec identity : Decision (identity_valid identity).
Proof. destruct identity; unfold identity_valid; solve_decision. Defined.

Lemma hex_octet_lower (h l : byte) :
  match hex_octet h l with
  | Some o => hex_lower o = to_ascii_lowercase [h; l]
  | None => True
  end.
Proof.
  assert (E : forallb (fun h => forallb (fun l =>
      match hex_octet h l with
      | Some o => bool_decide (hex_lower o = to_ascii_lowercase [h; l])
      | None => true
      end) all_bytes) all_bytes = true) by (vm_compute; reflexivity).
  apply (forall_bytes _) with (c := h) in E. apply (forall_bytes _) with (c := l) in E.
  destruct (hex_octet h l); [by apply bool_decide_eq_true in E|done].
Qed.

Lemma hex_octet_hex_lower (o : byte) :
  hex_octet (hex_digit_lower (b2z o / 16)) (hex_digit_lower (b2z o mod 16)) = Some o.
Proof. by_all_bytes_eq o. Qed.

Lemma hex_nibble_lowercase (c : byte) : hex_nibble (to_ascii_lowercase1 c) = hex_nibble c.
Proof. by_all_bytes_eq c. Qed.

Lemma hex_octets_concat (octets : bytes) :
  hex_octets (concat (map hex_lower octets)) = Some octets.
Proof.
  induction octets as [|o octets IH]; [done|].
  cbn [map concat hex_lower app hex_octets].
  rewrite hex_octet_hex_lower. cbn [mbind option_bind]. by rewrite IH.
Qed.

Lemma hex_octets_lower (digits octets : bytes) :
  Nat.Even (length digits) ->
  hex_octets digits = Some octets -> concat (map hex_lower octets) = to_ascii_lowercase digits.
Proof.
  intros [n Hn]. revert digits octets Hn.
  induction n as [|n IH]; intros [|h [|l digits]] octets Hn; simpl in Hn; try lia.
  - by intros [= <-].
  - cbn [hex_octets]. pose proof (hex_octet_lower h l) as Ho.
    destruct (hex_octet h l) as [o|]; [|done]. simpl.
    destruct (hex_octets digits) as [os|] eqn:E; [|done]. simpl. intros [= <-].
    cbn [map concat]. rewrite Ho, (IH digits os) by (done || lia). done.
Qed.

Lemma hex_octets_lowercase (digits : bytes) :
  Nat.Even (length digits) -> hex_octets (to_ascii_lowercase digits) = hex_octets digits.
Proof.
  intros [n Hn]. revert digits Hn.
  induction n as [|n IH]; intros [|h [|l digits]] Hn; simpl in Hn; try lia; [done|].
  unfold to_ascii_lowercase. cbn [map hex_octets]. unfold hex_octet.
  rewrite !hex_nibble_lowercase. fold (to_ascii_lowercase digits).
  by rewrite (IH digits) by lia.
Qed.

Lemma length_compact identity : length (compact_config_value identity) = 12.
Proof. by destruct identity. Qed.

Lemma hex_lower_graphic (o : byte) : forallb is_ascii_graphic (hex_lower o) = true.
Proof. by_all_bytes o. Qed.

Lemma compact_graphic identity : forallb is_ascii_graphic (compact_config_value identity) = true.
Proof.
  unfold compact_config_value. induction (binary identity) as [|o os IH]; [done|].
  cbn [map concat]. by rewrite forallb_app, hex_lower_graphic, IH.
Qed.

(** The checks of the parser on six octets. *)
Lemma identity_checks (octets : bytes) identity :
  match octets with
  | [a; b; c; d; e; f] =>
      if bool_decide (octets = replicate 6 (z2b 0)) || negb (Z.land (b2z a) 1 =? 0)%Z
      then None
      else Some (mkDeviceIdentity a b c d e f)
  | _ => None
  end = Some identity <-> octets = binary identity /\ identity_valid identity.
Proof.
  unfold identity_valid. split.
  - intros E. split_cases. bool_hyps. done.
  - intros [-> [Hz Hu]]. destruct identity as [a b c d e f]. cbn [binary].
    rewrite bool_decide_eq_false_2 by done. cbn [orb].
    by rewrite Hu.
Qed.

Lemma identity_parse_digits (value digits : bytes) identity :
  identity_digits (trim value) = Some digits ->
  identity_parse value = Some identity <->
  hex_octets digits = Some (binary identity) /\ identity_valid identity.
Proof.
  intros E. unfold identity_parse. rewrite E. cbn [mbind option_bind].
  destruct (hex_octets digits) as [octets|]; [|split; [done|by intros [? _]]].
  cbn [mbind option_bind]. rewrite identity_checks. split; [by intros [-> ?]|].
  by intros [[= ->] ?].
Qed.

Lemma identity_digits_length (value digits : bytes) :
  identity_digits value = Some digits -> length value = 12 \/ length value = 17.
Proof. unfold identity_digits. intros. split_cases; bool_hyps; auto. Qed.

Lemma identity_digits_plain (value : bytes) :
  length value = 12 -> identity_digits value = Some value.
Proof. unfold identity_digits. by intros ->. Qed.

Lemma identity_parse_valid (value : bytes) identity :
  identity_parse value = Some identity -> identity_valid identity.
Proof.
  unfold identity_parse. destruct (identity_digits _) as [digits|]; [|done].
  cbn [mbind option_bind]. destruct (hex_octets digits) as [octets|]; [|done].
  cbn [mbind option_bind]. by intros [_ ?]%identity_checks.
Qed.

Lemma lowercase_graphic (v : bytes) :
  forallb is_ascii_graphic (to_ascii_lowercase v) = true -> forallb is_ascii_graphic v = true.
Proof.
  induction v as [|c v IH]; [done|]. unfold to_ascii_lowercase. cbn [map forallb].
  rewrite !andb_true_iff. intros [Hc Hv]. split; [|by apply IH].
  assert (Hi : implb (is_ascii_graphic (to_ascii_lowercase1 c)) (is_ascii_graphic c) = true)
    by (clear; by_all_bytes c).
  by rewrite Hc in Hi.
Qed.

(** The separated form of an identity, as addresses are usually written. *)
Definition separated_form (separator : byte) (octet : byte -> bytes) (d : DeviceIdentity) : bytes :=
  let 'mkDeviceIdentity a b c d e f := d in
  octet a ++ [separator] ++ octet b ++ [separator] ++ octet c ++ [separator] ++
  octet d ++ [separator] ++ octet e ++ [separator] ++ octet f.

Lemma hex_octet_hex_upper (o : byte) :
  hex_octet (hex_digit_upper (b2z o / 16)) (hex_digit_upper (b2z o mod 16)) = Some o.
Proof. by_all_bytes_eq o. Qed.

Lemma hex_upper_graphic (o : byte) : forallb is_ascii_graphic (hex_upper o) = true.
Proof. by_all_bytes o. Qed.

Lemma hex_octets_upper (octets : bytes) :
  hex_octets (concat (map hex_upper octets)) = Some octets.
Proof.
  induction octets as [|o octets IH]; [done|].
  cbn [map concat hex_upper app hex_octets].
  rewrite hex_octet_hex_upper. cbn [mbind option_bind]. by rewrite IH.
Qed.

(** A separated form has the digits of the compact form. *)
Lemma identity_digits_separated (separator : byte) (octet : byte -> bytes) d :
  separator = z2b 58 \/ separator = z2b 45 ->
  (forall o, exists h l, octet o = [h; l]) ->
  identity_digits (separated_form separator octet d) = Some (concat (map octet (binary d))).
Proof.
  intros Hs Ho. destruct d as [o0 o1 o2 o3 o4 o5]. unfold separated_form.
  destruct (Ho o0) as (?&?&E0), (Ho o1) as (?&?&E1), (Ho o2) as (?&?&E2),
    (Ho o3) as (?&?&E3), (Ho o4) as (?&?&E4), (Ho o5) as (?&?&E5).
  cbn [binary map concat]. rewrite E0, E1, E2, E3, E4, E5.
  unfold identity_digits. by destruct Hs as [->| ->].
Qed.

Lemma separated_graphic (separator : byte) (octet : byte -> bytes) d :
  is_ascii_graphic separator = true ->
  (forall o, forallb is_ascii_graphic (octet o) = true) ->
  forallb is_ascii_graphic (separated_form separator octet d) = true.
Proof.
  intros Hs Ho. destruct d. unfold separated_form. rewrite !forallb_app, !Ho.
  cbn [forallb]. by rewrite Hs.
Qed.

(** * Identities, properties *)

(** A group member's id is accepted exactly when it is, up to letter case,
    the compact text of a valid identity (unicast and not all zero), and it
    then denotes that identity: no other spelling is accepted, and the compact
    text a setup writes reads back as the same identity. *)
Theorem from_member_id_exact (value : bytes) (identity : DeviceIdentity) :
  from_member_id value = Some identity <->
  identity_valid identity /\ to_ascii_lowercase value = compact_config_value identity.
Proof.
  unfold from_member_id. split.
  - case_match eqn:Hl; [done|]. bool_hyps. intros E.
    destruct (identity_digits (trim value)) as [digits|] eqn:Ed;
      [|by unfold identity_parse in E; rewrite Ed in E].
    assert (Ht : trim value = value).
    { apply trim_same_length. pose proof (trim_le value).
      apply identity_digits_length in Ed. lia. }
    rewrite Ht, identity_digits_plain in Ed by done. injection Ed as <-.
    apply (identity_parse_digits value value) in E as [E Hv];
      [|by rewrite Ht; apply identity_digits_plain].
    split; [done|]. symmetry. apply hex_octets_lower; [by exists 6; rewrite Hl|done].
  - intros [Hv Hc].
    assert (Hl : length value = 12)
      by (by rewrite <- length_to_ascii_lowercase, Hc, length_compact).
    rewrite Hl. cbn [Nat.eqb negb].
    apply (identity_parse_digits value value).
    + rewrite trim_graphic; [by apply identity_digits_plain|].
      apply lowercase_graphic. rewrite Hc. apply compact_graphic.
    + split; [|done]. rewrite <- hex_octets_lowercase by (exists 6; lia).
      rewrite Hc. apply hex_octets_concat.
Qed.

(** Every valid identity can be written compactly or with colons or dashes
    between its octets, in either letter case, and every such text parses back
    to it; whatever parses is valid. *)
Theorem identity_parse_forms (identity : DeviceIdentity) (value : bytes) :
  identity_valid identity ->
  value ∈ [compact_config_value identity;
           separated_form (z2b 58) hex_lower identity;
           separated_form (z2b 58) hex_upper identity;
           separated_form (z2b 45) hex_lower identity;
           separated_form (z2b 45) hex_upper identity] ->
  identity_parse value = Some identity.
Proof.
  intros Hv Hin.
  assert (Hgo : forall v digits, forallb is_ascii_graphic v = true ->
      identity_digits v = Some digits -> hex_octets digits = Some (binary identity) ->
      identity_parse v = Some identity).
  { intros v digits Hg Hd Ho. apply (identity_parse_digits v digits); [|done].
    by rewrite trim_graphic. }
  assert (Hsep : forall s octet, s = z2b 58 \/ s = z2b 45 -> octet = hex_lower \/ octet = hex_upper ->
      identity_parse (separated_form s octet identity) = Some identity).
  { intros s octet Hs Ho. eapply Hgo.
    - apply separated_graphic; [by destruct Hs as [->| ->]|].
      destruct Ho as [->| ->]; [apply hex_lower_graphic|apply hex_upper_graphic].
    - apply identity_digits_separated; [done|]. intros o. destruct Ho as [->| ->]; by eexists _, _.
    - destruct Ho as [->| ->]; [apply hex_octets_concat|apply hex_octets_upper]. }
  repeat rewrite elem_of_cons in Hin. rewrite elem_of_nil in Hin.
  destruct Hin as [->|[->|[->|[->|[->|[]]]]]]; [|by auto..].
  eapply Hgo; [apply compact_graphic|apply identity_digits_plain, length_compact|].
  apply hex_octets_concat.
Qed.

(** * Group status, lemmas and properties *)

(** The raw member names itself [role] and carries that identity. *)
Definition raw_has_role (role : bytes) (identity : DeviceIdentity) (raw : Value.t) : Prop :=
  exists fields text,
    raw = Value.Object fields /\
    field_as Value.as_str (str "device_name") fields = Some role /\
    field_as Value.as_str (str "id") fields = Some text /\
    from_member_id text = Some identity.

(** Only fixed names and channel labels. *)
Definition closed_member (m : GroupMember) : Prop :=
  member_name m ∈ [JBL_PUBLIC_ROLE; AURA_PUBLIC_ROLE; UNKNOWN] /\
  Forall (fun c => c ∈ ALLOWED_CHANNELS ++ [UNKNOWN]) (channels m).

Lemma collect_Forall {A T E} (f : A -> result T E) (P : A -> T -> Prop) l xs :
  (forall a x, f a = Ok x -> P a x) -> collect f l = Ok xs -> Forall2 P l xs.
Proof.
  intros Hf. revert xs. induction l as [|a l IH]; intros xs; simpl.
  - intros [= <-]. constructor.
  - destruct (f a) as [x|] eqn:Ea; [|done]. destruct (collect f l) as [ys|]; [|done].
    intros [= <-]. constructor; auto.
Qed.

Lemma project_channel_closed raw c :
  project_channel raw = Ok c -> c ∈ ALLOWED_CHANNELS ++ [UNKNOWN].
Proof.
  unfold project_channel. destruct (ok_or _ _); [|done]. intros [= <-].
  case_bool_decide; apply elem_of_app; [by left|right; by left].
Qed.

Lemma has_role_inj role role' i i' raw :
  raw_has_role role i raw -> raw_has_role role' i' raw -> role = role' /\ i = i'.
Proof. intros (?&?&->&?&?&?) (?&?&[= <-]&?&?&?). split; congruence. Qed.

Lemma roles_ne : JBL_PUBLIC_ROLE <> AURA_PUBLIC_ROLE.
Proof. by vm_compute. Qed.

Lemma project_member_spec jbl aura raw m jn an :
  project_member jbl aura raw = Ok (m, jn, an) ->
  closed_member m /\
  exists name identity, raw_has_role name identity raw /\
    jn = (if bool_decide (name = JBL_PUBLIC_ROLE /\ identity = jbl) then 1 else 0) /\
    an = (if bool_decide (name = AURA_PUBLIC_ROLE /\ identity = aura) then 1 else 0).
Proof.
  unfold project_member. cbv zeta. intros E.
  destruct (Value.as_object raw) as [fields|] eqn:Eo; [|done]. cbn [ok_or] in E.
  destruct raw; simplify_eq/=.
  destruct (field_as Value.as_str (str "device_name") fields) as [name|] eqn:En; [|done].
  destruct (field_as Value.as_str (str "id") fields) as [text|] eqn:Ei;
    [|by destruct name].
  cbn [mbind option_bind] in E.
  destruct (from_member_id text) as [identity|] eqn:Em; [|by destruct name].
  destruct name as [|c name]; [done|]. cbn [ok_or] in E.
  destruct (project_name jbl aura (c :: name) identity) as [[pn jn'] an'] eqn:Ep.
  destruct (ok_or _ _); [|done]. destruct (collect _ _) as [cs|] eqn:Ec; [|done].
  simplify_eq.
  pose proof (collect_Forall _ (fun _ c => c ∈ ALLOWED_CHANNELS ++ [UNKNOWN]) _ _
    project_channel_closed Ec) as Hc.
  unfold project_name in Ep. split.
  - split; cbn [member_name channels]; [|].
    2: { eapply Forall2_Forall_r; [exact Hc|]. by apply Forall_true. }
    repeat case_bool_decide; simplify_eq; repeat first [by left|right].
  - exists (c :: name), identity. split; [by exists fields, text|].
    pose proof roles_ne.
    repeat case_bool_decide; simplify_eq; try done; exfalso; intuition congruence.
Qed.

Lemma raw_has_role_count role identity (name : bytes) (i : DeviceIdentity) raw :
  raw_has_role name i raw ->
  bool_decide (name = role /\ i = identity) = true <-> raw_has_role role identity raw.
Proof.
  intros Hr. rewrite bool_decide_eq_true. split.
  - by intros [-> ->].
  - intros Hr'. by eapply has_role_inj.
Qed.

Lemma one_role jbl aura raw :
  raw_has_role JBL_PUBLIC_ROLE jbl raw -> raw_has_role AURA_PUBLIC_ROLE aura raw -> False.
Proof. intros H1 H2. by destruct (roles_ne (proj1 (has_role_inj _ _ _ _ _ H1 H2))). Qed.

(** The sanitized group status is exact and closed. The pair is reported as
    configured exactly when the group is enabled and its two members are one
    speaker with the JBL name and configured JBL identity and one with the
    Aura name and configured Aura identity; and whatever the device reports,
    only the fixed role names and the allowed channel labels are projected. *)
Theorem parse_group_status_exact response jbl aura st :
  parse_group_status response jbl aura = Ok st ->
  Forall closed_member (members st) /\ length (members st) = 2 /\ member_count st = 2 /\
  (expected_pair_configured st = true <->
   exists group raw1 raw2,
     value_get (str "group_info") response = Some (Value.Object group) /\
     field (str "members") group = Some (Value.Array [raw1; raw2]) /\
     field (str "disabled") group = Some (Value.Bool false) /\
     (raw_has_role JBL_PUBLIC_ROLE jbl raw1 /\ raw_has_role AURA_PUBLIC_ROLE aura raw2 \/
      raw_has_role AURA_PUBLIC_ROLE aura raw1 /\ raw_has_role JBL_PUBLIC_ROLE jbl raw2)).
Proof.
  unfold parse_group_status. intros Hp. case_decide as Hne; [done|].
  destruct (negb _); [done|].
  destruct (value_get (str "group_info") response) as [[]|] eqn:Eg; try done.
  cbn [mbind option_bind Value.as_object ok_or] in Hp.
  unfold field_as at 1 in Hp.
  destruct (field (str "members") fields) as [[]|] eqn:Em; try done.
  cbn [Value.as_array ok_or] in Hp.
  destruct items as [|raw1 [|raw2 [|]]]; try done. cbn [length Nat.eqb negb] in Hp.
  unfold field_as at 1 in Hp.
  destruct (field (str "disabled") fields) as [[]|] eqn:Ed; try done.
  cbn [Value.as_bool ok_or collect] in Hp.
  destruct (project_member jbl aura raw1) as [[[m1 j1] a1]|] eqn:E1; [|done].
  destruct (project_member jbl aura raw2) as [[[m2 j2] a2]|] eqn:E2; [|done].
  injection Hp as <-. cbn [members member_count expected_pair_configured map length].
  apply project_member_spec in E1 as (C1&n1&i1&R1&->&->).
  apply project_member_spec in E2 as (C2&n2&i2&R2&->&->).
  split_and!; [by apply Forall_cons_2; [|apply Forall_cons_2]|done|done|].
  pose proof (raw_has_role_count JBL_PUBLIC_ROLE jbl n1 i1 _ R1) as J1.
  pose proof (raw_has_role_count AURA_PUBLIC_ROLE aura n1 i1 _ R1) as A1.
  pose proof (raw_has_role_count JBL_PUBLIC_ROLE jbl n2 i2 _ R2) as J2.
  pose proof (raw_has_role_count AURA_PUBLIC_ROLE aura n2 i2 _ R2) as A2.
  pose proof (one_role jbl aura raw1) as X1. pose proof (one_role jbl aura raw2) as X2.
  destruct (bool_decide (n1 = JBL_PUBLIC_ROLE /\ i1 = jbl)),
    (bool_decide (n1 = AURA_PUBLIC_ROLE /\ i1 = aura)),
    (bool_decide (n2 = JBL_PUBLIC_ROLE /\ i2 = jbl)),
    (bool_decide (n2 = AURA_PUBLIC_ROLE /\ i2 = aura)); split.
  all: try solve [by destruct b].
  all: try (intros Hc; exists fields, raw1, raw2;
    destruct b; try done; split_and!; try done; tauto).
  all: intros (g&r1&r2&Hg&Hm&Hd&Hr); simplify_eq;
    rewrite <- J1, <- A1, <- J2, <- A2 in Hr; intuition congruence.
Qed.

(** * Witnesses *)

Definition jbl_fixture : DeviceIdentity :=
  mkDeviceIdentity (z2b 2) (z2b 0) (z2b 0) (z2b 0) (z2b 0) (z2b 1).
Definition aura_fixture : DeviceIdentity :=
  mkDeviceIdentity (z2b 2) (z2b 0) (z2b 0) (z2b 0) (z2b 0) (z2b 2).

Definition member_fixture (name id channel : String.string) : Value.t :=
  Value.Object [(str "device_name", Value.String (str name));
                (str "id", Value.String (str id));
                (str "channel", Value.Array [Value.String (str channel)])].

Definition group_fixture : Value.t :=
  Value.Object
    [(str "error_code", Value.String (str "0"));
     (str "group_info", Value.Object
        [(str "disabled", Value.Bool false);
         (str "members", Value.Array
            [member_fixture "JBL Authentics 300" "020000000001" " Front_Left ";
             member_fixture "Aura Studio 5" "020000000002" "sub"])])].

Lemma identity_parse_forms_witness :
  identity_valid aura_fixture /\ identity_parse (str "02-00-00-00-00-02") = Some aura_fixture.
Proof.
  split; [by apply (bool_decide_unpack _); vm_compute|].
  apply identity_parse_forms; [by apply (bool_decide_unpack _); vm_compute|].
  by apply (bool_decide_unpack _); vm_compute.
Defined.

Lemma parse_group_status_exact_witness :
  exists st, parse_group_status group_fixture jbl_fixture aura_fixture = Ok st /\
    Forall closed_member (members st) /\ expected_pair_configured st = true.
Proof.
  eexists. split; [by vm_compute|]. split; [|done].
  eapply (parse_group_status_exact group_fixture jbl_fixture aura_fixture).
  by vm_compute.
Defined.
