(* ===== verification/Control.v ===== *)
(** The closed command vocabularies: the JBL form commands, the broadcaster PL
    frames and the basic response (rust/src/control.rs), and the Aura role
    frames, acknowledgement and advertisement match (rust/src/aura_protocol.rs). *)
From S2P Require Import Prelude Bytes Model.

(** * JBL commands *)

Module PlayTogetherCommand.
Inductive t := Enter | Exit.
#[global] Instance eq_dec : EqDecision t. Proof. solve_decision. Defined.

Definition form_body (c : t) : bytes :=
  match c with
  | Enter => str "command=enterAuracast&payload=null"
  | Exit => str "command=exitAuracast&payload=null"
  end.
End PlayTogetherCommand.

Module BroadcastCommand.
Inductive t := Start (identity : DeviceIdentity) | Stop.
#[global] Instance eq_dec : EqDecision t. Proof. solve_decision. Defined.

Definition COMMAND_ID : Z := 7957.

(** A quoted JSON text; Rocq strings hold no quote here. *)
Definition quoted (s : bytes) : bytes := [DQUOTE] ++ s ++ [DQUOTE].
Definition key (s : String.string) : bytes := quoted (str s) ++ str ":".

Definition address_text (identity : DeviceIdentity) : bytes :=
  let 'mkDeviceIdentity a b c d e f := identity in
  hex_upper a ++ str ":" ++ hex_upper b ++ str ":" ++ hex_upper c ++ str ":" ++
  hex_upper d ++ str ":" ++ hex_upper e ++ str ":" ++ hex_upper f.

Definition payload_json (command : t) : bytes :=
  match command with
  | Start identity =>
      str "{" ++ key "action" ++ str "1," ++ key "broadcast" ++ str "{" ++
      key "address" ++ quoted (address_text identity) ++ str "," ++
      key "name" ++ quoted SUPPORTED_JBL_MODEL ++ str "," ++
      key "need_access_code" ++ str "false," ++ key "status" ++ str "2," ++
      key "subgroup" ++ str "[{" ++ key "active_status" ++ str "1," ++
      key "index" ++ str "0," ++ key "is_support" ++ str "true," ++
      key "quality" ++ str "0}]}}"
  | Stop => str "{" ++ key "action" ++ str "2}"
  end.

(** [u16::try_from(payload.len()).expect(...)]: [None] would be the panic. *)
Definition pl_frame (command : t) : option bytes :=
  let payload := payload_json command in
  let n := Z.of_nat (length payload) in
  if (n <=? u16_max)%Z
  then Some (str "PL" ++ u16_to_le_bytes COMMAND_ID ++ u16_to_le_bytes n ++ payload)
  else None.
End BroadcastCommand.

(** [BasicResponse { _private: () }]. *)
Module BasicResponse.
Inductive t := Accepted.
#[global] Instance eq_dec : EqDecision t. Proof. solve_decision. Defined.

(** [from_slice] is [serde_json::from_slice]. *)
Definition parse (from_slice : bytes -> option Value.t) (payload : bytes)
  : result t JblError.t :=
  let? value := ok_or (from_slice payload) JblError.InvalidJson in
  let? response := ok_or (Value.as_object value) JblError.BasicResponseNotObject in
  let? error_code := ok_or (field (str "error_code") response)
                           JblError.BasicResponseCodeMissing in
  match error_code with
  | Value.Number code =>
      if bool_decide (Number.as_i64 code = Some 0%Z)
         || bool_decide (Number.as_u64 code = Some 0%Z) then Ok Accepted
      else if bool_decide (is_Some (Number.as_i64 code))
              || bool_decide (is_Some (Number.as_u64 code))
      then Err JblError.ControlCommandRejected
      else Err JblError.BasicResponseCodeInvalid
  | Value.String code =>
      if bool_decide (code = str "0") then Ok Accepted
      else Err JblError.ControlCommandRejected
  | _ => Err JblError.BasicResponseCodeInvalid
  end.
End BasicResponse.

Module PlayTogetherWriteOutcome.
Inductive t := Accepted | Rejected | OutcomeUnknown | PostconditionFailed | RollbackFailed.
#[global] Instance eq_dec : EqDecision t. Proof. solve_decision. Defined.
End PlayTogetherWriteOutcome.

Module PlayTogetherWriteResult.
Inductive t :=
| Accepted (response : BasicResponse.t)
| Rejected (error : JblError.t)
| OutcomeUnknown (error : JblError.t).
#[global] Instance eq_dec : EqDecision t. Proof. solve_decision. Defined.

Definition outcome (r : t) : PlayTogetherWriteOutcome.t :=
  match r with
  | Accepted _ => PlayTogetherWriteOutcome.Accepted
  | Rejected _ => PlayTogetherWriteOutcome.Rejected
  | OutcomeUnknown _ => PlayTogetherWriteOutcome.OutcomeUnknown
  end.

Definition error (r : t) : option JblError.t :=
  match r with Accepted _ => None | Rejected e | OutcomeUnknown e => Some e end.
End PlayTogetherWriteResult.

(** * Aura role commands *)

Definition HARMAN_FDDF_UUID : bytes := str "0000fddf-0000-1000-8000-00805f9b34fb".
Definition AURA_VENDOR_SERVICE_UUID : bytes := str "65786365-6c70-6f69-6e74-2e636f6d0000".
Definition AURA_NOTIFY_UUID : bytes := str "65786365-6c70-6f69-6e74-2e636f6d0001".
Definition AURA_WRITE_UUID : bytes := str "65786365-6c70-6f69-6e74-2e636f6d0002".

Definition AURA_STUDIO_5_PID : bytes := map z2b [0x2d; 0x21]%Z.
Definition STABLE_IDENTITY_OFFSET : nat := 11.
Definition STABLE_IDENTITY_END : nat := STABLE_IDENTITY_OFFSET + 6.
Definition SUCCESS_ACK : bytes := map z2b [0xaa; 0x00; 0x02; 0x13; 0x00]%Z.

Module AuraPlayTogetherCommand.
Inductive t := On | Off.
#[global] Instance eq_dec : EqDecision t. Proof. solve_decision. Defined.

Definition frame (c : t) : bytes :=
  map z2b match c with
          | On => [0xaa; 0x13; 0x04; 0x00; 0x3c; 0x01; 0x01]%Z
          | Off => [0xaa; 0x13; 0x04; 0x00; 0x3c; 0x01; 0x00]%Z
          end.
End AuraPlayTogetherCommand.

Definition parse_command_ack (notification : bytes) : option unit :=
  if decide (notification = SUCCESS_ACK) then Some tt else None.

Definition matches_verified_fddf (service_uuid payload : bytes)
    (expected_identity : DeviceIdentity) : bool :=
  eq_ignore_ascii_case service_uuid HARMAN_FDDF_UUID
  && (STABLE_IDENTITY_END <=? length payload)%nat
  && bool_decide (take 2 payload = AURA_STUDIO_5_PID)
  && matches_binary expected_identity
       (take (STABLE_IDENTITY_END - STABLE_IDENTITY_OFFSET)
             (drop STABLE_IDENTITY_OFFSET payload)).

(** * Lemmas *)

(** Reading a PL frame back: command id and payload. *)
Definition pl_decode (frame : bytes) : option (Z * bytes) :=
  match strip_prefix (str "PL") frame with
  | Some (c0 :: c1 :: n0 :: n1 :: payload) =>
      if (u16_from_le_bytes n0 n1 =? Z.of_nat (length payload))%Z
      then Some (u16_from_le_bytes c0 c1, payload) else None
  | _ => None
  end.

Lemma u16_from_le_value (low high : byte) :
  u16_from_le_bytes low high = (b2z low + 256 * b2z high)%Z.
Proof.
  assert (E : forallb (fun low => forallb (fun high =>
      (u16_from_le_bytes low high =? b2z low + 256 * b2z high)%Z) all_bytes) all_bytes = true)
    by (vm_compute; reflexivity).
  apply (forall_bytes _) with (c := low) in E. apply (forall_bytes _) with (c := high) in E.
  by apply Z.eqb_eq.
Qed.

Lemma u16_le_roundtrip (n : Z) :
  (0 <= n <= u16_max)%Z ->
  u16_from_le_bytes (z2b (Z.land n 255)) (z2b (Z.shiftr n 8)) = n.
Proof.
  intros Hn. unfold u16_max in Hn. rewrite u16_from_le_value.
  change 255%Z with (Z.ones 8). rewrite Z.land_ones, Z.shiftr_div_pow2 by lia.
  change (2 ^ 8)%Z with 256%Z. pose proof (Z.mod_pos_bound n 256).
  assert (Hd : (0 <= n / 256 < 256)%Z)
    by (split; [apply Z.div_pos; lia|apply Z.div_lt_upper_bound; lia]).
  rewrite !b2z_z2b by lia. rewrite (Z.div_mod n 256) at 3 by lia. lia.
Qed.

Lemma payload_length (c : BroadcastCommand.t) :
  length (BroadcastCommand.payload_json c) =
  match c with BroadcastCommand.Start _ => 193 | BroadcastCommand.Stop => 12 end.
Proof. by destruct c as [[]|]; vm_compute. Qed.

Lemma hex_upper_inj (a b : byte) : hex_upper a = hex_upper b -> a = b.
Proof.
  unfold hex_upper. intros E. injection E as H L.
  pose proof (hex_octet_hex_upper a) as Ha. rewrite H, L, hex_octet_hex_upper in Ha. congruence.
Qed.

Lemma address_text_inj i j :
  BroadcastCommand.address_text i = BroadcastCommand.address_text j -> i = j.
Proof.
  destruct i as [a b c d e f], j as [a' b' c' d' e' f']. intros E.
  assert (Hx : forall o, hex_upper o =
    [hex_digit_upper (b2z o / 16); hex_digit_upper (b2z o mod 16)]) by done.
  f_equal; apply hex_upper_inj; rewrite !Hx; unfold BroadcastCommand.address_text in E;
    rewrite !Hx in E; cbn [app] in E; injection E; intros; congruence.
Qed.

Lemma payload_json_inj c c' :
  BroadcastCommand.payload_json c = BroadcastCommand.payload_json c' -> c = c'.
Proof.
  intros E. destruct c as [i|], c' as [j|]; [|done..|done].
  f_equal. apply address_text_inj. unfold BroadcastCommand.payload_json in E.
  repeat apply app_inv_head in E.
  unfold BroadcastCommand.quoted at 1 3 in E. rewrite <- !app_assoc in E.
  apply app_inv_head in E. by apply app_inv_tail in E.
Qed.

Lemma payload_fits (c : BroadcastCommand.t) :
  (Z.of_nat (length (BroadcastCommand.payload_json c)) <= u16_max)%Z.
Proof. destruct c; rewrite payload_length; unfold u16_max; cbn; lia. Qed.

Lemma pl_frame_exists (c : BroadcastCommand.t) :
  exists frame, BroadcastCommand.pl_frame c = Some frame.
Proof.
  unfold BroadcastCommand.pl_frame. rewrite (proj2 (Z.leb_le _ _) (payload_fits c)). eauto.
Qed.

(** * Properties *)

(** A broadcaster command becomes one PL frame that reads back as the
    command id 7957 and its exact payload, fits one ATT write at the negotiated
    MTU of 500 (three bytes of header), and determines the command: two
    commands with the same frame are the same. *)
Theorem pl_frame_decodes (c : BroadcastCommand.t) :
  exists frame,
    BroadcastCommand.pl_frame c = Some frame /\
    pl_decode frame = Some (BroadcastCommand.COMMAND_ID, BroadcastCommand.payload_json c) /\
    length frame + 3 <= 500 /\
    forall c', BroadcastCommand.pl_frame c' = Some frame -> c' = c.
Proof.
  assert (Hlen := payload_fits).
  unfold BroadcastCommand.pl_frame.
  rewrite (proj2 (Z.leb_le _ _) (Hlen c)). eexists. split; [done|]. split_and!.
  - unfold pl_decode. rewrite strip_prefix_app. unfold u16_to_le_bytes. cbn [app].
    rewrite (u16_le_roundtrip (Z.of_nat _)) by (split; [lia|apply Hlen]).
    by rewrite Z.eqb_refl.
  - rewrite !length_app, payload_length. destruct c; vm_compute; lia.
  - intros c'. rewrite (proj2 (Z.leb_le _ _) (Hlen c')). unfold u16_to_le_bytes.
    intros [= _ _ E]. by apply payload_json_inj.
Qed.

(** An advertisement is accepted exactly when its service UUID is the Harman
    one, up to letter case, and its payload is the Aura Studio 5 product id,
    nine more bytes, the configured identity, and anything after it. *)
Theorem matches_verified_fddf_exact (service_uuid payload : bytes) identity :
  matches_verified_fddf service_uuid payload identity = true <->
  to_ascii_lowercase service_uuid = HARMAN_FDDF_UUID /\
  exists middle rest, length middle = 9 /\
    payload = AURA_STUDIO_5_PID ++ middle ++ binary identity ++ rest.
Proof.
  unfold matches_verified_fddf, eq_ignore_ascii_case, matches_binary.
  rewrite !andb_true_iff, Nat.leb_le, !bool_decide_eq_true.
  change (to_ascii_lowercase HARMAN_FDDF_UUID) with HARMAN_FDDF_UUID.
  change STABLE_IDENTITY_END with 17. change STABLE_IDENTITY_OFFSET with 11. split.
  - intros [[[Hu Hl] Hp] Hi]. split; [done|].
    exists (take 9 (drop 2 payload)), (drop 17 payload). split.
    + rewrite length_take, length_drop. lia.
    + rewrite <- Hp, <- Hi.
      change (17 - 11) with 6.
      replace (drop 17 payload) with (drop 6 (drop 11 payload)) by (by rewrite drop_drop).
      rewrite take_drop.
      replace (drop 11 payload) with (drop 9 (drop 2 payload)) by (by rewrite drop_drop).
      by rewrite !take_drop.
  - intros [Hu (middle & rest & Hl & ->)]. split; [|].
    + split; [split; [done|]|done].
      rewrite !length_app, Hl. destruct identity. simpl. lia.
    + change (17 - 11) with 6.
      rewrite drop_app_ge by (simpl; lia). simpl (11 - _).
      rewrite drop_app_ge by (rewrite Hl; simpl; lia). rewrite Hl. simpl.
      by destruct identity.
Qed.
