(* ===== verification/Controller.v ===== *)
(** The single owner of the pair (rust/src/controller.rs): the sanitized
    membership observation, the controller state, its status read and its
    mutation, generic in the backend, the membership probe and the uncertainty
    journal, of which only their interfaces are used. *)
From S2P Require Import Prelude Bytes Backend Journal Model.

(** * Membership observation *)

Module PairConfigurationState.
Inductive t := Ready | NotReady | Unavailable.
#[global] Instance eq_dec : EqDecision t. Proof. solve_decision. Defined.
End PairConfigurationState.

Module PairMemberName.
Inductive t := JblAuthentics300 | AuraStudio5.
#[global] Instance eq_dec : EqDecision t. Proof. solve_decision. Defined.
End PairMemberName.

Module PairMemberChannel.
Inductive t := FrontLeft | FrontRight | Left | Right | Mono | Stereo | Unknown.
#[global] Instance eq_dec : EqDecision t. Proof. solve_decision. Defined.
End PairMemberChannel.

Module PairMemberVerification.
Inductive t := Verified | NotVerified | Unavailable.
#[global] Instance eq_dec : EqDecision t. Proof. solve_decision. Defined.
End PairMemberVerification.

Record PairMemberStatus := mkPairMemberStatus {
  status_name : PairMemberName.t;
  verification : PairMemberVerification.t;
  status_channels : list PairMemberChannel.t;
}.
#[global] Instance PairMemberStatus_eq_dec : EqDecision PairMemberStatus.
Proof. solve_decision. Defined.

(** [[PairMemberStatus; 2]] is a pair. *)
Record PairConfigurationObservation := mkObservation {
  exact_pair_configured : bool;
  observed_members : PairMemberStatus * PairMemberStatus;
}.

Definition fixed_member (name : PairMemberName.t) (v : PairMemberVerification.t)
    (channels : list PairMemberChannel.t) : PairMemberStatus :=
  mkPairMemberStatus name v channels.

Definition channel_from_allowlist (channel : bytes) : PairMemberChannel.t :=
  if decide (channel = str "front_left") then PairMemberChannel.FrontLeft
  else if decide (channel = str "front_right") then PairMemberChannel.FrontRight
  else if decide (channel = str "left") then PairMemberChannel.Left
  else if decide (channel = str "right") then PairMemberChannel.Right
  else if decide (channel = str "mono") then PairMemberChannel.Mono
  else if decide (channel = str "stereo") then PairMemberChannel.Stereo
  else PairMemberChannel.Unknown.

(** The fold that keeps the first occurrence of every channel. *)
Definition push_unique (unique : list PairMemberChannel.t) (channel : PairMemberChannel.t)
  : list PairMemberChannel.t :=
  if decide (channel ∈ unique) then unique else unique ++ [channel].

Definition observed_member (name : PairMemberName.t) (matches : list (list bytes))
  : PairMemberStatus :=
  match matches with
  | [only] =>
      let projected := map channel_from_allowlist only in
      let channels :=
        if decide (PairMemberChannel.Unknown ∈ projected) then [PairMemberChannel.Unknown]
        else fold_left push_unique projected [] in
      fixed_member name PairMemberVerification.Verified
        (match channels with [] => [PairMemberChannel.Unknown] | _ => channels end)
  | _ => fixed_member name PairMemberVerification.NotVerified [PairMemberChannel.Unknown]
  end.

(** [member.channels] of the members projected under one fixed name. *)
Definition channels_named (name : bytes) (members : list GroupMember) : list (list bytes) :=
  map channels (filter (fun m => member_name m = name) members).

Definition from_group_status (group : GroupStatus) : PairConfigurationObservation :=
  mkObservation (expected_pair_configured group)
    (observed_member PairMemberName.JblAuthentics300
       (channels_named (str "JBL Authentics 300") (members group)),
     observed_member PairMemberName.AuraStudio5
       (channels_named (str "Aura Studio 5") (members group))).

Definition unavailable_members (v : PairMemberVerification.t)
  : PairMemberStatus * PairMemberStatus :=
  (fixed_member PairMemberName.JblAuthentics300 v [PairMemberChannel.Unknown],
   fixed_member PairMemberName.AuraStudio5 v [PairMemberChannel.Unknown]).

(** Two observations that only the tests make. *)
Definition observation_ready : PairConfigurationObservation :=
  mkObservation true
    (fixed_member PairMemberName.JblAuthentics300 PairMemberVerification.Verified
       [PairMemberChannel.Unknown],
     fixed_member PairMemberName.AuraStudio5 PairMemberVerification.Verified
       [PairMemberChannel.Unknown]).
Definition observation_not_ready : PairConfigurationObservation :=
  mkObservation false (unavailable_members PairMemberVerification.NotVerified).

Module PairProbeError.
Inductive t := Unavailable | InvalidResponse.
#[global] Instance eq_dec : EqDecision t. Proof. solve_decision. Defined.
End PairProbeError.

Class PairConfigurationProbe (P : Type) := {
  pair_configuration : P -> result PairConfigurationObservation PairProbeError.t * P;
}.

(** * Controller vocabulary *)

Module ManagedLiveState.
Inductive t :=
| Unknown | Offline | Ready | Linking | Linked | Unlinking | Recovering | Degraded
| ShuttingDown.
#[global] Instance eq_dec : EqDecision t. Proof. solve_decision. Defined.
End ManagedLiveState.

Module ControllerAction.
Inductive t := Start | Stop | Shutdown | RecoverStop.
#[global] Instance eq_dec : EqDecision t. Proof. solve_decision. Defined.
End ControllerAction.

Module ControllerActionOutcome.
Inductive t :=
| Accepted | AcceptedUnconfirmed | Idempotent | RejectedBeforeSend | OutcomeUnknown
| PostconditionFailed.
#[global] Instance eq_dec : EqDecision t. Proof. solve_decision. Defined.
End ControllerActionOutcome.

Module ControllerFailure.
Inductive t :=
| PairConfigurationUnavailable | ExpectedPairNotConfigured | BackendRejectedBeforeSend
| AuraAdapterUnavailable | AuraDiscoveryUnavailable | AuraVerifiedAdvertisementNotFound
| AuraDeviceConnectionFailed | AuraWakeProfileConnectFailed | AuraWakeFddfTimedOut
| AuraWakeFddfInvalid | AuraWakeFddfUnavailable | AuraWakeProfileReleaseFailed
| AuraGattProfileInvalid | AuraNotificationSetupFailed | AuraWriteUnknown | AuraAckTimeout
| AuraAckChannelClosed | AuraUnexpectedAck | JblEnterOutcomeUnknown | JblExitOutcomeUnknown
| JblBroadcastResultTimedOut | JblBroadcastResultUnavailable | JblBroadcastResultRejected
| AuraStartOutcomeUnknown | BackendOutcomeUnknown | UnexpectedBackendLifecycle
| MembershipPostconditionFailed | UnresolvedPriorAction | RecoveryNotAllowed
| JournalUnavailable | JournalCommitFailed.
#[global] Instance eq_dec : EqDecision t. Proof. solve_decision. Defined.
End ControllerFailure.

Record ControllerActionResult := mkActionResult {
  result_action : ControllerAction.t;
  result_outcome : ControllerActionOutcome.t;
  result_managed_state : ManagedLiveState.t;
  result_evidence : option PairBackendEvidence.t;
  result_failure : option ControllerFailure.t;
  result_revision : Z;
}.
#[global] Instance ControllerActionResult_eq_dec : EqDecision ControllerActionResult.
Proof. solve_decision. Defined.

Record LastActionStatus := mkLastActionStatus {
  last_action_of : ControllerAction.t;
  last_outcome : ControllerActionOutcome.t;
  last_evidence : option PairBackendEvidence.t;
  last_failure : option ControllerFailure.t;
  last_revision : Z;
  last_age_ms : Z;
}.

Record RecordedAction := mkRecordedAction {
  recorded_result : ControllerActionResult;
  recorded_at : Z;
}.

Record ControllerStatus := mkControllerStatus {
  cs_backend : PairBackendKind.t;
  cs_pair_configuration : PairConfigurationState.t;
  cs_members : PairMemberStatus * PairMemberStatus;
  cs_managed_state : ManagedLiveState.t;
  cs_backend_health : option PairHealth;
  cs_unresolved_action : bool;
  cs_consecutive_failures : Z;
  cs_revision : Z;
  cs_last_action : option LastActionStatus;
}.

Definition journal_action (action : ControllerAction.t) : JournalAction.t :=
  match action with
  | ControllerAction.Start => JournalAction.Start
  | ControllerAction.Stop => JournalAction.Stop
  | ControllerAction.Shutdown => JournalAction.Shutdown
  | ControllerAction.RecoverStop => JournalAction.RecoverStop
  end.

Definition controller_failure_from_backend (error : PairBackendError.t) : ControllerFailure.t :=
  match error with
  | PairBackendError.AuraAdapterUnavailable => ControllerFailure.AuraAdapterUnavailable
  | PairBackendError.AuraDiscoveryUnavailable => ControllerFailure.AuraDiscoveryUnavailable
  | PairBackendError.AuraVerifiedAdvertisementNotFound =>
      ControllerFailure.AuraVerifiedAdvertisementNotFound
  | PairBackendError.AuraDeviceConnectionFailed => ControllerFailure.AuraDeviceConnectionFailed
  | PairBackendError.AuraWakeProfileConnectFailed => ControllerFailure.AuraWakeProfileConnectFailed
  | PairBackendError.AuraWakeFddfTimedOut => ControllerFailure.AuraWakeFddfTimedOut
  | PairBackendError.AuraWakeFddfInvalid => ControllerFailure.AuraWakeFddfInvalid
  | PairBackendError.AuraWakeFddfUnavailable => ControllerFailure.AuraWakeFddfUnavailable
  | PairBackendError.AuraWakeProfileReleaseFailed => ControllerFailure.AuraWakeProfileReleaseFailed
  | PairBackendError.AuraGattProfileInvalid => ControllerFailure.AuraGattProfileInvalid
  | PairBackendError.AuraNotificationSetupFailed => ControllerFailure.AuraNotificationSetupFailed
  | PairBackendError.AuraWriteUnknown
  | PairBackendError.AuraAcknowledgementTimedOut
  | PairBackendError.AuraAcknowledgementChannelClosed
  | PairBackendError.AuraUnexpectedAcknowledgement
  | PairBackendError.JblEnterOutcomeUnknown
  | PairBackendError.JblExitOutcomeUnknown
  | PairBackendError.JblBroadcastResultTimedOut
  | PairBackendError.JblBroadcastResultUnavailable
  | PairBackendError.JblBroadcastResultRejected
  | PairBackendError.AuraStartOutcomeUnknown => ControllerFailure.BackendRejectedBeforeSend
  | PairBackendError.InvalidSocketPath
  | PairBackendError.UntrustedSocket
  | PairBackendError.InvalidTimeout
  | PairBackendError.TimedOut
  | PairBackendError.ResponseTooLarge
  | PairBackendError.InvalidResponse
  | PairBackendError.InvalidLifecycle
  | PairBackendError.UnexpectedLifecycle => ControllerFailure.BackendRejectedBeforeSend
  | PairBackendError.Unavailable
  | PairBackendError.BackendReportedFailure
  | PairBackendError.RecoveryUnsupported
  | PairBackendError.BackendChangedDuringTransaction =>
      ControllerFailure.BackendRejectedBeforeSend
  end.

Definition controller_failure_from_unknown_backend (error : PairBackendError.t)
  : ControllerFailure.t :=
  match error with
  | PairBackendError.AuraWriteUnknown => ControllerFailure.AuraWriteUnknown
  | PairBackendError.AuraAcknowledgementTimedOut => ControllerFailure.AuraAckTimeout
  | PairBackendError.AuraAcknowledgementChannelClosed => ControllerFailure.AuraAckChannelClosed
  | PairBackendError.AuraUnexpectedAcknowledgement => ControllerFailure.AuraUnexpectedAck
  | PairBackendError.JblEnterOutcomeUnknown => ControllerFailure.JblEnterOutcomeUnknown
  | PairBackendError.JblExitOutcomeUnknown => ControllerFailure.JblExitOutcomeUnknown
  | PairBackendError.JblBroadcastResultTimedOut => ControllerFailure.JblBroadcastResultTimedOut
  | PairBackendError.JblBroadcastResultUnavailable =>
      ControllerFailure.JblBroadcastResultUnavailable
  | PairBackendError.JblBroadcastResultRejected => ControllerFailure.JblBroadcastResultRejected
  | PairBackendError.AuraStartOutcomeUnknown => ControllerFailure.AuraStartOutcomeUnknown
  | PairBackendError.InvalidSocketPath
  | PairBackendError.UntrustedSocket
  | PairBackendError.InvalidTimeout
  | PairBackendError.TimedOut
  | PairBackendError.ResponseTooLarge
  | PairBackendError.InvalidResponse
  | PairBackendError.InvalidLifecycle
  | PairBackendError.UnexpectedLifecycle => ControllerFailure.BackendOutcomeUnknown
  | PairBackendError.Unavailable
  | PairBackendError.AuraAdapterUnavailable
  | PairBackendError.AuraDiscoveryUnavailable
  | PairBackendError.AuraVerifiedAdvertisementNotFound
  | PairBackendError.AuraDeviceConnectionFailed
  | PairBackendError.AuraWakeProfileConnectFailed
  | PairBackendError.AuraWakeFddfTimedOut
  | PairBackendError.AuraWakeFddfInvalid
  | PairBackendError.AuraWakeFddfUnavailable
  | PairBackendError.AuraWakeProfileReleaseFailed
  | PairBackendError.AuraGattProfileInvalid
  | PairBackendError.AuraNotificationSetupFailed
  | PairBackendError.BackendReportedFailure
  | PairBackendError.RecoveryUnsupported
  | PairBackendError.BackendChangedDuringTransaction => ControllerFailure.BackendOutcomeUnknown
  end.

Definition last_action_status (now : Z) (recorded : RecordedAction) : LastActionStatus :=
  let r := recorded_result recorded in
  mkLastActionStatus (result_action r) (result_outcome r) (result_evidence r)
    (result_failure r) (result_revision r)
    (Z.min (as_millis (Z.max 0 (now - recorded_at recorded))) u64_max).

(** * The controller *)

Record PairController (B P J : Type) := mkController {
  ctl_backend : B;
  ctl_probe : P;
  ctl_journal : J;
  managed_state : ManagedLiveState.t;
  unresolved_action : bool;
  consecutive_failures : Z;
  revision : Z;
  last_action : option RecordedAction;
}.
Arguments mkController {B P J}.
Arguments ctl_backend {B P J}.
Arguments ctl_probe {B P J}.
Arguments ctl_journal {B P J}.
Arguments managed_state {B P J}.
Arguments unresolved_action {B P J}.
Arguments consecutive_failures {B P J}.
Arguments revision {B P J}.
Arguments last_action {B P J}.

Section Setters.
Context {B P J : Type}.
#[local] Abbreviation ctl := (PairController B P J).

(** Assignments to the fields of [self]. *)
Definition set_backend (b : B) (c : ctl) : ctl :=
  mkController b (ctl_probe c) (ctl_journal c) (managed_state c)
  (unresolved_action c) (consecutive_failures c) (revision c) (last_action c).
Definition set_probe (p : P) (c : ctl) : ctl :=
  mkController (ctl_backend c) p (ctl_journal c) (managed_state c)
  (unresolved_action c) (consecutive_failures c) (revision c) (last_action c).
Definition set_journal (j : J) (c : ctl) : ctl :=
  mkController (ctl_backend c) (ctl_probe c) j (managed_state c)
  (unresolved_action c) (consecutive_failures c) (revision c) (last_action c).
Definition set_managed_state (s : ManagedLiveState.t) (c : ctl) : ctl :=
  mkController (ctl_backend c) (ctl_probe c) (ctl_journal c) s
  (unresolved_action c) (consecutive_failures c) (revision c) (last_action c).
Definition set_unresolved (u : bool) (c : ctl) : ctl :=
  mkController (ctl_backend c) (ctl_probe c) (ctl_journal c)
  (managed_state c) u (consecutive_failures c) (revision c) (last_action c).
Definition set_failures (n : Z) (c : ctl) : ctl :=
  mkController (ctl_backend c) (ctl_probe c) (ctl_journal c)
  (managed_state c) (unresolved_action c) n (revision c) (last_action c).
Definition set_revision (n : Z) (c : ctl) : ctl :=
  mkController (ctl_backend c) (ctl_probe c) (ctl_journal c)
  (managed_state c) (unresolved_action c) (consecutive_failures c) n (last_action c).
Definition set_last_action (a : option RecordedAction) (c : ctl) : ctl :=
  mkController (ctl_backend c) (ctl_probe c) (ctl_journal c)
  (managed_state c) (unresolved_action c) (consecutive_failures c) (revision c) a.

Definition bump_revision (c : ctl) : ctl :=
  set_revision (saturating_succ u64_max (revision c)) c.
Definition count_failure (c : ctl) : ctl :=
  set_failures (saturating_succ u8_max (consecutive_failures c)) c.
End Setters.

Section Controller.
Context {B P J : Type}.
Context `{PairBackend B} `{PairConfigurationProbe P} `{UncertaintyJournal J}.
#[local] Abbreviation ctl := (PairController B P J).

Definition with_journal (backend : B) (probe : P) (journal : J) : ctl :=
  let unresolved := is_pending journal in
  mkController backend probe journal ManagedLiveState.Unknown unresolved
    (if unresolved then 1 else 0)%Z 0%Z None.

Definition read_pair_configuration (c : ctl)
  : (PairConfigurationState.t * (PairMemberStatus * PairMemberStatus)) * ctl :=
  let '(r, p) := pair_configuration (ctl_probe c) in
  (match r with
   | Ok observation =>
       (if exact_pair_configured observation then PairConfigurationState.Ready
        else PairConfigurationState.NotReady,
        observed_members observation)
   | Err _ =>
       (PairConfigurationState.Unavailable,
        unavailable_members PairMemberVerification.Unavailable)
   end, set_probe p c).

(** [self.backend.health()]. *)
Definition read_health (c : ctl) : result PairHealth PairBackendError.t * ctl :=
  let '(r, b) := backend_health (ctl_backend c) in (r, set_backend b c).

Definition health_matches_managed_state (state : ManagedLiveState.t)
    (health : option PairHealth) : bool :=
  let healthy_lifecycle :=
    match health with
    | Some snapshot =>
        if bool_decide (health_level_of snapshot = PairHealthLevel.Healthy)
           && negb (reported_error snapshot)
        then Some (health_lifecycle snapshot) else None
    | None => None
    end in
  match state, healthy_lifecycle with
  | ManagedLiveState.Linked, Some PairLifecycle.Linked
  | ManagedLiveState.Ready, Some PairLifecycle.Ready
  | ManagedLiveState.Offline, _
  | ManagedLiveState.Unknown, _
  | ManagedLiveState.Linking, _
  | ManagedLiveState.Unlinking, _
  | ManagedLiveState.Recovering, _
  | ManagedLiveState.Degraded, _
  | ManagedLiveState.ShuttingDown, _ => true
  | ManagedLiveState.Linked, _
  | ManagedLiveState.Ready, _ => false
  end.

Definition status (now : Z) (c : ctl) : ControllerStatus * ctl :=
  let previous_managed_state := managed_state c in
  let '((pair_configuration, members), c) := read_pair_configuration c in
  let '(health, c) := read_health c in
  let backend_health := result_ok health in
  let lost_backend :=
    negb (bool_decide (managed_state c = ManagedLiveState.Offline))
    && negb (bool_decide (is_Some backend_health)) in
  let membership_not_confirmed :=
    negb (bool_decide (pair_configuration = PairConfigurationState.Ready))
    && bool_decide (managed_state c = ManagedLiveState.Linked) in
  let contradictory_health :=
    negb (health_matches_managed_state (managed_state c) backend_health) in
  let c :=
    if lost_backend || membership_not_confirmed || contradictory_health
    then set_managed_state ManagedLiveState.Unknown c else c in
  let c :=
    if bool_decide (managed_state c <> previous_managed_state)
    then bump_revision c else c in
  (mkControllerStatus (backend_kind (ctl_backend c)) pair_configuration members
     (managed_state c) backend_health (unresolved_action c) (consecutive_failures c)
     (revision c) (last_action_status now <$> last_action c), c).

(** [now] is the reading of the clock that [Instant::now()] returns. *)
Definition finish_with_evidence (now : Z) (action : ControllerAction.t)
    (outcome : ControllerActionOutcome.t) (evidence : option PairBackendEvidence.t)
    (failure : option ControllerFailure.t) (c : ctl) : ControllerActionResult * ctl :=
  let c := bump_revision c in
  let r := mkActionResult action outcome (managed_state c) evidence failure (revision c) in
  (r, set_last_action (Some (mkRecordedAction r now)) c).

Definition finish (now : Z) (action : ControllerAction.t)
    (outcome : ControllerActionOutcome.t) (failure : option ControllerFailure.t) (c : ctl)
  : ControllerActionResult * ctl :=
  finish_with_evidence now action outcome None failure c.

Definition reject_preflight (now : Z) (action : ControllerAction.t)
    (failure : ControllerFailure.t) (c : ctl) : ControllerActionResult * ctl :=
  finish now action ControllerActionOutcome.RejectedBeforeSend (Some failure)
    (count_failure c).

Definition journal_commit_failed (now : Z) (action : ControllerAction.t) (c : ctl)
  : ControllerActionResult * ctl :=
  let c := set_managed_state ManagedLiveState.Unknown (set_unresolved true (count_failure c)) in
  finish now action ControllerActionOutcome.OutcomeUnknown
    (Some ControllerFailure.JournalCommitFailed) c.

(** [self.journal.mark_pending(..)] and [self.journal.clear()]. *)
Definition journal_mark (action : ControllerAction.t) (c : ctl)
  : result unit JournalError.t * ctl :=
  let '(r, j) := mark_pending (journal_action action) (ctl_journal c) in (r, set_journal j c).
Definition journal_clear (c : ctl) : result unit JournalError.t * ctl :=
  let '(r, j) := clear (ctl_journal c) in (r, set_journal j c).

Definition is_idempotent (action : ControllerAction.t) (c : ctl) : bool * ctl :=
  let expected :=
    match action with
    | ControllerAction.Start => Some (ManagedLiveState.Linked, PairLifecycle.Linked)
    | ControllerAction.Stop => Some (ManagedLiveState.Ready, PairLifecycle.Ready)
    | ControllerAction.Shutdown => Some (ManagedLiveState.Offline, PairLifecycle.Offline)
    | ControllerAction.RecoverStop => None
    end in
  match expected with
  | None => (false, c)
  | Some (expected_state, expected_lifecycle) =>
      if negb (bool_decide (managed_state c = expected_state)) then (false, c)
      else
        let '(health, c) := read_health c in
        (match health with
         | Ok health =>
             bool_decide (health_lifecycle health = expected_lifecycle)
             && bool_decide (health_level_of health = PairHealthLevel.Healthy)
             && negb (reported_error health)
             && negb (bool_decide (health_backend health = PairBackendKind.NativePair)
                      && bool_decide (aura_transport health = AuraControlTransport.Unresolved))
         | Err _ => false
         end, c)
  end.

(** The lifecycle an accepted receipt must report, and the states an action
    goes through and ends in. *)
Definition expected_lifecycle (action : ControllerAction.t) : PairLifecycle.t :=
  match action with
  | ControllerAction.Start => PairLifecycle.Linked
  | ControllerAction.Stop => PairLifecycle.Ready
  | ControllerAction.Shutdown => PairLifecycle.ShuttingDown
  | ControllerAction.RecoverStop => PairLifecycle.Ready
  end.
Definition transitional_state (action : ControllerAction.t) : ManagedLiveState.t :=
  match action with
  | ControllerAction.Start => ManagedLiveState.Linking
  | ControllerAction.Stop => ManagedLiveState.Unlinking
  | ControllerAction.Shutdown => ManagedLiveState.ShuttingDown
  | ControllerAction.RecoverStop => ManagedLiveState.Recovering
  end.
Definition final_state (action : ControllerAction.t) : ManagedLiveState.t :=
  match action with
  | ControllerAction.Start => ManagedLiveState.Linked
  | ControllerAction.Stop => ManagedLiveState.Ready
  | ControllerAction.Shutdown => ManagedLiveState.Offline
  | ControllerAction.RecoverStop => ManagedLiveState.Ready
  end.

(** The failed latch: one more failure, unresolved, unknown. *)
Definition latch_unknown (c : ctl) : ctl :=
  set_managed_state ManagedLiveState.Unknown (set_unresolved true (count_failure c)).

Definition reduce_backend_result (now : Z) (action : ControllerAction.t)
    (attempted : PairActionResult.t) (had_pending_uncertainty : bool) (c : ctl)
  : ControllerActionResult * ctl :=
  match attempted with
  | PairActionResult.RejectedBeforeSend failure =>
      let may_clear :=
        negb (bool_decide (action = ControllerAction.RecoverStop))
        || negb had_pending_uncertainty in
      let '(cleared, c) := if may_clear then journal_clear c else (Ok tt, c) in
      if may_clear && is_err cleared then journal_commit_failed now action c
      else
        let c := if may_clear then c else set_unresolved true c in
        let c := set_managed_state ManagedLiveState.Degraded (count_failure c) in
        finish now action ControllerActionOutcome.RejectedBeforeSend
          (Some (controller_failure_from_backend (reason failure))) c
  | PairActionResult.OutcomeUnknown failure =>
      finish now action ControllerActionOutcome.OutcomeUnknown
        (Some (controller_failure_from_unknown_backend (reason failure))) (latch_unknown c)
  | PairActionResult.Accepted receipt =>
      if negb (bool_decide (receipt_lifecycle receipt = expected_lifecycle action)) then
        finish now action ControllerActionOutcome.OutcomeUnknown
          (Some ControllerFailure.UnexpectedBackendLifecycle) (latch_unknown c)
      else
        let '((configuration, _), c) := read_pair_configuration c in
        if negb (bool_decide (configuration = PairConfigurationState.Ready)) then
          finish now action ControllerActionOutcome.PostconditionFailed
            (Some ControllerFailure.MembershipPostconditionFailed) (latch_unknown c)
        else
          let '(cleared, c) := journal_clear c in
          if is_err cleared then journal_commit_failed now action c
          else
            let c := set_managed_state (final_state action)
                       (set_unresolved false (set_failures 0%Z c)) in
            let evidence := receipt_evidence receipt in
            let outcome :=
              if decide (evidence = PairBackendEvidence.BroadcastAcknowledgementOnly)
              then ControllerActionOutcome.AcceptedUnconfirmed
              else ControllerActionOutcome.Accepted in
            finish_with_evidence now action outcome (Some evidence) None c
  end.

(** The first half of [mutate]: the latch, the recovery gate, the offline
    shutdown, the membership preflight, idempotency and the pending record.
    [None] means that the backend is to be called. *)
Definition admit_action (now : Z) (action : ControllerAction.t) (c : ctl)
  : option ControllerActionResult * ctl :=
  let done := fun '(r, c) => (Some r, c) in
  if unresolved_action c && negb (bool_decide (action = ControllerAction.RecoverStop)) then
    done (finish now action ControllerActionOutcome.RejectedBeforeSend
            (Some ControllerFailure.UnresolvedPriorAction) c)
  else if bool_decide (action = ControllerAction.RecoverStop)
          && negb (unresolved_action c) && (consecutive_failures c <? 2)%Z then
    done (finish now action ControllerActionOutcome.RejectedBeforeSend
            (Some ControllerFailure.RecoveryNotAllowed) c)
  else if bool_decide (action = ControllerAction.Shutdown)
          && bool_decide (managed_state c = ManagedLiveState.Offline) then
    done (finish now action ControllerActionOutcome.Idempotent None c)
  else
    let '((configuration, _), c) := read_pair_configuration c in
    match configuration with
    | PairConfigurationState.NotReady =>
        done (reject_preflight now action ControllerFailure.ExpectedPairNotConfigured c)
    | PairConfigurationState.Unavailable =>
        done (reject_preflight now action ControllerFailure.PairConfigurationUnavailable c)
    | PairConfigurationState.Ready =>
        let '(idempotent, c) := is_idempotent action c in
        if idempotent then
          done (finish now action ControllerActionOutcome.Idempotent None (set_failures 0%Z c))
        else
          let '(marked, c) := journal_mark action c in
          if is_err marked then
            let c := count_failure c in
            let c := if is_pending (ctl_journal c)
                     then set_managed_state ManagedLiveState.Unknown (set_unresolved true c)
                     else c in
            done (finish now action ControllerActionOutcome.RejectedBeforeSend
                    (Some ControllerFailure.JournalUnavailable) c)
          else (None, bump_revision (set_managed_state (transitional_state action) c))
    end.

(** The transaction over the backend: one action on a pinned backend. *)
Definition attempt (action : ControllerAction.t) (c : ctl) : PairActionResult.t * ctl :=
  let transaction := transaction_new (ctl_backend c) in
  let '(attempted, transaction) :=
    match action with
    | ControllerAction.Start => txn_start transaction
    | ControllerAction.Stop => txn_stop transaction
    | ControllerAction.Shutdown => txn_shutdown transaction
    | ControllerAction.RecoverStop => txn_recover_stop transaction
    end in
  (attempted, set_backend (txn_backend transaction) c).

Definition mutate (now : Z) (action : ControllerAction.t) (c : ctl)
  : ControllerActionResult * ctl :=
  let had_pending_uncertainty := unresolved_action c in
  match admit_action now action c with
  | (Some r, c) => (r, c)
  | (None, c) =>
      let '(attempted, c) := attempt action c in
      reduce_backend_result now action attempted had_pending_uncertainty c
  end.

Definition start (now : Z) := mutate now ControllerAction.Start.
Definition stop (now : Z) := mutate now ControllerAction.Stop.
Definition shutdown (now : Z) := mutate now ControllerAction.Shutdown.
Definition recover_stop (now : Z) := mutate now ControllerAction.RecoverStop.

Definition teardown_transport_for_exit (c : ctl) : result unit PairBackendError.t * ctl :=
  let '(r, b) := backend_teardown_transport (ctl_backend c) in (r, set_backend b c).
End Controller.

(** A controller whose journal is in memory. *)
Definition controller_new {B P : Type} `{PairBackend B} `{PairConfigurationProbe P}
    (backend : B) (probe : P) : PairController B P MemoryJournal :=
  with_journal backend probe memory_clean.
