(* ===== verification/ControllerSpec.v ===== *)
(** What the controller guarantees: the uncertainty latch and its invariant,
    what reaches the backend and when, the outcomes, the revision, and the
    refinement of an abstract latch automaton.  Everything is proved against
    the interfaces of the journal and the backend. *)
From stdpp Require Import relations.
From S2P Require Import Prelude Bytes Backend Journal Model Controller.

(** * Steps and invariant *)

Section Steps.
Context {B P J : Type}.
Context `{PairBackend B} `{PairConfigurationProbe P} `{UncertaintyJournal J}.
#[local] Abbreviation ctl := (PairController B P J).

(** One operation of the service on its controller. *)
Inductive ctl_step : ctl -> ctl -> Prop :=
| step_status now c s c' : status now c = (s, c') -> ctl_step c c'
| step_mutate now action c r c' : mutate now action c = (r, c') -> ctl_step c c'
| step_teardown c r c' : teardown_transport_for_exit c = (r, c') -> ctl_step c c'.

Definition reachable (c : ctl) : Prop :=
  exists backend probe journal, rtc ctl_step (with_journal backend probe journal) c.

(** The operations other than the explicit recovery. *)
Inductive non_recovery_step : ctl -> ctl -> Prop :=
| plain_status now c s c' : status now c = (s, c') -> non_recovery_step c c'
| plain_mutate now action c r c' :
    action <> ControllerAction.RecoverStop ->
    mutate now action c = (r, c') -> non_recovery_step c c'
| plain_teardown c r c' :
    teardown_transport_for_exit c = (r, c') -> non_recovery_step c c'.

(** The states the controller rests in between operations. *)
Definition resting (s : ManagedLiveState.t) : Prop :=
  s ∈ [ManagedLiveState.Unknown; ManagedLiveState.Offline; ManagedLiveState.Ready;
       ManagedLiveState.Linked; ManagedLiveState.Degraded].

Record wf (c : ctl) : Prop := {
  wf_journal : unresolved_action c = is_pending (ctl_journal c);
  wf_resting : resting (managed_state c);
  wf_unresolved : unresolved_action c = true ->
    managed_state c = ManagedLiveState.Unknown \/ managed_state c = ManagedLiveState.Degraded;
  wf_failures : (0 <= consecutive_failures c <= u8_max)%Z;
  wf_unresolved_failures : unresolved_action c = true -> (1 <= consecutive_failures c)%Z;
  wf_revision : (0 <= revision c <= u64_max)%Z;
  wf_last_action : forall a, last_action c = Some a ->
    (0 <= result_revision (recorded_result a) <= revision c)%Z;
}.

(** The probe, asked now, finds exactly the configured pair. *)
Definition exact_membership (p p' : P) : Prop :=
  exists obs, pair_configuration p = (Ok obs, p') /\ exact_pair_configured obs = true.

(** The revision has not reached the maximum it saturates at. *)
Definition unsaturated (c : ctl) : Prop := (0 <= revision c < u64_max)%Z.

(** Recovery is admissible: something is unresolved, or enough has failed. *)
Definition recoverable (c : ctl) : Prop :=
  unresolved_action c = true \/ (2 <= consecutive_failures c)%Z.

Lemma not_recoverable c :
  ~ recoverable c <-> unresolved_action c = false /\ (consecutive_failures c < 2)%Z.
Proof.
  unfold recoverable. rewrite <- not_true_iff_false. split; [intros N; split|].
  - tauto.
  - apply Z.nle_gt. tauto.
  - intros [? ?] [?|?]; [done|lia].
Qed.

(** The call [attempt] makes. *)
Definition action_call (action : ControllerAction.t) : B -> PairActionResult.t * B :=
  match action with
  | ControllerAction.Start => backend_start
  | ControllerAction.Stop => backend_stop
  | ControllerAction.Shutdown => backend_shutdown
  | ControllerAction.RecoverStop => backend_recover_stop
  end.

Lemma attempt_call action (c : ctl) :
  attempt action c =
    let '(attempted, t) := checked_action (action_call action) (transaction_new (ctl_backend c)) in
    (attempted, set_backend (txn_backend t) c).
Proof. by destruct action. Qed.

(** [attempt] changes nothing but the backend, and reports an accepted or
    rejected result only when the backend returned one. *)
Lemma attempt_spec action (c c' : ctl) attempted :
  attempt action c = (attempted, c') ->
  exists raw b', action_call action (ctl_backend c) = (raw, b') /\ c' = set_backend b' c /\
    match attempted with
    | PairActionResult.Accepted receipt =>
        raw = PairActionResult.Accepted receipt /\
        backend_kind b' = backend_kind (ctl_backend c) /\
        receipt_backend receipt = backend_kind (ctl_backend c)
    | PairActionResult.RejectedBeforeSend _ =>
        exists f, raw = PairActionResult.RejectedBeforeSend f
    | PairActionResult.OutcomeUnknown _ => True
    end.
Proof.
  rewrite attempt_call. intros E.
  pose proof (checked_action_fresh (action_call action) (ctl_backend c)) as F.
  destruct (action_call action (ctl_backend c)) as [raw b'] eqn:Eb.
  destruct (checked_action _ _) as [res t]. simplify_eq/=. destruct F as [-> F].
  exists raw, b'. split; [done|]. split; [done|]. by destruct attempted.
Qed.

(** The backend was at most asked for its health. *)
Definition health_only (b b' : B) : Prop := b' = b \/ exists r, backend_health b = (r, b').

(** One call of the backend. *)
Inductive backend_call (b b' : B) : Prop :=
| backend_asked r : backend_health b = (r, b') -> backend_call b b'
| backend_acted action r : action_call action b = (r, b') -> backend_call b b'
| backend_torn_down r : backend_teardown_transport b = (r, b') -> backend_call b b'.

Lemma health_only_calls (b b' : B) : health_only b b' -> rtc backend_call b b'.
Proof. intros [->|[r Hr]]; [done|]. apply rtc_once. by eapply backend_asked. Qed.

(** The bookkeeping of [finish]: one revision, and the result is recorded. *)
Record finished (now : Z) (action : ControllerAction.t) (c : ctl)
    (r : ControllerActionResult) (c' : ctl) : Prop := {
  finished_action : result_action r = action;
  finished_revision : result_revision r = revision c';
  finished_state : result_managed_state r = managed_state c';
  finished_record : last_action c' = Some (mkRecordedAction r now);
}.

(** How [admit_action] refuses. *)
Inductive refusal (action : ControllerAction.t) (c : ctl) (r : ControllerActionResult)
    (c' : ctl) : Prop :=
| refuse_unresolved :
    unresolved_action c = true -> action <> ControllerAction.RecoverStop ->
    result_outcome r = ControllerActionOutcome.RejectedBeforeSend ->
    result_failure r = Some ControllerFailure.UnresolvedPriorAction ->
    c' = set_last_action (last_action c') (bump_revision c) ->
    refusal action c r c'
| refuse_recovery :
    unresolved_action c = false -> action = ControllerAction.RecoverStop ->
    (consecutive_failures c < 2)%Z ->
    result_outcome r = ControllerActionOutcome.RejectedBeforeSend ->
    result_failure r = Some ControllerFailure.RecoveryNotAllowed ->
    c' = set_last_action (last_action c') (bump_revision c) ->
    refusal action c r c'
| refuse_offline :
    unresolved_action c = false -> action = ControllerAction.Shutdown ->
    managed_state c = ManagedLiveState.Offline ->
    result_outcome r = ControllerActionOutcome.Idempotent -> result_failure r = None ->
    c' = set_last_action (last_action c') (bump_revision c) ->
    refusal action c r c'
| refuse_membership failure p :
    failure = ControllerFailure.ExpectedPairNotConfigured \/
    failure = ControllerFailure.PairConfigurationUnavailable ->
    (unresolved_action c = true -> action = ControllerAction.RecoverStop) ->
    (action = ControllerAction.RecoverStop -> unresolved_action c = false ->
       2 <= consecutive_failures c)%Z ->
    result_outcome r = ControllerActionOutcome.RejectedBeforeSend ->
    result_failure r = Some failure ->
    c' = set_last_action (last_action c') (bump_revision (count_failure (set_probe p c))) ->
    refusal action c r c'
| refuse_idempotent p b :
    unresolved_action c = false -> action <> ControllerAction.RecoverStop ->
    managed_state c = final_state action -> health_only (ctl_backend c) b ->
    result_outcome r = ControllerActionOutcome.Idempotent -> result_failure r = None ->
    c' = set_last_action (last_action c')
           (bump_revision (set_failures 0%Z (set_backend b (set_probe p c)))) ->
    refusal action c r c'
| refuse_journal p b j e :
    (unresolved_action c = true -> action = ControllerAction.RecoverStop) ->
    (action = ControllerAction.RecoverStop -> unresolved_action c = false ->
       2 <= consecutive_failures c)%Z ->
    health_only (ctl_backend c) b ->
    mark_pending (journal_action action) (ctl_journal c) = (Err e, j) ->
    result_outcome r = ControllerActionOutcome.RejectedBeforeSend ->
    result_failure r = Some ControllerFailure.JournalUnavailable ->
    c' = set_last_action (last_action c') (bump_revision
           (let c1 := count_failure (set_journal j (set_backend b (set_probe p c))) in
            if is_pending j
            then set_managed_state ManagedLiveState.Unknown (set_unresolved true c1) else c1)) ->
    refusal action c r c'.

(** The state in which the backend is called. *)
Record admitted (action : ControllerAction.t) (c c' : ctl) : Prop := {
  admitted_latch : unresolved_action c = true -> action = ControllerAction.RecoverStop;
  admitted_recovery : action = ControllerAction.RecoverStop -> unresolved_action c = false ->
    (2 <= consecutive_failures c)%Z;
  admitted_membership : exists obs,
    pair_configuration (ctl_probe c) = (Ok obs, ctl_probe c') /\ exact_pair_configured obs = true;
  admitted_backend : health_only (ctl_backend c) (ctl_backend c');
  admitted_journal :
    mark_pending (journal_action action) (ctl_journal c) = (Ok tt, ctl_journal c');
  admitted_state : c' = bump_revision (set_managed_state (transitional_state action)
    (set_journal (ctl_journal c') (set_backend (ctl_backend c') (set_probe (ctl_probe c') c))));
}.

Lemma is_idempotent_spec action (c c' : ctl) b :
  is_idempotent action c = (b, c') ->
  exists b', c' = set_backend b' c /\ health_only (ctl_backend c) b' /\
    (b = true -> action <> ControllerAction.RecoverStop /\ managed_state c = final_state action).
Proof.
  unfold is_idempotent, read_health. intros E.
  assert (Hc : c = set_backend (ctl_backend c) c) by (by destruct c).
  assert (Hstay : exists b', c = set_backend b' c /\ health_only (ctl_backend c) b')
    by (exists (ctl_backend c); split; [done|by left]).
  destruct action; simpl in E.
  4: { simplify_eq. destruct Hstay as (b'&?&?). exists b'. by split_and!. }
  all: destruct (negb _) eqn:G; bool_hyps;
    [simplify_eq; destruct Hstay as (b'&?&?); exists b'; by split_and!|].
  all: destruct (backend_health (ctl_backend c)) as [r b'] eqn:Eb; simplify_eq.
  all: exists b'; split_and!; [done|right; by exists r|done].
Qed.

Lemma admit_spec now action (c c' : ctl) o :
  admit_action now action c = (o, c') ->
  match o with
  | Some r => finished now action c r c' /\ refusal action c r c'
  | None => admitted action c c'
  end.
Proof.
  unfold admit_action. intros E.
  assert (Hc : c = set_probe (ctl_probe c) c) by (by destruct c).
  destruct (unresolved_action c && _) eqn:G1.
  { bool_hyps. simplify_eq/=. split; [by split|]. by apply refuse_unresolved. }
  destruct (bool_decide (action = ControllerAction.RecoverStop) && _ && _) eqn:G2.
  { bool_hyps. simplify_eq/=. split; [by split|]. by apply refuse_recovery. }
  assert (L1 : unresolved_action c = true -> action = ControllerAction.RecoverStop).
  { intros Hu. rewrite Hu in G1. simpl in G1. by bool_hyps. }
  assert (L2 : action = ControllerAction.RecoverStop -> unresolved_action c = false ->
      (2 <= consecutive_failures c)%Z).
  { intros -> Hu. rewrite Hu in G2. simpl in G2. by bool_hyps. }
  destruct (bool_decide (action = ControllerAction.Shutdown) && _) eqn:G3.
  { bool_hyps. simplify_eq/=. split; [by split|]. apply refuse_offline; try done.
    destruct (unresolved_action c); [by rewrite L1 in *|done]. }
  unfold read_pair_configuration in E.
  destruct (pair_configuration (ctl_probe c)) as [[obs|] p] eqn:Ep; simpl in E; last first.
  { simplify_eq/=. split; [by split|]. apply (refuse_membership _ _ _ _ ControllerFailure.PairConfigurationUnavailable p); auto. }
  destruct (exact_pair_configured obs) eqn:Eo; simpl in E; last first.
  { simplify_eq/=. split; [by split|]. apply (refuse_membership _ _ _ _ ControllerFailure.ExpectedPairNotConfigured p); auto. }
  destruct (is_idempotent action (set_probe p c)) as [idem c2] eqn:Ei.
  apply is_idempotent_spec in Ei as (b & -> & Hb & Hi). simpl in Hb.
  destruct idem.
  { simplify_eq/=. split; [by split|]. eapply (refuse_idempotent _ _ _ _ p b); eauto.
    - destruct (unresolved_action c); [|done]. destruct (Hi eq_refl) as [Hn _]. by destruct Hn; auto.
    - by destruct (Hi eq_refl).
    - by destruct (Hi eq_refl). }
  unfold journal_mark in E. simpl in E.
  destruct (mark_pending (journal_action action) (ctl_journal c)) as [r j] eqn:Ej.
  destruct r as [[]|e]; simpl in E.
  - simplify_eq/=. split; eauto.
  - simplify_eq/=. split; [|eapply (refuse_journal _ _ _ _ p b j e); eauto];
      destruct (is_pending j); by split.
Qed.

(** How [reduce_backend_result] ends. *)
Inductive reduction (action : ControllerAction.t) (attempted : PairActionResult.t)
    (had : bool) (c : ctl) (r : ControllerActionResult) (c' : ctl) : Prop :=
| reduce_rejected failure :
    attempted = PairActionResult.RejectedBeforeSend failure ->
    result_outcome r = ControllerActionOutcome.RejectedBeforeSend ->
    result_failure r = Some (controller_failure_from_backend (reason failure)) ->
    managed_state c' = ManagedLiveState.Degraded ->
    consecutive_failures c' = saturating_succ u8_max (consecutive_failures c) ->
    (action = ControllerAction.RecoverStop -> had = false) /\
      clear (ctl_journal c) = (Ok tt, ctl_journal c') /\
      unresolved_action c' = unresolved_action c \/
    action = ControllerAction.RecoverStop /\ had = true /\
      ctl_journal c' = ctl_journal c /\ unresolved_action c' = true ->
    reduction action attempted had c r c'
| reduce_uncertain failure :
    result_outcome r = ControllerActionOutcome.OutcomeUnknown \/
    result_outcome r = ControllerActionOutcome.PostconditionFailed ->
    result_failure r = Some failure -> failure <> ControllerFailure.RecoveryNotAllowed ->
    managed_state c' = ManagedLiveState.Unknown ->
    consecutive_failures c' = saturating_succ u8_max (consecutive_failures c) ->
    unresolved_action c' = true ->
    ctl_journal c' = ctl_journal c \/ (exists e, clear (ctl_journal c) = (Err e, ctl_journal c')) ->
    reduction action attempted had c r c'
| reduce_accepted receipt obs :
    attempted = PairActionResult.Accepted receipt ->
    receipt_lifecycle receipt = expected_lifecycle action ->
    pair_configuration (ctl_probe c) = (Ok obs, ctl_probe c') -> exact_pair_configured obs = true ->
    clear (ctl_journal c) = (Ok tt, ctl_journal c') ->
    result_outcome r =
      (if decide (receipt_evidence receipt = PairBackendEvidence.BroadcastAcknowledgementOnly)
       then ControllerActionOutcome.AcceptedUnconfirmed else ControllerActionOutcome.Accepted) ->
    result_evidence r = Some (receipt_evidence receipt) -> result_failure r = None ->
    managed_state c' = final_state action -> consecutive_failures c' = 0%Z ->
    unresolved_action c' = false ->
    reduction action attempted had c r c'.

Lemma unknown_failure_kind error :
  controller_failure_from_unknown_backend error <> ControllerFailure.RecoveryNotAllowed.
Proof. by destruct error. Qed.

Lemma rejected_failure_kind error :
  controller_failure_from_backend error <> ControllerFailure.RecoveryNotAllowed.
Proof. by destruct error. Qed.

Lemma reduce_spec now action attempted had (c c' : ctl) r :
  reduce_backend_result now action attempted had c = (r, c') ->
  finished now action c r c' /\ reduction action attempted had c r c' /\
  ctl_backend c' = ctl_backend c /\ revision c' = saturating_succ u64_max (revision c).
Proof.
  unfold reduce_backend_result, journal_commit_failed, finish, finish_with_evidence.
  intros E. destruct attempted as [receipt|failure|failure].
  - destruct (bool_decide (receipt_lifecycle receipt = _)) eqn:El; simpl in E; last first.
    { simplify_eq/=. split_and!; [by split| |done|done]. eapply reduce_uncertain; simpl; eauto; done. }
    unfold read_pair_configuration in E.
    destruct (pair_configuration (ctl_probe c)) as [[obs|] p] eqn:Ep; simpl in E; last first.
    { simplify_eq/=. split_and!; [by split| |done|done]. eapply reduce_uncertain; simpl; eauto; done. }
    destruct (exact_pair_configured obs) eqn:Eo; simpl in E; last first.
    { simplify_eq/=. split_and!; [by split| |done|done]. eapply reduce_uncertain; simpl; eauto; done. }
    unfold journal_clear in E. simpl in E.
    destruct (clear (ctl_journal c)) as [[[]|e] j] eqn:Ej; simpl in E.
    + simplify_eq/=. bool_hyps. split_and!; [by split| |done|done].
      eapply reduce_accepted; simpl; eauto.
    + simplify_eq/=. split_and!; [by split| |done|done]. eapply reduce_uncertain; simpl; eauto; done.
  - destruct (negb (bool_decide (action = ControllerAction.RecoverStop)) || negb had) eqn:Em;
      cbn [andb] in E.
    + unfold journal_clear in E.
      destruct (clear (ctl_journal c)) as [[[]|e] j] eqn:Ej; simpl in E.
      * simplify_eq/=. split_and!; [by split| |done|done].
        eapply reduce_rejected; simpl; eauto. left. split; [|done].
        intros ->. destruct had; [|done]. by rewrite bool_decide_eq_true_2 in Em.
      * simplify_eq/=. split_and!; [by split| |done|done]. eapply reduce_uncertain; simpl; eauto; done.
    + bool_hyps. simplify_eq/=. split_and!; [by split| |done|done].
      eapply reduce_rejected; simpl; eauto.
  - simplify_eq/=. split_and!; [by split| |done|done]. eapply reduce_uncertain; simpl; eauto.
    apply unknown_failure_kind.
Qed.

(** A mutation is a refusal, or an admission, a call of the backend and a
    reduction. *)
Lemma mutate_spec now action (c c' : ctl) r :
  mutate now action c = (r, c') ->
  finished now action c r c' /\
  (refusal action c r c' \/
   exists c1 raw attempted c2,
     admitted action c c1 /\
     action_call action (ctl_backend c1) = (raw, ctl_backend c') /\
     attempt action c1 = (attempted, c2) /\
     reduction action attempted (unresolved_action c) c2 r c' /\
     c2 = set_backend (ctl_backend c') c1 /\
     revision c' = saturating_succ u64_max (revision c1) /\
     match attempted with
     | PairActionResult.Accepted receipt =>
         raw = PairActionResult.Accepted receipt /\
         backend_kind (ctl_backend c') = backend_kind (ctl_backend c1) /\
         receipt_backend receipt = backend_kind (ctl_backend c1)
     | PairActionResult.RejectedBeforeSend _ =>
         exists f, raw = PairActionResult.RejectedBeforeSend f
     | PairActionResult.OutcomeUnknown _ => True
     end).
Proof.
  unfold mutate. intros E. destruct (admit_action now action c) as [o c1] eqn:Ea.
  apply admit_spec in Ea. destruct o as [r'|].
  - simplify_eq/=. destruct Ea. split; [done|by left].
  - destruct (attempt action c1) as [attempted c2] eqn:Et.
    apply reduce_spec in E as (Hf & Hr & Hb & Hv).
    destruct (attempt_spec _ _ _ _ Et) as (raw & b' & Hcall & -> & Hraw). simpl in *. subst b'.
    split; [by destruct Hf; split|right].
    exists c1, raw, attempted, (set_backend (ctl_backend c') c1). by split_and!.
Qed.
End Steps.

Section Invariant.
Context {B P J : Type}.
Context `{PairBackend B} `{PairConfigurationProbe P} `{UncertaintyJournalLaws J}.
#[local] Abbreviation ctl := (PairController B P J).

(** A status read asks the probe and the backend's health, and may only
    downgrade the managed state to unknown. *)
Lemma status_spec now (c c' : ctl) s :
  status now c = (s, c') ->
  ctl_journal c' = ctl_journal c /\ unresolved_action c' = unresolved_action c /\
  consecutive_failures c' = consecutive_failures c /\ last_action c' = last_action c /\
  health_only (ctl_backend c) (ctl_backend c') /\
  (managed_state c' = managed_state c /\ revision c' = revision c \/
   managed_state c <> ManagedLiveState.Unknown /\
   managed_state c' = ManagedLiveState.Unknown /\
   revision c' = saturating_succ u64_max (revision c)).
Proof.
  unfold status, read_pair_configuration, read_health. intros E.
  destruct (pair_configuration (ctl_probe c)) as [ro p]. cbn [ctl_backend set_probe] in E.
  destruct (backend_health (ctl_backend c)) as [rh b] eqn:Eb.
  assert (Hb : health_only (ctl_backend c) b) by (right; eauto).
  destruct ro as [obs|]; cbv zeta iota beta in E; destruct (_ || _) in E;
    destruct (decide (managed_state c = ManagedLiveState.Unknown)) as [Hu|Hu];
    rewrite ?Hu in E;
    first [rewrite bool_decide_eq_true_2 in E by (simpl; congruence)
          |rewrite bool_decide_eq_false_2 in E by (simpl; congruence)];
    simplify_eq/=; split_and!; auto.
Qed.

(** Whatever the service does with its controller, the backend sees calls. *)
Lemma refusal_calls action (c c' : ctl) r :
  refusal action c r c' -> rtc backend_call (ctl_backend c) (ctl_backend c').
Proof.
  intros [??? ? E|???? ? E|???? ? E|failure p ????? E|p b ??? Hb ?? E|p b j e ?? Hb ??? E];
    rewrite E; simpl; try done; [by apply health_only_calls|].
  destruct (is_pending j); by apply health_only_calls.
Qed.

Lemma ctl_step_calls (c c' : ctl) :
  ctl_step c c' -> rtc backend_call (ctl_backend c) (ctl_backend c').
Proof.
  intros [now c0 s c0' E|now action c0 r c0' E|c0 r c0' E].
  - apply status_spec in E as (_&_&_&_&Hb&_). by apply health_only_calls.
  - apply mutate_spec in E as [_ [Href|(c1 & raw & attempted & c2 & Hadm & Hcall & _)]];
      [by eapply refusal_calls|].
    eapply rtc_r; [by apply health_only_calls, (admitted_backend _ _ _ Hadm)|].
    by eapply backend_acted.
  - unfold teardown_transport_for_exit in E.
    destruct (backend_teardown_transport (ctl_backend c0)) as [r' b'] eqn:Et. simplify_eq/=.
    apply rtc_once. by eapply backend_torn_down.
Qed.

Lemma wf_init backend probe journal : wf (with_journal backend probe journal : ctl).
Proof.
  unfold with_journal. split; simpl; auto; try (unfold u64_max; lia).
  - by left.
  - destruct (is_pending journal); unfold u8_max; lia.
  - intros ->. lia.
  - done.
Qed.

(** The bookkeeping clauses of [wf], after an operation that recorded a
    result. *)
Lemma wf_finished now action (c c' : ctl) r :
  finished now action c r c' -> (0 <= revision c' <= u64_max)%Z ->
  forall a, last_action c' = Some a ->
    (0 <= result_revision (recorded_result a) <= revision c')%Z.
Proof. intros [_ Hr _ Hl] Hb a Ha. rewrite Hl in Ha. simplify_eq/=. lia. Qed.

Lemma resting_final action : resting (final_state action).
Proof. destruct action; unfold resting; simpl; repeat first [by left|right]. Qed.

Ltac resting_tac := unfold resting; repeat first [by left|right].

Lemma wf_refusal now action (c c' : ctl) r :
  wf c -> finished now action c r c' -> refusal action c r c' -> wf c'.
Proof.
  intros [Hj Hr Hu Hf Huf Hv _] Hfin Href.
  pose proof (saturating_succ_bounds u64_max (revision c) Hv) as Hv'.
  pose proof (saturating_succ_bounds u8_max (consecutive_failures c) Hf) as Hf'.
  destruct Href as [??? ? E|???? ? E|???? ? E|failure p ????? E|p b ?????? E|p b j e ??? Hmark ?? E];
    (assert (Hlast := wf_finished now action c c' r Hfin)); rewrite E in Hlast |- *;
    cbn in Hlast |- *; try (by split; auto).
  - split; cbn; auto. unfold saturating_succ, u8_max in *. intros. lia.
  - split; cbn; auto; [unfold u8_max; lia|by intros; congruence].
  - apply mark_pending_err in Hmark as [Hp _]; clear E.
    destruct (is_pending j) eqn:Ej; split; cbn; rewrite ?Ej; auto; try (by left);
      try (unfold saturating_succ, u8_max in *; intros; lia).
    rewrite Hj. destruct (is_pending (ctl_journal c)); [by rewrite Hp|done].
Qed.

Lemma wf_reduction now action attempted (c c1 c2 c' : ctl) r :
  wf c -> admitted action c c1 -> ctl_journal c2 = ctl_journal c1 ->
  unresolved_action c2 = unresolved_action c ->
  consecutive_failures c2 = consecutive_failures c ->
  (0 <= revision c' <= u64_max)%Z ->
  finished now action c r c' ->
  reduction action attempted (unresolved_action c) c2 r c' -> wf c'.
Proof.
  intros Hw Hadm Hj2 Hu2 Hf2 Hv Hfin Hred.
  assert (Hlast := wf_finished now action c c' r Hfin Hv).
  pose proof (wf_failures _ Hw) as Hf.
  pose proof (saturating_succ_bounds u8_max (consecutive_failures c) Hf) as Hf'.
  destruct (mark_pending_ok _ _ _ (admitted_journal _ _ _ Hadm)) as [Hp _].
  assert (Hl := admitted_latch _ _ _ Hadm).
  destruct Hred as [failure _ _ _ Hm Hc Hcase|failure _ _ _ Hm Hc Hu Hj
    |receipt obs _ _ _ _ Hcl _ _ _ Hm Hc Hu].
  - rewrite Hf2 in Hc. destruct Hcase as [(Hhad & Hcl & Hu)|(-> & Hhad & Hj & Hu)].
    + apply clear_ok in Hcl. rewrite Hu2 in Hu.
      assert (unresolved_action c = false) as Hz
        by (destruct (unresolved_action c); [by specialize (Hhad (Hl eq_refl))|done]).
      split; rewrite ?Hc, ?Hm; auto; try congruence. resting_tac.
    + split; rewrite ?Hc, ?Hm, ?Hu, ?Hj; auto; try congruence; [resting_tac|].
      unfold saturating_succ, u8_max in *; intros; lia.
  - rewrite Hf2 in Hc.
    assert (is_pending (ctl_journal c') = true).
    { destruct Hj as [->|[e He]]; [congruence|]. apply clear_err in He as [-> _]. congruence. }
    split; rewrite ?Hc, ?Hm, ?Hu; auto; [resting_tac|].
    unfold saturating_succ, u8_max in *; intros; lia.
  - apply clear_ok in Hcl. split; rewrite ?Hc, ?Hm, ?Hu; auto; try congruence;
      [apply resting_final|unfold u8_max; lia].
Qed.

Lemma wf_mutate now action (c c' : ctl) r : mutate now action c = (r, c') -> wf c -> wf c'.
Proof.
  intros E Hw. apply mutate_spec in E as [Hfin [Href|Hred]]; [by eapply wf_refusal|].
  destruct Hred as (c1 & raw & attempted & c2 & Hadm & _ & _ & Hred & -> & Hv & _).
  assert (Ha := admitted_state _ _ _ Hadm).
  eapply wf_reduction; [exact Hw|exact Hadm| | | | |exact Hfin|exact Hred]; simpl; try done.
  1,2: by rewrite Ha.
  rewrite Hv, Ha. simpl.
  by apply saturating_succ_bounds, saturating_succ_bounds, wf_revision.
Qed.

Lemma wf_status now (c c' : ctl) s : status now c = (s, c') -> wf c -> wf c'.
Proof.
  intros E [Hj Hr Hu Hf Huf Hv Hl]. apply status_spec in E as (Ej&Eu&Ef&El&_&Hcase).
  pose proof (saturating_succ_bounds u64_max (revision c) Hv) as Hv'.
  pose proof (saturating_succ_le u64_max (revision c)) as Hle.
  destruct Hcase as [[Em Ev]|(_&Em&Ev)]; split; rewrite ?Ej, ?Eu, ?Ef, ?El, ?Em, ?Ev; auto.
  - by left.
  - intros a Ha. specialize (Hl a Ha). lia.
Qed.

Lemma wf_step (c c' : ctl) : ctl_step c c' -> wf c -> wf c'.
Proof.
  destruct 1 as [now c s c' E|now a c r c' E|c r c' E].
  - by eapply wf_status.
  - by eapply wf_mutate.
  - unfold teardown_transport_for_exit in E.
    destruct (backend_teardown_transport (ctl_backend c)). simplify_eq/=.
    intros []. by split.
Qed.

Lemma wf_reachable (c : ctl) : reachable c -> wf c.
Proof.
  intros (backend & probe & journal & Hs).
  assert (Hw : wf (with_journal backend probe journal : ctl)) by apply wf_init.
  revert Hw. induction Hs; eauto using wf_step.
Qed.
End Invariant.

(** * The abstract latch *)

(** What the controller promises its user: a latch and a count of failures, and
    which outcomes may change them. *)
Module Latch.
Record t := mk { latched : bool; failures : Z }.

Definition accepting (o : ControllerActionOutcome.t) : Prop :=
  o = ControllerActionOutcome.Accepted \/ o = ControllerActionOutcome.AcceptedUnconfirmed.
Definition uncertain (o : ControllerActionOutcome.t) : Prop :=
  o = ControllerActionOutcome.OutcomeUnknown \/ o = ControllerActionOutcome.PostconditionFailed.

Definition silent (o : ControllerActionOutcome.t) : Prop :=
  o = ControllerActionOutcome.RejectedBeforeSend \/ o = ControllerActionOutcome.Idempotent.

Definition more (n : Z) : Z := Z.min (n + 1) 255.

(** One action, its outcome and failure, and the latch before and after. *)
Inductive step : t -> ControllerAction.t -> ControllerActionOutcome.t ->
    option ControllerFailure.t -> t -> Prop :=
| refused_by_latch a n :
    a <> ControllerAction.RecoverStop ->
    step (mk true n) a ControllerActionOutcome.RejectedBeforeSend
      (Some ControllerFailure.UnresolvedPriorAction) (mk true n)
| refused_recovery n :
    (n < 2)%Z ->
    step (mk false n) ControllerAction.RecoverStop ControllerActionOutcome.RejectedBeforeSend
      (Some ControllerFailure.RecoveryNotAllowed) (mk false n)
| nothing_to_do a n n' :
    a <> ControllerAction.RecoverStop -> n' = n \/ n' = 0%Z ->
    step (mk false n) a ControllerActionOutcome.Idempotent None (mk false n')
| accepted a l n o :
    (l = true -> a = ControllerAction.RecoverStop) ->
    (a = ControllerAction.RecoverStop -> l = true \/ 2 <= n)%Z -> accepting o ->
    step (mk l n) a o None (mk false 0)
| unknown a l n o f :
    (l = true -> a = ControllerAction.RecoverStop) ->
    (a = ControllerAction.RecoverStop -> l = true \/ 2 <= n)%Z -> uncertain o ->
    step (mk l n) a o (Some f) (mk true (more n))
| rejected a l n f :
    (l = true -> a = ControllerAction.RecoverStop) ->
    (a = ControllerAction.RecoverStop -> l = true \/ 2 <= n)%Z ->
    step (mk l n) a ControllerActionOutcome.RejectedBeforeSend (Some f) (mk l (more n))
| rejected_unjournaled a l n :
    (l = true -> a = ControllerAction.RecoverStop) ->
    (a = ControllerAction.RecoverStop -> l = true \/ 2 <= n)%Z ->
    step (mk l n) a ControllerActionOutcome.RejectedBeforeSend
      (Some ControllerFailure.JournalUnavailable) (mk true (more n)).
End Latch.

Section Guarantees.
Context {B P J : Type}.
Context `{PairBackendLaws B} `{PairConfigurationProbe P} `{UncertaintyJournalLaws J}.
#[local] Abbreviation ctl := (PairController B P J).

Definition abstract (c : ctl) : Latch.t :=
  Latch.mk (unresolved_action c) (consecutive_failures c).

(** Operations that accept nothing. *)
Inductive unsettled_step : ctl -> ctl -> Prop :=
| unsettled_status now c s c' : status now c = (s, c') -> unsettled_step c c'
| unsettled_mutate now action c r c' :
    mutate now action c = (r, c') -> ~ Latch.accepting (result_outcome r) -> unsettled_step c c'
| unsettled_teardown c r c' : teardown_transport_for_exit c = (r, c') -> unsettled_step c c'.

Lemma health_only_writes (b b' : B) : health_only b b' -> role_writes b' = role_writes b.
Proof. intros [->|[r Hr]]; [done|]. by eapply health_no_write. Qed.

Lemma action_call_rejected action (b b' : B) f :
  action_call action b = (PairActionResult.RejectedBeforeSend f, b') ->
  role_writes b' = role_writes b.
Proof.
  destruct action; simpl; eauto using start_rejected_no_write, stop_rejected_no_write,
    shutdown_rejected_no_write, recover_stop_rejected_no_write.
Qed.

Lemma status_writes now (c c' : ctl) s :
  status now c = (s, c') -> role_writes (ctl_backend c') = role_writes (ctl_backend c).
Proof. intros E. apply status_spec in E as (_&_&_&_&Hb&_). by apply health_only_writes. Qed.

Lemma teardown_spec (c c' : ctl) r :
  teardown_transport_for_exit c = (r, c') ->
  c' = set_backend (ctl_backend c') c /\ role_writes (ctl_backend c') = role_writes (ctl_backend c).
Proof.
  unfold teardown_transport_for_exit.
  destruct (backend_teardown_transport (ctl_backend c)) as [r' b'] eqn:E.
  intros [= -> <-]. split; [done|]. by eapply teardown_no_write.
Qed.

Lemma refusal_writes action (c c' : ctl) r :
  refusal action c r c' -> role_writes (ctl_backend c') = role_writes (ctl_backend c).
Proof.
  intros [??? ? E|???? ? E|???? ? E|failure p ????? E|p b ??? Hb ?? E|p b j e ?? Hb ??? E];
    rewrite E; simpl; try done; [by apply health_only_writes|].
  destruct (is_pending j); by apply health_only_writes.
Qed.

Lemma admitted_writes action (c c' : ctl) :
  admitted action c c' -> role_writes (ctl_backend c') = role_writes (ctl_backend c).
Proof. intros Ha. apply health_only_writes, (admitted_backend _ _ _ Ha). Qed.

Lemma refusal_latched action (c c' : ctl) r :
  refusal action c r c' -> unresolved_action c = true ->
  (unresolved_action c' = true) /\ (latched (ctl_journal c) -> latched (ctl_journal c')).
Proof.
  intros Href Hu. destruct Href as [??? ? E|???? ? E|???? ? E|failure p ????? E
    |p b ?????? E|p b j e ??? Hm ?? E]; rewrite E; simpl; try done; try congruence.
  apply mark_pending_err in Hm as [_ Hl]. by destruct (is_pending j).
Qed.

Lemma mutate_latched now action (c c' : ctl) r :
  mutate now action c = (r, c') -> ~ Latch.accepting (result_outcome r) ->
  unresolved_action c = true -> latched (ctl_journal c) ->
  unresolved_action c' = true /\ latched (ctl_journal c').
Proof.
  intros E Hna Hu Hl. apply mutate_spec in E as [_ [Href|Hred]].
  { destruct (refusal_latched _ _ _ _ Href Hu). auto. }
  destruct Hred as (c1 & raw & attempted & c2 & Hadm & _ & _ & Hred & -> & _ & _).
  destruct (mark_pending_ok _ _ _ (admitted_journal _ _ _ Hadm)) as [_ Hl1].
  assert (Ha := admitted_latch _ _ _ Hadm Hu).
  destruct Hred as [failure ????? [(Hh & _)|(_&_&Hj&Huu)]|failure ?????? Hj|]; simpl in *.
  - rewrite (Hh Ha) in Hu. done.
  - by rewrite Huu, Hj.
  - split; [done|]. destruct Hj as [->|[e He]]; [done|]. by apply clear_err in He as [_ He]; auto.
  - destruct Hna. unfold Latch.accepting. case_decide; [right|left]; congruence.
Qed.

Lemma latch_gate action (c : ctl) :
  (action = ControllerAction.RecoverStop -> unresolved_action c = false ->
     2 <= consecutive_failures c)%Z ->
  (action = ControllerAction.RecoverStop ->
     unresolved_action c = true \/ 2 <= consecutive_failures c)%Z.
Proof. intros Hg Ha. destruct (unresolved_action c); auto. Qed.

Lemma admitted_gate action (c c' : ctl) :
  admitted action c c' ->
  (unresolved_action c = true -> action = ControllerAction.RecoverStop) /\
  (action = ControllerAction.RecoverStop ->
     unresolved_action c = true \/ 2 <= consecutive_failures c)%Z.
Proof. intros [Hl Hg _ _ _ _]. split; [done|]. by apply latch_gate. Qed.

(** A mutation that reached the backend never reports a refused recovery. *)
Lemma reduction_failure action attempted had (c c' : ctl) r :
  reduction action attempted had c r c' ->
  result_failure r <> Some ControllerFailure.RecoveryNotAllowed.
Proof.
  destruct 1 as [failure _ _ Hf|failure _ Hf Hn|? ? _ _ _ _ _ _ _ Hf];
    rewrite Hf; [|congruence..].
  intros [= E]. by apply (rejected_failure_kind (reason failure)).
Qed.

(** ** Properties *)

Lemma latch_holds_steps (c c' : ctl) :
  unresolved_action c = true ->
  rtc non_recovery_step c c' ->
  unresolved_action c' = true /\ ctl_journal c' = ctl_journal c /\
  role_writes (ctl_backend c') = role_writes (ctl_backend c).
Proof.
  intros Hu Hs. revert Hu. induction Hs as [c|c c1 c2 Hstep _ IH]; intros Hu; [done|].
  assert (X : unresolved_action c1 = true /\ ctl_journal c1 = ctl_journal c /\
    role_writes (ctl_backend c1) = role_writes (ctl_backend c)).
  { destruct Hstep as [now c s c1 E|now a c r c1 Ha E|c r c1 E].
    - pose proof (status_writes _ _ _ _ E). apply status_spec in E as (Hj&Hx&_). by rewrite Hx, Hj.
    - apply mutate_spec in E as [_ [Href|(c2' & raw & att & c3 & Hadm & _)]].
      + pose proof (refusal_writes _ _ _ _ Href).
        destruct Href as [??? ? E|???? ? E|???? ? E|failure p ? Hr ??? E
          |p b ?????? E|p b j e Hr ????? E]; try congruence; [|by destruct Ha; auto..].
        by rewrite E in *.
      + by destruct Ha, (admitted_latch _ _ _ Hadm Hu).
    - apply teardown_spec in E as [-> Hw]. done. }
  destruct X as (Hu1 & Hj1 & Hw1). destruct (IH Hu1) as (Hu2 & Hj2 & Hw2).
  by rewrite Hj2, Hj1, Hw2, Hw1.
Qed.

(** C1 An unresolved action blocks everything but the explicit recovery: over
    any sequence of status reads, starts, stops, shutdowns and transport
    teardowns the latch stays set, the journal is not touched and no role
    command is sent to either speaker. *)
Theorem unresolved_latch_holds (c c' : ctl) :
  unresolved_action c = true ->
  rtc non_recovery_step c c' ->
  unresolved_action c' = true /\ ctl_journal c' = ctl_journal c /\
  role_writes (ctl_backend c') = role_writes (ctl_backend c).
Proof. apply latch_holds_steps. Qed.

(** C2 The backend's actions run only behind a latched journal: when a
    mutation gets as far as calling the backend, the pending record is durable
    (a crash cannot restart clean), a fresh membership read was exact, nothing
    has been written yet, and no older action is unresolved unless this is the
    explicit recovery, which in turn needs an unresolved action or two
    failures. *)
Theorem backend_runs_behind_latch now action (c c1 : ctl) :
  admit_action now action c = (None, c1) ->
  latched (ctl_journal c1) /\ is_pending (ctl_journal c1) = true /\
  (exists p, exact_membership (ctl_probe c) p) /\
  role_writes (ctl_backend c1) = role_writes (ctl_backend c) /\
  (unresolved_action c = true -> action = ControllerAction.RecoverStop) /\
  (action = ControllerAction.RecoverStop -> recoverable c).
Proof.
  intros E. apply admit_spec in E. pose proof (admitted_writes _ _ _ E).
  destruct E as [Hl Hr (obs & Ho & He) _ Hm _].
  destruct (mark_pending_ok _ _ _ Hm). unfold exact_membership. split_and!; eauto.
  intros Ha. unfold recoverable. destruct (unresolved_action c); auto.
Qed.

Lemma uncertain_latched now action (c c1 : ctl) r :
  mutate now action c = (r, c1) -> Latch.uncertain (result_outcome r) ->
  unresolved_action c1 = true /\ latched (ctl_journal c1).
Proof.
  intros E Hunc. apply mutate_spec in E as [_ [Href|Hred]].
    - unfold Latch.uncertain in Hunc. destruct Href; intuition congruence.
    - destruct Hred as (c1' & raw & attempted & c2' & Hadm & _ & _ & Hred & -> & _ & _).
      destruct (mark_pending_ok _ _ _ (admitted_journal _ _ _ Hadm)) as [_ Hl1].
      destruct Hred as [|failure ?????? Hj|]; simpl in *.
      + unfold Latch.uncertain in Hunc. intuition congruence.
      + split; [done|]. destruct Hj as [->|[e He]]; [done|].
        by apply clear_err in He as [_ He]; auto.
      + unfold Latch.uncertain in Hunc. case_decide; intuition congruence.
Qed.

Lemma unsettled_latched (c c' : ctl) :
  unsettled_step c c' -> unresolved_action c = true /\ latched (ctl_journal c) ->
  unresolved_action c' = true /\ latched (ctl_journal c').
Proof.
  intros Hstep [Hu Hl]. destruct Hstep as [n c s c' E|n a c r' c' E Hna|c r' c' E].
  - apply status_spec in E as (Hj&Hx&_). by rewrite Hx, Hj.
  - by eapply mutate_latched.
  - apply teardown_spec in E as [-> _]. done.
Qed.

(** Once an action ends with an unknown outcome or a failed postcondition,
    the journal stays latched and the action unresolved through every later
    operation, failing recoveries included, until one is accepted. *)
Theorem uncertain_outcome_stays_latched now action (c c1 c2 : ctl) r :
  mutate now action c = (r, c1) ->
  Latch.uncertain (result_outcome r) ->
  rtc unsettled_step c1 c2 ->
  unresolved_action c2 = true /\ latched (ctl_journal c2).
Proof.
  intros E Hunc Hs. pose proof (uncertain_latched _ _ _ _ _ E Hunc) as Hl. clear E.
  induction Hs; eauto using unsettled_latched.
Qed.

(** C22 A rejected or idempotent result means that no role command was sent. *)
Theorem rejected_sends_nothing now action (c c' : ctl) r :
  mutate now action c = (r, c') ->
  Latch.silent (result_outcome r) ->
  role_writes (ctl_backend c') = role_writes (ctl_backend c).
Proof.
  intros E Ho. apply mutate_spec in E as [_ [Href|Hred]]; [by eapply refusal_writes|].
  destruct Hred as (c1 & raw & attempted & c2 & Hadm & Hcall & _ & Hred & -> & _ & Hraw).
  rewrite <- (admitted_writes _ _ _ Hadm).
  destruct Hred as [failure -> _ _ _ _ _|? [Hx|Hx]|receipt obs ????? Hx].
  - destruct Hraw as [f ->]. by eapply action_call_rejected.
  - destruct Ho; congruence.
  - destruct Ho; congruence.
  - rewrite Hx in Ho. case_decide; destruct Ho; congruence.
Qed.


(** C20 In every reachable state the in-memory latch mirrors the journal, the
    controller rests in a stable state (unknown or degraded while an action is
    unresolved), and the failure count, the revision and the recorded revision
    stay within their machine types. *)
Theorem reachable_invariant (c : ctl) : reachable c -> wf c.
Proof. apply wf_reachable. Qed.

Lemma refusal_revision action (c c' : ctl) r :
  refusal action c r c' -> revision c' = saturating_succ u64_max (revision c).
Proof.
  intros [??? ? E|???? ? E|???? ? E|failure p ????? E|p b ?????? E|p b j e ?????? E];
    rewrite E; simpl; try done. by destruct (is_pending j).
Qed.

(** Revisions order the mutations: below saturation every mutation ends at a
    strictly larger revision, which its result reports, and a status read
    changes the revision exactly when it changes the managed state. *)
Theorem revision_advances now action (c c' : ctl) r :
  unsaturated c ->
  mutate now action c = (r, c') ->
  (revision c < revision c')%Z /\ result_revision r = revision c' /\
  last_action c' = Some (mkRecordedAction r now) /\
  forall s c1, status now c = (s, c1) ->
    (revision c <= revision c1)%Z /\
    (revision c1 = revision c <-> managed_state c1 = managed_state c).
Proof.
  unfold unsaturated. intros Hb E. apply mutate_spec in E as [[_ Hr _ Hl] Hcase].
  pose proof (saturating_succ_lt u64_max (revision c)) as Hlt.
  pose proof (saturating_succ_bounds u64_max (revision c)) as Hbo.
  split_and!; [|done|done|].
  - destruct Hcase as [Href|(c1 & raw & attempted & c2 & Hadm & _ & _ & _ & -> & Hv & _)].
    + rewrite (refusal_revision _ _ _ _ Href). lia.
    + rewrite Hv, (admitted_state _ _ _ Hadm). simpl.
      pose proof (saturating_succ_le u64_max (saturating_succ u64_max (revision c))). lia.
  - intros s c1 Es. apply status_spec in Es as (_&_&_&_&_&[[Em Ev]|(Hn&Em&Ev)]).
    + rewrite Em, Ev. split; [lia|done].
    + rewrite Ev, Em. split; [lia|]. split; [lia|congruence].
Qed.

(** Recovery is refused, touching neither the probe, the journal nor the
    backend, exactly when no action is unresolved and fewer than two failures
    have been counted. *)
Theorem recovery_gate now (c c' : ctl) r :
  recover_stop now c = (r, c') ->
  (result_failure r = Some ControllerFailure.RecoveryNotAllowed <-> ~ recoverable c) /\
  (result_failure r = Some ControllerFailure.RecoveryNotAllowed ->
     ctl_backend c' = ctl_backend c /\ ctl_probe c' = ctl_probe c /\
     ctl_journal c' = ctl_journal c /\ managed_state c' = managed_state c /\
     consecutive_failures c' = consecutive_failures c /\ unresolved_action c' = false).
Proof.
  intros E. rewrite not_recoverable. apply mutate_spec in E as [_ [Href|Hred]].
  - destruct Href as [??? Hf E|??? ? Hf E|???? Hf E|failure p [->| ->] ? Hg ? Hf E
      |p b ????? Hf E|p b j e ? Hg ??? Hf E]; try congruence; rewrite Hf.
    + rewrite E. simpl. by split_and!.
    + split; [|done]. split; [done|]. intros [Hu Hn]. specialize (Hg eq_refl Hu). lia.
    + split; [|done]. split; [done|]. intros [Hu Hn]. specialize (Hg eq_refl Hu). lia.
    + split; [|done]. split; [done|]. intros [Hu Hn]. specialize (Hg eq_refl Hu). lia.
  - destruct Hred as (c1 & raw & attempted & c2 & Hadm & _ & _ & Hred & _ & _ & _).
    assert (Hn : result_failure r <> Some ControllerFailure.RecoveryNotAllowed).
    { apply reduction_failure in Hred. done. }
    split; [|done]. split; [done|]. intros [Hu Hlt].
    pose proof (admitted_recovery _ _ _ Hadm eq_refl Hu). lia.
Qed.

(** C19 The controller refines the abstract latch: from any reachable state,
    every mutation is a step of the latch automaton with that outcome and
    failure. *)
Theorem mutate_refines_latch now action (c c' : ctl) r :
  reachable c -> mutate now action c = (r, c') ->
  Latch.step (abstract c) action (result_outcome r) (result_failure r) (abstract c').
Proof.
  intros Hw E. apply mutate_spec in E as [_ [Href|Hred]]; unfold abstract.
  - destruct Href as [Hu ? -> -> E|Hu -> ? -> -> E|Hu -> ? -> -> E|failure p ? Hl Hg -> -> E
      |p b Hu ? ? ? -> -> E|p b j e Hl Hg ?? -> -> E]; rewrite E; simpl; rewrite ?Hu.
    + by constructor.
    + by constructor.
    + constructor; auto.
    + constructor; auto. by apply latch_gate.
    + constructor; auto.
    + destruct (is_pending j); simpl; constructor; auto; by apply latch_gate.
  - destruct Hred as (c1 & raw & attempted & c2 & Hadm & _ & _ & Hred & -> & _ & _).
    pose proof (admitted_state _ _ _ Hadm) as Ha.
    destruct (admitted_gate _ _ _ Hadm) as [Hl Hg].
    assert (Hn : consecutive_failures c1 = consecutive_failures c) by by rewrite Ha.
    assert (Hu1 : unresolved_action c1 = unresolved_action c) by by rewrite Ha.
    destruct Hred as [failure _ -> -> _ Hc Hcase|failure Ho Hf _ _ Hc -> _
      |receipt obs _ _ _ _ _ -> _ -> _ -> ->]; simpl in *.
    + rewrite Hc, Hn.
      assert (unresolved_action c' = unresolved_action c) as ->.
      { destruct Hcase as [(_&_&->)|(_&->&_&->)]; congruence. }
      by constructor.
    + rewrite Hc, Hn, Hf. by constructor.
    + constructor; auto. case_decide; [by right|by left].
Qed.
End Guarantees.
