(* ===== verification/AuraWake.v ===== *)
(** The bounded wake acquisition through the paired A2DP profile
    (rust/src/aura_wake.rs): the stable-device and advertisement checks, the
    release of the profile, and the acquisition that always cleans up after a
    connection attempt.  BlueZ is the interface [AuraWakeBluez], the
    advertisement observer the interface [AuraWakeFddfObserver]. *)
From S2P Require Import Prelude Bytes Model.

Definition A2DP_SINK_PROFILE_UUID : bytes := str "0000110b-0000-1000-8000-00805f9b34fb".
Definition AURA_STUDIO_5_PRODUCT_ID : Z := 0x212d.

Definition DEFAULT_CONNECT_TIMEOUT : Z := from_secs 20.
Definition DEFAULT_FDDF_TIMEOUT : Z := from_secs 30.
Definition DEFAULT_RELEASE_TIMEOUT : Z := from_secs 5.
Definition MAX_CONNECT_TIMEOUT : Z := from_secs 20.
Definition MAX_FDDF_TIMEOUT : Z := from_secs 30.
Definition MAX_RELEASE_TIMEOUT : Z := from_secs 10.

Module AuraWakeIoFailure.
Inductive t := Unavailable | TimedOut | Rejected.
#[global] Instance eq_dec : EqDecision t. Proof. solve_decision. Defined.
End AuraWakeIoFailure.

Module StableAddressKind.
Inductive t := Public | Other.
#[global] Instance eq_dec : EqDecision t. Proof. solve_decision. Defined.
End StableAddressKind.

Module FddfAddressKind.
Inductive t := ResolvablePrivate | Other.
#[global] Instance eq_dec : EqDecision t. Proof. solve_decision. Defined.
End FddfAddressKind.

Record StableAuraState := mkStableAuraState {
  exact_identity : bool; stable_address_kind : StableAddressKind.t;
  paired : bool; trusted : bool; blocked : bool;
}.

Record FreshFddfObservation := mkFreshFddfObservation {
  fresh : bool; fddf_address_kind : FddfAddressKind.t;
  product_id : Z; embedded_identity_matches : bool;
}.

Class AuraWakeBluez (Bz : Type) := {
  inspect_stable_device : DeviceIdentity -> Bz -> result StableAuraState AuraWakeIoFailure.t * Bz;
  connect_profile : DeviceIdentity -> bytes -> Z -> Bz -> result unit AuraWakeIoFailure.t * Bz;
  disconnect_profile : DeviceIdentity -> bytes -> Z -> Bz -> result unit AuraWakeIoFailure.t * Bz;
  wait_profile_released : DeviceIdentity -> bytes -> Z -> Bz -> result bool AuraWakeIoFailure.t * Bz;
}.

Class AuraWakeFddfObserver (O : Type) := {
  wait_for_fresh_fddf :
    DeviceIdentity -> Z -> O -> result (option FreshFddfObservation) AuraWakeIoFailure.t * O;
}.

Module AuraWakeFailure.
Inductive t :=
| InvalidConfiguration | StableDeviceUnavailable | StableIdentityMismatch | StableAddressInvalid
| StableDeviceNotPaired | StableDeviceNotTrusted | StableDeviceBlocked | ProfileConnectFailed
| FreshFddfUnavailable | FreshFddfTimedOut | FreshFddfInvalid | ProfileReleaseFailed.
#[global] Instance eq_dec : EqDecision t. Proof. solve_decision. Defined.

Definition code (e : t) : bytes :=
  match e with
  | InvalidConfiguration => str "invalid_configuration"
  | StableDeviceUnavailable => str "stable_device_unavailable"
  | StableIdentityMismatch => str "stable_identity_mismatch"
  | StableAddressInvalid => str "stable_address_invalid"
  | StableDeviceNotPaired => str "stable_device_not_paired"
  | StableDeviceNotTrusted => str "stable_device_not_trusted"
  | StableDeviceBlocked => str "stable_device_blocked"
  | ProfileConnectFailed => str "profile_connect_failed"
  | FreshFddfUnavailable => str "fresh_fddf_unavailable"
  | FreshFddfTimedOut => str "fresh_fddf_timed_out"
  | FreshFddfInvalid => str "fresh_fddf_invalid"
  | ProfileReleaseFailed => str "profile_release_failed"
  end.
End AuraWakeFailure.

Module AuraWakeCleanup.
Inductive t := NotNeeded | Released | ReleaseFailed.
#[global] Instance eq_dec : EqDecision t. Proof. solve_decision. Defined.
End AuraWakeCleanup.

Record AuraWakeSuccess := mkAuraWakeSuccess {
  fresh_fddf_verified : bool; success_cleanup : AuraWakeCleanup.t;
}.
Record AuraWakeError := mkAuraWakeError {
  wake_failure : AuraWakeFailure.t; error_cleanup : AuraWakeCleanup.t;
}.

Record AuraWakeTimings := mkAuraWakeTimings {
  connect_timeout : Z; fddf_timeout : Z; release_timeout : Z;
}.

Definition default_wake_timings : AuraWakeTimings :=
  mkAuraWakeTimings DEFAULT_CONNECT_TIMEOUT DEFAULT_FDDF_TIMEOUT DEFAULT_RELEASE_TIMEOUT.

Definition validate_wake_timings (t : AuraWakeTimings) : result unit AuraWakeFailure.t :=
  if (connect_timeout t =? 0)%Z || (MAX_CONNECT_TIMEOUT <? connect_timeout t)%Z
     || (fddf_timeout t =? 0)%Z || (MAX_FDDF_TIMEOUT <? fddf_timeout t)%Z
     || (release_timeout t =? 0)%Z || (MAX_RELEASE_TIMEOUT <? release_timeout t)%Z
  then Err AuraWakeFailure.InvalidConfiguration else Ok tt.

Definition validate_stable_state (s : StableAuraState) : result unit AuraWakeFailure.t :=
  if negb (exact_identity s) then Err AuraWakeFailure.StableIdentityMismatch
  else if negb (bool_decide (stable_address_kind s = StableAddressKind.Public))
  then Err AuraWakeFailure.StableAddressInvalid
  else if negb (paired s) then Err AuraWakeFailure.StableDeviceNotPaired
  else if negb (trusted s) then Err AuraWakeFailure.StableDeviceNotTrusted
  else if blocked s then Err AuraWakeFailure.StableDeviceBlocked
  else Ok tt.

Definition validate_fddf (o : FreshFddfObservation) : result unit AuraWakeFailure.t :=
  if fresh o && bool_decide (fddf_address_kind o = FddfAddressKind.ResolvablePrivate)
     && (product_id o =? AURA_STUDIO_5_PRODUCT_ID)%Z && embedded_identity_matches o
  then Ok tt else Err AuraWakeFailure.FreshFddfInvalid.

Section Acquire.
(** Both objects work on one Bluetooth stack, so one state is threaded through
    the calls of both. *)
Context {Bz : Type} `{AuraWakeBluez Bz} `{AuraWakeFddfObserver Bz}.

Definition release_profile (expected_identity : DeviceIdentity) (timeout : Z) (bluez : Bz)
  : AuraWakeCleanup.t * Bz :=
  let '(_, bluez) := disconnect_profile expected_identity A2DP_SINK_PROFILE_UUID timeout bluez in
  match wait_profile_released expected_identity A2DP_SINK_PROFILE_UUID timeout bluez with
  | (Ok true, bluez) => (AuraWakeCleanup.Released, bluez)
  | (Ok false, bluez) | (Err _, bluez) => (AuraWakeCleanup.ReleaseFailed, bluez)
  end.

(** The profile connection and, only if it succeeded, the advertisement. *)
Definition wake_primary (expected_identity : DeviceIdentity) (timings : AuraWakeTimings)
    (bluez : Bz) : result unit AuraWakeFailure.t * Bz :=
  match connect_profile expected_identity A2DP_SINK_PROFILE_UUID (connect_timeout timings) bluez with
  | (Ok _, bluez) =>
      let '(observed, bluez) :=
        wait_for_fresh_fddf expected_identity (fddf_timeout timings) bluez in
      (match observed with
       | Ok (Some observation) => validate_fddf observation
       | Ok None => Err AuraWakeFailure.FreshFddfTimedOut
       | Err _ => Err AuraWakeFailure.FreshFddfUnavailable
       end, bluez)
  | (Err _, bluez) => (Err AuraWakeFailure.ProfileConnectFailed, bluez)
  end.

(** The [(Ok(()), NotNeeded)] arm is unreachable in the program: releasing
    never answers [NotNeeded]. *)
Definition acquire_aura_wake (expected_identity : DeviceIdentity) (timings : AuraWakeTimings)
    (bluez : Bz) : result AuraWakeSuccess AuraWakeError * Bz :=
  let no_cleanup := fun failure => mkAuraWakeError failure AuraWakeCleanup.NotNeeded in
  match validate_wake_timings timings with
  | Err failure => (Err (no_cleanup failure), bluez)
  | Ok _ =>
  match inspect_stable_device expected_identity bluez with
  | (Err _, bluez) => (Err (no_cleanup AuraWakeFailure.StableDeviceUnavailable), bluez)
  | (Ok stable, bluez) =>
  match validate_stable_state stable with
  | Err failure => (Err (no_cleanup failure), bluez)
  | Ok _ =>
      let '(primary, bluez) := wake_primary expected_identity timings bluez in
      let '(cleanup, bluez) := release_profile expected_identity (release_timeout timings) bluez in
      (match primary, cleanup with
       | Ok _, AuraWakeCleanup.Released => Ok (mkAuraWakeSuccess true cleanup)
       | Ok _, AuraWakeCleanup.ReleaseFailed =>
           Err (mkAuraWakeError AuraWakeFailure.ProfileReleaseFailed cleanup)
       | Err failure, _ => Err (mkAuraWakeError failure cleanup)
       | Ok _, AuraWakeCleanup.NotNeeded =>
           Err (mkAuraWakeError AuraWakeFailure.ProfileReleaseFailed cleanup)
       end, bluez)
  end end end.

(** * Lemmas *)

Lemma release_profile_spec identity timeout (b b' : Bz) c :
  release_profile identity timeout b = (c, b') ->
  c <> AuraWakeCleanup.NotNeeded /\
  exists r1 r2 b1,
    disconnect_profile identity A2DP_SINK_PROFILE_UUID timeout b = (r1, b1) /\
    wait_profile_released identity A2DP_SINK_PROFILE_UUID timeout b1 = (r2, b') /\
    (c = AuraWakeCleanup.Released <-> r2 = Ok true).
Proof.
  unfold release_profile.
  destruct (disconnect_profile identity _ timeout b) as [r1 b1] eqn:E1.
  destruct (wait_profile_released identity _ timeout b1) as [[[]|] b2] eqn:E2;
    intros [= <- <-]; (split; [done|]); eexists _, _, _; by split_and!.
Qed.

(** What the advertisement observer was asked, if it was. *)
Definition observed_fddf (identity : DeviceIdentity) (timings : AuraWakeTimings)
    (connected : result unit AuraWakeIoFailure.t) (b b' : Bz)
    (observed : result (option FreshFddfObservation) AuraWakeIoFailure.t) : Prop :=
  match connected with
  | Ok _ => wait_for_fresh_fddf identity (fddf_timeout timings) b = (observed, b')
  | Err _ => b' = b
  end.

Lemma wake_primary_spec identity timings (b b' : Bz) p :
  wake_primary identity timings b = (p, b') ->
  exists connected b1 observed,
    connect_profile identity A2DP_SINK_PROFILE_UUID (connect_timeout timings) b = (connected, b1) /\
    observed_fddf identity timings connected b1 b' observed /\
    (p = Ok tt <-> connected = Ok tt /\ exists observation,
       observed = Ok (Some observation) /\ validate_fddf observation = Ok tt).
Proof.
  unfold wake_primary. intros E.
  destruct (connect_profile identity _ _ b) as [[[]|e] b1] eqn:E1.
  - destruct (wait_for_fresh_fddf identity _ b1) as [observed b2] eqn:E2. simplify_eq/=.
    exists (Ok tt), b1, observed. split; [done|]. split; [done|]. split.
    + intros Hp. split; [done|]. destruct observed as [[observation|]|]; try done. eauto.
    + intros (_ & observation & Ho & Hv). by simplify_eq/=.
  - simplify_eq/=. exists (Err e), b', (Ok None). split; [done|]. split; [done|].
    split; [done|]. by intros [? _].
Qed.

Lemma validate_fddf_ok o :
  validate_fddf o = Ok tt <->
  fresh o = true /\ fddf_address_kind o = FddfAddressKind.ResolvablePrivate /\
  product_id o = AURA_STUDIO_5_PRODUCT_ID /\ embedded_identity_matches o = true.
Proof.
  unfold validate_fddf. split.
  - intros E. case_match; [|done]. bool_hyps. done.
  - intros (->&->&->&->). by rewrite Z.eqb_refl.
Qed.

Lemma validate_stable_state_ok s :
  validate_stable_state s = Ok tt <->
  exact_identity s = true /\ stable_address_kind s = StableAddressKind.Public /\
  paired s = true /\ trusted s = true /\ blocked s = false.
Proof.
  unfold validate_stable_state. split.
  - intros E. repeat case_match; bool_hyps; try done.
  - by intros (->&->&->&->&->).
Qed.

(** * Properties *)

(** C26 Once the profile connection has been attempted the acquisition always
    disconnects the profile and waits for its release, and these are the last
    calls it makes; a result without cleanup means that no connection was
    attempted; and success means that the stable device passed every check,
    the profile connected, a fresh resolvable advertisement carried the
    product and the identity, and the release was confirmed. *)
Theorem acquire_aura_wake_cleans_up identity timings (b b' : Bz) r :
  acquire_aura_wake identity timings b = (r, b') ->
  ((b' = b \/ exists s, inspect_stable_device identity b = (s, b')) /\
   exists f, r = Err (mkAuraWakeError f AuraWakeCleanup.NotNeeded)) \/
  exists s b1 connected b2 observed b3 r1 b4 r2,
    inspect_stable_device identity b = (Ok s, b1) /\
    validate_stable_state s = Ok tt /\
    connect_profile identity A2DP_SINK_PROFILE_UUID (connect_timeout timings) b1 = (connected, b2) /\
    observed_fddf identity timings connected b2 b3 observed /\
    disconnect_profile identity A2DP_SINK_PROFILE_UUID (release_timeout timings) b3 = (r1, b4) /\
    wait_profile_released identity A2DP_SINK_PROFILE_UUID (release_timeout timings) b4 = (r2, b') /\
    (forall w, r = Ok w <->
       w = mkAuraWakeSuccess true AuraWakeCleanup.Released /\ connected = Ok tt /\ r2 = Ok true /\
       exists observation, observed = Ok (Some observation) /\ validate_fddf observation = Ok tt).
Proof.
  unfold acquire_aura_wake. intros E.
  destruct (validate_wake_timings timings) as [[]|f]; [|simplify_eq; left; eauto].
  destruct (inspect_stable_device identity b) as [[s|] b1] eqn:E1; [|simplify_eq; left; eauto 6].
  destruct (validate_stable_state s) as [[]|f] eqn:E2; [|simplify_eq; left; eauto 6].
  right. destruct (wake_primary identity timings b1) as [p b2] eqn:E3.
  destruct (release_profile identity (release_timeout timings) b2) as [c b3] eqn:E4.
  apply wake_primary_spec in E3 as (connected & b4 & observed & Hcon & Hob & Hp).
  apply release_profile_spec in E4 as (Hc & r1 & r2 & b2' & Hd & Hw & Hrel).
  simplify_eq/=. exists s, b1, connected, b4, observed, b2, r1, b2', r2. split_and!; [done..|].
  intros w. split.
  - intros Hok. destruct p as [[]|], c; simplify_eq/=.
    destruct (proj1 Hp eq_refl) as [-> Hobs]. by split_and!; [|done|by apply Hrel|].
  - intros (-> & Hk & Hr2 & Hobs). apply Hrel in Hr2 as ->.
    by rewrite (proj2 Hp (conj Hk Hobs)).
Qed.
End Acquire.
