(* ===== verification/Bluez.v ===== *)
(** The Linux Bluetooth stack as the program uses it: bluetoothd objects
    reached over D-Bus and kernel L2CAP sockets.  It is third-party code, so it
    is an interface: the calls, with a world [W] that they may change and an
    abstract socket [S].  Its contract says only which calls can hand a packet
    to the kernel. *)
From S2P Require Import Prelude Bytes Model.

Module AddressType.
Inductive t := BrEdr | LePublic | LeRandom.
#[global] Instance eq_dec : EqDecision t. Proof. solve_decision. Defined.
End AddressType.

(** [bluer::l2cap::SocketAddr]; a fixed channel has [psm = 0], a connection
    oriented one [cid = 0]. *)
Record SocketAddr := mkSocketAddr {
  addr : bytes; addr_type : AddressType.t; psm : Z; cid : Z;
}.
#[global] Instance SocketAddr_eq_dec : EqDecision SocketAddr.
Proof. solve_decision. Defined.

(** One receive under a deadline. *)
Module Recv.
Inductive t := TimedOut | Failed | Packet (packet : bytes).
End Recv.

(** How a call fails: its deadline passed, or it answered an error.  Most flows
    treat both alike ([or_fail]). *)
Module CallFailure.
Inductive t := Elapsed | Failed.
#[global] Instance eq_dec : EqDecision t. Proof. solve_decision. Defined.
End CallFailure.

Class BluezStack (W S : Type) := {
  now : W -> Z * W;
  session_new : Z -> W -> result unit CallFailure.t * W;
  adapter_open : bytes -> W -> result unit CallFailure.t * W;
  adapter_is_powered : Z -> W -> result bool CallFailure.t * W;
  adapter_address : Z -> W -> result bytes CallFailure.t * W;
  adapter_device : bytes -> W -> result unit CallFailure.t * W;
  device_address_type : bytes -> Z -> W -> result AddressType.t CallFailure.t * W;
  device_is_paired : bytes -> Z -> W -> result bool CallFailure.t * W;
  device_is_trusted : bytes -> Z -> W -> result bool CallFailure.t * W;
  device_is_blocked : bytes -> Z -> W -> result bool CallFailure.t * W;
  socket_open : W -> result S CallFailure.t * W;
  socket_bind : S -> SocketAddr -> W -> result unit CallFailure.t * W;
  socket_set_security : S -> W -> result unit CallFailure.t * W;
  socket_connect : S -> SocketAddr -> Z -> W -> result unit CallFailure.t * W;
  socket_peer_addr : S -> W -> result SocketAddr CallFailure.t * W;
  (** The number of bytes written. *)
  socket_send : S -> bytes -> Z -> W -> result nat CallFailure.t * W;
  socket_recv : S -> Z -> W -> Recv.t * W;
  (** [recv(..).now_or_never()]: [None] when nothing is queued. *)
  socket_try_recv : S -> W -> option Recv.t * W;
  (** [poll(POLLIN)] without waiting: the return value and [revents]. *)
  socket_poll : S -> W -> Z * Z * W;
  (** [recv(MSG_PEEK | MSG_DONTWAIT)] of one byte: the return value, and whether
      the error is [EAGAIN] or [EWOULDBLOCK]. *)
  socket_peek : S -> W -> Z * bool * W;
}.

(** [sent w] is the packets handed to the kernel so far. *)
Class BluezStackLaws (W S : Type) `{BluezStack W S} := {
  sent : W -> list bytes;
  silent (w w' : W) := sent w' = sent w;
  now_silent w r w' : now w = (r, w') -> silent w w';
  session_new_silent d w r w' : session_new d w = (r, w') -> silent w w';
  adapter_open_silent n w r w' : adapter_open n w = (r, w') -> silent w w';
  adapter_is_powered_silent d w r w' : adapter_is_powered d w = (r, w') -> silent w w';
  adapter_address_silent d w r w' : adapter_address d w = (r, w') -> silent w w';
  adapter_device_silent a w r w' : adapter_device a w = (r, w') -> silent w w';
  device_address_type_silent a d w r w' : device_address_type a d w = (r, w') -> silent w w';
  device_is_paired_silent a d w r w' : device_is_paired a d w = (r, w') -> silent w w';
  device_is_trusted_silent a d w r w' : device_is_trusted a d w = (r, w') -> silent w w';
  device_is_blocked_silent a d w r w' : device_is_blocked a d w = (r, w') -> silent w w';
  socket_open_silent w r w' : socket_open w = (r, w') -> silent w w';
  socket_bind_silent s a w r w' : socket_bind s a w = (r, w') -> silent w w';
  socket_set_security_silent s w r w' : socket_set_security s w = (r, w') -> silent w w';
  socket_connect_silent s a d w r w' : socket_connect s a d w = (r, w') -> silent w w';
  socket_peer_addr_silent s w r w' : socket_peer_addr s w = (r, w') -> silent w w';
  socket_send_once s p d w r w' :
    socket_send s p d w = (r, w') -> sent w' = sent w \/ sent w' = sent w ++ [p];
  socket_send_ok s p d w n w' : socket_send s p d w = (Ok n, w') -> sent w' = sent w ++ [p];
  socket_recv_silent s d w r w' : socket_recv s d w = (r, w') -> silent w w';
  socket_try_recv_silent s w r w' : socket_try_recv s w = (r, w') -> silent w w';
  socket_poll_silent s w r w' : socket_poll s w = (r, w') -> silent w w';
  socket_peek_silent s w r w' : socket_peek s w = (r, w') -> silent w w';
}.

(** [timeout_at(deadline, call, failure)]. *)
Definition or_fail {T E W : Type} (failure : E) (call : result T CallFailure.t * W) : result T E * W :=
  let '(r, w) := call in (map_err (fun _ => failure) r, w).

(** Turns every silent call of the context into an equation on [sent]. *)
Ltac silent_calls :=
  repeat match goal with
  | E : or_fail _ _ = _ |- _ => unfold or_fail in E; simpl in E
  | E : (let '(_, _) := ?c in _) = _ |- _ => destruct c eqn:?; simplify_eq/=
  | E : now _ = _ |- _ => apply now_silent in E; unfold silent in E
  | E : session_new _ _ = _ |- _ => apply session_new_silent in E; unfold silent in E
  | E : adapter_open _ _ = _ |- _ => apply adapter_open_silent in E; unfold silent in E
  | E : adapter_is_powered _ _ = _ |- _ => apply adapter_is_powered_silent in E; unfold silent in E
  | E : adapter_address _ _ = _ |- _ => apply adapter_address_silent in E; unfold silent in E
  | E : adapter_device _ _ = _ |- _ => apply adapter_device_silent in E; unfold silent in E
  | E : device_address_type _ _ _ = _ |- _ => apply device_address_type_silent in E; unfold silent in E
  | E : device_is_paired _ _ _ = _ |- _ => apply device_is_paired_silent in E; unfold silent in E
  | E : device_is_trusted _ _ _ = _ |- _ => apply device_is_trusted_silent in E; unfold silent in E
  | E : device_is_blocked _ _ _ = _ |- _ => apply device_is_blocked_silent in E; unfold silent in E
  | E : socket_open _ = _ |- _ => apply socket_open_silent in E; unfold silent in E
  | E : socket_bind _ _ _ = _ |- _ => apply socket_bind_silent in E; unfold silent in E
  | E : socket_set_security _ _ = _ |- _ => apply socket_set_security_silent in E; unfold silent in E
  | E : socket_connect _ _ _ _ = _ |- _ => apply socket_connect_silent in E; unfold silent in E
  | E : socket_peer_addr _ _ = _ |- _ => apply socket_peer_addr_silent in E; unfold silent in E
  | E : socket_recv _ _ _ = _ |- _ => apply socket_recv_silent in E; unfold silent in E
  | E : socket_try_recv _ _ = _ |- _ => apply socket_try_recv_silent in E; unfold silent in E
  | E : socket_poll _ _ = _ |- _ => apply socket_poll_silent in E; unfold silent in E
  | E : socket_peek _ _ = _ |- _ => apply socket_peek_silent in E; unfold silent in E
  end.

Section OrFail.
Context {T E W : Type}.

Lemma or_fail_spec (failure : E) (call : result T CallFailure.t * W) r w :
  or_fail failure call = (r, w) -> exists r0, call = (r0, w) /\ r = map_err (fun _ => failure) r0.
Proof. destruct call as [r0 w0]. intros [= <- <-]. eauto. Qed.
End OrFail.

(** One step of a flow of deadline calls: the call that failed ended it, or the
    flow goes on. *)
Ltac flow_step :=
  match goal with
  | E : context [or_fail ?f ?c] |- _ =>
      let r := fresh "r" in let w := fresh "w" in let Ec := fresh "Ec" in
      destruct (or_fail f c) as [r w] eqn:Ec;
      apply or_fail_spec in Ec as (? & Ec & ->);
      match type of Ec with _ = (?r0, _) => destruct r0 end; cbn [map_err] in E
  end.
