(* ===== verification/AuraBluez.v ===== *)
(** Native Aura control, the parts that do not depend on a socket
    (rust/src/aura_bluez.rs): timings, the failure vocabulary, the command
    core with its uncertainty latch, the cold-connect order, the release poll,
    the ATT packets and the advertisement reducer.  The transport below the
    core is the interface [AuraIo]; what the core promises its client is
    [AuraRoleControl] with [AuraRoleControlLaws]. *)
From S2P Require Import Prelude Bytes Backend Model Control AuraWake Bluez.

(** * Timings *)

Definition DEFAULT_SCAN_ATTEMPTS : Z := 3.
Definition DEFAULT_SCAN_WINDOW : Z := from_secs 30.
Definition DEFAULT_RETRY_DELAY : Z := from_secs 15.
Definition DEFAULT_TOTAL_CONNECT_TIMEOUT : Z := from_secs 150.
Definition DEFAULT_DEVICE_CONNECT_TIMEOUT : Z := from_secs 15.
Definition DEFAULT_GATT_SETUP_TIMEOUT : Z := from_secs 15.
Definition DEFAULT_COMMAND_WRITE_TIMEOUT : Z := from_secs 5.
Definition DEFAULT_ACK_TIMEOUT : Z := from_secs 5.
Definition STABLE_CONNECT_TIMEOUT : Z := from_secs 20.
Definition MEDIA_CONTROL_RELEASE_POLL : Z := from_millis 100.
Definition MAX_SCAN_ATTEMPTS : Z := 10.
Definition MAX_TOTAL_CONNECT_TIMEOUT : Z := from_secs (10 * 60).
Definition MAX_STALE_NOTIFICATIONS : nat := 32.

Module AuraFailureReason.
Inductive t :=
| InvalidConfiguration | RuntimeUnavailable | AdapterUnavailable | AdapterPoweredOff
| DiscoveryUnavailable | VerifiedAdvertisementNotFound | DeviceConnectionFailed
| WakeProfileConnectFailed | WakeFddfTimedOut | WakeFddfInvalid | WakeFddfUnavailable
| WakeProfileReleaseFailed | GattProfileInvalid | NotificationSetupFailed
| TransportNotReady | NotificationQueueInvalid | WriteFailed | AcknowledgementTimedOut
| AcknowledgementChannelClosed | UnexpectedAcknowledgement | DisconnectFailed.
#[global] Instance eq_dec : EqDecision t. Proof. solve_decision. Defined.

Definition label (e : t) : bytes :=
  match e with
  | InvalidConfiguration => str "invalid_configuration"
  | RuntimeUnavailable => str "runtime_unavailable"
  | AdapterUnavailable => str "adapter_unavailable"
  | AdapterPoweredOff => str "adapter_powered_off"
  | DiscoveryUnavailable => str "discovery_unavailable"
  | VerifiedAdvertisementNotFound => str "verified_advertisement_not_found"
  | DeviceConnectionFailed => str "device_connection_failed"
  | WakeProfileConnectFailed => str "wake_profile_connect_failed"
  | WakeFddfTimedOut => str "wake_fddf_timed_out"
  | WakeFddfInvalid => str "wake_fddf_invalid"
  | WakeFddfUnavailable => str "wake_fddf_unavailable"
  | WakeProfileReleaseFailed => str "wake_profile_release_failed"
  | GattProfileInvalid => str "gatt_profile_invalid"
  | NotificationSetupFailed => str "notification_setup_failed"
  | TransportNotReady => str "transport_not_ready"
  | NotificationQueueInvalid => str "notification_queue_invalid"
  | WriteFailed => str "write_failed"
  | AcknowledgementTimedOut => str "acknowledgement_timed_out"
  | AcknowledgementChannelClosed => str "acknowledgement_channel_closed"
  | UnexpectedAcknowledgement => str "unexpected_acknowledgement"
  | DisconnectFailed => str "disconnect_failed"
  end.
End AuraFailureReason.

Record AuraBluezTimings := mkAuraBluezTimings {
  scan_attempts : Z;
  scan_window : Z;
  retry_delay : Z;
  total_connect_timeout : Z;
  device_connect_timeout : Z;
  gatt_setup_timeout : Z;
  command_write_timeout : Z;
  ack_timeout : Z;
}.

Definition default_timings : AuraBluezTimings :=
  mkAuraBluezTimings DEFAULT_SCAN_ATTEMPTS DEFAULT_SCAN_WINDOW DEFAULT_RETRY_DELAY
    DEFAULT_TOTAL_CONNECT_TIMEOUT DEFAULT_DEVICE_CONNECT_TIMEOUT DEFAULT_GATT_SETUP_TIMEOUT
    DEFAULT_COMMAND_WRITE_TIMEOUT DEFAULT_ACK_TIMEOUT.

(** [checked_mul] and [checked_add] of durations. *)
Definition reserved_budget (t : AuraBluezTimings) : option Z :=
  scans ← checked_mul duration_max (scan_window t) (scan_attempts t);
  delays ← checked_mul duration_max (retry_delay t) (Z.max 0 (scan_attempts t - 1));
  d ← checked_add duration_max scans delays;
  d ← checked_add duration_max d (device_connect_timeout t);
  checked_add duration_max d (gatt_setup_timeout t).

Definition validate (t : AuraBluezTimings) : result unit AuraFailureReason.t :=
  if (scan_attempts t =? 0)%Z || (MAX_SCAN_ATTEMPTS <? scan_attempts t)%Z
     || (scan_window t =? 0)%Z || (total_connect_timeout t =? 0)%Z
     || (MAX_TOTAL_CONNECT_TIMEOUT <? total_connect_timeout t)%Z
     || (device_connect_timeout t =? 0)%Z || (gatt_setup_timeout t =? 0)%Z
     || (command_write_timeout t =? 0)%Z || (ack_timeout t =? 0)%Z
  then Err AuraFailureReason.InvalidConfiguration
  else
    let? budget := ok_or (reserved_budget t) AuraFailureReason.InvalidConfiguration in
    if (total_connect_timeout t <? budget)%Z then Err AuraFailureReason.InvalidConfiguration
    else Ok tt.

(** * The command core *)

Module AuraHealth.
Inductive t := Offline | Ready | Unavailable | OutcomeUnknown.
#[global] Instance eq_dec : EqDecision t. Proof. solve_decision. Defined.
End AuraHealth.

Module AuraBearerTransport.
Inductive t := Le | BrEdr.
#[global] Instance eq_dec : EqDecision t. Proof. solve_decision. Defined.
End AuraBearerTransport.

(** [AuraActionFailure] and [AuraTransportError] hold only their reason. *)
Module AuraActionResult.
Inductive t :=
| Accepted
| RejectedBeforeSend (reason : AuraFailureReason.t)
| OutcomeUnknown (reason : AuraFailureReason.t).
#[global] Instance eq_dec : EqDecision t. Proof. solve_decision. Defined.
End AuraActionResult.

Module AckObservation.
Inductive t := Accepted | Unexpected.
#[global] Instance eq_dec : EqDecision t. Proof. solve_decision. Defined.
End AckObservation.

Class AuraIo (I : Type) := {
  io_connect_verified : DeviceIdentity -> I -> result unit AuraFailureReason.t * I;
  io_health : I -> AuraHealth.t * I;
  prepare_command : I -> result unit AuraFailureReason.t * I;
  begin_write : AuraPlayTogetherCommand.t -> I -> result unit AuraFailureReason.t * I;
  wait_for_ack : I -> result AckObservation.t AuraFailureReason.t * I;
  io_shutdown : I -> result unit AuraFailureReason.t * I;
  (** [core.io.bearer]: what the retained bearer is, if there is one. *)
  io_bearer : I -> option (AuraBearerTransport.t * AuraAcquisitionRoute.t);
}.

(** Only [begin_write] hands role-command bytes to the kernel. *)
Class AuraIoLaws (I : Type) `{AuraIo I} := {
  io_writes : I -> nat;
  io_connect_no_write d i r i' : io_connect_verified d i = (r, i') -> io_writes i' = io_writes i;
  io_health_no_write i r i' : io_health i = (r, i') -> io_writes i' = io_writes i;
  prepare_no_write i r i' : prepare_command i = (r, i') -> io_writes i' = io_writes i;
  wait_no_write i r i' : wait_for_ack i = (r, i') -> io_writes i' = io_writes i;
  io_shutdown_no_write i r i' : io_shutdown i = (r, i') -> io_writes i' = io_writes i;
  begin_write_once c i r i' :
    begin_write c i = (r, i') -> io_writes i <= io_writes i' <= S (io_writes i);
}.

Class AuraRoleControl (A : Type) := {
  connect_verified : DeviceIdentity -> A -> result unit AuraFailureReason.t * A;
  aura_health : A -> AuraHealth.t * A;
  transport : A -> option AuraBearerTransport.t;
  acquisition_route : A -> AuraAcquisitionRoute.t;
  aura_start : A -> AuraActionResult.t * A;
  aura_stop : A -> AuraActionResult.t * A;
  aura_shutdown : A -> result unit AuraFailureReason.t * A;
}.

(** What the pair backend relies on: a rejected role command sent nothing, and
    acquiring, polling and releasing the bearer send no role command. *)
Class AuraRoleControlLaws (A : Type) `{AuraRoleControl A} := {
  aura_writes : A -> nat;
  aura_connect_no_write d a r a' : connect_verified d a = (r, a') -> aura_writes a' = aura_writes a;
  aura_health_no_write a r a' : aura_health a = (r, a') -> aura_writes a' = aura_writes a;
  aura_shutdown_no_write a r a' : aura_shutdown a = (r, a') -> aura_writes a' = aura_writes a;
  aura_start_rejected a e a' :
    aura_start a = (AuraActionResult.RejectedBeforeSend e, a') -> aura_writes a' = aura_writes a;
  aura_stop_rejected a e a' :
    aura_stop a = (AuraActionResult.RejectedBeforeSend e, a') -> aura_writes a' = aura_writes a;
}.

Section Core.
Context {I : Type} `{AuraIo I}.

Record AuraControlCore := mkAuraControlCore {
  io : I;
  unresolved : option AuraFailureReason.t;
}.

Definition core_new (i : I) : AuraControlCore := mkAuraControlCore i None.

Definition core_connect_verified (expected_identity : DeviceIdentity) (c : AuraControlCore)
  : result unit AuraFailureReason.t * AuraControlCore :=
  let keep := fun '(r, i) => (r, mkAuraControlCore i (unresolved c)) in
  let?! (_, c) :=
    match unresolved c with
    | Some _ => keep (io_shutdown (io c))
    | None => (Ok tt, c)
    end in
  match io_connect_verified expected_identity (io c) with
  | (Err e, i) => (Err e, mkAuraControlCore i (unresolved c))
  | (Ok _, i) => (Ok tt, mkAuraControlCore i None)
  end.

Definition core_health (c : AuraControlCore) : AuraHealth.t * AuraControlCore :=
  match unresolved c with
  | Some _ => (AuraHealth.OutcomeUnknown, c)
  | None => let '(h, i) := io_health (io c) in (h, mkAuraControlCore i (unresolved c))
  end.

Definition latch_unknown (reason : AuraFailureReason.t) (i : I)
  : AuraActionResult.t * AuraControlCore :=
  (AuraActionResult.OutcomeUnknown reason, mkAuraControlCore i (Some reason)).

Definition command (cmd : AuraPlayTogetherCommand.t) (c : AuraControlCore)
  : AuraActionResult.t * AuraControlCore :=
  match unresolved c with
  | Some failure => (AuraActionResult.OutcomeUnknown failure, c)
  | None =>
    let '(health, i) := io_health (io c) in
    if negb (bool_decide (health = AuraHealth.Ready)) then
      (AuraActionResult.RejectedBeforeSend AuraFailureReason.TransportNotReady,
       mkAuraControlCore i (unresolved c))
    else
    match prepare_command i with
    | (Err reason, i) =>
        (AuraActionResult.RejectedBeforeSend reason, mkAuraControlCore i (unresolved c))
    | (Ok _, i) =>
    match begin_write cmd i with
    | (Err reason, i) => latch_unknown reason i
    | (Ok _, i) =>
    match wait_for_ack i with
    | (Ok AckObservation.Accepted, i) =>
        (AuraActionResult.Accepted, mkAuraControlCore i (unresolved c))
    | (Ok AckObservation.Unexpected, i) =>
        latch_unknown AuraFailureReason.UnexpectedAcknowledgement i
    | (Err reason, i) => latch_unknown reason i
    end end end end.

Definition core_shutdown (c : AuraControlCore)
  : result unit AuraFailureReason.t * AuraControlCore :=
  let '(r, i) := io_shutdown (io c) in
  (r, mkAuraControlCore i (if is_ok r then None else unresolved c)).

(** [BluezAuraTransport]: the core with the closed command set. *)
#[export] Instance BluezAuraTransport : AuraRoleControl AuraControlCore := {
  connect_verified := core_connect_verified;
  aura_health := core_health;
  transport c := fst <$> io_bearer (io c);
  acquisition_route c :=
    match io_bearer (io c) with
    | Some (_, route) => route | None => AuraAcquisitionRoute.Unresolved
    end;
  aura_start := command AuraPlayTogetherCommand.On;
  aura_stop := command AuraPlayTogetherCommand.Off;
  aura_shutdown := core_shutdown;
}.
End Core.
Arguments AuraControlCore : clear implicits.

(** * Cold connection *)

Definition raw_att_retry_eligible (reason : AuraFailureReason.t) : bool :=
  match reason with
  | AuraFailureReason.DeviceConnectionFailed
  | AuraFailureReason.GattProfileInvalid
  | AuraFailureReason.NotificationSetupFailed => true
  | _ => false
  end.

Definition wake_stage_failure (reason : AuraFailureReason.t) : bool :=
  match reason with
  | AuraFailureReason.WakeProfileConnectFailed
  | AuraFailureReason.WakeFddfTimedOut
  | AuraFailureReason.WakeFddfInvalid
  | AuraFailureReason.WakeFddfUnavailable
  | AuraFailureReason.WakeProfileReleaseFailed => true
  | _ => false
  end.

Definition map_wake_error (failure : AuraWakeFailure.t) (cleanup : AuraWakeCleanup.t)
  : AuraFailureReason.t :=
  if decide (cleanup = AuraWakeCleanup.ReleaseFailed)
  then AuraFailureReason.WakeProfileReleaseFailed
  else match failure with
  | AuraWakeFailure.ProfileConnectFailed => AuraFailureReason.WakeProfileConnectFailed
  | AuraWakeFailure.FreshFddfTimedOut => AuraFailureReason.WakeFddfTimedOut
  | AuraWakeFailure.FreshFddfInvalid => AuraFailureReason.WakeFddfInvalid
  | AuraWakeFailure.FreshFddfUnavailable => AuraFailureReason.WakeFddfUnavailable
  | AuraWakeFailure.ProfileReleaseFailed => AuraFailureReason.WakeProfileReleaseFailed
  | AuraWakeFailure.InvalidConfiguration => AuraFailureReason.InvalidConfiguration
  | AuraWakeFailure.StableDeviceUnavailable
  | AuraWakeFailure.StableIdentityMismatch
  | AuraWakeFailure.StableAddressInvalid
  | AuraWakeFailure.StableDeviceNotPaired
  | AuraWakeFailure.StableDeviceNotTrusted
  | AuraWakeFailure.StableDeviceBlocked => AuraFailureReason.DeviceConnectionFailed
  end.

Class ColdConnectOps (O Bearer : Type) := {
  connect_stable : AuraAcquisitionRoute.t -> O -> result Bearer AuraFailureReason.t * O;
  wake_once : O -> result unit AuraFailureReason.t * O;
  connect_le : O -> result Bearer AuraFailureReason.t * O;
}.

Section ColdConnect.
Context {O Bearer : Type} `{ColdConnectOps O Bearer}.

(** The last phase, entered with the failure that led to it. *)
Definition fall_back_le (fallback_failure : AuraFailureReason.t) (ops : O)
  : result Bearer AuraFailureReason.t * O :=
  match connect_le ops with
  | (Ok bearer, ops) => (Ok bearer, ops)
  | (Err reason, ops) =>
      if wake_stage_failure fallback_failure then (Err fallback_failure, ops)
      else if decide (reason = AuraFailureReason.VerifiedAdvertisementNotFound)
      then (Err fallback_failure, ops)
      else (Err reason, ops)
  end.

Definition connect_cold_bearer (ops : O) : result Bearer AuraFailureReason.t * O :=
  match connect_stable AuraAcquisitionRoute.StableDirect ops with
  | (Ok bearer, ops) => (Ok bearer, ops)
  | (Err reason, ops) =>
      if negb (raw_att_retry_eligible reason) then (Err reason, ops)
      else
      match wake_once ops with
      | (Ok _, ops) =>
          match connect_stable AuraAcquisitionRoute.A2dpWakeThenStable ops with
          | (Ok bearer, ops) => (Ok bearer, ops)
          | (Err reason, ops) =>
              if raw_att_retry_eligible reason then fall_back_le reason ops
              else (Err reason, ops)
          end
      | (Err reason, ops) =>
          if decide (reason = AuraFailureReason.WakeProfileReleaseFailed)
          then (Err AuraFailureReason.WakeProfileReleaseFailed, ops)
          else fall_back_le reason ops
      end
  end.
End ColdConnect.

(** * Release of the wake profile *)

Module MediaControlReleaseObservation.
Inductive t := Released | Connected | Invalid.
#[global] Instance eq_dec : EqDecision t. Proof. solve_decision. Defined.
End MediaControlReleaseObservation.

Definition MEDIA_CONTROL_INTERFACE : bytes := str "org.bluez.MediaControl1".
Definition MEDIA_CONTROL_CONNECTED_PROPERTY : bytes := str "Connected".

(** A D-Bus property value, of which only [cast::<bool>] is taken. *)
Definition DbusVariant : Type := option bool.
Definition PropMap : Type := gmap bytes DbusVariant.

Definition classify_media_control_release (interfaces : option (gmap bytes PropMap))
  : MediaControlReleaseObservation.t :=
  match interfaces with
  | None => MediaControlReleaseObservation.Released
  | Some interfaces =>
  match interfaces !! MEDIA_CONTROL_INTERFACE with
  | None => MediaControlReleaseObservation.Released
  | Some properties =>
  match properties !! MEDIA_CONTROL_CONNECTED_PROPERTY with
  | None => MediaControlReleaseObservation.Invalid
  | Some (Some false) => MediaControlReleaseObservation.Released
  | Some (Some true) => MediaControlReleaseObservation.Connected
  | Some None => MediaControlReleaseObservation.Invalid
  end end end.

Definition exact_device_object_path (adapter_name : bytes) (expected_identity : DeviceIdentity)
  : bytes :=
  let 'mkDeviceIdentity a b c d e f := expected_identity in
  str "/org/bluez/" ++ adapter_name ++ str "/dev_" ++ hex_upper a ++ str "_" ++
  hex_upper b ++ str "_" ++ hex_upper c ++ str "_" ++ hex_upper d ++ str "_" ++
  hex_upper e ++ str "_" ++ hex_upper f.

(** The clock and the two closures of [poll_media_control_release]. *)
Class ReleasePoll (E : Type) := {
  poll_now : E -> Z * E;
  observe_release : Z -> E -> result MediaControlReleaseObservation.t AuraWakeIoFailure.t * E;
  pause : Z -> E -> E;
}.

(** [saturating_duration_since]. *)
Definition duration_until (deadline now : Z) : Z := Z.max 0 (deadline - now).

(** The loop, with fuel; [None] is out of fuel. *)
Fixpoint poll_media_control_release {E} `{ReleasePoll E} (fuel : nat) (deadline : Z) (e : E)
  : option (result bool AuraWakeIoFailure.t * E) :=
  match fuel with
  | O => None
  | S fuel =>
      let '(now, e) := poll_now e in
      if (deadline <=? now)%Z then Some (Err AuraWakeIoFailure.TimedOut, e)
      else
      match observe_release (duration_until deadline now) e with
      | (Err failure, e) => Some (Err failure, e)
      | (Ok MediaControlReleaseObservation.Released, e) => Some (Ok true, e)
      | (Ok MediaControlReleaseObservation.Invalid, e) =>
          Some (Err AuraWakeIoFailure.Rejected, e)
      | (Ok MediaControlReleaseObservation.Connected, e) =>
          let '(now, e) := poll_now e in
          if (deadline <=? now)%Z then Some (Err AuraWakeIoFailure.TimedOut, e)
          else
            poll_media_control_release fuel deadline
              (pause (Z.min MEDIA_CONTROL_RELEASE_POLL (duration_until deadline now)) e)
      end
  end.

Definition wake_operation_deadline (now overall_deadline requested : Z)
  : result Z AuraWakeIoFailure.t :=
  if (overall_deadline <=? now)%Z || (requested =? 0)%Z then Err AuraWakeIoFailure.TimedOut
  else Ok (Z.min overall_deadline (now + requested)).

(** * ATT packets *)

Definition ATT_PSM : Z := 0x001f.
Definition ATT_FIXED_CID : Z := 0x0004.
Definition ATT_WRITE_REQUEST : byte := z2b 0x12.
Definition ATT_WRITE_RESPONSE : byte := z2b 0x13.
Definition ATT_WRITE_COMMAND : byte := z2b 0x52.
Definition ATT_HANDLE_VALUE_NOTIFICATION : byte := z2b 0x1b.
Definition ATT_AURA_WRITE_HANDLE : Z := 0x03ea.
Definition ATT_AURA_NOTIFY_HANDLE : Z := 0x03ec.
Definition ATT_AURA_CCCD_HANDLE : Z := 0x03ed.
Definition ATT_CCCD_NOTIFY_ENABLED : bytes := [z2b 1; z2b 0].
Definition ATT_RECEIVE_BUFFER_SIZE : nat := 517.

Definition att_write_request (handle : Z) (value : bytes) : bytes :=
  [ATT_WRITE_REQUEST] ++ u16_to_le_bytes handle ++ value.
Definition att_write_command (handle : Z) (value : bytes) : bytes :=
  [ATT_WRITE_COMMAND] ++ u16_to_le_bytes handle ++ value.

Module AttPdu.
Inductive t := WriteResponse | Notification (handle : Z) (value : bytes) | Other.
#[global] Instance eq_dec : EqDecision t. Proof. solve_decision. Defined.
End AttPdu.

Definition parse_att_pdu (packet : bytes) : AttPdu.t :=
  match packet with
  | [] => AttPdu.Other
  | opcode :: rest =>
      if decide (opcode = ATT_WRITE_RESPONSE /\ rest = []) then AttPdu.WriteResponse
      else if decide (opcode = ATT_HANDLE_VALUE_NOTIFICATION) then
        match rest with
        | handle_low :: handle_high :: value =>
            AttPdu.Notification (u16_from_le_bytes handle_low handle_high) value
        | _ => AttPdu.Other
        end
      else AttPdu.Other
  end.

(** The classification of one received packet while waiting for the ack. *)
Definition observe_ack_packet (packet : bytes) : AckObservation.t :=
  match parse_att_pdu packet with
  | AttPdu.Notification handle value =>
      if (handle =? ATT_AURA_NOTIFY_HANDLE)%Z && bool_decide (is_Some (parse_command_ack value))
      then AckObservation.Accepted else AckObservation.Unexpected
  | _ => AckObservation.Unexpected
  end.

(** * Addresses and advertisements *)

Definition stable_paired_address_type (address_type : AddressType.t) : bool :=
  bool_decide (address_type = AddressType.BrEdr \/ address_type = AddressType.LePublic).

Definition verified_stable_device (address_type : AddressType.t) (paired trusted blocked : bool)
  : bool := stable_paired_address_type address_type && paired && trusted && negb blocked.

(** [address.0[0] >> 6 == 0b01]. *)
Definition resolvable_private_address (first_octet : byte) : bool :=
  (Z.shiftr (b2z first_octet) 6 =? 1)%Z.

Definition POLLIN : Z := 1.
Definition POLLERR : Z := 8.
Definition POLLHUP : Z := 16.
Definition POLLNVAL : Z := 32.

Definition raw_att_poll_revents_are_healthy (revents : Z) : bool :=
  (Z.land revents (Z.lor POLLERR (Z.lor POLLHUP POLLNVAL)) =? 0)%Z.

(** A service-data map, from service UUID to payload. *)
Definition ServiceData : Type := gmap bytes bytes.

Module DeviceProperty.
Inductive t := ServiceData_ (map : ServiceData) | Unrelated.
End DeviceProperty.

Module FreshAdvertisementEvidence.
Inductive t :=
| KnownDeviceProperty (property : DeviceProperty.t)
| NewObjectCurrentServiceData (map : option ServiceData).
End FreshAdvertisementEvidence.

Definition verified_scan_advertisement (address_type : AddressType.t) (fddf_payload : bytes)
    (expected_identity : DeviceIdentity) : bool :=
  bool_decide (address_type = AddressType.LeRandom)
  && matches_verified_fddf HARMAN_FDDF_UUID fddf_payload expected_identity.

Definition reduce_fresh_advertisement (evidence : FreshAdvertisementEvidence.t)
    (address_type : AddressType.t) (service_uuid : bytes) (expected_identity : DeviceIdentity)
  : bool :=
  let reduce := fun service_data : ServiceData =>
    match service_data !! service_uuid with
    | Some payload => verified_scan_advertisement address_type payload expected_identity
    | None => false
    end in
  match evidence with
  | FreshAdvertisementEvidence.KnownDeviceProperty (DeviceProperty.ServiceData_ map) => reduce map
  | FreshAdvertisementEvidence.KnownDeviceProperty DeviceProperty.Unrelated => false
  | FreshAdvertisementEvidence.NewObjectCurrentServiceData (Some map) => reduce map
  | FreshAdvertisementEvidence.NewObjectCurrentServiceData None => false
  end.

#[global] Arguments reduce_fresh_advertisement : simpl never.

(** * Retries *)

Class RetryEnv (E T : Type) := {
  retry_now : E -> Z * E;
  retry_attempt : E -> result T AuraFailureReason.t * E;
  sleep_until : Z -> E -> E;
}.

(** [remaining] attempts are left of the [for] loop. *)
Fixpoint retry_from {E T} `{RetryEnv E T} (remaining : nat) (retry_delay overall_deadline : Z)
    (last_reason : AuraFailureReason.t) (e : E) : result T AuraFailureReason.t * E :=
  match remaining with
  | O => (Err last_reason, e)
  | S remaining =>
      let '(now, e) := retry_now e in
      if (overall_deadline <=? now)%Z then (Err last_reason, e)
      else
      match retry_attempt e with
      | (Ok value, e) => (Ok value, e)
      | (Err reason, e) =>
          let e :=
            if (0 <? remaining)%nat then
              let '(now, e) := retry_now e in
              if (now <? overall_deadline)%Z then
                let '(now, e) := retry_now e in
                sleep_until (Z.min overall_deadline (now + retry_delay)) e
              else e
            else e in
          retry_from remaining retry_delay overall_deadline reason e
      end
  end.

Definition retry_connect_attempts {E T} `{RetryEnv E T} (timings : AuraBluezTimings)
    (overall_deadline : Z) (e : E) : result T AuraFailureReason.t * E :=
  retry_from (Z.to_nat (scan_attempts timings)) (retry_delay timings) overall_deadline
    AuraFailureReason.VerifiedAdvertisementNotFound e.

(** * The discovery window *)

(** What the [select!] of [scan_once] delivers, with the answers of the calls
    its branch makes: [None] and [false] are errors or timeouts. *)
Module ScanEvent.
Inductive t :=
| DeadlineReached
| AdapterStreamEnded
| DeviceRemoved (address : bytes)
| AdapterPropertyChanged
| DeviceAdded (address : bytes) (device subscribes : bool)
    (address_type : option AddressType.t) (service_data : option (option ServiceData))
| DeviceStreamOther
| DevicePropertyChanged (address : bytes) (property : DeviceProperty.t) (device : bool)
    (address_type : option AddressType.t).
End ScanEvent.

Record ScanState := mkScanState {
  preexisting : gset bytes;
  subscribed : gset bytes;
}.

(** One turn of the loop: [inl] returns, [inr] continues. *)
Definition scan_step (service_uuid : bytes) (expected_identity : DeviceIdentity)
    (event : ScanEvent.t) (s : ScanState)
  : result (option bytes) AuraFailureReason.t + ScanState :=
  match event with
  | ScanEvent.DeadlineReached => inl (Ok None)
  | ScanEvent.AdapterStreamEnded => inl (Err AuraFailureReason.DiscoveryUnavailable)
  | ScanEvent.DeviceRemoved address =>
      inr (mkScanState (preexisting s ∖ {[address]}) (subscribed s ∖ {[address]}))
  | ScanEvent.AdapterPropertyChanged => inr s
  | ScanEvent.DeviceAdded address device subscribes address_type service_data =>
      if decide (address ∈ preexisting s) then
        if decide (address ∈ subscribed s) then inr s
        else if device && subscribes
        then inr (mkScanState (preexisting s) ({[address]} ∪ subscribed s))
        else inr s
      else if decide (address ∈ subscribed s) then inr s
      else if negb device then inr s
      else if negb subscribes then inr s
      else
        let s := mkScanState (preexisting s) ({[address]} ∪ subscribed s) in
        match address_type with
        | None => inr s
        | Some address_type =>
        match service_data with
        | None => inr s
        | Some service_data =>
            if reduce_fresh_advertisement
                 (FreshAdvertisementEvidence.NewObjectCurrentServiceData service_data)
                 address_type service_uuid expected_identity
            then inl (Ok (Some address)) else inr s
        end end
  | ScanEvent.DeviceStreamOther => inr s
  | ScanEvent.DevicePropertyChanged address property device address_type =>
      match property with
      | DeviceProperty.Unrelated => inr s
      | DeviceProperty.ServiceData_ _ =>
          if negb device then inr s
          else
          match address_type with
          | None => inr s
          | Some address_type =>
              if reduce_fresh_advertisement
                   (FreshAdvertisementEvidence.KnownDeviceProperty property)
                   address_type service_uuid expected_identity
              then inl (Ok (Some address)) else inr s
          end
      end
  end.

(** The loop over the events of one window; [None] is a window still open. *)
Fixpoint scan_loop (service_uuid : bytes) (expected_identity : DeviceIdentity)
    (events : list ScanEvent.t) (s : ScanState)
  : option (result (option bytes) AuraFailureReason.t) :=
  match events with
  | [] => None
  | event :: events =>
      match scan_step service_uuid expected_identity event s with
      | inl r => Some r
      | inr s => scan_loop service_uuid expected_identity events s
      end
  end.

(** [scan_once]: [initial] says which objects of the pre-scan snapshot could be
    subscribed to; [discovery] whether discovery started in time. *)
Definition scan_once (known : gset bytes) (initial : gset bytes) (discovery : bool)
    (service_uuid : bytes) (expected_identity : DeviceIdentity) (events : list ScanEvent.t)
  : option (result (option bytes) AuraFailureReason.t) :=
  if negb discovery then Some (Err AuraFailureReason.DiscoveryUnavailable)
  else scan_loop service_uuid expected_identity events (mkScanState known (known ∩ initial)).

(** * The command core, lemmas and properties *)

Section CoreLaws.
Context {I : Type} `{AuraIoLaws I}.
#[local] Abbreviation core := (AuraControlCore I).

Definition core_writes (c : core) : nat := io_writes (io c).

(** Removes the calls that write nothing, one after the other. *)
Ltac no_writes :=
  repeat match goal with
  | E : io_health _ = _ |- _ => apply io_health_no_write in E
  | E : prepare_command _ = _ |- _ => apply prepare_no_write in E
  | E : wait_for_ack _ = _ |- _ => apply wait_no_write in E
  | E : io_shutdown _ = _ |- _ => apply io_shutdown_no_write in E
  | E : io_connect_verified _ _ = _ |- _ => apply io_connect_no_write in E
  | E : begin_write _ _ = _ |- _ => apply begin_write_once in E
  end.

Lemma command_spec cmd (c c' : core) r :
  command cmd c = (r, c') ->
  match unresolved c with
  | Some failure => r = AuraActionResult.OutcomeUnknown failure /\ c' = c
  | None =>
      core_writes c <= core_writes c' <= S (core_writes c) /\
      match r with
      | AuraActionResult.RejectedBeforeSend _ =>
          unresolved c' = None /\ core_writes c' = core_writes c
      | AuraActionResult.OutcomeUnknown reason => unresolved c' = Some reason
      | AuraActionResult.Accepted =>
          unresolved c' = None /\
          exists i1 i2 i3,
            io_health (io c) = (AuraHealth.Ready, i1) /\ prepare_command i1 = (Ok tt, i2) /\
            begin_write cmd i2 = (Ok tt, i3) /\
            wait_for_ack i3 = (Ok AckObservation.Accepted, io c')
      end
  end.
Proof.
  unfold command, latch_unknown, core_writes. intros E.
  destruct (unresolved c) as [f|] eqn:Eu; [by simplify_eq|].
  destruct (io_health (io c)) as [h i1] eqn:E1.
  destruct (decide (h = AuraHealth.Ready)) as [->|Hh]; last first.
  { rewrite bool_decide_eq_false_2 in E by done. simplify_eq/=. no_writes. split; [lia|done]. }
  rewrite bool_decide_eq_true_2 in E by done. cbn [negb] in E.
  destruct (prepare_command i1) as [[[]|e] i2] eqn:E2; simplify_eq/=;
    [|no_writes; split; [lia|split; [done|congruence]]].
  destruct (begin_write cmd i2) as [[[]|e] i3] eqn:E3; simplify_eq/=;
    [|no_writes; split; [lia|done]].
  destruct (wait_for_ack i3) as [[[]|e] i4] eqn:E4; simplify_eq/=;
    (split; [no_writes; lia|]); try done.
  split; [done|]. exists i1, i2, i3. by split_and!.
Qed.

#[export] Instance AuraControlCore_laws : AuraRoleControlLaws core.
Proof.
  assert (Hrej : forall cmd (c : core) e c',
      command cmd c = (AuraActionResult.RejectedBeforeSend e, c') -> core_writes c' = core_writes c).
  { intros cmd c e c' E. apply command_spec in E.
    destruct (unresolved c); [by destruct E|]. by destruct E as (_&_&?). }
  refine {| aura_writes := core_writes |}; simpl; [| | |by apply Hrej..].
  - unfold core_connect_verified. intros d c r c' E. unfold core_writes.
    destruct (unresolved c).
    + destruct (io_shutdown (io c)) as [[[]|] i1] eqn:E1; simplify_eq/=; [|by no_writes].
      destruct (io_connect_verified d i1) as [[[]|] i2] eqn:E2; simplify_eq/=; no_writes; congruence.
    + destruct (io_connect_verified d (io c)) as [[[]|] i2] eqn:E2; simplify_eq/=; by no_writes.
  - unfold core_health. intros c r c' E. unfold core_writes.
    destruct (unresolved c); [by simplify_eq|].
    destruct (io_health (io c)) as [h i1] eqn:E1. simplify_eq/=. by no_writes.
  - unfold core_shutdown. intros c r c' E. unfold core_writes.
    destruct (io_shutdown (io c)) as [r1 i1] eqn:E1. simplify_eq/=. by no_writes.
Defined.

(** Steps of a core that neither reconnect nor release the bearer. *)
Inductive core_use : core -> core -> Prop :=
| use_command cmd c r c' : command cmd c = (r, c') -> core_use c c'
| use_health c r c' : core_health c = (r, c') -> core_use c c'
| use_shutdown_failed c e c' : core_shutdown c = (Err e, c') -> core_use c c'
| use_connect_failed d c e c' : core_connect_verified d c = (Err e, c') -> core_use c c'.

Lemma core_use_latched c c' reason :
  core_use c c' -> unresolved c = Some reason ->
  unresolved c' = Some reason /\ core_writes c' = core_writes c.
Proof.
  intros Hs Hu. destruct Hs as [cmd c r c' E|c r c' E|c e c' E|d c e c' E].
  - apply command_spec in E. rewrite Hu in E. by destruct E as [_ ->].
  - unfold core_health in E. rewrite Hu in E. by simplify_eq.
  - pose proof (aura_shutdown_no_write (A := core) _ _ _ E) as W. simpl in W.
    unfold core_shutdown in E. destruct (io_shutdown (io c)) as [[[]|] i1]; by simplify_eq/=.
  - pose proof (aura_connect_no_write (A := core) _ _ _ _ E) as W. simpl in W.
    split; [|done]. unfold core_connect_verified in E. rewrite Hu in E.
    destruct (io_shutdown (io c)) as [[[]|] i1]; simplify_eq/=; [|done].
    destruct (io_connect_verified d i1) as [[[]|] i2]; by simplify_eq/=.
Qed.

(** An Aura role command is sent at most once and never repeated behind an
    unknown outcome: it is accepted only after a healthy bearer, a drained
    queue, a completed write and the exact acknowledgement; rejection means
    nothing was sent; and after an unknown outcome every further command
    answers that same outcome without sending anything, until the bearer is
    successfully released or reacquired. *)
Theorem aura_command_sent_once cmd (c c1 : core) r :
  unresolved c = None -> command cmd c = (r, c1) ->
  core_writes c <= core_writes c1 <= S (core_writes c) /\
  (forall e, r = AuraActionResult.RejectedBeforeSend e -> core_writes c1 = core_writes c) /\
  (r = AuraActionResult.Accepted ->
     exists i1 i2 i3,
       io_health (io c) = (AuraHealth.Ready, i1) /\ prepare_command i1 = (Ok tt, i2) /\
       begin_write cmd i2 = (Ok tt, i3) /\
       wait_for_ack i3 = (Ok AckObservation.Accepted, io c1)) /\
  (forall reason c2, r = AuraActionResult.OutcomeUnknown reason -> rtc core_use c1 c2 ->
     core_writes c2 = core_writes c1 /\
     forall cmd', command cmd' c2 = (AuraActionResult.OutcomeUnknown reason, c2)).
Proof.
  intros Hu E. apply command_spec in E. rewrite Hu in E. destruct E as [Hb Hr].
  split_and!; [lia|lia|by intros e ->; destruct Hr|by intros ->; destruct Hr|].
  intros reason c2 -> Hs.
  assert (X : unresolved c2 = Some reason /\ core_writes c2 = core_writes c1).
  { clear Hb. induction Hs as [c1|c1 c3 c2 H1 _ IH]; [done|].
    destruct (core_use_latched _ _ _ H1 Hr) as [Hr3 Hw3].
    destruct (IH Hr3) as [? Hw2]. split; congruence. }
  destruct X as [X1 X2]. split; [done|]. intros cmd'. unfold command. by rewrite X1.
Qed.
End CoreLaws.

(** The only packet taken as a positive acknowledgement is the notification
    on the Aura notify handle carrying exactly the success frame. *)
Theorem ack_packet_exact (packet : bytes) :
  observe_ack_packet packet = AckObservation.Accepted <->
  packet = [ATT_HANDLE_VALUE_NOTIFICATION] ++ u16_to_le_bytes ATT_AURA_NOTIFY_HANDLE ++ SUCCESS_ACK.
Proof.
  split.
  - unfold observe_ack_packet, parse_att_pdu, parse_command_ack. intros E.
    destruct packet as [|op rest]; [done|]. case_decide; [done|]. case_decide as Hop; [|done].
    destruct rest as [|lo [|hi value]]; try done.
    destruct (_ =? _)%Z eqn:Eh; [|done]. case_decide as Hv; [|done]. bool_hyps. subst.
    rewrite u16_from_le_value in Eh. unfold ATT_AURA_NOTIFY_HANDLE in Eh.
    pose proof (b2z_bounds lo). pose proof (b2z_bounds hi).
    assert (b2z lo = 236%Z /\ b2z hi = 3%Z) as [Hlo Hhi] by lia.
    rewrite <- (z2b_b2z lo), <- (z2b_b2z hi), Hlo, Hhi. done.
  - intros ->. by vm_compute.
Qed.

(** C40 Validated timings reserve every scan and delay window plus one
    connection and one setup within a total of at most ten minutes, with one to
    ten attempts: the checked arithmetic never wraps. *)
Theorem validated_timings_fit (t : AuraBluezTimings) :
  (0 <= scan_window t)%Z -> (0 <= retry_delay t)%Z -> (0 <= scan_attempts t <= u8_max)%Z ->
  validate t = Ok tt ->
  (1 <= scan_attempts t <= 10)%Z /\
  (scan_window t * scan_attempts t + retry_delay t * (scan_attempts t - 1)
     + device_connect_timeout t + gatt_setup_timeout t <= total_connect_timeout t)%Z /\
  (total_connect_timeout t <= from_secs 600)%Z.
Proof.
  intros Hw Hd Ha. unfold validate, reserved_budget.
  destruct (_ || _) eqn:G; [done|]. bool_hyps.
  unfold checked_mul, checked_add, MAX_SCAN_ATTEMPTS, MAX_TOTAL_CONNECT_TIMEOUT in *.
  intros E. repeat (case_match; simplify_eq/=). bool_hyps.
  rewrite Z.max_r in * by lia. unfold from_secs in *. split_and!; lia.
Qed.

Lemma validated_timings_fit_witness :
  validate default_timings = Ok tt /\ (1 <= scan_attempts default_timings <= 10)%Z.
Proof.
  assert (E : validate default_timings = Ok tt) by by vm_compute.
  split; [exact E|].
  apply (validated_timings_fit default_timings); [by vm_compute..|done].
Defined.

(** * The cold connection, properties *)

(** A recorder around the three operations: which were called, in order, and
    with which failure. *)
Module ColdCall.
Inductive t := Stable | Wake | StableAfterWake | Le.
#[global] Instance eq_dec : EqDecision t. Proof. solve_decision. Defined.
End ColdCall.

Record Recorded (O : Type) := mkRecorded {
  inner : O;
  calls : list (ColdCall.t * option AuraFailureReason.t);
}.
Arguments mkRecorded {O}.
Arguments inner {O}.
Arguments calls {O}.

Definition result_err {T E} (r : result T E) : option E :=
  match r with Ok _ => None | Err e => Some e end.

Section Recorder.
Context {O Bearer : Type} `{ColdConnectOps O Bearer}.

Definition record {R} (call : ColdCall.t) (f : O -> result R AuraFailureReason.t * O)
    (o : Recorded O) : result R AuraFailureReason.t * Recorded O :=
  let '(r, o') := f (inner o) in (r, mkRecorded o' (calls o ++ [(call, result_err r)])).

#[export] Instance Recorded_ops : ColdConnectOps (Recorded O) Bearer := {
  connect_stable route :=
    record (if decide (route = AuraAcquisitionRoute.StableDirect)
            then ColdCall.Stable else ColdCall.StableAfterWake) (connect_stable route);
  wake_once := record ColdCall.Wake wake_once;
  connect_le := record ColdCall.Le connect_le;
}.

(** The cold connection makes its calls in the fixed order stable, wake,
    stable again, advertised LE, each at most once: the second stable attempt
    only after a successful wake, another phase only after a setup failure
    that allows it, and nothing after a wake whose release is unconfirmed.
    It succeeds exactly when the last call connected, and a failure is the
    last call's, or the earlier phase's when the LE phase has nothing better
    to report. *)
Theorem connect_cold_bearer_order (o : O) (r : result Bearer AuraFailureReason.t) (o' : Recorded O) :
  connect_cold_bearer (mkRecorded o []) = (r, o') ->
  (calls o' = [(ColdCall.Stable, result_err r)] /\
   forall e, r = Err e -> raw_att_retry_eligible e = false) \/
  (exists e1 ew rest,
     raw_att_retry_eligible e1 = true /\
     calls o' = (ColdCall.Stable, Some e1) :: (ColdCall.Wake, ew) :: rest /\
     match ew with
     | Some e =>
         (e = AuraFailureReason.WakeProfileReleaseFailed /\ rest = [] /\ r = Err e) \/
         (e <> AuraFailureReason.WakeProfileReleaseFailed /\
          exists el, rest = [(ColdCall.Le, el)] /\ (el = None <-> is_ok r = true) /\
            forall e', r = Err e' -> e' = e \/ Some e' = el)
     | None =>
         rest = [(ColdCall.StableAfterWake, result_err r)] \/
         (exists e2 el, raw_att_retry_eligible e2 = true /\
          rest = [(ColdCall.StableAfterWake, Some e2); (ColdCall.Le, el)] /\
          (el = None <-> is_ok r = true) /\ forall e', r = Err e' -> e' = e2 \/ Some e' = el)
     end).
Proof.
  unfold connect_cold_bearer. cbn [connect_stable Recorded_ops]. unfold record at 1.
  cbn [inner calls app]. intros E.
  destruct (connect_stable AuraAcquisitionRoute.StableDirect o) as [[b|e1] o1] eqn:E1.
  { simplify_eq/=. by left. }
  destruct (raw_att_retry_eligible e1) eqn:G1; cbn [negb] in E;
    [|simplify_eq/=; left; split; [done|by intros e [= <-]]].
  right. cbn [wake_once Recorded_ops] in E. unfold record at 1 in E. cbn [inner calls app] in E.
  assert (Hle : forall f (p : Recorded O), fall_back_le f p = (r, o') ->
    exists el, calls o' = calls p ++ [(ColdCall.Le, el)] /\ (el = None <-> is_ok r = true) /\
      forall e', r = Err e' -> e' = f \/ Some e' = el).
  { intros f p. unfold fall_back_le. cbn [connect_le Recorded_ops]. unfold record.
    destruct (connect_le (inner p)) as [[b|e] p'].
    - intros [= <- <-]. exists None. by split_and!.
    - repeat case_match; intros [= <- <-]; exists (Some e); split_and!; try done;
        intros e' [= <-]; auto. }
  destruct (wake_once o1) as [[[]|ew] o2] eqn:E2.
  - cbn [connect_stable Recorded_ops] in E. unfold record at 1 in E. cbn [inner calls app] in E.
    destruct (connect_stable AuraAcquisitionRoute.A2dpWakeThenStable o2) as [[b|e2] o3] eqn:E3.
    + simplify_eq/=. exists e1, None. eexists. split_and!; [done|done|by left].
    + destruct (raw_att_retry_eligible e2) eqn:G2.
      * apply Hle in E as (el & Hc & Hok & He). simpl in Hc.
        exists e1, None. eexists. split_and!; [done|exact Hc|]. right. exists e2, el. by split_and!.
      * simplify_eq/=. exists e1, None. eexists. split_and!; [done|done|by left].
  - case_decide as Hw.
    + simplify_eq/=. exists e1, (Some AuraFailureReason.WakeProfileReleaseFailed), [].
      split_and!; [done|done|by left].
    + apply Hle in E as (el & Hc & Hok & He). simpl in Hc.
      exists e1, (Some ew). eexists. split_and!; [done|exact Hc|]. right. split; [done|].
      exists el. by split_and!.
Qed.
End Recorder.

(** * The release poll and the discovery window, properties *)

(** Time as the poll sees it: the clock never goes back, and pausing lets at
    least the requested time pass. *)
Class ReleasePollLaws (E : Type) `{ReleasePoll E} := {
  time : E -> Z;
  poll_now_time e t e' : poll_now e = (t, e') -> (time e <= t <= time e')%Z;
  observe_time d e r e' : observe_release d e = (r, e') -> (time e <= time e')%Z;
  pause_time d e : (0 <= d)%Z -> (time e + d <= time (pause d e))%Z;
}.

Section Poll.
Context {E : Type} `{ReleasePollLaws E}.

(** The release poll terminates: with one turn of fuel per poll interval left
    before the deadline, and one more, it always returns, and it answers
    released only if an observation said so. *)
Theorem poll_media_control_release_terminates (fuel : nat) (deadline : Z) (e : E) :
  (deadline - time e <= Z.of_nat fuel * MEDIA_CONTROL_RELEASE_POLL)%Z ->
  exists r e', poll_media_control_release (S fuel) deadline e = Some (r, e') /\
    (r = Ok true -> exists d e1, observe_release d e1 = (Ok MediaControlReleaseObservation.Released, e')) /\
    r <> Ok false.
Proof.
  revert e. induction fuel as [|fuel IH]; intros e Hf; cbn [poll_media_control_release];
    destruct (poll_now e) as [t e1] eqn:E1; pose proof (poll_now_time _ _ _ E1);
    (destruct (deadline <=? t)%Z eqn:G1;
      [eexists _, _; by split_and!|]); bool_hyps; [lia|].
  destruct (observe_release _ e1) as [[[]|f] e2] eqn:E2;
    [eexists _, _; split_and!; [done|by eauto|done]| |eexists _, _; by split_and!..].
  pose proof (observe_time _ _ _ _ E2).
  destruct (poll_now e2) as [t2 e3] eqn:E3. pose proof (poll_now_time _ _ _ E3).
  destruct (deadline <=? t2)%Z eqn:G2; [eexists _, _; by split_and!|]. bool_hyps.
  set (d := Z.min _ _).
  assert (Hd : (0 <= d)%Z) by (unfold d, duration_until, MEDIA_CONTROL_RELEASE_POLL, from_millis; lia).
  pose proof (pause_time d e3 Hd).
  destruct (decide (d = MEDIA_CONTROL_RELEASE_POLL)) as [Ed|Ed].
  - apply IH. unfold MEDIA_CONTROL_RELEASE_POLL, from_millis in *. lia.
  - (* the pause ends at the deadline *)
    apply IH. unfold d, duration_until, MEDIA_CONTROL_RELEASE_POLL, from_millis in *. lia.
Qed.
End Poll.

(** The event carries service data received in this window for [address]. *)
Definition fresh_evidence (service_uuid : bytes) (expected_identity : DeviceIdentity)
    (address : bytes) (event : ScanEvent.t) (map : ServiceData) : Prop :=
  (exists payload, map !! service_uuid = Some payload /\
     matches_verified_fddf HARMAN_FDDF_UUID payload expected_identity = true) /\
  (event = ScanEvent.DevicePropertyChanged address (DeviceProperty.ServiceData_ map) true
             (Some AddressType.LeRandom) \/
   event = ScanEvent.DeviceAdded address true true (Some AddressType.LeRandom) (Some (Some map))).

Lemma reduce_fresh_true evidence address_type uuid identity :
  reduce_fresh_advertisement evidence address_type uuid identity = true ->
  address_type = AddressType.LeRandom /\ exists map payload,
    (evidence = FreshAdvertisementEvidence.KnownDeviceProperty (DeviceProperty.ServiceData_ map) \/
     evidence = FreshAdvertisementEvidence.NewObjectCurrentServiceData (Some map)) /\
    map !! uuid = Some payload /\
    matches_verified_fddf HARMAN_FDDF_UUID payload identity = true.
Proof.
  unfold reduce_fresh_advertisement, verified_scan_advertisement. intros E.
  destruct evidence as [[map|]|[map|]]; try done;
    (destruct (map !! uuid) as [payload|] eqn:Em; [|done]); bool_hyps; split; eauto 8.
Qed.

Lemma scan_loop_sound uuid identity events s a :
  scan_loop uuid identity events s = Some (Ok (Some a)) ->
  exists before event after map,
    events = before ++ event :: after /\ fresh_evidence uuid identity a event map /\
    (a ∈ preexisting s -> ScanEvent.DeviceRemoved a ∉ before ->
     event = ScanEvent.DevicePropertyChanged a (DeviceProperty.ServiceData_ map) true
               (Some AddressType.LeRandom)).
Proof.
  revert s. induction events as [|event events IH]; intros s; [done|]. cbn [scan_loop].
  destruct (scan_step uuid identity event s) as [r|s'] eqn:Es.
  - intros [= ->]. exists [], event, events. unfold scan_step in Es.
    destruct event as [| | | |address device subscribes at_ sd| |address property device at_];
      try done; repeat case_match; simplify_eq/=.
    + match goal with R : reduce_fresh_advertisement _ _ _ _ = true |- _ =>
        apply reduce_fresh_true in R as (-> & sd_map & payload & Hev & Hm & Hp) end.
      destruct Hev as [?|Hev]; [done|]. simplify_eq. bool_hyps. subst.
      exists sd_map. split; [done|]. split; [split; [eauto|by right]|]. done.
    + match goal with R : reduce_fresh_advertisement _ _ _ _ = true |- _ =>
        apply reduce_fresh_true in R as (-> & sd_map & payload & Hev & Hm & Hp) end.
      destruct Hev as [Hev|?]; [|done]. simplify_eq. bool_hyps. subst.
      exists sd_map. split; [done|]. split; [split; [eauto|by left]|]. done.
  - intros Hs. apply IH in Hs as (before & ev & after & map & -> & Hf & Hpre).
    exists (event :: before), ev, after, map. split; [done|]. split; [done|].
    intros Ha Hnr. apply Hpre; [|set_solver].
    assert (preexisting s' = preexisting s \/ exists x, event = ScanEvent.DeviceRemoved x /\
        preexisting s' = preexisting s ∖ {[x]}) as [->|(x & -> & ->)]; [|done|set_solver].
    unfold scan_step in Es. destruct event; repeat case_match; simplify_eq/=; eauto.
Qed.

(** A discovery window ends with a device only on fresh evidence: some event
    of the window carried, for that device under a random LE address, service
    data that matches the product and the configured identity; and for a
    device known before the window and not removed in it, that event is a
    change of its service data, so cached properties never count. *)
Theorem scan_once_fresh_only known initial discovery uuid identity events a :
  scan_once known initial discovery uuid identity events = Some (Ok (Some a)) ->
  exists before event after map,
    events = before ++ event :: after /\ fresh_evidence uuid identity a event map /\
    (a ∈ known -> ScanEvent.DeviceRemoved a ∉ before ->
     event = ScanEvent.DevicePropertyChanged a (DeviceProperty.ServiceData_ map) true
               (Some AddressType.LeRandom)).
Proof.
  unfold scan_once. destruct discovery; [|done]. cbn [negb]. intros Hs.
  by apply scan_loop_sound in Hs.
Qed.
