(* ===== verification/BluezIo.v ===== *)
(** The native Aura transport over the Bluetooth stack (rust/src/aura_bluez.rs):
    the stable and the advertised ATT connection, the discovery window, the
    wake profile, and the retained bearer with its health, its role command and
    its acknowledgement.  It implements the interfaces [AuraIo],
    [ColdConnectOps], [AuraWakeBluez] and [AuraWakeFddfObserver].  What of the
    stack only these flows use is the interface [BluezDiscovery]. *)
From S2P Require Import Prelude.
From S2P Require Import Bytes.
From S2P Require Import Backend.
From S2P Require Import Model.
From S2P Require Import Control.
From S2P Require Import AuraWake.
From S2P Require Import Bluez.
From S2P Require Import AuraBluez.

Definition DEFAULT_ADAPTER : bytes := str "hci0".

Record AuraBluezConfig := mkAuraBluezConfig {
  adapter_name : bytes;
  timings : AuraBluezTimings;
}.
Definition default_bluez_config : AuraBluezConfig :=
  mkAuraBluezConfig DEFAULT_ADAPTER default_timings.

(** The fields of [bluer::DiscoveryFilter] that the program sets. *)
Module DiscoveryTransport.
Inductive t := Auto | BrEdr | Le.
#[global] Instance eq_dec : EqDecision t. Proof. solve_decision. Defined.
End DiscoveryTransport.
Record DiscoveryFilter := mkDiscoveryFilter {
  filter_transport : DiscoveryTransport.t;
  duplicate_data : bool;
  pattern : option bytes;
}.
Definition aura_discovery_filter : DiscoveryFilter :=
  mkDiscoveryFilter DiscoveryTransport.Le true (Some []).

(** What the two event streams of a discovery deliver. *)
Module RawEvent.
Inductive t :=
| AdapterStreamEnded
| DeviceRemoved (address : bytes)
| AdapterPropertyChanged
| DeviceAdded (address : bytes)
| DeviceStreamOther
| DevicePropertyChanged (address : bytes) (property : DeviceProperty.t).
End RawEvent.

Class BluezDiscovery (W : Type) := {
  (** [str::parse::<Uuid>] and [dbus::Path::new]. *)
  uuid_from_str : bytes -> option bytes;
  dbus_path_new : bytes -> option bytes;
  (** [tokio]: building the runtime, and its sleep. *)
  runtime_build : W -> result unit CallFailure.t * W;
  sleep_until_at : Z -> W -> W;
  adapter_set_discovery_filter : DiscoveryFilter -> Z -> W -> result unit CallFailure.t * W;
  adapter_device_addresses : Z -> W -> result (list bytes) CallFailure.t * W;
  adapter_discover_devices : Z -> W -> result unit CallFailure.t * W;
  device_events : bytes -> Z -> W -> result unit CallFailure.t * W;
  device_service_data : bytes -> Z -> W -> result (option ServiceData) CallFailure.t * W;
  device_is_connected : bytes -> Z -> W -> result bool CallFailure.t * W;
  device_connect_profile : bytes -> bytes -> Z -> W -> result unit CallFailure.t * W;
  device_disconnect_profile : bytes -> bytes -> Z -> W -> result unit CallFailure.t * W;
  (** [select!] over the timer and the streams: how many events it delivers
      before it takes the timer's branch, and the next of them. *)
  select_turns : Z -> W -> nat;
  select_event : Z -> W -> RawEvent.t * W;
  (** The blocking D-Bus connection: [new_system], [get_managed_objects] with a
      timeout, and [thread::sleep]. *)
  dbus_new_system : W -> result unit CallFailure.t * W;
  get_managed_objects : Z -> W -> result (gmap bytes (gmap bytes PropMap)) CallFailure.t * W;
  thread_sleep : Z -> W -> W;
}.

Section Native.
Context {W S : Type} `{BluezStack W S} `{BluezDiscovery W}.

(** * ATT sockets *)

Definition br_edr_att_socket_addresses (local_address target_address : bytes)
  : SocketAddr * SocketAddr :=
  (mkSocketAddr local_address AddressType.BrEdr 0 0,
   mkSocketAddr target_address AddressType.BrEdr ATT_PSM 0).

Definition le_fixed_att_socket_addresses (local_address target_address : bytes)
  : SocketAddr * SocketAddr :=
  (mkSocketAddr local_address AddressType.LePublic 0 ATT_FIXED_CID,
   mkSocketAddr target_address AddressType.LeRandom 0 ATT_FIXED_CID).

Definition connect_att_socket (local target : SocketAddr) (deadline : Z) (w : W)
  : result S AuraFailureReason.t * W :=
  let failed := AuraFailureReason.DeviceConnectionFailed in
  let?! (socket, w) := or_fail failed (socket_open w) in
  let?! (_, w) := or_fail failed (socket_bind socket local w) in
  let?! (_, w) := or_fail failed (socket_set_security socket w) in
  let?! (_, w) := or_fail failed (socket_connect socket target deadline w) in
  let?! (peer, w) := or_fail failed (socket_peer_addr socket w) in
  if decide (peer <> target) then (Err failed, w) else (Ok socket, w).

Definition send_exact_att_packet (socket : S) (packet : bytes) (deadline : Z)
    (failure : AuraFailureReason.t) (w : W) : result unit AuraFailureReason.t * W :=
  let?! (written, w) := or_fail failure (socket_send socket packet deadline w) in
  if (written =? length packet)%nat then (Ok tt, w) else (Err failure, w).

Definition receive_att_packet (socket : S) (deadline : Z) (failure : AuraFailureReason.t) (w : W)
  : result bytes AuraFailureReason.t * W :=
  match socket_recv socket deadline w with
  | (Recv.Packet [], w) | (Recv.Failed, w) | (Recv.TimedOut, w) => (Err failure, w)
  | (Recv.Packet packet, w) => (Ok packet, w)
  end.

Definition enable_raw_att_notifications (socket : S) (deadline : Z) (w : W)
  : result unit AuraFailureReason.t * W :=
  let failed := AuraFailureReason.NotificationSetupFailed in
  let request := att_write_request ATT_AURA_CCCD_HANDLE ATT_CCCD_NOTIFY_ENABLED in
  let?! (_, w) := send_exact_att_packet socket request deadline failed w in
  let?! (response, w) := receive_att_packet socket deadline failed w in
  if decide (parse_att_pdu response = AttPdu.WriteResponse) then (Ok tt, w)
  else (Err AuraFailureReason.GattProfileInvalid, w).

(** The session and the device that the bearer keeps alive have no behaviour of
    their own. *)
Record RawAttBearer := mkRawAttBearer {
  bearer_identity : DeviceIdentity;
  bearer_transport : AuraBearerTransport.t;
  bearer_route : AuraAcquisitionRoute.t;
  bearer_socket : S;
}.

(** * The stable connection *)

Definition connect_raw_att (config : AuraBluezConfig) (expected_identity : DeviceIdentity)
    (overall_deadline : Z) (route : AuraAcquisitionRoute.t) (w : W)
  : result RawAttBearer AuraFailureReason.t * W :=
  let unavailable := AuraFailureReason.AdapterUnavailable in
  let failed := AuraFailureReason.DeviceConnectionFailed in
  let setup := gatt_setup_timeout (timings config) in
  let '(t, w) := now w in
  let stable_deadline :=
    Z.min overall_deadline (t + Z.min duration_max (STABLE_CONNECT_TIMEOUT + setup)) in
  let?! (_, w) := or_fail unavailable (session_new stable_deadline w) in
  let?! (_, w) := or_fail unavailable (adapter_open (adapter_name config) w) in
  let?! (powered, w) := or_fail unavailable (adapter_is_powered stable_deadline w) in
  if negb powered then (Err AuraFailureReason.AdapterPoweredOff, w)
  else
  let?! (local_address, w) := or_fail unavailable (adapter_address stable_deadline w) in
  let address := binary expected_identity in
  let?! (_, w) := or_fail failed (adapter_device address w) in
  let '(t, w) := now w in
  let connect_deadline := Z.min stable_deadline (t + STABLE_CONNECT_TIMEOUT) in
  let?! (address_type, w) := or_fail failed (device_address_type address connect_deadline w) in
  let?! (paired, w) := or_fail failed (device_is_paired address connect_deadline w) in
  let?! (trusted, w) := or_fail failed (device_is_trusted address connect_deadline w) in
  let?! (blocked, w) := or_fail failed (device_is_blocked address connect_deadline w) in
  if negb (verified_stable_device address_type paired trusted blocked) then (Err failed, w)
  else
  let '(local, target) := br_edr_att_socket_addresses local_address address in
  let?! (socket, w) := connect_att_socket local target connect_deadline w in
  let '(t, w) := now w in
  let setup_deadline := Z.min stable_deadline (t + setup) in
  let?! (_, w) := enable_raw_att_notifications socket setup_deadline w in
  (Ok (mkRawAttBearer expected_identity AuraBearerTransport.BrEdr route socket), w).

(** * The discovery window *)

Definition subscribe_device_events (address : bytes) (deadline : Z) (w : W)
  : result unit AuraFailureReason.t * W :=
  or_fail AuraFailureReason.DiscoveryUnavailable (device_events address deadline w).

(** The objects of the pre-scan snapshot that could be subscribed to. *)
Fixpoint subscribe_known (known : list bytes) (deadline : Z) (subscribed : gset bytes) (w : W)
  : gset bytes * W :=
  match known with
  | [] => (subscribed, w)
  | address :: known =>
      match adapter_device address w with
      | (Err _, w) => subscribe_known known deadline subscribed w
      | (Ok _, w) =>
          match subscribe_device_events address deadline w with
          | (Err _, w) => subscribe_known known deadline subscribed w
          | (Ok _, w) => subscribe_known known deadline ({[address]} ∪ subscribed) w
          end
      end
  end.

(** The calls that the branch of an event makes, and the event with their
    answers, on which [scan_step] decides.  A call that is not made answers
    [false] or [None]. *)
Definition attend (event : RawEvent.t) (deadline : Z) (s : ScanState) (w : W)
  : ScanEvent.t * W :=
  match event with
  | RawEvent.AdapterStreamEnded => (ScanEvent.AdapterStreamEnded, w)
  | RawEvent.DeviceRemoved address => (ScanEvent.DeviceRemoved address, w)
  | RawEvent.AdapterPropertyChanged => (ScanEvent.AdapterPropertyChanged, w)
  | RawEvent.DeviceStreamOther => (ScanEvent.DeviceStreamOther, w)
  | RawEvent.DeviceAdded address =>
      let added := ScanEvent.DeviceAdded address in
      if decide (address ∈ subscribed s) then (added false false None None, w)
      else
      match adapter_device address w with
      | (Err _, w) => (added false false None None, w)
      | (Ok _, w) =>
      match subscribe_device_events address deadline w with
      | (Err _, w) => (added true false None None, w)
      | (Ok _, w) =>
          if decide (address ∈ preexisting s) then (added true true None None, w)
          else
          match device_address_type address deadline w with
          | (Err _, w) => (added true true None None, w)
          | (Ok address_type, w) =>
              let '(service_data, w) := device_service_data address deadline w in
              (added true true (Some address_type) (result_ok service_data), w)
          end
      end end
  | RawEvent.DevicePropertyChanged address property =>
      let changed := ScanEvent.DevicePropertyChanged address property in
      match property with
      | DeviceProperty.Unrelated => (changed false None, w)
      | DeviceProperty.ServiceData_ _ =>
          match adapter_device address w with
          | (Err _, w) => (changed false None, w)
          | (Ok _, w) =>
              let '(address_type, w) := device_address_type address deadline w in
              (changed true (result_ok address_type), w)
          end
      end
  end.

(** The loop of [scan_once]; after the last event comes the timer. *)
Fixpoint scan_turns (turns : nat) (service_uuid : bytes) (expected_identity : DeviceIdentity)
    (deadline : Z) (s : ScanState) (w : W)
  : result (option bytes) AuraFailureReason.t * W :=
  match turns with
  | O => (Ok None, w)
  | Datatypes.S turns =>
      let '(raw, w) := select_event deadline w in
      let '(event, w) := attend raw deadline s w in
      match scan_step service_uuid expected_identity event s with
      | inl r => (r, w)
      | inr s => scan_turns turns service_uuid expected_identity deadline s w
      end
  end.

(** [scan_once]; the device it returns is known by its address. *)
Definition scan_window_once (known : gset bytes) (service_uuid : bytes)
    (expected_identity : DeviceIdentity) (deadline : Z) (w : W)
  : result (option bytes) AuraFailureReason.t * W :=
  let '(initial, w) := subscribe_known (elements known) deadline ∅ w in
  let?! (_, w) :=
    or_fail AuraFailureReason.DiscoveryUnavailable (adapter_discover_devices deadline w) in
  scan_turns (select_turns deadline w) service_uuid expected_identity deadline
    (mkScanState known initial) w.

(** * The advertised connection *)

Definition parse_uuid (value : bytes) : result bytes AuraFailureReason.t :=
  ok_or (uuid_from_str value) AuraFailureReason.InvalidConfiguration.

(** What the closure of [retry_connect_attempts] captures. *)
Record LeAttempts := mkLeAttempts {
  le_world : W;
  le_local_address : bytes;
  le_service_uuid : bytes;
  le_identity : DeviceIdentity;
  le_timings : AuraBluezTimings;
  le_deadline : Z;
}.
Definition set_le_world (a : LeAttempts) (w : W) : LeAttempts :=
  mkLeAttempts w (le_local_address a) (le_service_uuid a) (le_identity a) (le_timings a)
    (le_deadline a).

(** The connected device and its socket. *)
Definition connect_le_raw_attempt (local_address service_uuid : bytes)
    (expected_identity : DeviceIdentity) (timings : AuraBluezTimings) (overall_deadline : Z) (w : W)
  : result (bytes * S) AuraFailureReason.t * W :=
  let?! (known, w) :=
    or_fail AuraFailureReason.DiscoveryUnavailable
      (adapter_device_addresses overall_deadline w) in
  let '(t, w) := now w in
  let scan_deadline := Z.min overall_deadline (t + scan_window timings) in
  let?! (found, w) :=
    scan_window_once (list_to_set known) service_uuid expected_identity scan_deadline w in
  match found with
  | None => (Err AuraFailureReason.VerifiedAdvertisementNotFound, w)
  | Some device =>
      let '(t, w) := now w in
      let connect_deadline := Z.min overall_deadline (t + device_connect_timeout timings) in
      let '(local, target) := le_fixed_att_socket_addresses local_address device in
      let?! (socket, w) := connect_att_socket local target connect_deadline w in
      let '(t, w) := now w in
      let setup_deadline := Z.min overall_deadline (t + gatt_setup_timeout timings) in
      let?! (_, w) := enable_raw_att_notifications socket setup_deadline w in
      (Ok (device, socket), w)
  end.

#[export] Instance LeAttempts_env : RetryEnv LeAttempts (bytes * S) := {
  retry_now a := let '(t, w) := now (le_world a) in (t, set_le_world a w);
  retry_attempt a :=
    let '(r, w) := connect_le_raw_attempt (le_local_address a) (le_service_uuid a)
      (le_identity a) (le_timings a) (le_deadline a) (le_world a) in
    (r, set_le_world a w);
  sleep_until deadline a := set_le_world a (sleep_until_at deadline (le_world a));
}.

Definition retry_le (local_address service_uuid : bytes) (expected_identity : DeviceIdentity)
    (timings : AuraBluezTimings) (overall_deadline : Z) (w : W)
  : result (bytes * S) AuraFailureReason.t * W :=
  let '(r, a) := retry_connect_attempts timings overall_deadline
    (mkLeAttempts w local_address service_uuid expected_identity timings overall_deadline) in
  (r, le_world a).

Definition connect_le_raw (config : AuraBluezConfig) (expected_identity : DeviceIdentity)
    (overall_deadline : Z) (w : W) : result RawAttBearer AuraFailureReason.t * W :=
  let unavailable := AuraFailureReason.AdapterUnavailable in
  let?! (_, w) := or_fail unavailable (session_new overall_deadline w) in
  let?! (_, w) := or_fail unavailable (adapter_open (adapter_name config) w) in
  let?! (powered, w) := or_fail unavailable (adapter_is_powered overall_deadline w) in
  if negb powered then (Err AuraFailureReason.AdapterPoweredOff, w)
  else
  let?! (local_address, w) := or_fail unavailable (adapter_address overall_deadline w) in
  match parse_uuid HARMAN_FDDF_UUID with
  | Err e => (Err e, w)
  | Ok service_uuid =>
      let?! (_, w) := or_fail AuraFailureReason.DiscoveryUnavailable
        (adapter_set_discovery_filter aura_discovery_filter overall_deadline w) in
      let?! (connected, w) :=
        retry_le local_address service_uuid expected_identity (timings config) overall_deadline w in
      (Ok (mkRawAttBearer expected_identity AuraBearerTransport.Le AuraAcquisitionRoute.FreshLe
             (snd connected)), w)
  end.

(** * The wake profile *)

(** [NativeAuraWakeBluez] and [NativeAuraWakeFddfObserver] have the same fields
    and share the runtime. *)
Record NativeAuraWake := mkNativeAuraWake {
  wake_world : W;
  wake_config : AuraBluezConfig;
  wake_deadline : Z;
}.

(** [wake_timeout_at], and a call without a deadline. *)
Definition wake_call {T} (call : result T CallFailure.t * W) : result T AuraWakeIoFailure.t * W :=
  let '(r, w) := call in
  (map_err (fun f => match f with
                     | CallFailure.Elapsed => AuraWakeIoFailure.TimedOut
                     | CallFailure.Failed => AuraWakeIoFailure.Unavailable
                     end) r, w).
Definition wake_unavailable {T} (call : result T CallFailure.t * W)
  : result T AuraWakeIoFailure.t * W := or_fail AuraWakeIoFailure.Unavailable call.

(** The address of the device object. *)
Definition exact_stable_wake_device (config : AuraBluezConfig) (expected_identity : DeviceIdentity)
    (deadline : Z) (w : W) : result bytes AuraWakeIoFailure.t * W :=
  let?! (_, w) := wake_call (session_new deadline w) in
  let?! (_, w) := wake_unavailable (adapter_open (adapter_name config) w) in
  let?! (powered, w) := wake_call (adapter_is_powered deadline w) in
  if negb powered then (Err AuraWakeIoFailure.Unavailable, w)
  else
  let expected_address := binary expected_identity in
  let?! (_, w) := wake_unavailable (adapter_device expected_address w) in
  let device := expected_address in
  if decide (device <> expected_address) then (Err AuraWakeIoFailure.Rejected, w)
  else (Ok device, w).

(** [wake_operation_deadline] reads the clock first. *)
Definition with_deadline {T} (requested : Z) (n : NativeAuraWake)
    (run : Z -> W -> result T AuraWakeIoFailure.t * W)
  : result T AuraWakeIoFailure.t * NativeAuraWake :=
  let '(t, w) := now (wake_world n) in
  let '(r, w) :=
    match wake_operation_deadline t (wake_deadline n) requested with
    | Err e => (Err e, w)
    | Ok deadline => run deadline w
    end in
  (r, mkNativeAuraWake w (wake_config n) (wake_deadline n)).

Definition native_inspect_stable_device (expected_identity : DeviceIdentity) (n : NativeAuraWake)
  : result StableAuraState AuraWakeIoFailure.t * NativeAuraWake :=
  with_deadline STABLE_CONNECT_TIMEOUT n (fun deadline w =>
    let?! (device, w) := exact_stable_wake_device (wake_config n) expected_identity deadline w in
    let?! (address_type, w) := wake_call (device_address_type device deadline w) in
    let?! (paired, w) := wake_call (device_is_paired device deadline w) in
    let?! (trusted, w) := wake_call (device_is_trusted device deadline w) in
    let?! (blocked, w) := wake_call (device_is_blocked device deadline w) in
    (Ok (mkStableAuraState (matches_binary expected_identity device)
           (if stable_paired_address_type address_type then StableAddressKind.Public
            else StableAddressKind.Other) paired trusted blocked), w)).

(** [connect_profile] and [disconnect_profile] differ in the call they make. *)
Definition profile_call (call : bytes -> bytes -> Z -> W -> result unit CallFailure.t * W)
    (expected_identity : DeviceIdentity) (profile_uuid : bytes) (timeout : Z) (n : NativeAuraWake)
  : result unit AuraWakeIoFailure.t * NativeAuraWake :=
  if negb (bool_decide (profile_uuid = A2DP_SINK_PROFILE_UUID))
  then (Err AuraWakeIoFailure.Rejected, n)
  else
  match uuid_from_str profile_uuid with
  | None => (Err AuraWakeIoFailure.Rejected, n)
  | Some uuid =>
      with_deadline timeout n (fun deadline w =>
        let?! (device, w) := exact_stable_wake_device (wake_config n) expected_identity deadline w in
        wake_call (call device uuid deadline w))
  end.

Definition native_connect_profile := profile_call device_connect_profile.
Definition native_disconnect_profile := profile_call device_disconnect_profile.

(** What the closures of the release poll capture. *)
Record ReleaseWatch := mkReleaseWatch { watch_world : W; watch_path : bytes }.

#[export] Instance ReleaseWatch_poll : ReleasePoll ReleaseWatch := {
  poll_now e := let '(t, w) := now (watch_world e) in (t, mkReleaseWatch w (watch_path e));
  observe_release remaining e :=
    let '(r, w) := wake_unavailable (get_managed_objects remaining (watch_world e)) in
    (map_ok (fun objects : gmap bytes (gmap bytes PropMap) =>
       classify_media_control_release (objects !! watch_path e)) r,
     mkReleaseWatch w (watch_path e));
  pause d e := mkReleaseWatch (thread_sleep d (watch_world e)) (watch_path e);
}.

(** Turns that cover a wait of that length, and two more. *)
Definition release_fuel (timeout : Z) : nat :=
  Z.to_nat (timeout / MEDIA_CONTROL_RELEASE_POLL) + 2.

(** The fuel is always enough ([BluezIoSpec.release_poll_returns]), so the
    default is never taken. *)
Definition release_poll (timeout deadline : Z) (object_path : bytes) (w : W)
  : result bool AuraWakeIoFailure.t * W :=
  let '(r, e) := default (Err AuraWakeIoFailure.TimedOut, mkReleaseWatch w object_path)
    (poll_media_control_release (release_fuel timeout) deadline (mkReleaseWatch w object_path)) in
  (r, watch_world e).

Definition native_wait_profile_released (expected_identity : DeviceIdentity) (profile_uuid : bytes)
    (timeout : Z) (n : NativeAuraWake) : result bool AuraWakeIoFailure.t * NativeAuraWake :=
  if negb (bool_decide (profile_uuid = A2DP_SINK_PROFILE_UUID))
  then (Err AuraWakeIoFailure.Rejected, n)
  else
  with_deadline timeout n (fun deadline w =>
    let?! (device, w) := exact_stable_wake_device (wake_config n) expected_identity deadline w in
    let?! (connected, w) := wake_call (device_is_connected device deadline w) in
    if negb connected then (Ok true, w)
    else
    match dbus_path_new (exact_device_object_path (adapter_name (wake_config n)) expected_identity) with
    | None => (Err AuraWakeIoFailure.Rejected, w)
    | Some object_path =>
        let?! (_, w) := wake_unavailable (dbus_new_system w) in
        release_poll timeout deadline object_path w
    end).

#[export] Instance NativeAuraWake_bluez : AuraWakeBluez NativeAuraWake := {
  inspect_stable_device := native_inspect_stable_device;
  connect_profile := native_connect_profile;
  disconnect_profile := native_disconnect_profile;
  wait_profile_released := native_wait_profile_released;
}.

Definition native_wait_for_fresh_fddf (expected_identity : DeviceIdentity) (timeout : Z)
    (n : NativeAuraWake)
  : result (option FreshFddfObservation) AuraWakeIoFailure.t * NativeAuraWake :=
  with_deadline timeout n (fun deadline w =>
    let?! (_, w) := wake_call (session_new deadline w) in
    let?! (_, w) := wake_unavailable (adapter_open (adapter_name (wake_config n)) w) in
    let?! (powered, w) := wake_call (adapter_is_powered deadline w) in
    if negb powered then (Err AuraWakeIoFailure.Unavailable, w)
    else
    let?! (_, w) := wake_call (adapter_set_discovery_filter aura_discovery_filter deadline w) in
    let?! (known, w) := wake_call (adapter_device_addresses deadline w) in
    match uuid_from_str HARMAN_FDDF_UUID with
    | None => (Err AuraWakeIoFailure.Rejected, w)
    | Some service_uuid =>
        let '(r, w) := scan_window_once (list_to_set known) service_uuid expected_identity deadline w in
        (map_err (fun _ => AuraWakeIoFailure.Unavailable)
           (map_ok (fun matched : option bytes =>
              (fun device =>
                 mkFreshFddfObservation true
                   (if match device with
                       | octet :: _ => resolvable_private_address octet
                       | [] => false
                       end
                    then FddfAddressKind.ResolvablePrivate else FddfAddressKind.Other)
                   AURA_STUDIO_5_PRODUCT_ID true) <$> matched) r), w)
    end).

#[export] Instance NativeAuraWake_observer : AuraWakeFddfObserver NativeAuraWake := {
  wait_for_fresh_fddf := native_wait_for_fresh_fddf;
}.

(** * The cold connection *)

Record NativeColdConnectOps := mkNativeColdConnectOps {
  ops_world : W;
  ops_config : AuraBluezConfig;
  expected_identity : DeviceIdentity;
  overall_deadline : Z;
}.
Definition set_ops_world (o : NativeColdConnectOps) (w : W) : NativeColdConnectOps :=
  mkNativeColdConnectOps w (ops_config o) (expected_identity o) (overall_deadline o).

Definition native_wake_once (o : NativeColdConnectOps)
  : result unit AuraFailureReason.t * NativeColdConnectOps :=
  let '(r, n) := acquire_aura_wake (expected_identity o) default_wake_timings
    (mkNativeAuraWake (ops_world o) (ops_config o) (overall_deadline o)) in
  (map_err (fun error => map_wake_error (wake_failure error) (error_cleanup error))
     (map_ok (fun _ => tt) r), set_ops_world o (wake_world n)).

#[export] Instance NativeColdConnectOps_ops : ColdConnectOps NativeColdConnectOps RawAttBearer := {
  connect_stable route o :=
    let '(r, w) := connect_raw_att (ops_config o) (expected_identity o) (overall_deadline o) route
      (ops_world o) in
    (r, set_ops_world o w);
  wake_once := native_wake_once;
  connect_le o :=
    let '(r, w) := connect_le_raw (ops_config o) (expected_identity o) (overall_deadline o)
      (ops_world o) in
    (r, set_ops_world o w);
}.

(** * The retained bearer *)

(** [BluezIo], with the stack it works on. *)
Record BluezIo := mkBluezIo {
  io_world : W;
  io_config : AuraBluezConfig;
  bearer : option RawAttBearer;
}.

Definition validate_protocol_constants : result unit AuraFailureReason.t :=
  let? _ := parse_uuid HARMAN_FDDF_UUID in
  let? _ := parse_uuid AURA_VENDOR_SERVICE_UUID in
  let? _ := parse_uuid AURA_NOTIFY_UUID in
  let? _ := parse_uuid AURA_WRITE_UUID in
  Ok tt.

(** [BluezIo::new] and [BluezAuraTransport::new]. *)
Definition bluez_io_new (config : AuraBluezConfig) (w : W)
  : result BluezIo AuraFailureReason.t * W :=
  match validate_protocol_constants with
  | Err e => (Err e, w)
  | Ok _ =>
      let?! (_, w) := or_fail AuraFailureReason.RuntimeUnavailable (runtime_build w) in
      (Ok (mkBluezIo w config None), w)
  end.
Definition bluez_transport_new (config : AuraBluezConfig) (w : W)
  : result (AuraControlCore BluezIo) AuraFailureReason.t * W :=
  match validate (timings config) with
  | Err e => (Err e, w)
  | Ok _ => let?! (io, w) := bluez_io_new config w in (Ok (core_new io), w)
  end.

(** The return value of [poll] and of [recv], as the code tests them. *)
Definition raw_att_fd_is_healthy (socket : S) (w : W) : result bool unit * W :=
  let '(result, revents, w) := socket_poll socket w in
  if (result <? 0)%Z then (Err tt, w)
  else if negb (raw_att_poll_revents_are_healthy revents) then (Ok false, w)
  else if (result =? 0)%Z || (Z.land revents POLLIN =? 0)%Z then (Ok true, w)
  else
  let '(received, would_block, w) := socket_peek socket w in
  if (0 <? received)%Z then (Ok true, w)
  else if (received =? 0)%Z then (Ok false, w)
  else if would_block then (Ok true, w)
  else (Err tt, w).

Definition project_bearer_health {T} (bearer : option T) (observed : result bool unit)
  : AuraHealth.t * option T :=
  match observed with
  | Ok true => (AuraHealth.Ready, bearer)
  | Ok false => (AuraHealth.Offline, None)
  | Err _ => (AuraHealth.Unavailable, None)
  end.

Definition bluez_health (i : BluezIo) : AuraHealth.t * BluezIo :=
  match bearer i with
  | None => (AuraHealth.Offline, i)
  | Some b =>
      let '(observed, w) := raw_att_fd_is_healthy (bearer_socket b) (io_world i) in
      let '(health, b) := project_bearer_health (bearer i) observed in
      (health, mkBluezIo w (io_config i) b)
  end.

Definition same_verified_identity (bound requested : DeviceIdentity) : bool :=
  bool_decide (bound = requested).

Definition bluez_shutdown (i : BluezIo) : result unit AuraFailureReason.t * BluezIo :=
  (Ok tt, mkBluezIo (io_world i) (io_config i) None).

(** The acquisition phases share one hard deadline. *)
Definition bluez_connect_cold (expected_identity : DeviceIdentity) (i : BluezIo)
  : result unit AuraFailureReason.t * BluezIo :=
  let '(t, w) := now (io_world i) in
  let ops := mkNativeColdConnectOps w (io_config i) expected_identity
    (t + total_connect_timeout (timings (io_config i))) in
  let '(r, ops) := connect_cold_bearer ops in
  match r with
  | Err e => (Err e, mkBluezIo (ops_world ops) (io_config i) (bearer i))
  | Ok b => (Ok tt, mkBluezIo (ops_world ops) (io_config i) (Some b))
  end.

(** A retained bearer of that identity is kept while it is healthy. *)
Definition retained_ready (expected_identity : DeviceIdentity) (i : BluezIo) : bool * BluezIo :=
  match bearer i with
  | Some b =>
      if same_verified_identity (bearer_identity b) expected_identity then
        let '(health, i) := bluez_health i in (bool_decide (health = AuraHealth.Ready), i)
      else (false, i)
  | None => (false, i)
  end.

Definition bluez_connect_verified (expected_identity : DeviceIdentity) (i : BluezIo)
  : result unit AuraFailureReason.t * BluezIo :=
  let '(ready, i) := retained_ready expected_identity i in
  if ready then (Ok tt, i)
  else
  let?! (_, i) :=
    match bearer i with Some _ => bluez_shutdown i | None => (Ok tt, i) end in
  bluez_connect_cold expected_identity i.

Fixpoint drain_raw_att_packets (remaining : nat) (socket : S) (w : W)
  : result unit AuraFailureReason.t * W :=
  match remaining with
  | O => (Err AuraFailureReason.NotificationQueueInvalid, w)
  | Datatypes.S remaining =>
      match socket_try_recv socket w with
      | (None, w) => (Ok tt, w)
      | (Some (Recv.Packet (_ :: _)), w) => drain_raw_att_packets remaining socket w
      | (Some (Recv.Packet [] | Recv.Failed | Recv.TimedOut), w) =>
          (Err AuraFailureReason.AcknowledgementChannelClosed, w)
      end
  end.

Definition bluez_prepare_command (i : BluezIo) : result unit AuraFailureReason.t * BluezIo :=
  match bearer i with
  | None => (Err AuraFailureReason.TransportNotReady, i)
  | Some b =>
      let '(r, w) := drain_raw_att_packets MAX_STALE_NOTIFICATIONS (bearer_socket b) (io_world i) in
      (r, mkBluezIo w (io_config i) (bearer i))
  end.

Definition raw_att_send_command (b : RawAttBearer) (frame : bytes) (deadline : Z) (w : W)
  : result unit AuraFailureReason.t * W :=
  let request := att_write_command ATT_AURA_WRITE_HANDLE frame in
  let?! (written, w) :=
    or_fail AuraFailureReason.WriteFailed (socket_send (bearer_socket b) request deadline w) in
  if negb (written =? length request)%nat then (Err AuraFailureReason.WriteFailed, w)
  else (Ok tt, w).

Definition bluez_begin_write (command : AuraPlayTogetherCommand.t) (i : BluezIo)
  : result unit AuraFailureReason.t * BluezIo :=
  match bearer i with
  | None => (Err AuraFailureReason.TransportNotReady, i)
  | Some b =>
      let '(t, w) := now (io_world i) in
      let '(r, w) := raw_att_send_command b (AuraPlayTogetherCommand.frame command)
        (t + command_write_timeout (timings (io_config i))) w in
      (r, mkBluezIo w (io_config i) (bearer i))
  end.

Definition raw_att_wait_for_notification (b : RawAttBearer) (deadline : Z) (w : W)
  : result AckObservation.t AuraFailureReason.t * W :=
  match socket_recv (bearer_socket b) deadline w with
  | (Recv.TimedOut, w) => (Err AuraFailureReason.AcknowledgementTimedOut, w)
  | (Recv.Failed, w) | (Recv.Packet [], w) =>
      (Err AuraFailureReason.AcknowledgementChannelClosed, w)
  | (Recv.Packet packet, w) => (Ok (observe_ack_packet packet), w)
  end.

Definition bluez_wait_for_ack (i : BluezIo) : result AckObservation.t AuraFailureReason.t * BluezIo :=
  match bearer i with
  | None => (Err AuraFailureReason.AcknowledgementChannelClosed, i)
  | Some b =>
      let '(t, w) := now (io_world i) in
      let '(r, w) := raw_att_wait_for_notification b (t + ack_timeout (timings (io_config i))) w in
      (r, mkBluezIo w (io_config i) (bearer i))
  end.

#[export] Instance BluezIo_io : AuraIo BluezIo := {
  io_connect_verified := bluez_connect_verified;
  io_health := bluez_health;
  prepare_command := bluez_prepare_command;
  begin_write := bluez_begin_write;
  wait_for_ack := bluez_wait_for_ack;
  io_shutdown := bluez_shutdown;
  io_bearer i := (fun b => (bearer_transport b, bearer_route b)) <$> bearer i;
}.
End Native.
Arguments RawAttBearer : clear implicits.
Arguments BluezIo : clear implicits.
Arguments NativeColdConnectOps : clear implicits.
Arguments NativeAuraWake : clear implicits.
