(* ===== verification/BluezIoSpec.v ===== *)
(** What the native Aura transport promises (rust/src/aura_bluez.rs,
    [BluezIo]): nothing but its role command ever leaves on a retained bearer,
    byte for byte and once; the bearer is retained only for the verified device;
    and the release poll ends. *)
From stdpp Require Import relations.
From S2P Require Import Prelude.
From S2P Require Import Bytes.
From S2P Require Import Backend.
From S2P Require Import Model.
From S2P Require Import Control.
From S2P Require Import AuraWake.
From S2P Require Import Bluez.
From S2P Require Import AuraBluez.
From S2P Require Import BluezIo.

(** * What the stack promises *)

(** None of the calls of a discovery hands a packet to the kernel. *)
Class BluezDiscoveryLaws (W S : Type) `{BluezStackLaws W S} `{BluezDiscovery W} := {
  runtime_silent w : silent w (snd (runtime_build w));
  sleep_until_silent d w : silent w (sleep_until_at d w);
  filter_silent f d w : silent w (snd (adapter_set_discovery_filter f d w));
  addresses_silent d w : silent w (snd (adapter_device_addresses d w));
  discover_silent d w : silent w (snd (adapter_discover_devices d w));
  events_silent a d w : silent w (snd (device_events a d w));
  service_data_silent a d w : silent w (snd (device_service_data a d w));
  connected_silent a d w : silent w (snd (device_is_connected a d w));
  connect_profile_silent a u d w : silent w (snd (device_connect_profile a u d w));
  disconnect_profile_silent a u d w : silent w (snd (device_disconnect_profile a u d w));
  select_silent d w : silent w (snd (select_event d w));
  dbus_silent w : silent w (snd (dbus_new_system w));
  objects_silent d w : silent w (snd (get_managed_objects d w));
  thread_sleep_silent d w : silent w (thread_sleep d w);
}.

(** The packet that enables notifications, the only one of a connection. *)
Definition cccd_request : bytes := att_write_request ATT_AURA_CCCD_HANDLE ATT_CCCD_NOTIFY_ENABLED.

Create HintDb setup.

Section Setup.
Context {W S : Type} `{BluezDiscoveryLaws W S}.

(** Nothing but requests for notifications was sent in between. *)
Definition setup_only (w w' : W) : Prop :=
  exists packets, sent w' = sent w ++ packets /\ Forall (eq cccd_request) packets.

#[export] Instance setup_only_preorder : PreOrder setup_only.
Proof.
  split.
  - intros w. exists []. by rewrite app_nil_r.
  - intros w1 w2 w3 (p & Ep & Fp) (q & Eq & Fq). exists (p ++ q).
    rewrite Eq, Ep, app_assoc. split; [done|]. by apply Forall_app.
Qed.

Lemma silent_setup (w w' : W) : silent w w' -> setup_only w w'.
Proof. intros E. exists []. by rewrite app_nil_r. Qed.

(** A call of the stack, from the law that it is silent. *)
Lemma silent_call {R} (call : R * W) (w : W) :
  (forall r w', call = (r, w') -> silent w w') -> setup_only w (snd call).
Proof. intros Hc. destruct call as [r w'] eqn:E. apply silent_setup. by eapply Hc. Qed.

Lemma or_fail_setup {T F} (failure : F) (call : result T CallFailure.t * W) (w : W) :
  setup_only w (snd call) -> setup_only w (snd (or_fail failure call)).
Proof. by destruct call. Qed.

Lemma wake_call_setup {T} (call : result T CallFailure.t * W) (w : W) :
  setup_only w (snd call) -> setup_only w (snd (wake_call call)).
Proof. by destruct call. Qed.
End Setup.

#[export] Hint Resolve or_fail_setup wake_call_setup : setup.
#[export] Hint Extern 1 (setup_only ?w ?w) => reflexivity : setup.
#[export] Hint Extern 2 (setup_only _ (snd (wake_unavailable _))) => apply or_fail_setup : setup.
#[export] Hint Extern 2 (setup_only _ (snd (now _))) =>
  apply silent_call, now_silent : setup.
#[export] Hint Extern 2 (setup_only _ (snd (session_new _ _))) =>
  apply silent_call, session_new_silent : setup.
#[export] Hint Extern 2 (setup_only _ (snd (adapter_open _ _))) =>
  apply silent_call, adapter_open_silent : setup.
#[export] Hint Extern 2 (setup_only _ (snd (adapter_is_powered _ _))) =>
  apply silent_call, adapter_is_powered_silent : setup.
#[export] Hint Extern 2 (setup_only _ (snd (adapter_address _ _))) =>
  apply silent_call, adapter_address_silent : setup.
#[export] Hint Extern 2 (setup_only _ (snd (adapter_device _ _))) =>
  apply silent_call, adapter_device_silent : setup.
#[export] Hint Extern 2 (setup_only _ (snd (device_address_type _ _ _))) =>
  apply silent_call, device_address_type_silent : setup.
#[export] Hint Extern 2 (setup_only _ (snd (device_is_paired _ _ _))) =>
  apply silent_call, device_is_paired_silent : setup.
#[export] Hint Extern 2 (setup_only _ (snd (device_is_trusted _ _ _))) =>
  apply silent_call, device_is_trusted_silent : setup.
#[export] Hint Extern 2 (setup_only _ (snd (device_is_blocked _ _ _))) =>
  apply silent_call, device_is_blocked_silent : setup.
#[export] Hint Extern 2 (setup_only _ (snd (socket_open _))) =>
  apply silent_call, socket_open_silent : setup.
#[export] Hint Extern 2 (setup_only _ (snd (socket_bind _ _ _))) =>
  apply silent_call, socket_bind_silent : setup.
#[export] Hint Extern 2 (setup_only _ (snd (socket_set_security _ _))) =>
  apply silent_call, socket_set_security_silent : setup.
#[export] Hint Extern 2 (setup_only _ (snd (socket_connect _ _ _ _))) =>
  apply silent_call, socket_connect_silent : setup.
#[export] Hint Extern 2 (setup_only _ (snd (socket_peer_addr _ _))) =>
  apply silent_call, socket_peer_addr_silent : setup.
#[export] Hint Extern 2 (setup_only _ (snd (socket_recv _ _ _))) =>
  apply silent_call, socket_recv_silent : setup.
#[export] Hint Extern 2 (setup_only _ (snd (socket_try_recv _ _))) =>
  apply silent_call, socket_try_recv_silent : setup.
#[export] Hint Extern 2 (setup_only _ (snd (socket_poll _ _))) =>
  apply silent_call, socket_poll_silent : setup.
#[export] Hint Extern 2 (setup_only _ (snd (socket_peek _ _))) =>
  apply silent_call, socket_peek_silent : setup.
#[export] Hint Extern 3 (setup_only _ _) =>
  apply silent_setup; first
    [apply runtime_silent|apply sleep_until_silent|apply filter_silent|apply addresses_silent
    |apply discover_silent|apply events_silent|apply service_data_silent|apply connected_silent
    |apply connect_profile_silent|apply disconnect_profile_silent|apply select_silent
    |apply dbus_silent|apply objects_silent|apply thread_sleep_silent] : setup.

(** One call after the other: the goal is about the world a flow ends in. *)
Ltac setup_calls :=
  repeat (cbn beta iota zeta; match goal with
  | |- setup_only ?w (snd (match ?m with _ => _ end)) =>
      transitivity (snd m); [solve [eauto with setup]|destruct m as [[] ?]]
  | |- setup_only ?w (snd (match ?m with _ => _ end)) => destruct m
  end; cbn [snd fst]); cbn [snd fst]; eauto with setup.

Section Flows.
Context {W S : Type} `{BluezDiscoveryLaws W S}.
#[local] Abbreviation setup_only := (setup_only (W := W) (S := S)).

(** ** Connecting sends nothing else *)

Lemma connect_att_socket_setup local target deadline (w : W) :
  setup_only w (snd (connect_att_socket (S := S) local target deadline w)).
Proof. unfold connect_att_socket. setup_calls. Qed.

Lemma receive_att_packet_setup (s : S) deadline failure (w : W) :
  setup_only w (snd (receive_att_packet s deadline failure w)).
Proof. unfold receive_att_packet. setup_calls. Qed.
#[local] Hint Resolve connect_att_socket_setup receive_att_packet_setup : setup.

Lemma enable_notifications_setup (s : S) deadline (w : W) :
  setup_only w (snd (enable_raw_att_notifications s deadline w)).
Proof.
  unfold enable_raw_att_notifications.
  assert (setup_only w (snd (send_exact_att_packet s cccd_request deadline
            AuraFailureReason.NotificationSetupFailed w))) as Hs.
  { unfold send_exact_att_packet.
    destruct (socket_send s cccd_request deadline w) as [r w1] eqn:E.
    assert (setup_only w w1).
    { apply socket_send_once in E as [E|E].
      - by apply silent_setup.
      - exists [cccd_request]. by split; [|apply Forall_singleton]. }
    destruct r as [n|e]; simpl; [|done]. by destruct (_ =? _)%nat. }
  setup_calls.
Qed.
#[local] Hint Resolve enable_notifications_setup : setup.

Lemma connect_raw_att_setup config identity overall route (w : W) :
  setup_only w (snd (connect_raw_att (S := S) config identity overall route w)).
Proof. unfold connect_raw_att. setup_calls. Qed.

Lemma subscribe_setup address deadline (w : W) :
  setup_only w (snd (subscribe_device_events address deadline w)).
Proof. unfold subscribe_device_events. eauto with setup. Qed.
#[local] Hint Resolve subscribe_setup : setup.

Lemma subscribe_known_setup known deadline seen (w : W) :
  setup_only w (snd (subscribe_known (S := S) known deadline seen w)).
Proof.
  revert seen w. induction known as [|a known IH]; intros seen w; simpl; [done|].
  transitivity (snd (adapter_device a w)); [eauto with setup|].
  destruct (adapter_device a w) as [[] w1]; [|apply IH].
  transitivity (snd (subscribe_device_events a deadline w1)); [eauto with setup|].
  destruct (subscribe_device_events a deadline w1) as [[] w2]; apply IH.
Qed.

Lemma attend_setup event deadline s (w : W) :
  setup_only w (snd (attend (S := S) event deadline s w)).
Proof. destruct event as [| | | | |a []]; cbn [attend]; setup_calls. Qed.
#[local] Hint Resolve subscribe_known_setup attend_setup : setup.

Lemma scan_turns_setup turns uuid identity deadline s (w : W) :
  setup_only w (snd (scan_turns (S := S) turns uuid identity deadline s w)).
Proof.
  revert s w. induction turns as [|turns IH]; intros s w; cbn [scan_turns]; [done|].
  transitivity (snd (select_event deadline w)); [eauto with setup|].
  destruct (select_event deadline w) as [raw w1]; simpl.
  transitivity (snd (attend (S := S) raw deadline s w1)); [eauto with setup|].
  destruct (attend raw deadline s w1) as [event w2]; simpl.
  by destruct (scan_step _ _ _ _).
Qed.
#[local] Hint Resolve scan_turns_setup : setup.

Lemma scan_window_once_setup known uuid identity deadline (w : W) :
  setup_only w (snd (scan_window_once (S := S) known uuid identity deadline w)).
Proof. unfold scan_window_once. setup_calls. Qed.
#[local] Hint Resolve scan_window_once_setup : setup.

Lemma le_attempt_setup local uuid identity t overall (w : W) :
  setup_only w (snd (connect_le_raw_attempt (S := S) local uuid identity t overall w)).
Proof. unfold connect_le_raw_attempt. setup_calls. Qed.
#[local] Hint Resolve le_attempt_setup : setup.

Lemma retry_setup remaining delay overall last (a : LeAttempts (W := W)) :
  setup_only (le_world a)
    (le_world (snd (retry_from (T := bytes * S) remaining delay overall last a))).
Proof.
  revert last a. induction remaining as [|n IH]; intros last a; [done|].
  cbn [retry_from retry_now retry_attempt sleep_until LeAttempts_env].
  transitivity (snd (now (le_world a))); [eauto with setup|].
  destruct (now (le_world a)) as [t w1]; cbn [snd].
  destruct (overall <=? t)%Z; [done|]. cbn [le_world set_le_world].
  match goal with |- context [connect_le_raw_attempt ?l ?u ?i ?t ?o w1] =>
    transitivity (snd (connect_le_raw_attempt (S := S) l u i t o w1)); [eauto with setup|];
    destruct (connect_le_raw_attempt (S := S) l u i t o w1) as [[v|e] w2] end; [done|].
  cbn [snd]. destruct (0 <? n)%nat; [|apply (IH _ (set_le_world (set_le_world a w1) w2))].
  cbn [le_world set_le_world].
  transitivity (snd (now w2)); [eauto with setup|].
  destruct (now w2) as [t2 w3]; cbn [snd].
  destruct (t2 <? overall)%Z; [|apply (IH _ (set_le_world (set_le_world (set_le_world a w1) w2) w3))].
  cbn [le_world set_le_world].
  transitivity (snd (now w3)); [eauto with setup|].
  destruct (now w3) as [t3 w4]; cbn [snd le_world set_le_world].
  match goal with |- context [sleep_until_at ?d w4] =>
    transitivity (sleep_until_at d w4); [eauto with setup|] end.
  match goal with |- context [retry_from n delay overall e ?x] => apply (IH e x) end.
Qed.

Lemma retry_le_setup local uuid identity t overall (w : W) :
  setup_only w (snd (retry_le (S := S) local uuid identity t overall w)).
Proof.
  unfold retry_le, retry_connect_attempts.
  pose proof (retry_setup (Z.to_nat (scan_attempts t)) (retry_delay t) overall
    AuraFailureReason.VerifiedAdvertisementNotFound
    (mkLeAttempts w local uuid identity t overall)) as Hr.
  by destruct (retry_from _ _ _ _ _).
Qed.
#[local] Hint Resolve retry_le_setup : setup.

Lemma connect_le_raw_setup config identity overall (w : W) :
  setup_only w (snd (connect_le_raw (S := S) config identity overall w)).
Proof. unfold connect_le_raw. setup_calls. Qed.

(** ** Neither does the wake profile *)

Lemma exact_device_setup config identity deadline (w : W) :
  setup_only w (snd (exact_stable_wake_device (S := S) config identity deadline w)).
Proof. unfold exact_stable_wake_device. setup_calls. Qed.
#[local] Hint Resolve exact_device_setup : setup.

Lemma with_deadline_setup {T} requested (n : NativeAuraWake W)
    (run : Z -> W -> result T AuraWakeIoFailure.t * W) :
  (forall deadline w, setup_only w (snd (run deadline w))) ->
  setup_only (wake_world n) (wake_world (snd (with_deadline (S := S) requested n run))).
Proof.
  intros Hr. unfold with_deadline.
  transitivity (snd (now (wake_world n))); [eauto with setup|].
  destruct (now (wake_world n)) as [t w1]; simpl.
  destruct (wake_operation_deadline _ _ _) as [deadline|e]; [|done].
  pose proof (Hr deadline w1). by destruct (run deadline w1).
Qed.

Lemma native_inspect_setup identity (n : NativeAuraWake W) :
  setup_only (wake_world n) (wake_world (snd (native_inspect_stable_device (S := S) identity n))).
Proof. apply with_deadline_setup. intros deadline w. setup_calls. Qed.

Lemma profile_call_setup call identity uuid t (n : NativeAuraWake W) :
  (forall a u d w, setup_only w (snd (call a u d w))) ->
  setup_only (wake_world n) (wake_world (snd (profile_call (S := S) call identity uuid t n))).
Proof.
  intros Hc. unfold profile_call. destruct (negb _); [done|].
  destruct (uuid_from_str uuid) as [u|]; [|done].
  apply with_deadline_setup. intros deadline w. setup_calls.
Qed.

Lemma release_poll_setup fuel deadline (e : ReleaseWatch) r e' :
  poll_media_control_release (H := ReleaseWatch_poll (S := S)) fuel deadline e = Some (r, e') ->
  setup_only (watch_world e) (watch_world e').
Proof.
  revert e. induction fuel as [|fuel IH]; intros e; [done|].
  cbn [poll_media_control_release poll_now observe_release pause ReleaseWatch_poll].
  assert (setup_only (watch_world e) (snd (now (watch_world e)))) as C1 by eauto with setup.
  destruct (now (watch_world e)) as [t w1]; cbn [snd] in C1.
  destruct (deadline <=? t)%Z; [by intros [= <- <-]|]. cbn [watch_world watch_path].
  assert (setup_only w1 (snd (wake_unavailable
    (get_managed_objects (duration_until deadline t) w1)))) as C2 by eauto with setup.
  destruct (wake_unavailable _) as [observed w2]; cbn [snd] in C2.
  assert (setup_only (watch_world e) w2) as C by by etrans.
  destruct observed as [objects|f]; cbn [map_ok]; [|by intros [= <- <-]].
  destruct (classify_media_control_release _); try (by intros [= <- <-]).
  cbn [watch_world].
  assert (setup_only w2 (snd (now w2))) as C3 by eauto with setup.
  destruct (now w2) as [t2 w3]; cbn [snd] in C3.
  destruct (deadline <=? t2)%Z; [intros [= <- <-]; by etrans|].
  intros Hr%IH. cbn [watch_world] in Hr. etrans; [exact C|]. etrans; [exact C3|].
  etrans; [|exact Hr]. eauto with setup.
Qed.

Lemma release_poll_world t deadline path (w : W) :
  setup_only w (snd (release_poll (S := S) t deadline path w)).
Proof.
  unfold release_poll.
  destruct (poll_media_control_release _ _ _) as [[r e]|] eqn:E; simpl; [|done].
  by apply release_poll_setup in E.
Qed.
#[local] Hint Resolve release_poll_world : setup.

Lemma native_wait_setup identity uuid t (n : NativeAuraWake W) :
  setup_only (wake_world n)
    (wake_world (snd (native_wait_profile_released (S := S) identity uuid t n))).
Proof.
  unfold native_wait_profile_released. destruct (negb _); [done|].
  apply with_deadline_setup. intros deadline w. setup_calls.
Qed.

Lemma native_observe_setup identity t (n : NativeAuraWake W) :
  setup_only (wake_world n) (wake_world (snd (native_wait_for_fresh_fddf (S := S) identity t n))).
Proof.
  unfold native_wait_for_fresh_fddf. apply with_deadline_setup. intros deadline w. setup_calls.
Qed.

(** One call after the other, for the objects of the wake profile. *)
Ltac wake_calls :=
  repeat (cbn beta iota zeta; match goal with
  | |- setup_only (wake_world ?n) (wake_world (snd (match ?m with _ => _ end))) =>
      transitivity (wake_world (snd m));
        [first [apply native_inspect_setup|apply native_observe_setup|apply native_wait_setup
               |apply profile_call_setup; eauto with setup]
        |destruct m as [[] ?]]
  | |- setup_only (wake_world ?n) (wake_world (snd (match ?m with _ => _ end))) => destruct m
  end; cbn [snd fst]); cbn [snd fst]; eauto with setup.

Lemma wake_primary_world identity t (n : NativeAuraWake W) :
  setup_only (wake_world n)
    (wake_world (snd (wake_primary (H := NativeAuraWake_bluez (S := S))
       (H0 := NativeAuraWake_observer (S := S)) identity t n))).
Proof. unfold wake_primary. wake_calls. Qed.

Lemma release_profile_world identity t (n : NativeAuraWake W) :
  setup_only (wake_world n)
    (wake_world (snd (release_profile (H := NativeAuraWake_bluez (S := S)) identity t n))).
Proof. unfold release_profile. wake_calls. Qed.

Lemma acquire_wake_world identity t (n : NativeAuraWake W) :
  setup_only (wake_world n)
    (wake_world (snd (acquire_aura_wake (H := NativeAuraWake_bluez (S := S))
       (H0 := NativeAuraWake_observer (S := S)) identity t n))).
Proof.
  unfold acquire_aura_wake. destruct (validate_wake_timings t); [|done].
  transitivity (wake_world (snd (native_inspect_stable_device (S := S) identity n)));
    [apply native_inspect_setup|].
  cbn [inspect_stable_device NativeAuraWake_bluez].
  destruct (native_inspect_stable_device identity n) as [[stable|] n1]; [|done]. cbn [snd].
  destruct (validate_stable_state stable); [|done].
  pose proof (wake_primary_world identity t n1) as Hp.
  destruct (wake_primary identity t n1) as [primary n2]. cbn [snd] in Hp.
  pose proof (release_profile_world identity (release_timeout t) n2) as Hr.
  destruct (release_profile identity (release_timeout t) n2) as [cleanup n3].
  by etrans.
Qed.

Lemma native_wake_setup (o : NativeColdConnectOps W) :
  setup_only (ops_world o) (ops_world (snd (native_wake_once (S := S) o))).
Proof.
  unfold native_wake_once. set (n := mkNativeAuraWake _ _ _).
  pose proof (acquire_wake_world (expected_identity o) default_wake_timings n) as Hn.
  by destruct (acquire_aura_wake _ _ n).
Qed.

(** ** The cold connection *)

Lemma stable_setup route (o : NativeColdConnectOps W) :
  setup_only (ops_world o)
    (ops_world (snd (connect_stable (Bearer := RawAttBearer S) route o))).
Proof.
  cbn [connect_stable NativeColdConnectOps_ops].
  pose proof (connect_raw_att_setup (ops_config o) (expected_identity o) (overall_deadline o)
    route (ops_world o)) as Hc.
  by destruct (connect_raw_att _ _ _ _ _).
Qed.

Lemma le_setup (o : NativeColdConnectOps W) :
  setup_only (ops_world o)
    (ops_world (snd (connect_le (Bearer := RawAttBearer S) o))).
Proof.
  cbn [connect_le NativeColdConnectOps_ops].
  pose proof (connect_le_raw_setup (ops_config o) (expected_identity o) (overall_deadline o)
    (ops_world o)) as Hc.
  by destruct (connect_le_raw _ _ _ _).
Qed.

Lemma cold_setup (o : NativeColdConnectOps W) :
  setup_only (ops_world o)
    (ops_world (snd (connect_cold_bearer (Bearer := RawAttBearer S) o))).
Proof.
  assert (Hle : forall reason (o : NativeColdConnectOps W), setup_only (ops_world o)
    (ops_world (snd (fall_back_le (Bearer := RawAttBearer S) reason o)))).
  { intros reason o1. unfold fall_back_le. pose proof (le_setup o1).
    destruct (connect_le o1) as [[b|e] o2]; [done|]. by repeat case_match. }
  unfold connect_cold_bearer. pose proof (stable_setup AuraAcquisitionRoute.StableDirect o) as H1'.
  destruct (connect_stable _ o) as [[b|e] o1]; [done|]. cbn [snd] in H1'.
  destruct (negb _); [done|]. etrans; [exact H1'|].
  pose proof (native_wake_setup o1) as Hw. cbn [wake_once NativeColdConnectOps_ops].
  destruct (native_wake_once o1) as [[u|e2] o2]; cbn [snd] in Hw; (etrans; [exact Hw|]).
  - pose proof (stable_setup AuraAcquisitionRoute.A2dpWakeThenStable o2) as Hs.
    destruct (connect_stable _ o2) as [[b|e3] o3]; [done|]. cbn [snd] in Hs.
    destruct (raw_att_retry_eligible e3); [|done]. etrans; [exact Hs|apply Hle].
  - destruct (decide _); [done|apply Hle].
Qed.

(** ** The retained bearer *)

Lemma fd_healthy_silent (s : S) (w w' : W) r :
  raw_att_fd_is_healthy s w = (r, w') -> silent w w'.
Proof.
  unfold raw_att_fd_is_healthy, silent. intros E.
  destruct (socket_poll s w) as [[n revents] w1] eqn:Ep.
  destruct (socket_peek s w1) as [[received again] w2] eqn:Ek.
  repeat case_match; simplify_eq; silent_calls; congruence.
Qed.

Lemma health_silent (i i' : BluezIo W S) h :
  bluez_health i = (h, i') -> silent (io_world i) (io_world i').
Proof.
  unfold bluez_health. destruct (bearer i) as [b|]; [|by intros [= <- <-]].
  destruct (raw_att_fd_is_healthy _ _) as [observed w1] eqn:E. apply fd_healthy_silent in E.
  destruct (project_bearer_health _ _). by intros [= <- <-].
Qed.

Lemma drain_silent n (s : S) (w w' : W) r :
  drain_raw_att_packets n s w = (r, w') -> silent w w'.
Proof.
  unfold silent. revert w. induction n as [|n IH]; intros w; cbn [drain_raw_att_packets];
    [by intros [= <- <-]|].
  destruct (socket_try_recv s w) as [got w1] eqn:E. apply socket_try_recv_silent in E.
  unfold silent in E. destruct got as [[| |[|c packet]]|]; try (by intros [= <- <-]).
  intros Hr%IH. congruence.
Qed.

Lemma prepare_silent (i i' : BluezIo W S) r :
  bluez_prepare_command i = (r, i') -> silent (io_world i) (io_world i').
Proof.
  unfold bluez_prepare_command. destruct (bearer i) as [b|]; [|by intros [= <- <-]].
  destruct (drain_raw_att_packets _ _ _) as [r1 w1] eqn:E. apply drain_silent in E.
  by intros [= <- <-].
Qed.

Lemma wait_silent (i i' : BluezIo W S) r :
  bluez_wait_for_ack i = (r, i') -> silent (io_world i) (io_world i').
Proof.
  unfold bluez_wait_for_ack, raw_att_wait_for_notification, silent.
  destruct (bearer i) as [b|]; [|by intros [= <- <-]].
  destruct (now (io_world i)) as [t w1] eqn:E1. destruct (socket_recv _ _ w1) as [got w2] eqn:E2.
  intros E. repeat case_match; simplify_eq/=; silent_calls; congruence.
Qed.

Definition role_packet (command : AuraPlayTogetherCommand.t) : bytes :=
  att_write_command ATT_AURA_WRITE_HANDLE (AuraPlayTogetherCommand.frame command).

Lemma begin_write_sent command (i i' : BluezIo W S) r :
  bluez_begin_write command i = (r, i') ->
  (sent (io_world i') = sent (io_world i) \/
   sent (io_world i') = sent (io_world i) ++ [role_packet command]) /\
  (r = Ok tt -> sent (io_world i') = sent (io_world i) ++ [role_packet command]).
Proof.
  unfold bluez_begin_write, raw_att_send_command.
  destruct (bearer i) as [b|]; [|intros [= <- <-]; by split; [left|]].
  destruct (now (io_world i)) as [t w1] eqn:E1. intros E. flow_step.
  - pose proof (socket_send_ok _ _ _ _ _ _ Ec) as Es. silent_calls.
    rewrite E1 in Es. destruct (negb _); simplify_eq/=; (split; [by right|done]).
  - apply socket_send_once in Ec. silent_calls. simplify_eq/=. rewrite E1 in Ec. by split.
Qed.

Lemma connect_cold_setup identity (i : BluezIo W S) :
  setup_only (io_world i) (io_world (snd (bluez_connect_cold identity i))).
Proof.
  unfold bluez_connect_cold. transitivity (snd (now (io_world i))); [eauto with setup|].
  destruct (now (io_world i)) as [t w]. cbn [snd].
  match goal with |- context [connect_cold_bearer ?o] => pose proof (cold_setup o) as Hc;
    destruct (connect_cold_bearer o) as [[b|e] o'] end; done.
Qed.

Lemma connect_verified_setup identity (i : BluezIo W S) :
  setup_only (io_world i) (io_world (snd (bluez_connect_verified identity i))).
Proof.
  unfold bluez_connect_verified.
  destruct (retained_ready identity i) as [ready j] eqn:E.
  assert (setup_only (io_world i) (io_world j)) as Hj.
  { unfold retained_ready in E. destruct (bearer i) as [b|]; [|by simplify_eq].
    destruct (same_verified_identity _ _); [|by simplify_eq].
    destruct (bluez_health i) as [h k] eqn:Eh. simplify_eq.
    apply silent_setup. by eapply health_silent. }
  destruct ready; [done|]. etrans; [exact Hj|].
  destruct (bearer j); apply (connect_cold_setup identity (mkBluezIo _ _ _)) || apply connect_cold_setup.
Qed.

(** ** The interface of the command core *)

(** The packets that carry a role command: ATT write commands. *)
Definition role_packets (packets : list bytes) : list bytes :=
  filter (fun p => head p = Some ATT_WRITE_COMMAND) packets.

Lemma setup_no_role (w w' : W) :
  setup_only w w' -> role_packets (sent w') = role_packets (sent w).
Proof.
  intros (l & -> & Hl). unfold role_packets. rewrite filter_app.
  assert (filter (fun p => head p = Some ATT_WRITE_COMMAND) l = []) as ->; [|by rewrite app_nil_r].
  induction Hl as [|p l <- Hl IH]; [done|]. rewrite filter_cons_False; [done|]. by vm_compute.
Qed.

#[export] Instance BluezIo_laws : AuraIoLaws (BluezIo W S).
Proof.
  refine {| io_writes i := length (role_packets (sent (io_world i))) |}; simpl.
  - intros d i r i' E. pose proof (connect_verified_setup d i) as Hs. rewrite E in Hs. cbn [snd] in Hs.
    by rewrite (setup_no_role _ _ Hs).
  - intros i r i' E%health_silent. by rewrite E.
  - intros i r i' E%prepare_silent. by rewrite E.
  - intros i r i' E%wait_silent. by rewrite E.
  - by intros i r i' [= <- <-].
  - intros c i r i' [[E|E] _]%begin_write_sent; rewrite E; [lia|].
    unfold role_packets. rewrite filter_app, length_app. 
    assert (length (filter (fun p => head p = Some ATT_WRITE_COMMAND) [role_packet c]) <= 1); [|lia].
    apply (length_filter _ [role_packet c]).
Defined.

(** * The role command on the wire *)

#[local] Abbreviation transport := (AuraControlCore (BluezIo W S)).

Definition transport_sent (c : transport) : list bytes := sent (io_world (io c)).

Lemma use_after_unknown (c c' : transport) reason :
  core_use c c' -> unresolved c = Some reason ->
  unresolved c' = Some reason /\ setup_only (io_world (io c)) (io_world (io c')).
Proof.
  intros Hs Hu. destruct (core_use_latched _ _ _ Hs Hu) as [Hu' _]. split; [done|].
  destruct Hs as [cmd c r c' E|c r c' E|c e c' E|d c e c' E].
  - unfold command in E. rewrite Hu in E. by simplify_eq.
  - unfold core_health in E. rewrite Hu in E. by simplify_eq.
  - done.
  - unfold core_connect_verified in E. rewrite Hu in E. cbn [io_shutdown BluezIo_io bluez_shutdown] in E.
    match type of E with context [io_connect_verified d ?i] =>
      pose proof (connect_verified_setup d i) as Hc end.
    cbn [io_connect_verified BluezIo_io] in E.
    destruct (bluez_connect_verified d _) as [[[]|] i2]; simplify_eq/=; done.
Qed.

(** C24 Through the assembled Aura transport a role command hands the kernel
    nothing but its own write command, at most once: it is rejected without
    sending, and accepted only after that packet went out and the next packet
    received was byte for byte the success notification; and behind an unknown
    outcome no use of the transport, short of a release or a reconnection, puts
    another role command on the wire. *)
Theorem aura_role_on_the_wire cmd (c c1 : transport) r :
  unresolved c = None -> command cmd c = (r, c1) ->
  (transport_sent c1 = transport_sent c \/
   transport_sent c1 = transport_sent c ++ [role_packet cmd]) /\
  (forall e, r = AuraActionResult.RejectedBeforeSend e -> transport_sent c1 = transport_sent c) /\
  (r = AuraActionResult.Accepted ->
     transport_sent c1 = transport_sent c ++ [role_packet cmd] /\
     exists b deadline w, bearer (io c1) = Some b /\
       socket_recv (bearer_socket b) deadline w =
         (Recv.Packet ([ATT_HANDLE_VALUE_NOTIFICATION] ++ u16_to_le_bytes ATT_AURA_NOTIFY_HANDLE
                         ++ SUCCESS_ACK), io_world (io c1))) /\
  (forall reason c2, r = AuraActionResult.OutcomeUnknown reason -> rtc core_use c1 c2 ->
     role_packets (transport_sent c2) = role_packets (transport_sent c1) /\
     forall cmd', command cmd' c2 = (AuraActionResult.OutcomeUnknown reason, c2)).
Proof.
  intros Hu E. unfold transport_sent.
  assert (Hlatch : forall reason c2, unresolved c1 = Some reason -> rtc core_use c1 c2 ->
     role_packets (sent (io_world (io c2))) = role_packets (sent (io_world (io c1))) /\
     forall cmd', command cmd' c2 = (AuraActionResult.OutcomeUnknown reason, c2)).
  { clear E. intros reason c2 Hr Hs.
    assert (unresolved c2 = Some reason /\ setup_only (io_world (io c1)) (io_world (io c2)))
      as [X1 X2].
    { induction Hs as [c1|c1 c3 c2 Hs _ IH]; [done|].
      destruct (use_after_unknown _ _ _ Hs Hr) as [Hr3 Hw3]. destruct (IH Hr3) as [? Hw2].
      split; [done|]. by etrans. }
    split; [by apply setup_no_role|]. intros cmd'. unfold command. by rewrite X1. }
  unfold command, latch_unknown in E. rewrite Hu in E.
  cbn [io_health prepare_command begin_write wait_for_ack BluezIo_io] in E.
  destruct (bluez_health (io c)) as [h i1] eqn:E1. apply health_silent in E1.
  destruct (negb _); [simplify_eq/=; split_and!; eauto; done|].
  destruct (bluez_prepare_command i1) as [[[]|e] i2] eqn:E2; apply prepare_silent in E2;
    [|simplify_eq/=; rewrite E2; split_and!; eauto; done].
  unfold silent in *.
  destruct (bluez_begin_write cmd i2) as [[[]|e] i3] eqn:E3;
    pose proof (begin_write_sent _ _ _ _ E3) as [Hs Hok].
  2: { simplify_eq/=. rewrite <- E1, <- E2. split_and!; [done|done|done|].
       intros reason c2 [= <-]. by apply Hlatch. }
  specialize (Hok eq_refl). rewrite E2, E1 in Hok.
  destruct (bluez_wait_for_ack i3) as [ack i4] eqn:E4. pose proof (wait_silent _ _ _ E4) as E4s.
  unfold silent in E4s.
  assert (sent (io_world i4) = sent (io_world (io c)) ++ [role_packet cmd]) as Hend by congruence.
  destruct ack as [[]|e]; simplify_eq/=.
  - split_and!; [by right|done| |done]. intros _. split; [done|].
    unfold bluez_wait_for_ack, raw_att_wait_for_notification in E4.
    destruct (bearer i3) as [b|] eqn:Eb; [|done].
    destruct (now (io_world i3)) as [t w1]. destruct (socket_recv _ _ w1) as [got w2] eqn:Er.
    destruct got as [| |[|x packet]]; try done. simplify_eq/=.
    exists b, (t + ack_timeout (timings (io_config i3)))%Z, w1. split; [done|].
    rewrite Er. f_equal. f_equal. by apply ack_packet_exact.
  - split_and!; [by right|done|done|]. intros reason c2 [= <-]. by apply Hlatch.
  - split_and!; [by right|done|done|]. intros reason c2 [= <-]. by apply Hlatch.
Qed.
End Flows.

(** * The verified device *)

Section Verified.
Context {W S : Type} `{BluezStack W S} `{BluezDiscovery W}.

(** What the stack answered at some moment. *)
Definition answered {R} (call : W -> R * W) (r : R) : Prop := exists w w', call w = (r, w').

(** The socket's peer, as the kernel names it. *)
Definition connected_to (socket : S) (target : SocketAddr) : Prop :=
  answered (socket_peer_addr socket) (Ok target).

(** The device took the request for notifications. *)
Definition notifications_enabled (socket : S) : Prop :=
  exists deadline n w w1 w2 packet, n = length cccd_request /\
    socket_send socket cccd_request deadline w = (Ok n, w1) /\
    socket_recv socket deadline w1 = (Recv.Packet packet, w2) /\
    parse_att_pdu packet = AttPdu.WriteResponse.

(** BlueZ knows the device of that identity as paired, trusted, not blocked, and
    under a stable address. *)
Definition stable_device (identity : DeviceIdentity) : Prop :=
  exists deadline address_type paired trusted blocked,
    answered (device_address_type (binary identity) deadline) (Ok address_type) /\
    answered (device_is_paired (binary identity) deadline) (Ok paired) /\
    answered (device_is_trusted (binary identity) deadline) (Ok trusted) /\
    answered (device_is_blocked (binary identity) deadline) (Ok blocked) /\
    verified_stable_device address_type paired trusted blocked = true.

(** An event of a discovery, with the answers of the calls made for it. *)
Definition attended (event : ScanEvent.t) : Prop :=
  exists raw deadline s, answered (attend raw deadline s) event.

(** The device advertised the identity within one discovery window; one known
    before it and not removed in it by a change of its service data. *)
Definition advertised_device (identity : DeviceIdentity) (address : bytes) : Prop :=
  exists known_deadline known uuid before event after map,
    answered (adapter_device_addresses known_deadline) (Ok known) /\
    uuid_from_str HARMAN_FDDF_UUID = Some uuid /\
    Forall attended (before ++ event :: after) /\
    fresh_evidence uuid identity address event map /\
    (address ∈ known -> ScanEvent.DeviceRemoved address ∉ before ->
     event = ScanEvent.DevicePropertyChanged address (DeviceProperty.ServiceData_ map) true
               (Some AddressType.LeRandom)).

Definition verified_bearer (b : RawAttBearer S) : Prop :=
  notifications_enabled (bearer_socket b) /\
  match bearer_transport b with
  | AuraBearerTransport.BrEdr =>
      bearer_route b <> AuraAcquisitionRoute.FreshLe /\
      stable_device (bearer_identity b) /\
      connected_to (bearer_socket b)
        (mkSocketAddr (binary (bearer_identity b)) AddressType.BrEdr ATT_PSM 0)
  | AuraBearerTransport.Le =>
      bearer_route b = AuraAcquisitionRoute.FreshLe /\
      exists address, advertised_device (bearer_identity b) address /\
        connected_to (bearer_socket b)
          (mkSocketAddr address AddressType.LeRandom 0 ATT_FIXED_CID)
  end.

Lemma connect_att_socket_peer local target deadline w (s : S) w' :
  connect_att_socket local target deadline w = (Ok s, w') -> connected_to s target.
Proof.
  unfold connect_att_socket, connected_to, answered. intros E.
  repeat (flow_step; [|done]).
  destruct (decide _) as [|Hp] in E; [done|]. apply dec_stable in Hp. simplify_eq/=. eauto.
Qed.

Lemma enable_notifications_enabled (s : S) deadline w w' :
  enable_raw_att_notifications s deadline w = (Ok tt, w') -> notifications_enabled s.
Proof.
  unfold enable_raw_att_notifications, send_exact_att_packet, receive_att_packet. intros E.
  destruct (or_fail _ (socket_send s _ deadline w)) as [r w1] eqn:Es.
  apply or_fail_spec in Es as (r0 & Es & ->). destruct r0 as [n|]; [|done]. cbn [map_err] in E.
  destruct (n =? _)%nat eqn:En; [|done]. bool_hyps.
  destruct (socket_recv s deadline w1) as [got w2] eqn:Er.
  destruct got as [| |[|c packet]]; try done.
  case_decide as Hp; [|done]. eexists deadline, n, w, w1, w2, _. by split_and!.
Qed.

Lemma connect_raw_att_verified config identity overall route w b w' :
  route <> AuraAcquisitionRoute.FreshLe ->
  connect_raw_att config identity overall route w = (Ok b, w') ->
  bearer_identity b = identity /\ verified_bearer b.
Proof.
  unfold connect_raw_att. intros Hr E. destruct (now w) as [t w0]. cbn beta iota zeta in E.
  do 3 (flow_step; [|done]). destruct (negb _); [done|]. do 2 (flow_step; [|done]).
  destruct (now _) as [t1 w6] in E. cbn beta iota zeta in E.
  do 4 (flow_step; [|done]).
  destruct (verified_stable_device _ _ _ _) eqn:Ev; [|done]. cbn [negb] in E.
  unfold br_edr_att_socket_addresses in E.
  destruct (connect_att_socket _ _ _ _) as [[s|] w11] eqn:Ecs in E; [|done].
  apply connect_att_socket_peer in Ecs. destruct (now w11) as [t2 w12].
  destruct (enable_raw_att_notifications _ _ _) as [[[]|] w13] eqn:Een in E; [|done].
  apply enable_notifications_enabled in Een. simplify_eq/=.
  split; [done|]. split; [done|]. split; [done|]. split; [|done].
  eexists _, _, _, _, _. unfold answered. split_and!; eauto.
Qed.

Lemma scan_turns_events uuid identity deadline turns s w a w' :
  scan_turns (S := S) turns uuid identity deadline s w = (Ok (Some a), w') ->
  exists events, Forall attended events /\
    scan_loop uuid identity events s = Some (Ok (Some a)).
Proof.
  revert s w. induction turns as [|turns IH]; intros s w; [done|]. cbn [scan_turns].
  destruct (select_event deadline w) as [raw w1].
  destruct (attend raw deadline s w1) as [event w2] eqn:Ea.
  assert (attended event) by (exists raw, deadline, s, w1, w2; done).
  destruct (scan_step uuid identity event s) as [r|s'] eqn:Es.
  - intros [= -> <-]. exists [event]. split; [by apply Forall_singleton|].
    cbn [scan_loop]. by rewrite Es.
  - intros (events & Hf & Hl)%IH. exists (event :: events). split; [by constructor|].
    cbn [scan_loop]. by rewrite Es.
Qed.

Lemma le_attempt_verified local uuid identity t overall w device (s : S) w' :
  uuid_from_str HARMAN_FDDF_UUID = Some uuid ->
  connect_le_raw_attempt local uuid identity t overall w = (Ok (device, s), w') ->
  advertised_device identity device /\ notifications_enabled s /\
  connected_to s (mkSocketAddr device AddressType.LeRandom 0 ATT_FIXED_CID).
Proof.
  unfold connect_le_raw_attempt, scan_window_once. intros Hu E.
  destruct (or_fail _ (adapter_device_addresses overall w)) as [rk w1] eqn:Ek.
  apply or_fail_spec in Ek as (r0 & Ek & ->). destruct r0 as [known|]; [|done].
  cbn [map_err] in E. destruct (now w1) as [t1 w2].
  destruct (subscribe_known _ _ _ w2) as [initial w3].
  destruct (or_fail _ (adapter_discover_devices _ w3)) as [rd w4].
  destruct rd as [u|]; [|done].
  destruct (scan_turns _ _ _ _ _ _) as [[[a|]|] w5] eqn:Es in E; [|done|done].
  destruct (now w5) as [t2 w6]. unfold le_fixed_att_socket_addresses in E.
  destruct (connect_att_socket _ _ _ _) as [[s1|] w7] eqn:Ec in E; [|done].
  apply connect_att_socket_peer in Ec. destruct (now w7) as [t3 w8].
  destruct (enable_raw_att_notifications _ _ _) as [[[]|] w9] eqn:Een in E; [|done].
  apply enable_notifications_enabled in Een. simplify_eq/=. split; [|done].
  apply scan_turns_events in Es as (events & Hf & Hl).
  apply scan_loop_sound in Hl as (before & event & after & map & -> & Hev & Hpre).
  exists overall, known, uuid, before, event, after, map. split_and!; try done.
  - by exists w, w1.
  - intros Hk Hn. apply Hpre; [|done]. by apply elem_of_list_to_set.
Qed.

Lemma retry_from_Ok {E T} `{RetryEnv E T} remaining delay overall last (e e' : E) v :
  retry_from remaining delay overall last e = (Ok v, e') ->
  exists e1 e2, retry_attempt e1 = (Ok v, e2).
Proof.
  revert last e. induction remaining as [|n IH]; intros last e; [done|]. cbn [retry_from].
  destruct (retry_now e) as [t e1]. destruct (overall <=? t)%Z; [done|].
  destruct (retry_attempt e1) as [[v1|reason] e2] eqn:Ea; [intros [= <- <-]; eauto|].
  by intros ?%IH.
Qed.

Lemma connect_le_raw_verified config identity overall w (b : RawAttBearer S) w' :
  connect_le_raw config identity overall w = (Ok b, w') ->
  bearer_identity b = identity /\ verified_bearer b.
Proof.
  unfold connect_le_raw, retry_le, retry_connect_attempts, parse_uuid. intros E.
  do 3 (flow_step; [|done]). destruct (negb _); [done|]. flow_step; [|done].
  destruct (uuid_from_str HARMAN_FDDF_UUID) as [uuid|] eqn:Eu; [|done]. cbn [ok_or] in E.
  flow_step; [|done].
  destruct (retry_from _ _ _ _ _) as [[[device s]|reason] a] eqn:Er in E; [|done].
  assert (Hone : forall remaining last a0,
    le_service_uuid a0 = uuid -> le_identity a0 = identity ->
    retry_from (E := LeAttempts) remaining (retry_delay (timings config)) overall last a0
      = (Ok (device, s), a) ->
    advertised_device identity device /\ notifications_enabled s /\
    connected_to s (mkSocketAddr device AddressType.LeRandom 0 ATT_FIXED_CID)).
  { induction remaining as [|n IH]; intros last a0 Hu Hi; [done|].
    cbn [retry_from retry_now retry_attempt LeAttempts_env].
    destruct (now (le_world a0)) as [t wa]. destruct (overall <=? t)%Z; [done|].
    destruct (connect_le_raw_attempt _ _ _ _ _ _) as [[[d' s']|reason] wb] eqn:Ea.
    - intros [= -> -> <-]. cbn in Ea. rewrite Hu, Hi in Ea. by eapply le_attempt_verified.
    - destruct (0 <? n)%nat; [|by apply IH].
      destruct (now _) as [t2 wc]. destruct (t2 <? overall)%Z; [|by apply IH].
      destruct (now _) as [t3 wd]. by apply IH. }
  apply Hone in Er as (Ha & Hn & Hc); [|done|done]. simplify_eq/=. split; [done|].
  split; [done|]. split; [done|]. by exists device.
Qed.

Lemma cold_bearer_verified (o o' : NativeColdConnectOps W) (b : RawAttBearer S) :
  connect_cold_bearer o = (Ok b, o') ->
  bearer_identity b = expected_identity o /\ verified_bearer b.
Proof.
  assert (Hstable : forall route (o o' : NativeColdConnectOps W) (b : RawAttBearer S),
    route <> AuraAcquisitionRoute.FreshLe -> connect_stable route o = (Ok b, o') ->
    bearer_identity b = expected_identity o /\ verified_bearer b).
  { intros route o1 o2 b1 Hr. cbn [connect_stable NativeColdConnectOps_ops].
    destruct (connect_raw_att _ _ _ _ _) as [r w] eqn:E. intros [= -> <-].
    by eapply connect_raw_att_verified. }
  assert (Hle : forall reason (o o' : NativeColdConnectOps W) (b : RawAttBearer S),
    fall_back_le reason o = (Ok b, o') ->
    bearer_identity b = expected_identity o /\ verified_bearer b).
  { intros reason o1 o2 b1. unfold fall_back_le. cbn [connect_le NativeColdConnectOps_ops].
    destruct (connect_le_raw _ _ _ _) as [[b2|e] w] eqn:E; [|by repeat case_match].
    intros [= -> <-]. by eapply connect_le_raw_verified. }
  assert (Hsame : forall route (o o1 : NativeColdConnectOps W) (r : result (RawAttBearer S) _),
    connect_stable route o = (r, o1) -> expected_identity o1 = expected_identity o).
  { intros route o1 o2 r. cbn [connect_stable NativeColdConnectOps_ops].
    destruct (connect_raw_att _ _ _ _ _). by intros [= _ <-]. }
  unfold connect_cold_bearer. intros E.
  destruct (connect_stable AuraAcquisitionRoute.StableDirect o) as [[b1|e] o1] eqn:E1.
  { simplify_eq. by eapply Hstable; [|exact E1]. }
  apply Hsame in E1 as <-. destruct (negb _); [done|].
  destruct (wake_once o1) as [rw o2] eqn:E2.
  assert (expected_identity o2 = expected_identity o1) as <-.
  { cbn [wake_once NativeColdConnectOps_ops] in E2. unfold native_wake_once in E2.
    destruct (acquire_aura_wake _ _ _). by simplify_eq. }
  destruct rw as [u|e2].
  - destruct (connect_stable AuraAcquisitionRoute.A2dpWakeThenStable o2) as [[b2|e3] o3] eqn:E3.
    { simplify_eq. by eapply Hstable; [|exact E3]. }
    apply Hsame in E3 as <-. destruct (raw_att_retry_eligible e3); [|done]. by eapply Hle.
  - destruct (decide _); [done|]. by eapply Hle.
Qed.

#[local] Abbreviation transport := (AuraControlCore (BluezIo W S)).

Definition bearers_verified (i : BluezIo W S) : Prop :=
  forall b, bearer i = Some b -> verified_bearer b.

Lemma health_verified (i i' : BluezIo W S) h :
  bluez_health i = (h, i') -> bearers_verified i ->
  bearers_verified i' /\ (h = AuraHealth.Ready -> bearer i' = bearer i).
Proof.
  unfold bluez_health. destruct (bearer i) as [b|] eqn:Eb.
  - destruct (raw_att_fd_is_healthy _ _) as [[[]|] w]; cbn; intros [= <- <-] Hv; (split; [|done]);
      intros b' Eb'; cbn in Eb'; simplify_eq; by apply Hv.
  - intros [= <- <-] Hv. by split.
Qed.

Lemma connect_cold_verified identity (i i' : BluezIo W S) r :
  bluez_connect_cold identity i = (r, i') -> bearers_verified i ->
  bearers_verified i' /\
  (r = Ok tt -> exists b, bearer i' = Some b /\ bearer_identity b = identity /\ verified_bearer b).
Proof.
  unfold bluez_connect_cold. destruct (now (io_world i)) as [t w]. intros E Hv.
  destruct (connect_cold_bearer _) as [[b|e] o] eqn:Eo in E; simplify_eq.
  - apply cold_bearer_verified in Eo as [Hi Hb]. cbn in Hi. split.
    + intros b' [= <-]. done.
    + intros _. by exists b.
  - split; [|done]. exact Hv.
Qed.

Lemma io_connect_verified_bearer identity (i i' : BluezIo W S) r :
  bluez_connect_verified identity i = (r, i') -> bearers_verified i ->
  bearers_verified i' /\
  (r = Ok tt -> exists b, bearer i' = Some b /\ bearer_identity b = identity /\ verified_bearer b).
Proof.
  unfold bluez_connect_verified. intros E Hv.
  destruct (retained_ready identity i) as [ready j] eqn:Er.
  assert (bearers_verified j /\ (ready = true -> exists b, bearer j = Some b /\
            bearer_identity b = identity /\ verified_bearer b)) as [Hj Hready].
  { unfold retained_ready in Er. destruct (bearer i) as [b|] eqn:Eb; [|by simplify_eq].
    destruct (same_verified_identity _ _) eqn:Ei; [|by simplify_eq].
    destruct (bluez_health i) as [h k] eqn:Eh. simplify_eq.
    destruct (health_verified _ _ _ Eh Hv) as [Hj Hs]. split; [done|]. intros Hh. bool_hyps.
    exists b. split; [by rewrite Hs|]. split; [|by apply Hv].
    unfold same_verified_identity in Ei. by bool_hyps. }
  destruct ready; [simplify_eq; by split; [|intros _; apply Hready]|].
  destruct (bearer j); cbn in E; (eapply connect_cold_verified; [exact E|done]).
Qed.

(** The uses of the transport, in any order. *)
Inductive transport_step : transport -> transport -> Prop :=
| step_connect identity c r c' :
    core_connect_verified identity c = (r, c') -> transport_step c c'
| step_health c r c' : core_health c = (r, c') -> transport_step c c'
| step_command cmd c r c' : command cmd c = (r, c') -> transport_step c c'
| step_shutdown c r c' : core_shutdown c = (r, c') -> transport_step c c'.

Lemma core_connect_bearer identity (c c' : transport) r :
  core_connect_verified identity c = (r, c') -> bearers_verified (io c) ->
  bearers_verified (io c') /\
  (r = Ok tt -> exists b, bearer (io c') = Some b /\ bearer_identity b = identity /\
     verified_bearer b).
Proof.
  unfold core_connect_verified. intros E Hv.
  cbn [io_shutdown io_connect_verified BluezIo_io bluez_shutdown] in E.
  destruct (unresolved c); cbn [io unresolved] in E;
    (destruct (bluez_connect_verified identity _) as [rc i] eqn:Ec;
     apply io_connect_verified_bearer in Ec as [Hb Hok]; [|done]);
    destruct rc as [[]|]; simplify_eq/=; eauto.
Qed.

Lemma prepare_keeps (i i' : BluezIo W S) r :
  bluez_prepare_command i = (r, i') -> bearer i' = bearer i.
Proof.
  unfold bluez_prepare_command. destruct (bearer i) eqn:Eb; [|by intros [= <- <-]].
  destruct (drain_raw_att_packets _ _ _). by intros [= <- <-].
Qed.
Lemma begin_write_keeps cmd (i i' : BluezIo W S) r :
  bluez_begin_write cmd i = (r, i') -> bearer i' = bearer i.
Proof.
  unfold bluez_begin_write. destruct (bearer i) eqn:Eb; [|by intros [= <- <-]].
  destruct (now _). destruct (raw_att_send_command _ _ _ _). by intros [= <- <-].
Qed.
Lemma wait_keeps (i i' : BluezIo W S) r :
  bluez_wait_for_ack i = (r, i') -> bearer i' = bearer i.
Proof.
  unfold bluez_wait_for_ack. destruct (bearer i) eqn:Eb; [|by intros [= <- <-]].
  destruct (now _). destruct (raw_att_wait_for_notification _ _ _). by intros [= <- <-].
Qed.

Lemma command_bearer cmd (c c' : transport) r :
  command cmd c = (r, c') -> bearers_verified (io c) -> bearers_verified (io c').
Proof.
  unfold command, latch_unknown, bearers_verified. intros E Hv.
  destruct (unresolved c); [by simplify_eq|].
  cbn [io_health prepare_command begin_write wait_for_ack BluezIo_io] in E.
  destruct (bluez_health (io c)) as [h i1] eqn:E1. apply health_verified in E1 as [H1 _]; [|done].
  unfold bearers_verified in H1. destruct (negb _); [by simplify_eq/=|].
  destruct (bluez_prepare_command i1) as [[u|e] i2] eqn:E2; apply prepare_keeps in E2;
    rewrite <- E2 in H1; [|by simplify_eq/=].
  destruct (bluez_begin_write cmd i2) as [[u3|e] i3] eqn:E3; apply begin_write_keeps in E3;
    rewrite <- E3 in H1; [|by simplify_eq/=].
  destruct (bluez_wait_for_ack i3) as [[[]|e] i4] eqn:E4; apply wait_keeps in E4;
    rewrite <- E4 in H1; by simplify_eq/=.
Qed.

End Verified.

(** * The release poll *)

(** Time as the stack sees it. *)
Class BluezClock (W S : Type) `{BluezStack W S} `{BluezDiscovery W} := {
  bluez_clock : W -> Z;
  now_clock w t w' : now w = (t, w') -> (bluez_clock w <= t <= bluez_clock w')%Z;
  objects_clock d w : (bluez_clock w <= bluez_clock (snd (get_managed_objects d w)))%Z;
  thread_sleep_clock d w : (0 <= d)%Z -> (bluez_clock w + d <= bluez_clock (thread_sleep d w))%Z;
}.

Section Poll.
Context {W S : Type} `{BluezClock W S}.

#[export] Instance ReleaseWatch_laws :
  ReleasePollLaws (ReleaseWatch (W := W)) (H := ReleaseWatch_poll (S := S)).
Proof.
  refine {| time e := bluez_clock (watch_world e) |}; simpl.
  - intros e t e'. destruct (now (watch_world e)) as [t1 w] eqn:E. intros [= <- <-].
    by apply now_clock in E.
  - intros d e r e' E. pose proof (objects_clock d (watch_world e)) as Hc.
    unfold wake_unavailable, or_fail in E. destruct (get_managed_objects _ _). by simplify_eq/=.
  - intros d e Hd. by apply thread_sleep_clock.
Defined.

(** Waiting for the release of the profile always ends, for a deadline within
    the timeout that the fuel was computed from. *)
Theorem release_poll_returns t deadline path (w : W) :
  (0 <= t)%Z -> (deadline - bluez_clock w <= t)%Z ->
  exists r, poll_media_control_release (release_fuel t) deadline (mkReleaseWatch w path) = Some r.
Proof.
  intros Ht Hd. unfold release_fuel. rewrite Nat.add_succ_r.
  destruct (poll_media_control_release_terminates (Z.to_nat (t / MEDIA_CONTROL_RELEASE_POLL) + 1)
    deadline (mkReleaseWatch w path)) as (r & e' & E & _); [|eauto].
  cbn [time ReleaseWatch_laws watch_world].
  pose proof (Z.mod_pos_bound t MEDIA_CONTROL_RELEASE_POLL).
  pose proof (Z.div_mod t MEDIA_CONTROL_RELEASE_POLL).
  assert (0 <= t / MEDIA_CONTROL_RELEASE_POLL)%Z by (apply Z.div_pos; [done|by vm_compute]).
  unfold MEDIA_CONTROL_RELEASE_POLL, from_millis in *. lia.
Qed.
End Poll.
