(* ===== verification/JblGatt.v ===== *)
(** The JBL broadcaster mutation over a public LE ATT bearer
    (rust/src/jbl_gatt.rs): the connection and MTU exchange, and one PL frame
    in one ATT Write Request with its acknowledgement. *)
From S2P Require Import Prelude Bytes Model Control Bluez.

Definition DEFAULT_ADAPTER : bytes := str "hci0".
Definition ATT_FIXED_CID : Z := 0x0004.
Definition JBL_VALUE_HANDLE : Z := 0x002a.
Definition ATT_EXCHANGE_MTU_REQUEST : byte := z2b 0x02.
Definition ATT_EXCHANGE_MTU_RESPONSE : byte := z2b 0x03.
Definition ATT_ERROR_RESPONSE : byte := z2b 0x01.
Definition ATT_WRITE_REQUEST : byte := z2b 0x12.
Definition ATT_WRITE_RESPONSE : byte := z2b 0x13.
Definition ATT_HANDLE_VALUE_NOTIFICATION : byte := z2b 0x1b.
Definition REQUESTED_MTU : Z := 500.
Definition CONNECT_TIMEOUT : Z := from_secs 20.
Definition MTU_TIMEOUT : Z := from_secs 5.
Definition WRITE_TIMEOUT : Z := from_secs 5.
Definition MAX_PACKETS_PER_ACTION : nat := 32.

Module WriteResponseKind.
Inductive t := Accepted | Notification | Rejected | Unexpected.
#[global] Instance eq_dec : EqDecision t. Proof. solve_decision. Defined.
End WriteResponseKind.

Module JblGattFailure.
Inductive t :=
| RuntimeUnavailable | AdapterUnavailable | AdapterPoweredOff | DeviceConnectionFailed
| MtuExchangeFailed | TransportNotReady | FrameTooLarge | WriteFailed
| WriteResponseTimedOut | ChannelClosed | UnexpectedResponse.
#[global] Instance eq_dec : EqDecision t. Proof. solve_decision. Defined.

Definition label (e : t) : bytes :=
  match e with
  | RuntimeUnavailable => str "runtime_unavailable"
  | AdapterUnavailable => str "adapter_unavailable"
  | AdapterPoweredOff => str "adapter_powered_off"
  | DeviceConnectionFailed => str "device_connection_failed"
  | MtuExchangeFailed => str "mtu_exchange_failed"
  | TransportNotReady => str "transport_not_ready"
  | FrameTooLarge => str "frame_too_large"
  | WriteFailed => str "write_failed"
  | WriteResponseTimedOut => str "write_response_timed_out"
  | ChannelClosed => str "channel_closed"
  | UnexpectedResponse => str "unexpected_response"
  end.
End JblGattFailure.

(** * Packets *)

Definition mtu_request : bytes :=
  [ATT_EXCHANGE_MTU_REQUEST; z2b REQUESTED_MTU; z2b (Z.shiftr REQUESTED_MTU 8)].

Definition parse_mtu_response (response : bytes) : option Z :=
  match response with
  | [opcode; low; high] =>
      if decide (opcode = ATT_EXCHANGE_MTU_RESPONSE) then
        let server_mtu := u16_from_le_bytes low high in
        if (23 <=? server_mtu)%Z then Some (Z.min server_mtu REQUESTED_MTU) else None
      else None
  | _ => None
  end.

Definition classify_write_response (response : bytes) : WriteResponseKind.t :=
  if decide (response = [ATT_WRITE_RESPONSE]) then WriteResponseKind.Accepted
  else
  match response with
  | [opcode; request_opcode; handle_low; handle_high; _] =>
      if decide (opcode = ATT_ERROR_RESPONSE /\ request_opcode = ATT_WRITE_REQUEST /\
                 u16_from_le_bytes handle_low handle_high = JBL_VALUE_HANDLE)
      then WriteResponseKind.Rejected
      else if decide (opcode = ATT_HANDLE_VALUE_NOTIFICATION)
      then WriteResponseKind.Notification else WriteResponseKind.Unexpected
  | opcode :: _ =>
      if decide (opcode = ATT_HANDLE_VALUE_NOTIFICATION)
      then WriteResponseKind.Notification else WriteResponseKind.Unexpected
  | [] => WriteResponseKind.Unexpected
  end.

Definition att_write_packet (frame : bytes) (mtu : Z) : result bytes JblGattFailure.t :=
  let maximum := Z.max 0 (mtu - 3) in
  if (maximum <? Z.of_nat (length frame))%Z then Err JblGattFailure.FrameTooLarge
  else Ok ([ATT_WRITE_REQUEST] ++ u16_to_le_bytes JBL_VALUE_HANDLE ++ frame).

Definition public_att_socket_addresses (local_address target_address : bytes)
  : SocketAddr * SocketAddr :=
  (mkSocketAddr local_address AddressType.LePublic 0 ATT_FIXED_CID,
   mkSocketAddr target_address AddressType.LePublic 0 ATT_FIXED_CID).

(** * The transport *)

Section Transport.
Context {W S : Type} `{BluezStack W S}.

Record JblBearer := mkJblBearer { jbl_socket : S; jbl_mtu : Z }.

(** [JblGattBroadcastTransport], with the stack it works on. *)
Record JblGattBroadcastTransport := mkJblGatt {
  jbl_world : W;
  adapter_name : bytes;
  jbl_bearer : option JblBearer;
}.

Definition jbl_send_exact (socket : S) (payload : bytes) (deadline : Z)
    (failure : JblGattFailure.t) (w : W) : result unit JblGattFailure.t * W :=
  let?! (written, w) := or_fail failure (socket_send socket payload deadline w) in
  if (written =? length payload)%nat then (Ok tt, w) else (Err failure, w).

Definition jbl_receive (socket : S) (deadline : Z) (timeout_failure : JblGattFailure.t) (w : W)
  : result bytes JblGattFailure.t * W :=
  match socket_recv socket deadline w with
  | (Recv.Packet [], w) | (Recv.Failed, w) => (Err JblGattFailure.ChannelClosed, w)
  | (Recv.Packet packet, w) => (Ok packet, w)
  | (Recv.TimedOut, w) => (Err timeout_failure, w)
  end.

Definition jbl_connect_att_socket (local target : SocketAddr) (deadline : Z) (w : W)
  : result S JblGattFailure.t * W :=
  let failed := JblGattFailure.DeviceConnectionFailed in
  let?! (socket, w) := or_fail failed (socket_open w) in
  let?! (_, w) := or_fail failed (socket_bind socket local w) in
  let?! (_, w) := or_fail failed (socket_set_security socket w) in
  let?! (_, w) := or_fail failed (socket_connect socket target deadline w) in
  let?! (peer, w) := or_fail failed (socket_peer_addr socket w) in
  if decide (peer <> target) then (Err failed, w) else (Ok socket, w).

Definition exchange_mtu (socket : S) (deadline : Z) (w : W) : result Z JblGattFailure.t * W :=
  let failed := JblGattFailure.MtuExchangeFailed in
  let?! (_, w) := jbl_send_exact socket mtu_request deadline failed w in
  let?! (response, w) := jbl_receive socket deadline failed w in
  (ok_or (parse_mtu_response response) failed, w).

Definition connect_public_bearer (adapter_name : bytes) (identity : DeviceIdentity) (w : W)
  : result JblBearer JblGattFailure.t * W :=
  let unavailable := JblGattFailure.AdapterUnavailable in
  let '(t, w) := now w in
  let deadline := (t + CONNECT_TIMEOUT)%Z in
  let?! (_, w) := or_fail unavailable (session_new deadline w) in
  let?! (_, w) := or_fail unavailable (adapter_open adapter_name w) in
  let?! (powered, w) := or_fail unavailable (adapter_is_powered deadline w) in
  if negb powered then (Err JblGattFailure.AdapterPoweredOff, w)
  else
  let?! (local_address, w) := or_fail unavailable (adapter_address deadline w) in
  let target_address := binary identity in
  let?! (_, w) := or_fail JblGattFailure.DeviceConnectionFailed (adapter_device target_address w) in
  let '(local, target) := public_att_socket_addresses local_address target_address in
  let?! (socket, w) := jbl_connect_att_socket local target deadline w in
  let '(t, w) := now w in
  let?! (mtu, w) := exchange_mtu socket (t + MTU_TIMEOUT) w in
  (Ok (mkJblBearer socket mtu), w).

(** The loop that waits for the write response; [remaining] packets may still
    be looked at. *)
Fixpoint wait_write_response (remaining : nat) (socket : S) (deadline : Z) (w : W)
  : result unit JblGattFailure.t * W :=
  match remaining with
  | O => (Err JblGattFailure.UnexpectedResponse, w)
  | Datatypes.S remaining =>
      let?! (response, w) :=
        jbl_receive socket deadline JblGattFailure.WriteResponseTimedOut w in
      match classify_write_response response with
      | WriteResponseKind.Accepted => (Ok tt, w)
      | WriteResponseKind.Notification => wait_write_response remaining socket deadline w
      | WriteResponseKind.Rejected => (Err JblGattFailure.WriteFailed, w)
      | WriteResponseKind.Unexpected => (Err JblGattFailure.UnexpectedResponse, w)
      end
  end.

(** [pl_frame] panics on a payload beyond [u16]; [Control.pl_frame_decodes]
    shows that it never does, so the frame of the panic is irrelevant. *)
Definition write_and_wait_for_ack (bearer : JblBearer) (command : BroadcastCommand.t) (w : W)
  : result unit JblGattFailure.t * W :=
  let frame := default [] (BroadcastCommand.pl_frame command) in
  match att_write_packet frame (jbl_mtu bearer) with
  | Err e => (Err e, w)
  | Ok packet =>
      let '(t, w) := now w in
      let deadline := (t + WRITE_TIMEOUT)%Z in
      let?! (_, w) :=
        jbl_send_exact (jbl_socket bearer) packet deadline JblGattFailure.WriteFailed w in
      wait_write_response MAX_PACKETS_PER_ACTION (jbl_socket bearer) deadline w
  end.

Definition jbl_gatt_new (w : W) : JblGattBroadcastTransport := mkJblGatt w DEFAULT_ADAPTER None.

Definition jbl_gatt_arm (identity : DeviceIdentity) (g : JblGattBroadcastTransport)
  : result unit JblGattFailure.t * JblGattBroadcastTransport :=
  match connect_public_bearer (adapter_name g) identity (jbl_world g) with
  | (Err e, w) => (Err e, mkJblGatt w (adapter_name g) None)
  | (Ok bearer, w) => (Ok tt, mkJblGatt w (adapter_name g) (Some bearer))
  end.

Definition jbl_gatt_execute (command : BroadcastCommand.t) (g : JblGattBroadcastTransport)
  : result unit JblGattFailure.t * JblGattBroadcastTransport :=
  match jbl_bearer g with
  | None => (Err JblGattFailure.TransportNotReady, g)
  | Some bearer =>
      let '(r, w) := write_and_wait_for_ack bearer command (jbl_world g) in
      (r, mkJblGatt w (adapter_name g) None)
  end.

Definition jbl_gatt_cancel (g : JblGattBroadcastTransport) : JblGattBroadcastTransport :=
  mkJblGatt (jbl_world g) (adapter_name g) None.
End Transport.
Arguments JblBearer : clear implicits.
Arguments JblGattBroadcastTransport : clear implicits.

(** * Lemmas *)

Section Lemmas.
Context {W S : Type} `{BluezStackLaws W S}.
#[local] Abbreviation gatt := (JblGattBroadcastTransport W S).

Definition gatt_sent (g : gatt) : list bytes := sent (jbl_world g).

Lemma jbl_connect_att_socket_silent local target deadline (w : W) r w' :
  jbl_connect_att_socket (S := S) local target deadline w = (r, w') -> sent w' = sent w.
Proof.
  unfold jbl_connect_att_socket. intros E.
  repeat flow_step; repeat case_match; simplify_eq; silent_calls; congruence.
Qed.

Lemma jbl_send_exact_sent (s : S) p deadline failure (w w' : W) r :
  jbl_send_exact s p deadline failure w = (r, w') ->
  (sent w' = sent w \/ sent w' = sent w ++ [p]) /\ (r = Ok tt -> sent w' = sent w ++ [p]).
Proof.
  unfold jbl_send_exact. intros E. flow_step.
  - pose proof (socket_send_ok _ _ _ _ _ _ Ec). apply socket_send_once in Ec.
    case_match; simplify_eq; auto.
  - apply socket_send_once in Ec. by simplify_eq.
Qed.

Lemma jbl_receive_silent (s : S) deadline failure (w w' : W) r :
  jbl_receive s deadline failure w = (r, w') -> sent w' = sent w.
Proof.
  unfold jbl_receive. intros E. destruct (socket_recv s deadline w) as [o w1] eqn:E1.
  repeat case_match; simplify_eq; silent_calls; congruence.
Qed.

Lemma wait_write_response_silent n (s : S) deadline (w w' : W) r :
  wait_write_response n s deadline w = (r, w') -> sent w' = sent w.
Proof.
  revert w. induction n as [|n IH]; intros w; cbn [wait_write_response]; [by intros [= <- <-]|].
  destruct (jbl_receive s deadline _ w) as [[response|] w1] eqn:E1;
    apply jbl_receive_silent in E1; [|by intros [= <- <-]].
  destruct (classify_write_response response); try (by intros [= <- <-]).
  intros E. apply IH in E. congruence.
Qed.

Definition sent_at_most (p : bytes) (w w' : W) : Prop :=
  sent w' = sent w \/ sent w' = sent w ++ [p].

Lemma exchange_mtu_sent (s : S) deadline (w w' : W) r :
  exchange_mtu s deadline w = (r, w') -> sent_at_most mtu_request w w'.
Proof.
  unfold exchange_mtu. intros E.
  destruct (jbl_send_exact s mtu_request deadline _ w) as [[[]|] w1] eqn:E1;
    apply jbl_send_exact_sent in E1 as [E1 _]; [|by simplify_eq].
  destruct (jbl_receive s deadline _ w1) as [[response|] w2] eqn:E2;
    apply jbl_receive_silent in E2; simplify_eq; unfold sent_at_most; by rewrite E2.
Qed.

Lemma connect_public_bearer_sent name identity (w w' : W) (r : result (JblBearer S) _) :
  connect_public_bearer name identity w = (r, w') -> sent_at_most mtu_request w w'.
Proof.
  unfold connect_public_bearer. intros E.
  destruct (now w) as [t w0] eqn:E0. cbn beta iota zeta in E.
  do 3 (flow_step; [|left; simplify_eq; silent_calls; congruence]).
  destruct (negb _); [left; simplify_eq; silent_calls; congruence|].
  do 2 (flow_step; [|left; simplify_eq; silent_calls; congruence]).
  simpl in E. match type of E with context [jbl_connect_att_socket ?l ?t' ?d ?x] =>
    destruct (jbl_connect_att_socket (S := S) l t' d x) as [[socket|] v5] eqn:E5 end;
    apply jbl_connect_att_socket_silent in E5; [|left; simplify_eq; silent_calls; congruence].
  destruct (now v5) as [tm v6] eqn:E6.
  destruct (exchange_mtu socket _ v6) as [[mtu|] v7] eqn:E7; apply exchange_mtu_sent in E7;
    simplify_eq; silent_calls; unfold sent_at_most in *; destruct E7 as [E7|E7];
    [left|right|left|right]; congruence.
Qed.

Lemma parse_mtu_bounds response mtu :
  parse_mtu_response response = Some mtu -> (23 <= mtu <= REQUESTED_MTU)%Z.
Proof.
  unfold parse_mtu_response, REQUESTED_MTU. intros E. repeat case_match; simplify_eq. bool_hyps.
  split; lia.
Qed.

Lemma write_and_wait_sent (b : JblBearer S) command (w w' : W) r :
  write_and_wait_for_ack b command w = (r, w') ->
  match att_write_packet (default [] (BroadcastCommand.pl_frame command)) (jbl_mtu b) with
  | Err e => r = Err e /\ w' = w
  | Ok packet => sent_at_most packet w w' /\ (r = Ok tt -> sent w' = sent w ++ [packet])
  end.
Proof.
  unfold write_and_wait_for_ack. intros E.
  destruct (att_write_packet _ _) as [packet|e]; [|by simplify_eq].
  destruct (now w) as [t w1] eqn:E1.
  destruct (jbl_send_exact (jbl_socket b) packet _ _ w1) as [[[]|] w2] eqn:E2;
    apply jbl_send_exact_sent in E2 as [E2 E2']; silent_calls.
  - apply wait_write_response_silent in E. specialize (E2' eq_refl).
    unfold sent_at_most. rewrite E, E2', E1. auto.
  - simplify_eq. unfold sent_at_most in *. rewrite E1 in E2. split; [done|done].
Qed.

(** C28 Arming the broadcaster sends at most the MTU request; executing consumes
    the armed bearer and hands the kernel at most one packet, the ATT write of
    the command's whole PL frame to the JBL value handle, within the MTU of the
    bearer that was armed, and exactly that packet when it succeeds; without an
    armed bearer nothing is sent; and cancelling sends nothing. *)
Theorem jbl_gatt_one_frame_per_arm identity command (g g1 g2 : gatt) ra re :
  jbl_gatt_arm identity g = (ra, g1) -> jbl_gatt_execute command g1 = (re, g2) ->
  (gatt_sent g1 = gatt_sent g \/ gatt_sent g1 = gatt_sent g ++ [mtu_request]) /\
  (is_ok ra = false -> re = Err JblGattFailure.TransportNotReady /\ g2 = g1) /\
  jbl_bearer g2 = None /\
  (gatt_sent g2 = gatt_sent g1 /\ re <> Ok tt \/
   exists bearer frame, jbl_bearer g1 = Some bearer /\
     BroadcastCommand.pl_frame command = Some frame /\
     (Z.of_nat (length frame) + 3 <= Z.max 3 (jbl_mtu bearer))%Z /\
     gatt_sent g2 = gatt_sent g1 ++
       [[ATT_WRITE_REQUEST] ++ u16_to_le_bytes JBL_VALUE_HANDLE ++ frame]) /\
  gatt_sent (jbl_gatt_cancel g1) = gatt_sent g1 /\ jbl_bearer (jbl_gatt_cancel g1) = None.
Proof.
  unfold gatt_sent. intros Ea Ee.
  assert (Harm : sent_at_most mtu_request (jbl_world g) (jbl_world g1) /\
    (is_ok ra = false -> jbl_bearer g1 = None)).
  { unfold jbl_gatt_arm in Ea.
    destruct (connect_public_bearer (adapter_name g) identity (jbl_world g)) as [[b|e] w] eqn:E;
      apply connect_public_bearer_sent in E; by simplify_eq/=. }
  destruct Harm as [Hs Hb]. unfold jbl_gatt_execute in Ee. split_and!; [done| | | |done|done].
  - intros Hr. rewrite Hb in Ee by done. by simplify_eq.
  - destruct (jbl_bearer g1) eqn:Eb; [|by simplify_eq].
    by destruct (write_and_wait_for_ack _ _ _); simplify_eq.
  - destruct (jbl_bearer g1) as [b|]; [|simplify_eq; by left].
    destruct (write_and_wait_for_ack b command (jbl_world g1)) as [r w] eqn:E.
    apply write_and_wait_sent in E. simplify_eq/=.
    destruct (pl_frame_exists command) as [frame Hf]. rewrite Hf in E. simpl in E.
    unfold att_write_packet in E.
    destruct (_ <? _)%Z eqn:Hlen; [left; by destruct E as [-> ->]|].
    bool_hyps. destruct E as [[E|E] Hok].
    + left. split; [done|]. intros ->. rewrite Hok in E by done.
      apply (f_equal length) in E. rewrite length_app in E. simpl in E. lia.
    + right. exists b, frame. split_and!; [done|done|lia|done].
Qed.
End Lemmas.
