(* ===== verification/Tcp.v ===== *)
(** Loopback TCP as the program uses it, through [std::net]: one interface for
    the connection of the local client and for the accepted connection of the
    server.  The kernel is third-party code, so it is a world [W] that every
    call may change. *)
From S2P Require Import Prelude Bytes.

(** [std::io::ErrorKind], as far as the program distinguishes it. *)
Module IoErrorKind.
Inductive t := TimedOut | WouldBlock | Interrupted | Other.
#[global] Instance eq_dec : EqDecision t. Proof. solve_decision. Defined.
End IoErrorKind.

Class TcpStream (W : Type) := {
  (** [Instant::now()]. *)
  instant_now : W -> Z * W;
  (** [TcpStream::connect_timeout] to a port of 127.0.0.1. *)
  connect_timeout : Z -> Z -> W -> result unit IoErrorKind.t * W;
  set_write_timeout : Z -> W -> result unit IoErrorKind.t * W;
  set_read_timeout : Z -> W -> result unit IoErrorKind.t * W;
  (** [write(payload)]: the number of bytes taken. *)
  tcp_write : bytes -> W -> result nat IoErrorKind.t * W;
  (** [read] into a buffer of the given size: the bytes read, none at the end
      of the stream. *)
  tcp_read : nat -> W -> result bytes IoErrorKind.t * W;
  set_nonblocking : bool -> W -> result unit IoErrorKind.t * W;
  (** [peek] into a buffer of the given size: the number of bytes. *)
  tcp_peek : nat -> W -> result nat IoErrorKind.t * W;
  (** [shutdown(Shutdown::Both)]. *)
  shutdown_both : W -> W;
}.

(** What a socket promises: a call takes or yields no more bytes than it was
    given room for, and only so many calls are interrupted by signals. *)
Class TcpStreamLaws (W : Type) `{TcpStream W} := {
  interruptions : W -> nat;
  instant_now_calm w t w' : instant_now w = (t, w') -> interruptions w' <= interruptions w;
  connect_calm p t w r w' :
    connect_timeout p t w = (r, w') -> interruptions w' <= interruptions w;
  set_write_timeout_calm t w r w' :
    set_write_timeout t w = (r, w') -> interruptions w' <= interruptions w;
  set_read_timeout_calm t w r w' :
    set_read_timeout t w = (r, w') -> interruptions w' <= interruptions w;
  write_calm p w r w' : tcp_write p w = (r, w') -> interruptions w' <= interruptions w;
  write_interrupted p w w' :
    tcp_write p w = (Err IoErrorKind.Interrupted, w') -> interruptions w' < interruptions w;
  write_fits p w n w' : tcp_write p w = (Ok n, w') -> n <= length p;
  read_calm n w r w' : tcp_read n w = (r, w') -> interruptions w' <= interruptions w;
  read_interrupted n w w' :
    tcp_read n w = (Err IoErrorKind.Interrupted, w') -> interruptions w' < interruptions w;
  read_fits n w p w' : tcp_read n w = (Ok p, w') -> length p <= n;
}.

(** The [?] operator in a function that loops: [None] is out of fuel. *)
Notation "'let?*' ( x , w ) ':=' m 'in' k" :=
  (match m with
   | Some (Ok x, w) => k
   | Some (Err e, w) => Some (Err e, w)
   | None => None
   end)
  (at level 10, x pattern, w name, m at level 100, k at level 200) : rust_scope.
