(* ===== verification/BroadcastGena.v ===== *)
(** The business-result observer (rust/src/broadcast_gena.rs): its vocabulary,
    the order of event keys, and the reduction of a notified action code. *)
From S2P Require Import Prelude Bytes.

Module GenaAction.
Inductive t := Start | Stop.
#[global] Instance eq_dec : EqDecision t. Proof. solve_decision. Defined.
End GenaAction.

Module GenaFailure.
Inductive t :=
| InvalidConfiguration | RouteUnavailable | ListenerUnavailable | SubscriptionUnavailable
| InvalidSubscription | CallbackTimedOut | InvalidCallback | BusinessRejected | CleanupFailed.
#[global] Instance eq_dec : EqDecision t. Proof. solve_decision. Defined.

Definition label (e : t) : bytes :=
  match e with
  | InvalidConfiguration => str "invalid_configuration"
  | RouteUnavailable => str "route_unavailable"
  | ListenerUnavailable => str "listener_unavailable"
  | SubscriptionUnavailable => str "subscription_unavailable"
  | InvalidSubscription => str "invalid_subscription"
  | CallbackTimedOut => str "callback_timed_out"
  | InvalidCallback => str "invalid_callback"
  | BusinessRejected => str "business_rejected"
  | CleanupFailed => str "cleanup_failed"
  end.
End GenaFailure.

Module CallbackOutcome.
Inductive t := Confirmed | Rejected | Pending.
#[global] Instance eq_dec : EqDecision t. Proof. solve_decision. Defined.
End CallbackOutcome.

Definition SUBSCRIPTION_SECONDS : Z := 30.
Definition MAX_SID_BYTES : nat := 256.

Definition sequence_is_next (previous : option Z) (next : Z) : bool :=
  match previous with
  | None => true
  | Some previous =>
      if (previous =? u32_max)%Z then (next =? 1)%Z else (next =? previous + 1)%Z
  end.

Definition reduce_action (action : GenaAction.t) (action_code : option Z) : CallbackOutcome.t :=
  match action, action_code with
  | GenaAction.Start, Some 33%Z | GenaAction.Stop, Some 34%Z => CallbackOutcome.Confirmed
  | GenaAction.Start, Some 31%Z | GenaAction.Stop, Some 32%Z => CallbackOutcome.Rejected
  | _, _ => CallbackOutcome.Pending
  end.

Definition merge_action_code (target candidate : option Z) : result (option Z) GenaFailure.t :=
  match candidate with
  | Some candidate =>
      match target with
      | Some _ => Err GenaFailure.InvalidCallback
      | None => Ok (Some candidate)
      end
  | None => Ok target
  end.

Definition valid_sid (sid : bytes) : bool :=
  (length sid <=? MAX_SID_BYTES)%nat && (length (str "uuid:") <? length sid)%nat
  && starts_with (str "uuid:") sid && forallb is_ascii_graphic sid
  && negb (existsb (fun c => contains_byte c (str "<>,;")) sid).

Definition valid_subscription_timeout (timeout : bytes) : bool :=
  match strip_prefix (str "Second-") timeout with
  | None => false
  | Some seconds =>
      match parse_unsigned u16_max seconds with
      | None => false
      | Some seconds => (1 <=? seconds)%Z && (seconds <=? SUBSCRIPTION_SECONDS)%Z
      end
  end.
