(* ===== verification/GenaBody.v ===== *)
(** The body of a business notification (rust/src/broadcast_gena.rs): the two
    accepted envelopes, XML and the JSON inside it, with their limits.  The XML
    and the JSON parser are third-party code ([GenaLibrary]). *)
From S2P Require Import Prelude.
From S2P Require Import Bytes.
From S2P Require Import Model.
From S2P Require Import BroadcastGena.

(** * XML documents, as the code walks them *)

Module Xml.
#[warnings="-register-all"]
Inductive t :=
| Element (tag : bytes) (namespace : option bytes) (attributes : list (bytes * bytes))
    (children : list t)
| Text (text : bytes)
| Other.

Definition is_element (n : t) : bool := match n with Element _ _ _ _ => true | _ => false end.
Definition tag_name (n : t) : bytes := match n with Element tag _ _ _ => tag | _ => [] end.
Definition namespace (n : t) : option bytes :=
  match n with Element _ ns _ _ => ns | _ => None end.
Definition children (n : t) : list t := match n with Element _ _ _ cs => cs | _ => [] end.
Fixpoint lookup (name : bytes) (l : list (bytes * bytes)) : option bytes :=
  match l with
  | [] => None
  | (k, v) :: rest => if decide (k = name) then Some v else lookup name rest
  end.
Definition attribute (name : bytes) (n : t) : option bytes :=
  match n with Element _ _ attributes _ => lookup name attributes | _ => None end.

(** [Node::text]: the text of a text node, or of an element whose first child
    is one. *)
Definition text (n : t) : option bytes :=
  match n with
  | Text s => Some s
  | Element _ _ _ (Text s :: _) => Some s
  | _ => None
  end.

(** [Node::descendants]: the node and everything below it, in document order. *)
Fixpoint descendants (n : t) : list t :=
  n :: match n with Element _ _ _ cs => flat_map descendants cs | _ => [] end.
End Xml.

(** The children of the root of a document; one of them is its element. *)
Abbreviation XmlDocument := (list Xml.t).
Definition root_element (document : XmlDocument) : Xml.t :=
  default Xml.Other (head (filter (fun n => Xml.is_element n = true) document)).

Class GenaLibrary := {
  (** [roxmltree::Document::parse]. *)
  xml_parse : bytes -> option XmlDocument;
  (** [serde_json::from_str]. *)
  json_from_str : bytes -> option Value.t;
}.

(** * Limits *)

Definition EVENT_NAMESPACE : bytes := str "urn:schemas-upnp-org:event-1-0".
Definition MAX_BODY_BYTES : nat := 64 * 1024.
Definition MAX_XML_NODES : nat := 256.
Definition MAX_XML_DEPTH : nat := 16.
Definition MAX_XML_TEXT_BYTES : nat := 64 * 1024.
Definition MAX_JSON_NODES : nat := 256.
Definition MAX_JSON_DEPTH : nat := 16.
Definition MAX_JSON_KEY_BYTES : nat := 128.
Definition NOTIFICATION_COMMAND : bytes := str "notifyDeviceAuracastBroadcastInfo".
#[global] Arguments MAX_BODY_BYTES : simpl never.
#[global] Arguments MAX_XML_TEXT_BYTES : simpl never.

Abbreviation InvalidCallback := GenaFailure.InvalidCallback.

(** The nodes seen and the bytes of text, so far. *)
Record Counters := mkCounters { nodes : nat; text_bytes : nat }.

(** A left fold that stops at the first error. *)
Fixpoint try_fold {A S} (f : A -> S -> result S GenaFailure.t) (l : list A) (s : S)
  : result S GenaFailure.t :=
  match l with
  | [] => Ok s
  | x :: rest => let? s := f x s in try_fold f rest s
  end.

(** One node of [validate_xml_limits] and what is below it; [depth] counts the
    elements above. *)
Fixpoint visit_xml (depth : nat) (n : Xml.t) (c : Counters) : result Counters GenaFailure.t :=
  let depth := if Xml.is_element n then S depth else depth in
  let c := mkCounters (S (nodes c)) (text_bytes c) in
  if (MAX_XML_NODES <? nodes c)%nat || (MAX_XML_DEPTH <? depth)%nat then Err InvalidCallback
  else
  match n with
  | Xml.Text s =>
      let total := text_bytes c + length s in
      if (MAX_XML_TEXT_BYTES <? total)%nat then Err InvalidCallback
      else Ok (mkCounters (nodes c) total)
  | Xml.Element _ _ _ cs => try_fold (visit_xml depth) cs c
  | Xml.Other => Ok c
  end.

(** The root of the document is a node of its own. *)
Definition validate_xml_limits (document : XmlDocument) : result unit GenaFailure.t :=
  let? _ := try_fold (visit_xml 0) document (mkCounters 1 0) in Ok tt.

(** [visit] of [validate_json_limits]. *)
Fixpoint visit_json (depth : nat) (v : Value.t) (c : Counters) : result Counters GenaFailure.t :=
  let c := mkCounters (S (nodes c)) (text_bytes c) in
  if (MAX_JSON_DEPTH <? depth)%nat || (MAX_JSON_NODES <? nodes c)%nat then Err InvalidCallback
  else
  let? c :=
    match v with
    | Value.String s => Ok (mkCounters (nodes c) (text_bytes c + length s))
    | Value.Array items => try_fold (visit_json (S depth)) items c
    | Value.Object fields =>
        try_fold (fun '(key, item) c =>
          if (MAX_JSON_KEY_BYTES <? length key)%nat then Err InvalidCallback
          else visit_json (S depth) item
                 (mkCounters (nodes c) (text_bytes c + length key))) fields c
    | Value.Null | Value.Bool _ | Value.Number _ => Ok c
    end in
  if (MAX_BODY_BYTES <? text_bytes c)%nat then Err InvalidCallback else Ok c.

Definition validate_json_limits (v : Value.t) : result unit GenaFailure.t :=
  let? _ := visit_json 1 v (mkCounters 0 0) in Ok tt.

(** * The JSON envelope *)

Section Envelope.
Context `{GenaLibrary}.

(** [serde_json::from_str] with the limits. *)
Definition bounded_json (text : bytes) : result Value.t GenaFailure.t :=
  if bool_decide (text = []) || (MAX_BODY_BYTES <? length text)%nat then Err InvalidCallback
  else
  let? value := ok_or (json_from_str text) InvalidCallback in
  let? _ := validate_json_limits value in
  Ok value.

Definition extract_info_action_code (value : Value.t) : result Z GenaFailure.t :=
  let? action_code :=
    ok_or (info ← value_get (str "info") value;
           code ← value_get (str "action_code") info;
           match code with Value.Number n => Number.as_i64 n | _ => None end)
      InvalidCallback in
  if (0 <=? action_code)%Z && (action_code <=? u8_max)%Z then Ok action_code
  else Err InvalidCallback.

(** [value.get(key).unwrap_or(value)]. *)
Definition get_or_self (key : bytes) (value : Value.t) : Value.t :=
  default value (value_get key value).
(** [value.get(key).or_else(|| value.get(other))]. *)
Definition get_either (key other : bytes) (value : Value.t) : option Value.t :=
  match value_get key value with Some v => Some v | None => value_get other value end.

Definition extract_payload_action_code (payload : Value.t) : result Z GenaFailure.t :=
  match payload with
  | Value.String text =>
      let? parsed := bounded_json text in
      extract_info_action_code (get_or_self NOTIFICATION_COMMAND parsed)
  | Value.Object _ => extract_info_action_code (get_or_self NOTIFICATION_COMMAND payload)
  | _ => Err InvalidCallback
  end.

Definition parse_notification_json (text : bytes) : result (option Z) GenaFailure.t :=
  let? value := bounded_json text in
  let root := get_or_self (str "UpnpNotifyPassThrough") value in
  let? pass_through :=
    ok_or (get_either (str "pass_through") (str "passThrough") root) InvalidCallback in
  let? pass_string :=
    ok_or (get_either (str "pass_string") (str "passString") pass_through) InvalidCallback in
  let? command :=
    ok_or (value_get (str "command") pass_string ≫= Value.as_str) InvalidCallback in
  if negb (bool_decide (command = NOTIFICATION_COMMAND)) then Ok None
  else
  match value_get (str "payload") pass_string with
  | Some payload => map_ok Some (extract_payload_action_code payload)
  | None =>
      let? info := ok_or (value_get NOTIFICATION_COMMAND pass_string) InvalidCallback in
      map_ok Some (extract_info_action_code info)
  end.

(** * The XML envelope *)

Definition contains (text needle : bytes) : bool :=
  match find_subslice text needle with Some _ => true | None => false end.

Definition parse_bounded_xml (xml : bytes) : result XmlDocument GenaFailure.t :=
  if (MAX_BODY_BYTES <? length xml)%nat
     || contains xml (str "<!DOCTYPE") || contains xml (str "<!doctype")
     || contains xml (str "<!ENTITY") || contains xml (str "<!entity")
  then Err InvalidCallback
  else
  let? document := ok_or (xml_parse xml) InvalidCallback in
  let? _ := validate_xml_limits document in
  Ok document.

Definition has_element_child (n : Xml.t) : bool := existsb Xml.is_element (Xml.children n).

Definition node_payload (n : Xml.t) : result bytes GenaFailure.t :=
  let? attribute :=
    match Xml.attribute (str "val") n, Xml.attribute (str "value") n with
    | Some _, Some _ => Err InvalidCallback
    | Some value, None | None, Some value => Ok (Some value)
    | None, None => Ok None
    end in
  match attribute with
  | Some value =>
      if has_element_child n || (MAX_XML_TEXT_BYTES <? length value)%nat
      then Err InvalidCallback else Ok (trim value)
  | None =>
      if has_element_child n then Err InvalidCallback
      else
      let? raw := ok_or (Xml.text n) InvalidCallback in
      let text := trim raw in
      if bool_decide (text = []) || (MAX_XML_TEXT_BYTES <? length text)%nat
      then Err InvalidCallback else Ok text
  end.

Definition collect_direct_text (n : Xml.t) : result bytes GenaFailure.t :=
  try_fold (fun child text =>
    match child with
    | Xml.Element _ _ _ _ => Err InvalidCallback
    | Xml.Text value =>
        if (MAX_XML_TEXT_BYTES <? length text + length value)%nat then Err InvalidCallback
        else Ok (text ++ value)
    | Xml.Other => Ok text
    end) (Xml.children n) [].

Definition parse_pass_through_node (n : Xml.t) : result (option Z) GenaFailure.t :=
  let? payload := node_payload n in parse_notification_json payload.

Definition is_pass_through (n : Xml.t) : bool :=
  bool_decide (Xml.tag_name n ∈ [str "UpnpNotifyPassThrough"; str "PassThrough"]).

Definition inspect_nested_pass_through (root : Xml.t) : result (option Z) GenaFailure.t :=
  try_fold (fun n found =>
    if Xml.is_element n && is_pass_through n then
      let? candidate := parse_pass_through_node n in merge_action_code found candidate
    else Ok found) (Xml.descendants root) None.

Definition parse_last_change_node (n : Xml.t) : result (option Z) GenaFailure.t :=
  if has_element_child n then inspect_nested_pass_through n
  else
  let? text := collect_direct_text n in
  let trimmed := trim text in
  if bool_decide (trimmed = []) then Ok None
  else if starts_with (str "{") trimmed then parse_notification_json trimmed
  else if negb (starts_with (str "<") trimmed) then Ok None
  else
  let? nested := parse_bounded_xml trimmed in
  inspect_nested_pass_through (root_element nested).

(** One property of the set. *)
Definition property_action_code (property : Xml.t) (found : option Z)
  : result (option Z) GenaFailure.t :=
  if negb (bool_decide (Xml.tag_name property = str "property")) then Err InvalidCallback
  else
  match filter (fun n => Xml.is_element n = true) (Xml.children property) with
  | [value] =>
      let? candidate :=
        if is_pass_through value then parse_pass_through_node value
        else if bool_decide (Xml.tag_name value = str "LastChange")
        then parse_last_change_node value
        else Ok None in
      merge_action_code found candidate
  | _ => Err InvalidCallback
  end.

Definition parse_event_body (body : bytes) : result (option Z) GenaFailure.t :=
  if negb (utf8_valid body) then Err InvalidCallback
  else
  let? document := parse_bounded_xml body in
  let root := root_element document in
  if negb (bool_decide (Xml.tag_name root = str "propertyset"))
     || negb (bool_decide (Xml.namespace root = Some EVENT_NAMESPACE))
  then Err InvalidCallback
  else
  try_fold property_action_code
    (filter (fun n => Xml.is_element n = true) (Xml.children root)) None.
End Envelope.
