(* ===== verification/GenaHttp.v ===== *)
(** The HTTP/1.1 messages of the business observer (rust/src/broadcast_gena.rs):
    the head of a request or of a response, and the reader that takes one
    message off a stream.  The reader is generic in the stream, as the source is
    in [impl Read]. *)
From S2P Require Import Prelude.
From S2P Require Import Bytes.
From S2P Require Import BroadcastGena.
From S2P Require Import GenaBody.

Definition MAX_HEADER_BYTES : nat := 16 * 1024.
Definition MAX_HEADER_COUNT : nat := 64.
#[global] Arguments MAX_HEADER_BYTES : simpl never.
#[global] Arguments MAX_HEADER_COUNT : simpl never.

Module MessageKind.
Inductive t := Request | Response.
#[global] Instance eq_dec : EqDecision t. Proof. solve_decision. Defined.
End MessageKind.

Module StartLine.
Inductive t := Request (method target : bytes) | Response (status : Z).
#[global] Instance eq_dec : EqDecision t. Proof. solve_decision. Defined.
End StartLine.

Record HttpMessage := mkHttpMessage {
  start_line : StartLine.t;
  headers : gmap bytes bytes;
  body : bytes;
}.

(** [HttpMessage::status] and [HttpMessage::header]. *)
Definition message_status (m : HttpMessage) : option Z :=
  match start_line m with
  | StartLine.Response status => Some status
  | StartLine.Request _ _ => None
  end.
Definition header (name : bytes) (m : HttpMessage) : option bytes := headers m !! name.

(** * The head of a message *)

Definition is_http_token_byte (c : byte) : bool :=
  is_ascii_alphanumeric c || contains_byte c (str "!#$%&'*+-.^_`|~").

Definition parse_decimal_usize (value : bytes) : result Z GenaFailure.t :=
  if bool_decide (value = []) || negb (forallb is_ascii_digit value) then Err InvalidCallback
  else ok_or (parse_digits u64_max value) InvalidCallback.

(** [byte == 0x7f || (byte < 0x20 && byte != b'\t')]. *)
Definition is_control (c : byte) : bool :=
  (b2z c =? 0x7f)%Z || ((b2z c <? 0x20)%Z && negb (bool_decide (c = TAB))).

Definition parse_start_line (line : bytes) (kind : MessageKind.t)
  : result StartLine.t GenaFailure.t :=
  match kind with
  | MessageKind.Request =>
      match split_byte SP line with
      | [method; target; version] =>
          if bool_decide (method = []) || bool_decide (target = [])
             || negb (bool_decide (version = str "HTTP/1.1"))
             || negb (forallb is_http_token_byte method)
          then Err InvalidCallback
          else Ok (StartLine.Request method target)
      | _ => Err InvalidCallback
      end
  | MessageKind.Response =>
      match split_once SP line with
      | None => Err InvalidCallback
      | Some (version, rest) =>
          if negb (bool_decide (version = str "HTTP/1.1")) then Err InvalidCallback
          else
          let (code, reason) :=
            match split_once SP rest with
            | Some (code, reason) => (code, Some reason)
            | None => (rest, None)
            end in
          if negb (length code =? 3)%nat || negb (forallb is_ascii_digit code)
          then Err InvalidCallback
          else
          let? status := ok_or (parse_unsigned u16_max code) InvalidCallback in
          if negb ((100 <=? status)%Z && (status <=? 599)%Z) then Err InvalidCallback
          else if match reason with Some text => existsb is_control text | None => false end
          then Err InvalidCallback
          else Ok (StartLine.Response status)
      end
  end.

(** [line.starts_with([' ', '\t'])]. *)
Definition starts_blank (line : bytes) : bool :=
  match line with c :: _ => is_blank c | [] => false end.

(** One turn of the header loop: the name in lower case and its value. *)
Definition parse_header_line (line : bytes) : result (bytes * bytes) GenaFailure.t :=
  if bool_decide (line = []) || starts_blank line then Err InvalidCallback
  else
  let? parts := ok_or (split_once (z2b 58) line) InvalidCallback in
  let (name, raw) := parts : bytes * bytes in
  if bool_decide (name = []) || negb (forallb is_http_token_byte name) then Err InvalidCallback
  else
  let value := trim_matches is_blank raw in
  if existsb is_control value then Err InvalidCallback
  else Ok (to_ascii_lowercase name, value).

Fixpoint parse_header_lines (index : nat) (lines : list bytes) (headers : gmap bytes bytes)
  : result (gmap bytes bytes) GenaFailure.t :=
  match lines with
  | [] => Ok headers
  | line :: lines =>
      if (MAX_HEADER_COUNT <=? index)%nat then Err InvalidCallback
      else
      let? entry := parse_header_line line in
      match headers !! fst entry with
      | Some _ => Err InvalidCallback
      | None => parse_header_lines (S index) lines (<[ fst entry := snd entry ]> headers)
      end
  end.

Definition declared_length (required : bool) (headers : gmap bytes bytes)
  : result Z GenaFailure.t :=
  match headers !! str "content-length" with
  | Some value => parse_decimal_usize value
  | None => if required then Err InvalidCallback else Ok 0%Z
  end.

(** The head without its final blank line: the start line, the headers and the
    length of the body. *)
Definition parse_http_head (head : bytes) (kind : MessageKind.t) (required : bool)
  : result (StartLine.t * gmap bytes bytes * Z) GenaFailure.t :=
  if negb (utf8_valid head) then Err InvalidCallback
  else
  match split_crlf head with
  | [] => Err InvalidCallback
  | first :: lines =>
      let? start := parse_start_line first kind in
      let? fields := parse_header_lines 0 lines ∅ in
      if bool_decide (is_Some (fields !! str "transfer-encoding")) then Err InvalidCallback
      else
      let? content_length := declared_length required fields in
      if (Z.of_nat MAX_BODY_BYTES <? content_length)%Z then Err InvalidCallback
      else Ok (start, fields, content_length)
  end.

(** * Reading one message *)

Definition HEADER_END : bytes := CRLF ++ CRLF.
Definition READ_BUFFER : nat := 4096.
#[global] Arguments READ_BUFFER : simpl never.

(** More turns than the bytes the two loops can ever hold; every turn adds one
    at least. *)
Definition READ_FUEL : nat := MAX_HEADER_BYTES + 4 + MAX_BODY_BYTES + 1.
#[global] Arguments READ_FUEL : simpl never.

Section Reader.
Context {R : Type}.
(** [stream.read(&mut buffer)] for a buffer of that size: the bytes read,
    nothing for an error. *)
Context (read : nat -> R -> option bytes * R).

(** What the first loop breaks with: the bytes so far, where the body begins,
    and the parsed head. *)
Record ParsedHead := mkParsedHead {
  bytes_read : bytes;
  header_end : nat;
  head_start_line : StartLine.t;
  head_headers : gmap bytes bytes;
  head_content_length : Z;
}.

(** The bytes of one call to [read]; the end of the stream is an error. *)
Definition read_some (stream : R) : result bytes GenaFailure.t * R :=
  match read READ_BUFFER stream with
  | (None, stream) | (Some [], stream) => (Err InvalidCallback, stream)
  | (Some chunk, stream) => (Ok chunk, stream)
  end.

(** The rest of a turn of the first loop: [None] to go on reading. *)
Definition head_turn (kind : MessageKind.t) (required : bool) (received : bytes)
  : result (option ParsedHead) GenaFailure.t :=
  if (MAX_HEADER_BYTES + 4 + MAX_BODY_BYTES <? length received)%nat then Err InvalidCallback
  else
  match find_subslice received HEADER_END with
  | Some index =>
      if (MAX_HEADER_BYTES <? index)%nat then Err InvalidCallback
      else
      let? head := parse_http_head (take index received) kind required in
      let '(start, fields, content_length) := head in
      Ok (Some (mkParsedHead received (index + 4) start fields content_length))
  | None =>
      if (MAX_HEADER_BYTES + 4 <? length received)%nat then Err InvalidCallback else Ok None
  end.

Fixpoint read_head (fuel : nat) (kind : MessageKind.t) (required : bool) (received : bytes)
    (stream : R) : option (result ParsedHead GenaFailure.t * R) :=
  match fuel with
  | O => None
  | S fuel =>
      match read_some stream with
      | (Err e, stream) => Some (Err e, stream)
      | (Ok chunk, stream) =>
          match head_turn kind required (received ++ chunk) with
          | Err e => Some (Err e, stream)
          | Ok (Some head) => Some (Ok head, stream)
          | Ok None => read_head fuel kind required (received ++ chunk) stream
          end
      end
  end.

Fixpoint read_body (fuel : nat) (total : nat) (received : bytes) (stream : R)
  : option (result bytes GenaFailure.t * R) :=
  if (total <=? length received)%nat then Some (Ok received, stream)
  else
  match fuel with
  | O => None
  | S fuel =>
      match read_some stream with
      | (Err e, stream) => Some (Err e, stream)
      | (Ok chunk, stream) =>
          if (total <? length (received ++ chunk))%nat then Some (Err InvalidCallback, stream)
          else read_body fuel total (received ++ chunk) stream
      end
  end.

(** Both loops with their fuel; [None] is out of fuel. *)
Definition read_message_within (fuel : nat) (stream : R) (kind : MessageKind.t) (required : bool)
  : option (result HttpMessage GenaFailure.t * R) :=
  match read_head fuel kind required [] stream with
  | None => None
  | Some (Err e, stream) => Some (Err e, stream)
  | Some (Ok head, stream) =>
      match checked_add u64_max (Z.of_nat (header_end head)) (head_content_length head) with
      | None => Some (Err InvalidCallback, stream)
      | Some total =>
          if (Z.to_nat total <? length (bytes_read head))%nat
          then Some (Err InvalidCallback, stream)
          else
          match read_body fuel (Z.to_nat total) (bytes_read head) stream with
          | None => None
          | Some (Err e, stream) => Some (Err e, stream)
          | Some (Ok received, stream) =>
              Some (Ok (mkHttpMessage (head_start_line head) (head_headers head)
                          (drop (header_end head) received)), stream)
          end
      end
  end.

(** The fuel is always enough ([GenaHttpSpec.read_message_enough]), so the other branch is
    never taken. *)
Definition read_http_message (stream : R) (kind : MessageKind.t) (required : bool)
  : result HttpMessage GenaFailure.t * R :=
  default (Err InvalidCallback, stream) (read_message_within READ_FUEL stream kind required).
End Reader.
