(* ===== verification/GenaHttpSpec.v ===== *)
(** What the reader of the business observer promises
    (rust/src/broadcast_gena.rs, [GenaHttp]): it returns, it takes exactly one
    message off the stream, and a well-formed message is read back however it is
    cut into segments. *)
From S2P Require Import Prelude.
From S2P Require Import Bytes.
From S2P Require Import BroadcastGena.
From S2P Require Import GenaBody.
From S2P Require Import GenaHttp.

(** * The reader *)

(** The largest message fits a [usize]. *)
Lemma limits_fit : (Z.of_nat (MAX_HEADER_BYTES + 4 + MAX_BODY_BYTES) <= u64_max)%Z.
Proof. unfold MAX_HEADER_BYTES, MAX_BODY_BYTES, u64_max. lia. Qed.
Lemma read_fuel_enough : READ_FUEL = MAX_HEADER_BYTES + 4 + MAX_BODY_BYTES + 1.
Proof. done. Qed.
Lemma header_end_length : length HEADER_END = 4.
Proof. done. Qed.
#[local] Opaque HEADER_END MAX_HEADER_BYTES MAX_BODY_BYTES READ_FUEL.

Lemma declared_length_nonneg required fields n :
  declared_length required fields = Ok n -> (0 <= n)%Z.
Proof.
  unfold declared_length, parse_decimal_usize, parse_digits, ok_or. intros E.
  split_cases_in E. bool_hyps. case_match; simplify_eq. by apply dec_value_nonneg.
Qed.

Lemma parse_http_head_length head kind required start fields n :
  parse_http_head head kind required = Ok (start, fields, n) ->
  (0 <= n <= Z.of_nat MAX_BODY_BYTES)%Z.
Proof.
  unfold parse_http_head. intros E. split_cases_in E. bool_hyps.
  split; [by eapply declared_length_nonneg|done].
Qed.

Section Reader.
Context {R : Type} (read : nat -> R -> option bytes * R).

Lemma read_some_Ok stream chunk stream' :
  read_some read stream = (Ok chunk, stream') ->
  read READ_BUFFER stream = (Some chunk, stream') /\ chunk <> [].
Proof. unfold read_some. intros E. split_cases_in E. Qed.

Lemma head_turn_more kind required received :
  head_turn kind required received = Ok None ->
  find_subslice received HEADER_END = None /\ length received <= MAX_HEADER_BYTES + 4.
Proof. unfold head_turn. intros E. split_cases_in E. by bool_hyps. Qed.

Lemma head_turn_done kind required received head :
  head_turn kind required received = Ok (Some head) ->
  exists index, find_subslice received HEADER_END = Some index /\ index <= MAX_HEADER_BYTES /\
    bytes_read head = received /\ header_end head = index + 4 /\
    parse_http_head (take index received) kind required =
      Ok (head_start_line head, head_headers head, head_content_length head).
Proof.
  unfold head_turn. intros E. split_cases_in E. bool_hyps. by eexists.
Qed.

Lemma read_head_returns kind required fuel received stream :
  MAX_HEADER_BYTES + 4 < length received + fuel ->
  length received <= MAX_HEADER_BYTES + 4 ->
  exists r, read_head read fuel kind required received stream = Some r.
Proof.
  revert received stream. induction fuel as [|fuel IH]; intros received stream Hf Hl; [lia|].
  cbn [read_head].
  destruct (read_some read stream) as [[chunk|e] stream'] eqn:E; [|eauto].
  apply read_some_Ok in E as [_ Hne].
  destruct (head_turn kind required (received ++ chunk)) as [[head|]|e] eqn:Et; [eauto| |eauto].
  apply head_turn_more in Et as [_ Hl'].
  apply IH; rewrite length_app in *; [destruct chunk; [done|simpl in *; lia]|lia].
Qed.

Lemma read_body_returns fuel total received stream :
  total <= length received + fuel ->
  exists r, read_body read fuel total received stream = Some r.
Proof.
  revert received stream. induction fuel as [|fuel IH]; intros received stream Hf;
    cbn [read_body]; destruct (total <=? length received)%nat eqn:Et; bool_hyps; eauto; [lia|].
  destruct (read_some read stream) as [[chunk|e] stream'] eqn:E; [|eauto].
  apply read_some_Ok in E as [_ Hne].
  destruct (total <? length (received ++ chunk))%nat; [eauto|].
  apply IH. rewrite length_app. destruct chunk; [done|simpl in *; lia].
Qed.

Lemma read_head_done kind required fuel received stream head stream' :
  read_head read fuel kind required received stream = Some (Ok head, stream') ->
  exists index, find_subslice (bytes_read head) HEADER_END = Some index /\
    index <= MAX_HEADER_BYTES /\ header_end head = index + 4 /\
    parse_http_head (take index (bytes_read head)) kind required =
      Ok (head_start_line head, head_headers head, head_content_length head).
Proof.
  revert received stream. induction fuel as [|fuel IH]; intros received stream; [done|].
  cbn [read_head].
  destruct (read_some read stream) as [[chunk|e] s1] eqn:E; [|done].
  destruct (head_turn kind required (received ++ chunk)) as [[h|]|e] eqn:Et; [| |done].
  - intros [= -> ->]. apply head_turn_done in Et as (index & ? & ? & Eb & ? & ?).
    rewrite Eb. eauto.
  - apply IH.
Qed.

(** The length of the whole message fits the limits, so its computation does
    not overflow. *)
Lemma head_total kind required fuel received stream head stream' :
  read_head read fuel kind required received stream = Some (Ok head, stream') ->
  exists n, head_content_length head = Z.of_nat n /\ n <= MAX_BODY_BYTES /\
    header_end head <= MAX_HEADER_BYTES + 4 /\
    checked_add u64_max (Z.of_nat (header_end head)) (head_content_length head) =
      Some (Z.of_nat (header_end head + n)).
Proof.
  intros E. apply read_head_done in E as (index & _ & Hi & He & Hp).
  apply parse_http_head_length in Hp. exists (Z.to_nat (head_content_length head)).
  split_and!; [lia|lia|lia|].
  unfold checked_add. destruct (_ <=? u64_max)%Z eqn:El; bool_hyps; [f_equal; lia|].
  pose proof limits_fit. lia.
Qed.

Lemma read_message_returns fuel stream kind required :
  READ_FUEL <= fuel ->
  exists r, read_message_within read fuel stream kind required = Some r.
Proof.
  rewrite read_fuel_enough. intros Hf. unfold read_message_within.
  destruct (read_head_returns kind required fuel [] stream) as [[[head|e] stream'] E];
    [simpl; lia|simpl; lia| |]; rewrite E; [|eauto].
  destruct (head_total _ _ _ _ _ _ _ E) as (n & En & Hn & Hh & ->).
  destruct (_ <? _)%nat; [eauto|].
  destruct (read_body_returns fuel (Z.to_nat (Z.of_nat (header_end head + n)))
              (bytes_read head) stream') as [[[]] ->]; [lia|eauto|eauto].
Qed.

Lemma read_message_enough stream kind required :
  read_message_within read READ_FUEL stream kind required =
    Some (read_http_message read stream kind required).
Proof.
  unfold read_http_message.
  by destruct (read_message_returns READ_FUEL stream kind required) as [r ->].
Qed.

(** ** What is taken off the stream *)

Section Taken.
(** The bytes the peer has sent and the stream has not yielded. *)
Context (pending : R -> bytes).
Context (read_takes : forall n stream chunk stream',
  read n stream = (Some chunk, stream') -> pending stream = chunk ++ pending stream').

Lemma read_head_taken kind required fuel received stream head stream' :
  read_head read fuel kind required received stream = Some (Ok head, stream') ->
  exists more, bytes_read head = received ++ more /\ pending stream = more ++ pending stream'.
Proof.
  revert received stream. induction fuel as [|fuel IH]; intros received stream; [done|].
  cbn [read_head].
  destruct (read_some read stream) as [[chunk|e] s1] eqn:E; [|done].
  apply read_some_Ok in E as [E%read_takes _].
  destruct (head_turn kind required (received ++ chunk)) as [[h|]|e] eqn:Et; [| |done].
  - intros [= -> ->]. apply head_turn_done in Et as (_ & _ & _ & Eb & _). eauto.
  - intros (more & -> & Hp)%IH. exists (chunk ++ more). by rewrite E, Hp, !app_assoc.
Qed.

Lemma read_body_taken total fuel received stream all stream' :
  length received <= total ->
  read_body read fuel total received stream = Some (Ok all, stream') ->
  length all = total /\
  exists more, all = received ++ more /\ pending stream = more ++ pending stream'.
Proof.
  revert received stream. induction fuel as [|fuel IH]; intros received stream Hl;
    cbn [read_body]; destruct (total <=? length received)%nat eqn:Et; bool_hyps; try done.
  - intros [= -> ->]. split; [lia|]. exists []. by rewrite app_nil_r.
  - intros [= -> ->]. split; [lia|]. exists []. by rewrite app_nil_r.
  - destruct (read_some read stream) as [[chunk|e] s1] eqn:E; [|done].
    apply read_some_Ok in E as [E%read_takes _].
    destruct (total <? length (received ++ chunk))%nat eqn:El; [done|]. bool_hyps.
    intros [Hn (more & -> & Hp)]%IH; [|done]. split; [done|].
    exists (chunk ++ more). by rewrite E, Hp, !app_assoc.
Qed.

(** A message that is returned is exactly what was taken: a head within its
    limit, the first blank line, and as many bytes as the head declares. *)
Lemma read_message_exact stream kind required m stream' :
  read_http_message read stream kind required = (Ok m, stream') ->
  exists head, pending stream = (head ++ HEADER_END ++ body m) ++ pending stream' /\
    find_subslice (head ++ HEADER_END ++ body m) HEADER_END = Some (length head) /\
    length head <= MAX_HEADER_BYTES /\ length (body m) <= MAX_BODY_BYTES /\
    parse_http_head head kind required =
      Ok (start_line m, headers m, Z.of_nat (length (body m))).
Proof.
  intros E. pose proof (read_message_enough stream kind required) as Ew. rewrite E in Ew.
  clear E. unfold read_message_within in Ew.
  destruct (read_head read READ_FUEL kind required [] stream) as [[[head|e] s1]|] eqn:Eh;
    [|done|done].
  destruct (head_total _ _ _ _ _ _ _ Eh) as (n & En & Hn & Hh & Ea). rewrite Ea in Ew.
  destruct (_ <? _)%nat eqn:El; [done|]. bool_hyps. rewrite Nat2Z.id in *.
  destruct (read_body read READ_FUEL _ (bytes_read head) s1) as [[[all|e] s2]|] eqn:Eb;
    [|done|done].
  simplify_eq/=.
  destruct (read_head_taken _ _ _ _ _ _ _ Eh) as (more & Em & Et).
  destruct (read_body_taken _ _ _ _ _ _ El Eb) as (Hall & more' & Ea' & Et').
  destruct (read_head_done _ _ _ _ _ _ _ Eh) as (index & Hi & Hm & He & Hp).
  destruct (find_subslice_Some _ _ _ Hi) as (after & Er & Hb).
  set (before := take index (bytes_read head)) in *. exists before.
  assert (all = before ++ HEADER_END ++ after ++ more') as Eall
    by (rewrite Ea', Er, <- !app_assoc; done).
  assert (drop (header_end head) all = after ++ more') as ->.
  { rewrite Eall, He, app_assoc. apply drop_app_length'. rewrite length_app, Hb. done. }
  split_and!.
  - rewrite <- Eall, Ea', Et, Et'. by rewrite Em, <- app_assoc.
  - rewrite <- Eall, Ea', Hb. by apply find_subslice_extend.
  - lia.
  - apply (f_equal length) in Eall. rewrite !length_app, Hb, Hall, He in Eall.
    rewrite header_end_length in Eall. rewrite length_app. lia.
  - rewrite Hp, En. do 3 f_equal. apply (f_equal length) in Eall.
    rewrite !length_app, Hb, Hall, He in Eall.
    rewrite header_end_length in Eall. rewrite length_app. lia.
Qed.
End Taken.

(** ** Reading back a message *)

Section Segments.
(** A read yields some of the bytes the peer has sent, as few as it likes. *)
Context (pending : R -> bytes).
Context (read_segment : forall stream, pending stream <> [] ->
  exists chunk stream', read READ_BUFFER stream = (Some chunk, stream') /\
    chunk <> [] /\ pending stream = chunk ++ pending stream').

Lemma read_some_segment stream :
  pending stream <> [] ->
  exists chunk stream', read_some read stream = (Ok chunk, stream') /\
    chunk <> [] /\ pending stream = chunk ++ pending stream'.
Proof.
  intros (chunk & stream' & E & Hne & Hp)%read_segment. exists chunk, stream'.
  split_and!; [|done|done]. unfold read_some. rewrite E. by destruct chunk.
Qed.

(** Part of a message that does not reach the end of the head. *)
Lemma before_header_end raw index received rest :
  find_subslice raw HEADER_END = Some index -> raw = received ++ rest ->
  find_subslice received HEADER_END = None -> length received < index + 4.
Proof.
  intros Hi -> Hn. destruct (decide (length received < index + 4)) as [|Hl]; [done|].
  destruct (find_subslice_Some _ _ _ Hi) as (after & Er & Hb).
  set (before := take index (received ++ rest)) in *.
  assert (Hpre : received = before ++ HEADER_END ++ drop (index + 4) received).
  { rewrite <- (take_drop (index + 4) received) at 1. rewrite app_assoc. f_equal.
    transitivity (take (index + 4) (received ++ rest)); [by rewrite take_app_le by lia|].
    rewrite Er, app_assoc. apply take_app_length'.
    by rewrite length_app, Hb, header_end_length. }
  assert (Hf : is_Some (find_subslice received HEADER_END)); [|by rewrite Hn in Hf; destruct Hf].
  rewrite Hpre. clear. induction before as [|c before IH].
  - assert (starts_with HEADER_END (HEADER_END ++ drop (index + 4) received) = true) as Hs
      by (apply starts_with_true; eauto).
    cbn [app]. destruct (HEADER_END ++ _); cbn [find_subslice]; rewrite Hs; eauto.
  - cbn [app find_subslice]. destruct (starts_with _ _); [eauto|].
    destruct IH as [j ->]. eauto.
Qed.

Section Message.
Context (kind : MessageKind.t) (required : bool).
Context (head content : bytes) (start : StartLine.t) (fields : gmap bytes bytes).
Context (head_found : find_subslice (head ++ HEADER_END ++ content) HEADER_END
                        = Some (length head)).
Context (head_fits : length head <= MAX_HEADER_BYTES).
Context (head_parses : parse_http_head head kind required
                         = Ok (start, fields, Z.of_nat (length content))).
#[local] Abbreviation raw := (head ++ HEADER_END ++ content).

Lemma head_turn_raw received rest :
  raw = received ++ rest ->
  head_turn kind required received =
    Ok (if decide (find_subslice received HEADER_END = None) then None
        else Some (mkParsedHead received (length head + 4) start fields
                     (Z.of_nat (length content)))).
Proof.
  intros E. unfold head_turn.
  apply parse_http_head_length in head_parses as Hc.
  assert (length received <= length raw) as Hr by (rewrite E, length_app; lia).
  rewrite !length_app, header_end_length in Hr.
  assert ((MAX_HEADER_BYTES + 4 + MAX_BODY_BYTES <? length received)%nat = false) as ->
    by (apply Nat.ltb_ge; lia).
  destruct (find_subslice received HEADER_END) as [index|] eqn:Ef.
  - pose proof (find_subslice_extend _ _ rest _ Ef) as Ex.
    rewrite <- E, head_found in Ex. simplify_eq.
    assert ((MAX_HEADER_BYTES <? length head)%nat = false) as -> by (apply Nat.ltb_ge; lia).
    apply find_subslice_length in Ef.
    assert (take (length head) received = head) as ->.
    { transitivity (take (length head) raw); [rewrite E; by rewrite take_app_le by lia|].
      apply take_app_length. }
    rewrite head_parses. by rewrite decide_False.
  - pose proof (before_header_end _ _ _ _ head_found E Ef).
    assert ((MAX_HEADER_BYTES + 4 <? length received)%nat = false) as ->
      by (apply Nat.ltb_ge; lia).
    by rewrite decide_True.
Qed.

Lemma read_head_raw fuel received stream r :
  raw = received ++ pending stream -> find_subslice received HEADER_END = None ->
  read_head read fuel kind required received stream = Some r ->
  exists received' stream', raw = received' ++ pending stream' /\
    r = (Ok (mkParsedHead received' (length head + 4) start fields
               (Z.of_nat (length content))), stream').
Proof.
  revert received stream. induction fuel as [|fuel IH]; intros received stream E Hn; [done|].
  cbn [read_head].
  destruct (read_some_segment stream) as (chunk & s1 & -> & Hne & Hp).
  { intros Hp. rewrite Hp, app_nil_r in E. rewrite <- E, head_found in Hn. done. }
  rewrite Hp, (app_assoc received chunk) in E. rewrite (head_turn_raw _ _ E).
  destruct (decide _) as [Hn'|]; [by apply IH|]. intros [= <-]. eauto.
Qed.

Lemma read_body_raw fuel received stream r :
  raw = received ++ pending stream ->
  read_body read fuel (length raw) received stream = Some r ->
  exists stream', pending stream' = [] /\ r = (Ok raw, stream').
Proof.
  revert received stream. induction fuel as [|fuel IH]; intros received stream E;
    cbn [read_body]; destruct (length raw <=? length received)%nat eqn:El; bool_hyps; try done.
  1,2: intros [= <-]; apply (f_equal length) in E as El'; rewrite (length_app received) in El';
    destruct (pending stream) eqn:Ep; simpl in El'; [|lia];
    rewrite app_nil_r in E; rewrite E; eauto.
  destruct (read_some_segment stream) as (chunk & s1 & -> & Hne & Hp).
  { intros Hp. rewrite Hp, app_nil_r in E. rewrite E in El. lia. }
  rewrite Hp, (app_assoc received chunk) in E.
  assert ((length raw <? length (received ++ chunk))%nat = false) as ->
    by (apply Nat.ltb_ge; rewrite E, (length_app (received ++ chunk)); lia).
  by apply IH.
Qed.

Lemma raw_total :
  checked_add u64_max (Z.of_nat (length head + 4)) (Z.of_nat (length content)) =
    Some (Z.of_nat (length raw)).
Proof.
  apply parse_http_head_length in head_parses as Hc. pose proof limits_fit.
  unfold checked_add. rewrite !length_app, header_end_length.
  destruct (_ <=? u64_max)%Z eqn:E; bool_hyps; [f_equal; lia|lia].
Qed.

(** However it is cut into segments, a well-formed message is read back whole,
    and nothing after it is taken. *)
Lemma read_message_segments stream :
  pending stream = raw ->
  exists stream', pending stream' = [] /\
    read_http_message read stream kind required = (Ok (mkHttpMessage start fields content), stream').
Proof.
  intros E. pose proof (read_message_enough stream kind required) as Ew.
  unfold read_message_within in Ew.
  destruct (read_head read READ_FUEL kind required [] stream) as [r|] eqn:Eh; [|done].
  apply (read_head_raw _ [] stream) in Eh as (received & s1 & Er & ->); [|done|done].
  cbn [header_end head_content_length bytes_read] in Ew.
  rewrite raw_total in Ew. rewrite Nat2Z.id in Ew.
  assert ((length raw <? length received)%nat = false) as Hl
    by (apply Nat.ltb_ge; rewrite Er, (length_app received); lia).
  rewrite Hl in Ew.
  destruct (read_body read READ_FUEL (length raw) received s1) as [r|] eqn:Eb; [|done].
  apply read_body_raw in Eb as (s2 & Hs2 & ->); [|done].
  exists s2. split; [done|]. simplify_eq/=. rewrite <- Ew. do 3 f_equal.
  rewrite app_assoc. apply drop_app_length'. by rewrite length_app, header_end_length.
Qed.
End Message.
End Segments.

(** A stream that yields what was sent, in segments of any size. *)
Record segmented_stream (pending : R -> bytes) : Prop := {
  segment_yields n stream chunk stream' :
    read n stream = (Some chunk, stream') -> pending stream = chunk ++ pending stream';
  segment_some stream : pending stream <> [] ->
    exists chunk stream', read READ_BUFFER stream = (Some chunk, stream') /\ chunk <> [];
}.

(** [head] and [content] are a message of that form within the limits. *)
Definition framed (kind : MessageKind.t) (required : bool) (head content : bytes)
    (start : StartLine.t) (fields : gmap bytes bytes) : Prop :=
  find_subslice (head ++ HEADER_END ++ content) HEADER_END = Some (length head) /\
  length head <= MAX_HEADER_BYTES /\
  parse_http_head head kind required = Ok (start, fields, Z.of_nat (length content)).

(** C35 Reading a message off a stream always returns.  What it returns is
    exactly what it took: a head within its limit that parses to the message's
    start line and headers, the first blank line, and as many bytes of body as
    the head declares; and a well-formed message within the limits is read back
    whole however it is cut into segments, with nothing left over. *)
Theorem message_framing pending kind required :
  segmented_stream pending ->
  (forall stream, exists r, read_message_within read READ_FUEL stream kind required = Some r) /\
  (forall stream m stream',
     read_http_message read stream kind required = (Ok m, stream') ->
     exists head, pending stream = (head ++ HEADER_END ++ body m) ++ pending stream' /\
       framed kind required head (body m) (start_line m) (headers m)) /\
  (forall head content start fields stream,
     framed kind required head content start fields ->
     pending stream = head ++ HEADER_END ++ content ->
     exists stream', pending stream' = [] /\
       read_http_message read stream kind required =
         (Ok (mkHttpMessage start fields content), stream')).
Proof.
  intros [Hy Hs]. split_and!.
  - intros stream. by apply read_message_returns.
  - intros stream m stream' E.
    destruct (read_message_exact pending Hy _ _ _ _ _ E) as (head & ? & ? & ? & _ & ?).
    by exists head.
  - intros head content start fields stream (? & ? & ?) E.
    apply (read_message_segments pending) with head; try done.
    intros s Hne. destruct (Hs s Hne) as (chunk & s' & Er & Hc).
    exists chunk, s'. split_and!; [done|done|by eapply Hy].
Qed.
End Reader.
