(* ===== verification/BackendNative.v ===== *)
(** The native pair backend (rust/src/backend_native.rs): the broadcast
    coordinator, the whole-pair core that drives both speakers, and its error
    maps.  The JBL client, the Aura transport and the broadcast observer are
    the interfaces the code gives them; the core discharges the backend's
    contract from theirs. *)
From S2P Require Import Prelude Bytes Backend Model Control Controller Bluez AuraBluez JblGatt BroadcastGena.

Definition MAX_JOIN_DELAY : Z := from_secs 10.

(** * Interfaces *)

Class JblRoleControl (J : Type) := {
  enter : J -> PlayTogetherWriteResult.t * J;
  exit : J -> PlayTogetherWriteResult.t * J;
}.

(** [PlayTogetherWriteResult::Rejected] "is reserved for a command that was
    definitely not sent or was explicitly rejected": other than an explicit
    rejection it means that nothing was sent. *)
Class JblRoleControlLaws (J : Type) `{JblRoleControl J} := {
  jbl_writes : J -> nat;
  enter_rejected j e j' :
    enter j = (PlayTogetherWriteResult.Rejected e, j') -> e <> JblError.ControlCommandRejected ->
    jbl_writes j' = jbl_writes j;
}.

Module BroadcastAction.
Inductive t := Start | Stop.
#[global] Instance eq_dec : EqDecision t. Proof. solve_decision. Defined.
End BroadcastAction.

Module BroadcastResultEvidence.
Inductive t := AckOnly | ConfirmedNotification.
#[global] Instance eq_dec : EqDecision t. Proof. solve_decision. Defined.
End BroadcastResultEvidence.

Module BroadcastResultFailure.
Inductive t := TimedOut | Unavailable | Rejected.
#[global] Instance eq_dec : EqDecision t. Proof. solve_decision. Defined.
End BroadcastResultFailure.

Class BroadcastResultObserver (O : Type) := {
  observer_arm : BroadcastAction.t -> DeviceIdentity -> O ->
    result unit BroadcastResultFailure.t * O;
  observer_execute : BroadcastAction.t -> DeviceIdentity -> O ->
    result BroadcastResultEvidence.t BroadcastResultFailure.t * O;
  observer_cancel : O -> O;
}.

(** Arming and cancelling send no broadcaster command. *)
Class BroadcastResultObserverLaws (O : Type) `{BroadcastResultObserver O} := {
  broadcast_writes : O -> nat;
  observer_arm_no_write a i o r o' :
    observer_arm a i o = (r, o') -> broadcast_writes o' = broadcast_writes o;
  observer_cancel_no_write o : broadcast_writes (observer_cancel o) = broadcast_writes o;
}.

Class BroadcastMutationTransport (M : Type) := {
  arm_mutation : DeviceIdentity -> M -> result unit JblGattFailure.t * M;
  execute_mutation : BroadcastCommand.t -> M -> result unit JblGattFailure.t * M;
  cancel_mutation : M -> M;
}.

Class BroadcastMutationLaws (M : Type) `{BroadcastMutationTransport M} := {
  mutation_writes : M -> nat;
  arm_mutation_no_write i m r m' :
    arm_mutation i m = (r, m') -> mutation_writes m' = mutation_writes m;
  cancel_mutation_no_write m : mutation_writes (cancel_mutation m) = mutation_writes m;
}.

Class BroadcastBusinessObserver (B : Type) := {
  arm_business_observer : B -> result unit GenaFailure.t * B;
  observe_business_result : GenaAction.t -> B -> result unit GenaFailure.t * B;
  cancel_business_observer : B -> result unit GenaFailure.t * B;
}.

(** [JblGattBroadcastTransport] behind the trait. *)
#[export] Instance JblGatt_mutation {W S : Type} `{BluezStack W S}
  : BroadcastMutationTransport (JblGattBroadcastTransport W S) := {
  arm_mutation := jbl_gatt_arm;
  execute_mutation := jbl_gatt_execute;
  cancel_mutation := jbl_gatt_cancel;
}.

(** * Error maps *)

(** [map_probe_error] of the read-only membership probe. *)
Definition map_probe_error (error : JblError.t) : PairProbeError.t :=
  match error with
  | JblError.InvalidJson
  | JblError.InvalidXml
  | JblError.BasicResponseNotObject
  | JblError.BasicResponseCodeMissing
  | JblError.BasicResponseCodeInvalid
  | JblError.DeviceInfoMissing
  | JblError.ControlDeviceInfoMissing
  | JblError.UnexpectedDeviceModel
  | JblError.DeviceReportedError
  | JblError.GroupInfoMissing
  | JblError.GroupMembersMissing
  | JblError.GroupDisabledInvalid
  | JblError.GroupMemberInvalid => PairProbeError.InvalidResponse
  | _ => PairProbeError.Unavailable
  end.

Definition map_aura_transport_error (error : AuraFailureReason.t) : PairBackendError.t :=
  match error with
  | AuraFailureReason.AdapterUnavailable | AuraFailureReason.AdapterPoweredOff =>
      PairBackendError.AuraAdapterUnavailable
  | AuraFailureReason.DiscoveryUnavailable => PairBackendError.AuraDiscoveryUnavailable
  | AuraFailureReason.VerifiedAdvertisementNotFound =>
      PairBackendError.AuraVerifiedAdvertisementNotFound
  | AuraFailureReason.DeviceConnectionFailed => PairBackendError.AuraDeviceConnectionFailed
  | AuraFailureReason.WakeProfileConnectFailed => PairBackendError.AuraWakeProfileConnectFailed
  | AuraFailureReason.WakeFddfTimedOut => PairBackendError.AuraWakeFddfTimedOut
  | AuraFailureReason.WakeFddfInvalid => PairBackendError.AuraWakeFddfInvalid
  | AuraFailureReason.WakeFddfUnavailable => PairBackendError.AuraWakeFddfUnavailable
  | AuraFailureReason.WakeProfileReleaseFailed => PairBackendError.AuraWakeProfileReleaseFailed
  | AuraFailureReason.GattProfileInvalid => PairBackendError.AuraGattProfileInvalid
  | AuraFailureReason.NotificationSetupFailed => PairBackendError.AuraNotificationSetupFailed
  | AuraFailureReason.InvalidConfiguration
  | AuraFailureReason.RuntimeUnavailable
  | AuraFailureReason.TransportNotReady
  | AuraFailureReason.NotificationQueueInvalid
  | AuraFailureReason.WriteFailed
  | AuraFailureReason.AcknowledgementTimedOut
  | AuraFailureReason.AcknowledgementChannelClosed
  | AuraFailureReason.UnexpectedAcknowledgement
  | AuraFailureReason.DisconnectFailed => PairBackendError.Unavailable
  end.

Definition map_aura_action_unknown (failure : AuraFailureReason.t) : PairBackendError.t :=
  match failure with
  | AuraFailureReason.WriteFailed => PairBackendError.AuraWriteUnknown
  | AuraFailureReason.AcknowledgementTimedOut => PairBackendError.AuraAcknowledgementTimedOut
  | AuraFailureReason.AcknowledgementChannelClosed =>
      PairBackendError.AuraAcknowledgementChannelClosed
  | AuraFailureReason.UnexpectedAcknowledgement => PairBackendError.AuraUnexpectedAcknowledgement
  | _ => PairBackendError.Unavailable
  end.

Definition map_broadcast_result_failure (failure : BroadcastResultFailure.t)
  : PairBackendError.t :=
  match failure with
  | BroadcastResultFailure.TimedOut => PairBackendError.JblBroadcastResultTimedOut
  | BroadcastResultFailure.Unavailable => PairBackendError.JblBroadcastResultUnavailable
  | BroadcastResultFailure.Rejected => PairBackendError.JblBroadcastResultRejected
  end.

Definition map_jbl_gatt_failure (failure : JblGattFailure.t) : BroadcastResultFailure.t :=
  match failure with
  | JblGattFailure.WriteResponseTimedOut => BroadcastResultFailure.TimedOut
  | _ => BroadcastResultFailure.Unavailable
  end.

Definition map_gena_failure (failure : GenaFailure.t) : BroadcastResultFailure.t :=
  match failure with
  | GenaFailure.CallbackTimedOut => BroadcastResultFailure.TimedOut
  | GenaFailure.BusinessRejected => BroadcastResultFailure.Rejected
  | _ => BroadcastResultFailure.Unavailable
  end.

(** * The broadcast coordinator *)

Definition broadcast_command (action : BroadcastAction.t) (identity : DeviceIdentity)
  : BroadcastCommand.t :=
  match action with
  | BroadcastAction.Start => BroadcastCommand.Start identity
  | BroadcastAction.Stop => BroadcastCommand.Stop
  end.

Definition gena_action (action : BroadcastAction.t) : GenaAction.t :=
  match action with
  | BroadcastAction.Start => GenaAction.Start
  | BroadcastAction.Stop => GenaAction.Stop
  end.

Section Coordinator.
Context {B M : Type} `{BroadcastBusinessObserver B} `{BroadcastMutationTransport M}.

Record ConfirmedBroadcastCoordinator := mkCoordinator { business : B; mutation : M }.

Definition cancel_all (c : ConfirmedBroadcastCoordinator)
  : result unit GenaFailure.t * ConfirmedBroadcastCoordinator :=
  let mutation := cancel_mutation (mutation c) in
  let '(r, business) := cancel_business_observer (business c) in
  (r, mkCoordinator business mutation).

Definition coordinator_arm (action : BroadcastAction.t) (identity : DeviceIdentity)
    (c : ConfirmedBroadcastCoordinator)
  : result unit BroadcastResultFailure.t * ConfirmedBroadcastCoordinator :=
  match arm_business_observer (business c) with
  | (Err failure, business) =>
      let '(_, c) := cancel_all (mkCoordinator business (mutation c)) in
      (Err (map_gena_failure failure), c)
  | (Ok _, business) =>
  match arm_mutation identity (mutation c) with
  | (Err failure, mutation) =>
      let '(_, c) := cancel_all (mkCoordinator business mutation) in
      (Err (map_jbl_gatt_failure failure), c)
  | (Ok _, mutation) => (Ok tt, mkCoordinator business mutation)
  end end.

Definition coordinator_execute (action : BroadcastAction.t) (identity : DeviceIdentity)
    (c : ConfirmedBroadcastCoordinator)
  : result BroadcastResultEvidence.t BroadcastResultFailure.t * ConfirmedBroadcastCoordinator :=
  match execute_mutation (broadcast_command action identity) (mutation c) with
  | (Err failure, mutation) =>
      let '(_, c) := cancel_all (mkCoordinator (business c) mutation) in
      (Err (map_jbl_gatt_failure failure), c)
  | (Ok _, mutation) =>
      let '(observed, business) := observe_business_result (gena_action action) (business c) in
      let '(cleanup, c) := cancel_all (mkCoordinator business mutation) in
      (match observed, cleanup with
       | Ok _, Ok _ => Ok BroadcastResultEvidence.ConfirmedNotification
       | Ok _, Err failure => Err (map_gena_failure failure)
       | Err failure, _ => Err (map_gena_failure failure)
       end, c)
  end.

(** [ProductionBroadcastObserver]. *)
Inductive ProductionBroadcastObserver :=
| Ack (mutation : M)
| Gena (coordinator : ConfirmedBroadcastCoordinator).

Definition production_arm (action : BroadcastAction.t) (identity : DeviceIdentity)
    (o : ProductionBroadcastObserver)
  : result unit BroadcastResultFailure.t * ProductionBroadcastObserver :=
  match o with
  | Ack mutation =>
      let '(r, mutation) := arm_mutation identity mutation in
      (map_err map_jbl_gatt_failure r, Ack mutation)
  | Gena coordinator =>
      let '(r, coordinator) := coordinator_arm action identity coordinator in
      (r, Gena coordinator)
  end.

Definition production_execute (action : BroadcastAction.t) (identity : DeviceIdentity)
    (o : ProductionBroadcastObserver)
  : result BroadcastResultEvidence.t BroadcastResultFailure.t * ProductionBroadcastObserver :=
  match o with
  | Ack mutation =>
      let '(r, mutation) := execute_mutation (broadcast_command action identity) mutation in
      (map_err map_jbl_gatt_failure (map_ok (fun _ => BroadcastResultEvidence.AckOnly) r),
       Ack mutation)
  | Gena coordinator =>
      let '(r, coordinator) := coordinator_execute action identity coordinator in
      (r, Gena coordinator)
  end.

Definition production_cancel (o : ProductionBroadcastObserver) : ProductionBroadcastObserver :=
  match o with
  | Ack mutation => Ack (cancel_mutation mutation)
  | Gena coordinator => Gena (snd (cancel_all coordinator))
  end.

#[export] Instance ProductionBroadcastObserver_observer
  : BroadcastResultObserver ProductionBroadcastObserver := {
  observer_arm := production_arm;
  observer_execute := production_execute;
  observer_cancel := production_cancel;
}.
End Coordinator.
Arguments ConfirmedBroadcastCoordinator : clear implicits.
Arguments ProductionBroadcastObserver : clear implicits.

(** * The pair core *)

Section Core.
Context {J A O : Type}.
Context `{JblRoleControl J} `{AuraRoleControl A} `{BroadcastResultObserver O}.

(** The join delay is a sleep; nothing in the model's state depends on it. *)
Record NativePairCore := mkNativeCore {
  jbl : J;
  aura : A;
  broadcast_observer : O;
  jbl_identity : DeviceIdentity;
  aura_identity : DeviceIdentity;
  join_delay : Z;
  lifecycle : PairLifecycle.t;
  core_unresolved : option PairActionFailure;
}.

Definition set_jbl (j : J) (c : NativePairCore) : NativePairCore :=
  mkNativeCore j (aura c) (broadcast_observer c) (jbl_identity c) (aura_identity c)
    (join_delay c) (lifecycle c) (core_unresolved c).
Definition set_aura (a : A) (c : NativePairCore) : NativePairCore :=
  mkNativeCore (jbl c) a (broadcast_observer c) (jbl_identity c) (aura_identity c)
    (join_delay c) (lifecycle c) (core_unresolved c).
Definition set_observer (o : O) (c : NativePairCore) : NativePairCore :=
  mkNativeCore (jbl c) (aura c) o (jbl_identity c) (aura_identity c)
    (join_delay c) (lifecycle c) (core_unresolved c).
Definition set_lifecycle (l : PairLifecycle.t) (c : NativePairCore) : NativePairCore :=
  mkNativeCore (jbl c) (aura c) (broadcast_observer c) (jbl_identity c) (aura_identity c)
    (join_delay c) l (core_unresolved c).
Definition set_core_unresolved (u : option PairActionFailure) (c : NativePairCore)
  : NativePairCore :=
  mkNativeCore (jbl c) (aura c) (broadcast_observer c) (jbl_identity c) (aura_identity c)
    (join_delay c) (lifecycle c) u.

Definition native_core_new (j : J) (a : A) (o : O) (jbl_id aura_id : DeviceIdentity) (delay : Z)
  : NativePairCore :=
  mkNativeCore j a o jbl_id aura_id delay PairLifecycle.Offline None.

(** The calls on the three parts. *)
Definition call_aura {R} (f : A -> R * A) (c : NativePairCore) : R * NativePairCore :=
  let '(r, a) := f (aura c) in (r, set_aura a c).
Definition call_jbl {R} (f : J -> R * J) (c : NativePairCore) : R * NativePairCore :=
  let '(r, j) := f (jbl c) in (r, set_jbl j c).
Definition call_observer {R} (f : O -> R * O) (c : NativePairCore) : R * NativePairCore :=
  let '(r, o) := f (broadcast_observer c) in (r, set_observer o c).
Definition cancel_observer (c : NativePairCore) : NativePairCore :=
  set_observer (observer_cancel (broadcast_observer c)) c.

Definition native_health (c : NativePairCore) : PairHealth * NativePairCore :=
  let '(health, c) := call_aura aura_health c in
  let resolved := negb (bool_decide (is_Some (core_unresolved c))) in
  let healthy :=
    resolved
    && bool_decide (lifecycle c = PairLifecycle.Ready \/ lifecycle c = PairLifecycle.Linked)
    && bool_decide (health = AuraHealth.Ready \/ health = AuraHealth.Offline) in
  let offline :=
    resolved && bool_decide (health = AuraHealth.Offline)
    && bool_decide (lifecycle c = PairLifecycle.Offline) in
  let l := if healthy || offline then lifecycle c else PairLifecycle.Degraded in
  (new_with_route PairBackendKind.NativePair l (negb healthy && negb offline)
     (match transport (aura c) with
      | Some AuraBearerTransport.Le => AuraControlTransport.Le
      | Some AuraBearerTransport.BrEdr => AuraControlTransport.BrEdr
      | None => AuraControlTransport.Unresolved
      end) (acquisition_route (aura c)), c).

Definition accepted (l : PairLifecycle.t) (idempotent : bool) : PairActionResult.t :=
  PairActionResult.Accepted
    (mkPairActionReceipt PairBackendKind.NativePair l
       (if idempotent then PairBackendEvidence.LocalSessionState
        else PairBackendEvidence.LifecycleAcknowledgement) idempotent).

Definition accepted_with_broadcast_evidence (l : PairLifecycle.t)
    (evidence : BroadcastResultEvidence.t) : PairActionResult.t :=
  PairActionResult.Accepted
    (mkPairActionReceipt PairBackendKind.NativePair l
       (match evidence with
        | BroadcastResultEvidence.AckOnly => PairBackendEvidence.BroadcastAcknowledgementOnly
        | BroadcastResultEvidence.ConfirmedNotification =>
            PairBackendEvidence.BroadcastBusinessNotification
        end) false).

Definition native_failure (why : PairBackendError.t) (observed : PairLifecycle.t)
  : PairActionFailure := mkPairActionFailure PairBackendKind.NativePair why (Some observed).

(** [self.rejected(..)] after the lifecycle was degraded. *)
Definition reject_degraded (why : PairBackendError.t) (c : NativePairCore)
  : PairActionResult.t * NativePairCore :=
  (PairActionResult.RejectedBeforeSend (native_failure why PairLifecycle.Degraded),
   set_lifecycle PairLifecycle.Degraded c).

Definition native_latch_unknown (why : PairBackendError.t) (observed : PairLifecycle.t)
    (c : NativePairCore) : PairActionResult.t * NativePairCore :=
  let failure := native_failure why observed in
  (PairActionResult.OutcomeUnknown failure,
   set_lifecycle PairLifecycle.Degraded (set_core_unresolved (Some failure) c)).

Definition acquire_fresh_aura_bearer (c : NativePairCore)
  : result unit PairBackendError.t * NativePairCore :=
  match call_aura aura_shutdown c with
  | (Err _, c) => (Err PairBackendError.Unavailable, c)
  | (Ok _, c) =>
      let '(r, c) := call_aura (connect_verified (aura_identity c)) c in
      (map_err map_aura_transport_error r, c)
  end.

(** [self.lifecycle == expected && self.aura.health() == Ready]: the health is
    asked only when the lifecycle matches. *)
Definition settled_in (expected : PairLifecycle.t) (c : NativePairCore) : bool * NativePairCore :=
  if decide (lifecycle c = expected) then
    let '(health, c) := call_aura aura_health c in
    (bool_decide (health = AuraHealth.Ready), c)
  else (false, c).

Definition native_start (c : NativePairCore) : PairActionResult.t * NativePairCore :=
  match core_unresolved c with
  | Some failure => (PairActionResult.OutcomeUnknown failure, c)
  | None =>
  let '(settled, c) := settled_in PairLifecycle.Linked c in
  if settled then (accepted PairLifecycle.Linked true, c)
  else
  match acquire_fresh_aura_bearer c with
  | (Err error, c) => reject_degraded error c
  | (Ok _, c) =>
  let c := set_lifecycle PairLifecycle.Linking c in
  match call_observer (observer_arm BroadcastAction.Start (jbl_identity c)) c with
  | (Err failure, c) => reject_degraded (map_broadcast_result_failure failure) c
  | (Ok _, c) =>
  match call_jbl enter c with
  | (PlayTogetherWriteResult.Rejected JblError.ControlCommandRejected, c)
  | (PlayTogetherWriteResult.OutcomeUnknown _, c) =>
      native_latch_unknown PairBackendError.JblEnterOutcomeUnknown PairLifecycle.Linking
        (cancel_observer c)
  | (PlayTogetherWriteResult.Rejected _, c) =>
      reject_degraded PairBackendError.BackendReportedFailure (cancel_observer c)
  | (PlayTogetherWriteResult.Accepted _, c) =>
  match call_observer (observer_execute BroadcastAction.Start (jbl_identity c)) c with
  | (Err failure, c) =>
      native_latch_unknown (map_broadcast_result_failure failure) PairLifecycle.Linking c
  | (Ok evidence, c) =>
  match call_aura aura_start c with
  | (AuraActionResult.Accepted, c) =>
      (accepted_with_broadcast_evidence PairLifecycle.Linked evidence,
       set_lifecycle PairLifecycle.Linked c)
  | (AuraActionResult.RejectedBeforeSend _, c) =>
      native_latch_unknown PairBackendError.AuraStartOutcomeUnknown PairLifecycle.Linking c
  | (AuraActionResult.OutcomeUnknown failure, c) =>
      native_latch_unknown (map_aura_action_unknown failure) PairLifecycle.Linking c
  end end end end end end.

Definition native_stop (c : NativePairCore) : PairActionResult.t * NativePairCore :=
  match core_unresolved c with
  | Some failure => (PairActionResult.OutcomeUnknown failure, c)
  | None =>
  let '(settled, c) := settled_in PairLifecycle.Ready c in
  if settled then (accepted PairLifecycle.Ready true, c)
  else
  match acquire_fresh_aura_bearer c with
  | (Err error, c) => reject_degraded error c
  | (Ok _, c) =>
  let c := set_lifecycle PairLifecycle.Unlinking c in
  match call_observer (observer_arm BroadcastAction.Stop (jbl_identity c)) c with
  | (Err failure, c) => reject_degraded (map_broadcast_result_failure failure) c
  | (Ok _, c) =>
  match call_aura aura_stop c with
  | (AuraActionResult.RejectedBeforeSend _, c) =>
      reject_degraded PairBackendError.BackendReportedFailure (cancel_observer c)
  | (AuraActionResult.OutcomeUnknown failure, c) =>
      native_latch_unknown (map_aura_action_unknown failure) PairLifecycle.Unlinking
        (cancel_observer c)
  | (AuraActionResult.Accepted, c) =>
  match call_observer (observer_execute BroadcastAction.Stop (jbl_identity c)) c with
  | (Err failure, c) =>
      native_latch_unknown (map_broadcast_result_failure failure) PairLifecycle.Unlinking c
  | (Ok evidence, c) =>
  match call_jbl exit c with
  | (PlayTogetherWriteResult.Accepted _, c) =>
      (accepted_with_broadcast_evidence PairLifecycle.Ready evidence,
       set_lifecycle PairLifecycle.Ready c)
  | (PlayTogetherWriteResult.Rejected _, c)
  | (PlayTogetherWriteResult.OutcomeUnknown _, c) =>
      native_latch_unknown PairBackendError.JblExitOutcomeUnknown PairLifecycle.Unlinking c
  end end end end end end.

(** The part of [shutdown] after the pair was stopped. *)
Definition release_pair (c : NativePairCore) : PairActionResult.t * NativePairCore :=
  let c := set_lifecycle PairLifecycle.ShuttingDown c in
  match call_aura aura_shutdown c with
  | (Err _, c) =>
      native_latch_unknown PairBackendError.Unavailable PairLifecycle.ShuttingDown c
  | (Ok _, c) =>
      (accepted PairLifecycle.ShuttingDown false, set_lifecycle PairLifecycle.Offline c)
  end.

Definition native_shutdown (c : NativePairCore) : PairActionResult.t * NativePairCore :=
  match core_unresolved c with
  | Some failure => (PairActionResult.OutcomeUnknown failure, c)
  | None =>
      if decide (lifecycle c = PairLifecycle.Ready \/ lifecycle c = PairLifecycle.Offline)
      then release_pair c
      else
        match native_stop c with
        | (PairActionResult.Accepted _, c) => release_pair c
        | (stopped, c) => (stopped, c)
        end
  end.

Definition native_recover_stop (c : NativePairCore) : PairActionResult.t * NativePairCore :=
  let c := set_lifecycle PairLifecycle.Recovering c in
  match call_aura aura_shutdown c with
  | (Err _, c) => native_latch_unknown PairBackendError.Unavailable PairLifecycle.Recovering c
  | (Ok _, c) =>
      native_stop (set_lifecycle PairLifecycle.Degraded (set_core_unresolved None c))
  end.

Definition native_teardown_transport (c : NativePairCore)
  : result unit PairBackendError.t * NativePairCore :=
  let '(r, c) := call_aura aura_shutdown c in
  (map_err (fun _ => PairBackendError.Unavailable) r, c).

(** [NativePairBackend]. *)
#[export] Instance NativePairBackend : PairBackend NativePairCore := {
  backend_kind _ := PairBackendKind.NativePair;
  backend_health c := let '(h, c) := native_health c in (Ok h, c);
  backend_start := native_start;
  backend_stop := native_stop;
  backend_shutdown := native_shutdown;
  backend_recover_stop := native_recover_stop;
  backend_teardown_transport := native_teardown_transport;
}.
End Core.
Arguments NativePairCore : clear implicits.
