(* ===== verification/Gena.v ===== *)
(** The business-result observer (rust/src/broadcast_gena.rs): it subscribes to
    the events of the one configured JBL before a broadcast command, waits for
    the notification of its result, and unsubscribes.  The network, the clock
    and the random generator are an interface ([GenaNet]). *)
From S2P Require Import Prelude.
From S2P Require Import Bytes.
From S2P Require Import Tcp.
From S2P Require Import BackendNative.
From S2P Require Import BroadcastGena.
From S2P Require Import GenaBody.
From S2P Require Import GenaHttp.

(** * IPv4 addresses, as [std::net] has them *)

Record Ipv4Addr := mkIpv4 { octet1 : Z; octet2 : Z; octet3 : Z; octet4 : Z }.
#[global] Instance Ipv4Addr_eq_dec : EqDecision Ipv4Addr.
Proof. solve_decision. Defined.

Module Ipv4.
(** One decimal octet: three digits at most and no leading zero. *)
Definition parse_octet (text : bytes) : option Z :=
  if (3 <? length text)%nat || ((1 <? length text)%nat && starts_with (str "0") text)
     || starts_with (str "+") text
  then None
  else parse_unsigned u8_max text.

Definition parse (text : bytes) : option Ipv4Addr :=
  match split_byte (z2b 46) text with
  | [a; b; c; d] =>
      o1 ← parse_octet a; o2 ← parse_octet b; o3 ← parse_octet c; o4 ← parse_octet d;
      Some (mkIpv4 o1 o2 o3 o4)
  | _ => None
  end.

Definition display (ip : Ipv4Addr) : bytes :=
  dec (octet1 ip) ++ str "." ++ dec (octet2 ip) ++ str "." ++ dec (octet3 ip)
    ++ str "." ++ dec (octet4 ip).

Definition UNSPECIFIED : Ipv4Addr := mkIpv4 0 0 0 0.
Definition BROADCAST : Ipv4Addr := mkIpv4 255 255 255 255.
Definition is_unspecified (ip : Ipv4Addr) : bool := bool_decide (ip = UNSPECIFIED).
Definition is_loopback (ip : Ipv4Addr) : bool := (octet1 ip =? 127)%Z.
Definition is_multicast (ip : Ipv4Addr) : bool :=
  (224 <=? octet1 ip)%Z && (octet1 ip <=? 239)%Z.
End Ipv4.

Record SocketAddrV4 := mkSocketAddrV4 { ip : Ipv4Addr; port : Z }.
#[global] Instance SocketAddrV4_eq_dec : EqDecision SocketAddrV4.
Proof. solve_decision. Defined.

Module SocketAddr.
Inductive t := V4 (address : SocketAddrV4) | V6 (segments : list Z) (port : Z).
#[global] Instance eq_dec : EqDecision t. Proof. solve_decision. Defined.
End SocketAddr.

Definition display_socket (address : SocketAddrV4) : bytes :=
  Ipv4.display (ip address) ++ str ":" ++ dec (port address).

(** [peer.ip() == IpAddr::V4(expected)]. *)
Definition peer_is (peer : SocketAddr.t) (expected : Ipv4Addr) : bool :=
  match peer with
  | SocketAddr.V4 address => bool_decide (ip address = expected)
  | SocketAddr.V6 _ _ => false
  end.

(** * The network *)

Class GenaNet (W : Type) := {
  Listener : Type;
  Stream : Type;
  Datagram : Type;
  (** [Instant::now()] and [thread::sleep]. *)
  gena_now : W -> Z * W;
  gena_sleep : Z -> W -> W;
  (** [openssl::rand::rand_bytes]. *)
  rand_bytes : nat -> W -> option bytes * W;
  (** [UdpSocket]. *)
  udp_bind : SocketAddrV4 -> W -> option Datagram * W;
  udp_connect : Datagram -> SocketAddrV4 -> W -> option unit * W;
  udp_local_addr : Datagram -> W -> option SocketAddr.t * W;
  drop_datagram : Datagram -> W -> W;
  (** [TcpListener]. *)
  listener_bind : SocketAddrV4 -> W -> option Listener * W;
  listener_set_nonblocking : Listener -> W -> option unit * W;
  listener_accept : Listener -> W -> result (Stream * SocketAddr.t) IoErrorKind.t * W;
  drop_listener : Listener -> W -> W;
  (** [TcpStream]; [stream_write] is [write_all] or [write!]. *)
  stream_connect_timeout : SocketAddrV4 -> Z -> W -> option Stream * W;
  stream_set_read_timeout : Stream -> Z -> W -> option unit * W;
  stream_set_write_timeout : Stream -> Z -> W -> option unit * W;
  stream_write : Stream -> bytes -> W -> option unit * W;
  stream_flush : Stream -> W -> option unit * W;
  stream_read : Stream -> nat -> W -> option bytes * W;
  drop_stream : Stream -> W -> W;
}.

(** * The observer *)

Definition EVENT_PORT : Z := 59152.
Definition EVENT_PATH : bytes := str "/upnp/event/rendercontrol1".
Definition CONNECT_TIMEOUT : Z := from_secs 2.
Definition BUSINESS_TIMEOUT : Z := from_secs 15.
Definition MAX_CALLBACKS : nat := 64.
Definition MIN_CALLBACK_PORT : Z := 1024.
Definition CALLBACK_PREFIX : bytes := str "/jbl-aura-event/".
Definition CALLBACK_POLL : Z := from_millis 5.

(** [MAX_CALLBACKS] accepted connections, the sleeps that fit in
    [BUSINESS_TIMEOUT], and the last look at the clock. *)
Definition OBSERVE_FUEL : nat := 64 + 3000 + 2.
#[global] Arguments OBSERVE_FUEL : simpl never.

(** [map_err(|_| failure)?] on a call that changes the world. *)
Notation "'let?~' ( x , w ) ':=' m 'or' failure 'in' k" :=
  (match m with
   | (Some x, w) => k
   | (None, w) => (Err failure, w)
   end)
  (at level 10, x pattern, w name, m at level 100, failure at level 100, k at level 200)
  : rust_scope.

Section Observer.
Context {W : Type} `{GenaNet W} `{GenaLibrary}.

Record Subscription := mkSubscription {
  listener : Listener;
  sid : bytes;
  path : bytes;
  last_seq : option Z;
}.

Record GenaBroadcastObserver := mkGenaBroadcastObserver {
  jbl_address : Ipv4Addr;
  event_port : Z;
  callback_port : Z;
  allow_loopback : bool;
  subscription : option Subscription;
}.

Definition set_subscription (s : option Subscription) (o : GenaBroadcastObserver)
  : GenaBroadcastObserver :=
  mkGenaBroadcastObserver (jbl_address o) (event_port o) (callback_port o) (allow_loopback o) s.

Definition from_parts (jbl_address : Ipv4Addr) (event_port callback_port : Z)
    (allow_loopback : bool) : result GenaBroadcastObserver GenaFailure.t :=
  if (event_port =? 0)%Z || (callback_port <? MIN_CALLBACK_PORT)%Z
     || Ipv4.is_unspecified jbl_address || Ipv4.is_multicast jbl_address
     || bool_decide (jbl_address = Ipv4.BROADCAST)
     || (Ipv4.is_loopback jbl_address && negb allow_loopback)
  then Err GenaFailure.InvalidConfiguration
  else Ok (mkGenaBroadcastObserver jbl_address event_port callback_port allow_loopback None).

Definition with_callback_port (address : bytes) (callback_port : Z)
  : result GenaBroadcastObserver GenaFailure.t :=
  let? jbl_address := ok_or (Ipv4.parse address) GenaFailure.InvalidConfiguration in
  from_parts jbl_address EVENT_PORT callback_port false.

(** The event service of the JBL. *)
Definition target (o : GenaBroadcastObserver) : SocketAddrV4 :=
  mkSocketAddrV4 (jbl_address o) (event_port o).

(** ** Requests to the event service *)

Definition route_of (socket : Datagram) (service : SocketAddrV4) (w : W)
  : result Ipv4Addr GenaFailure.t * W :=
  let?~ (_, w) := udp_connect socket service w or GenaFailure.RouteUnavailable in
  let?~ (local, w) := udp_local_addr socket w or GenaFailure.RouteUnavailable in
  match local with
  | SocketAddr.V4 address => (Ok (ip address), w)
  | SocketAddr.V6 _ _ => (Err GenaFailure.RouteUnavailable, w)
  end.

Definition select_local_ipv4 (jbl : Ipv4Addr) (event_port : Z) (w : W)
  : result Ipv4Addr GenaFailure.t * W :=
  let?~ (socket, w) := udp_bind (mkSocketAddrV4 Ipv4.UNSPECIFIED 0) w
    or GenaFailure.RouteUnavailable in
  let '(r, w) := route_of socket (mkSocketAddrV4 jbl event_port) w in
  (r, drop_datagram socket w).

Definition random_callback_path (w : W) : result bytes GenaFailure.t * W :=
  let?~ (random, w) := rand_bytes 32 w or GenaFailure.ListenerUnavailable in
  (Ok (CALLBACK_PREFIX ++ concat (map hex_lower random)), w).

(** The first text that [event_request] writes, and each header after it. *)
Definition request_head (target : SocketAddrV4) (method : bytes) : bytes :=
  method ++ str " " ++ EVENT_PATH ++ str " HTTP/1.1" ++ CRLF
    ++ str "HOST: " ++ display_socket target ++ CRLF
    ++ str "Content-Length: 0" ++ CRLF ++ str "Connection: close" ++ CRLF.
Definition request_header (h : bytes * bytes) : bytes :=
  fst h ++ str ": " ++ snd h ++ CRLF.

Fixpoint write_texts (failure : GenaFailure.t) (stream : Stream) (texts : list bytes) (w : W)
  : result unit GenaFailure.t * W :=
  match texts with
  | [] => (Ok tt, w)
  | text :: texts =>
      let?~ (_, w) := stream_write stream text w or failure in
      write_texts failure stream texts w
  end.

(** The exchange on a connected stream. *)
Definition exchange (stream : Stream) (target : SocketAddrV4) (method : bytes)
    (extra_headers : list (bytes * bytes)) (failure : GenaFailure.t) (w : W)
  : result HttpMessage GenaFailure.t * W :=
  let?~ (_, w) := stream_set_read_timeout stream CONNECT_TIMEOUT w or failure in
  let?~ (_, w) := stream_set_write_timeout stream CONNECT_TIMEOUT w or failure in
  match write_texts failure stream
          (request_head target method :: map request_header extra_headers ++ [CRLF]) w with
  | (Err e, w) => (Err e, w)
  | (Ok _, w) =>
      let?~ (_, w) := stream_flush stream w or failure in
      let '(r, w) := read_http_message (stream_read stream) w MessageKind.Response false in
      (map_err (fun _ => failure) r, w)
  end.

Definition event_request (target : SocketAddrV4) (method : bytes)
    (extra_headers : list (bytes * bytes)) (failure : GenaFailure.t) (w : W)
  : result HttpMessage GenaFailure.t * W :=
  let?~ (stream, w) := stream_connect_timeout target CONNECT_TIMEOUT w or failure in
  let '(r, w) := exchange stream target method extra_headers failure w in
  (r, drop_stream stream w).

(** The UNSUBSCRIBE request of a subscription. *)
Definition unsubscribe (target : SocketAddrV4) (sid : bytes) (w : W)
  : result HttpMessage GenaFailure.t * W :=
  event_request target (str "UNSUBSCRIBE") [(str "SID", sid)] GenaFailure.CleanupFailed w.

(** ** Cancelling *)

(** The listener is closed before the request. *)
Definition cancel (o : GenaBroadcastObserver) (w : W)
  : result unit GenaFailure.t * GenaBroadcastObserver * W :=
  match subscription o with
  | None => (Ok tt, o, w)
  | Some s =>
      let o := set_subscription None o in
      let w := drop_listener (listener s) w in
      match unsubscribe (target o) (sid s) w with
      | (Err e, w) => (Err e, o, w)
      | (Ok response, w) =>
          if bool_decide (message_status response = Some 200%Z) then (Ok tt, o, w)
          else (Err GenaFailure.CleanupFailed, o, w)
      end
  end.

(** [Drop for GenaBroadcastObserver]. *)
Definition drop_observer (o : GenaBroadcastObserver) (w : W) : W := snd (cancel o w).

(** ** Arming *)

Definition subscribe_headers (local : Ipv4Addr) (callback_port : Z) (path : bytes)
  : list (bytes * bytes) :=
  [(str "CALLBACK",
    str "<http://" ++ Ipv4.display local ++ str ":" ++ dec callback_port ++ path ++ str ">");
   (str "NT", str "upnp:event");
   (str "TIMEOUT", str "Second-" ++ dec SUBSCRIPTION_SECONDS)].

(** What the answer to SUBSCRIBE must be; the SID is the subscription's. *)
Definition accepted_sid (response : HttpMessage) : result bytes GenaFailure.t :=
  if negb (bool_decide (message_status response = Some 200%Z))
  then Err GenaFailure.InvalidSubscription
  else
  match header (str "sid") response with
  | Some sid => if valid_sid sid then Ok sid else Err GenaFailure.InvalidSubscription
  | None => Err GenaFailure.InvalidSubscription
  end.

(** The part of [arm] that owns the listener: on failure the caller drops it. *)
Definition subscribe (o : GenaBroadcastObserver) (local : Ipv4Addr) (l : Listener) (w : W)
  : result Subscription GenaFailure.t * W :=
  let?~ (_, w) := listener_set_nonblocking l w or GenaFailure.ListenerUnavailable in
  match random_callback_path w with
  | (Err e, w) => (Err e, w)
  | (Ok path, w) =>
  match event_request (target o) (str "SUBSCRIBE")
          (subscribe_headers local (callback_port o) path)
          GenaFailure.SubscriptionUnavailable w with
  | (Err e, w) => (Err e, w)
  | (Ok response, w) =>
  match accepted_sid response with
  | Err e => (Err e, w)
  | Ok sid =>
      if match header (str "timeout") response with
         | Some timeout => negb (valid_subscription_timeout timeout)
         | None => false
         end
      then
        let '(_, w) := unsubscribe (target o) sid w in
        (Err GenaFailure.InvalidSubscription, w)
      else (Ok (mkSubscription l sid path None), w)
  end end end.

Definition arm (o : GenaBroadcastObserver) (w : W)
  : result unit GenaFailure.t * GenaBroadcastObserver * W :=
  match cancel o w with
  | (Err e, o, w) => (Err e, o, w)
  | (Ok _, o, w) =>
  match select_local_ipv4 (jbl_address o) (event_port o) w with
  | (Err e, w) => (Err e, o, w)
  | (Ok local, w) =>
      if Ipv4.is_unspecified local || Ipv4.is_multicast local
         || (Ipv4.is_loopback local && negb (allow_loopback o))
      then (Err GenaFailure.RouteUnavailable, o, w)
      else
      match listener_bind (mkSocketAddrV4 local (callback_port o)) w with
      | (None, w) => (Err GenaFailure.ListenerUnavailable, o, w)
      | (Some l, w) =>
          match subscribe o local l w with
          | (Err e, w) => (Err e, o, drop_listener l w)
          | (Ok s, w) => (Ok tt, set_subscription (Some s) o, w)
          end
      end
  end end.

(** ** Notifications *)

Definition callback_response (accepted : bool) : bytes :=
  str "HTTP/1.1 " ++ (if accepted then str "200 OK" else str "400 Bad Request") ++ CRLF
    ++ str "Content-Length: 0" ++ CRLF ++ str "Connection: close" ++ CRLF ++ CRLF.

(** Its failures are ignored. *)
Definition write_callback_response (stream : Stream) (accepted : bool) (w : W) : W :=
  let '(_, w) := stream_write stream (callback_response accepted) w in
  let '(_, w) := stream_flush stream w in
  w.

Definition header_eq_ignore_ascii_case (value : option bytes) (expected : bytes) : bool :=
  match value with Some value => eq_ignore_ascii_case value expected | None => false end.

(** The media type, when the notification names one. *)
Definition is_xml_content (content_type : option bytes) : bool :=
  match content_type with
  | None => true
  | Some content_type =>
      let media_type := trim (default [] (head (split_byte (z2b 59) content_type))) in
      eq_ignore_ascii_case media_type (str "text/xml")
      || eq_ignore_ascii_case media_type (str "application/xml")
  end.

Definition parse_sequence (seq_text : bytes) : result Z GenaFailure.t :=
  if bool_decide (seq_text = []) || negb (forallb is_ascii_digit seq_text)
  then Err InvalidCallback
  else ok_or (parse_unsigned u32_max seq_text) InvalidCallback.

(** The outcome, and the new [last_seq]. *)
Definition validate_callback (request : HttpMessage) (path sid : bytes) (last_seq : option Z)
    (action : GenaAction.t) : result CallbackOutcome.t GenaFailure.t * option Z :=
  match start_line request with
  | StartLine.Response _ => (Err InvalidCallback, last_seq)
  | StartLine.Request method target =>
      if negb (bool_decide (method = str "NOTIFY")) || negb (bool_decide (target = path))
      then (Err InvalidCallback, last_seq)
      else if negb (bool_decide (header (str "sid") request = Some sid))
         || negb (header_eq_ignore_ascii_case (header (str "nt") request) (str "upnp:event"))
         || negb (header_eq_ignore_ascii_case (header (str "nts") request) (str "upnp:propchange"))
      then (Err InvalidCallback, last_seq)
      else if negb (is_xml_content (header (str "content-type") request))
      then (Err InvalidCallback, last_seq)
      else
      match (let? seq_text := ok_or (header (str "seq") request) InvalidCallback in
             parse_sequence seq_text) with
      | Err e => (Err e, last_seq)
      | Ok seq =>
          if negb (sequence_is_next last_seq seq) then (Err InvalidCallback, last_seq)
          else
          match parse_event_body (body request) with
          | Err e => (Err e, last_seq)
          | Ok action_code => (Ok (reduce_action action action_code), Some seq)
          end
      end
  end.

(** What [observe_until] does with one accepted connection of the JBL. *)
Definition handle_callback (stream : Stream) (action : GenaAction.t) (deadline : Z)
    (s : Subscription) (w : W)
  : result CallbackOutcome.t GenaFailure.t * Subscription * W :=
  let '(now, w) := gena_now w in
  let io_timeout := Z.min (Z.max 0 (deadline - now)) CONNECT_TIMEOUT in
  match stream_set_read_timeout stream io_timeout w with
  | (None, w) => (Err InvalidCallback, s, w)
  | (Some _, w) =>
  match stream_set_write_timeout stream io_timeout w with
  | (None, w) => (Err InvalidCallback, s, w)
  | (Some _, w) =>
  match read_http_message (stream_read stream) w MessageKind.Request true with
  | (Err e, w) => (Err e, s, write_callback_response stream false w)
  | (Ok request, w) =>
      let (outcome, seq) := validate_callback request (path s) (sid s) (last_seq s) action in
      let s := mkSubscription (listener s) (sid s) (path s) seq in
      (outcome, s, write_callback_response stream (is_ok outcome) w)
  end end end.

(** The loop of [observe_until]; [None] is out of fuel. *)
Fixpoint observe_loop (fuel : nat) (jbl : Ipv4Addr) (action : GenaAction.t) (deadline : Z)
    (accepted : nat) (s : Subscription) (w : W)
  : option (result unit GenaFailure.t * Subscription * W) :=
  if (MAX_CALLBACKS <=? accepted)%nat then Some (Err InvalidCallback, s, w)
  else
  match fuel with
  | O => None
  | S fuel =>
      let '(now, w) := gena_now w in
      if (deadline <=? now)%Z then Some (Err GenaFailure.CallbackTimedOut, s, w)
      else
      match listener_accept (listener s) w with
      | (Ok (stream, peer), w) =>
          if negb (peer_is peer jbl)
          then observe_loop fuel jbl action deadline (S accepted) s (drop_stream stream w)
          else
          let '(outcome, s, w) := handle_callback stream action deadline s w in
          let w := drop_stream stream w in
          match outcome with
          | Err e => Some (Err e, s, w)
          | Ok CallbackOutcome.Confirmed => Some (Ok tt, s, w)
          | Ok CallbackOutcome.Rejected => Some (Err GenaFailure.BusinessRejected, s, w)
          | Ok CallbackOutcome.Pending =>
              observe_loop fuel jbl action deadline (S accepted) s w
          end
      | (Err IoErrorKind.WouldBlock, w) =>
          observe_loop fuel jbl action deadline accepted s (gena_sleep CALLBACK_POLL w)
      | (Err _, w) => Some (Err GenaFailure.ListenerUnavailable, s, w)
      end
  end.

Definition observe_until (fuel : nat) (action : GenaAction.t) (deadline : Z)
    (o : GenaBroadcastObserver) (w : W)
  : option (result unit GenaFailure.t * GenaBroadcastObserver * W) :=
  match subscription o with
  | None => Some (Err GenaFailure.ListenerUnavailable, o, w)
  | Some s =>
      match observe_loop fuel (jbl_address o) action deadline 0 s w with
      | None => None
      | Some (r, s, w) => Some (r, set_subscription (Some s) o, w)
      end
  end.

Definition observe_for (fuel : nat) (action : GenaAction.t) (timeout : Z)
    (o : GenaBroadcastObserver) (w : W)
  : option (result unit GenaFailure.t * GenaBroadcastObserver * W) :=
  let '(now, w) := gena_now w in
  match observe_until fuel action (now + Z.min timeout BUSINESS_TIMEOUT) o w with
  | None => None
  | Some (r, o, w) =>
      let '(cleanup, o, w) := cancel o w in
      Some (match r, cleanup with
            | Ok _, Ok _ => Ok tt
            | Ok _, Err _ => Err GenaFailure.CleanupFailed
            | Err e, _ => Err e
            end, o, w)
  end.

Definition observe (fuel : nat) (action : GenaAction.t) (o : GenaBroadcastObserver) (w : W)
  : option (result unit GenaFailure.t * GenaBroadcastObserver * W) :=
  observe_for fuel action BUSINESS_TIMEOUT o w.

(** ** Behind the trait of rust/src/backend_native.rs *)

(** The observer and the network it uses.  The fuel is always enough
    ([GenaSpec.observe_returns]), so the default is never taken. *)
Definition business_arm (b : GenaBroadcastObserver * W)
  : result unit GenaFailure.t * (GenaBroadcastObserver * W) :=
  let '(r, o, w) := arm (fst b) (snd b) in (r, (o, w)).
Definition business_observe (action : GenaAction.t) (b : GenaBroadcastObserver * W)
  : result unit GenaFailure.t * (GenaBroadcastObserver * W) :=
  let '(r, o, w) :=
    default (Err GenaFailure.CallbackTimedOut, fst b, snd b)
      (observe OBSERVE_FUEL action (fst b) (snd b)) in
  (r, (o, w)).
Definition business_cancel (b : GenaBroadcastObserver * W)
  : result unit GenaFailure.t * (GenaBroadcastObserver * W) :=
  let '(r, o, w) := cancel (fst b) (snd b) in (r, (o, w)).

#[export] Instance GenaBroadcastObserver_business
  : BroadcastBusinessObserver (GenaBroadcastObserver * W) := {
  arm_business_observer := business_arm;
  observe_business_result := business_observe;
  cancel_business_observer := business_cancel;
}.
End Observer.

#[global] Arguments Subscription W {_}.
#[global] Arguments GenaBroadcastObserver W {_}.
