(* ===== verification/NativeSpec.v ===== *)
(** What the native pair backend guarantees (rust/src/backend_native.rs), from
    the contracts of its parts: the observer's and the core's laws, the order of
    the role commands, and its uncertainty latch. *)
From S2P Require Import Prelude Bytes Backend Model Control Controller Bluez AuraBluez JblGatt BroadcastGena.
From S2P Require Import BackendNative ControllerSpec.

(** * The JBL mutation transport *)

Section GattMutation.
Context {W S : Type} `{BluezStackLaws W S}.

Definition is_write_request (packet : bytes) : bool :=
  bool_decide (head packet = Some JblGatt.ATT_WRITE_REQUEST).

Definition gatt_writes (g : JblGattBroadcastTransport W S) : nat :=
  length (filter is_write_request (gatt_sent g)).

Lemma mtu_request_not_write : filter is_write_request [mtu_request] = [].
Proof. done. Qed.

#[export] Instance JblGatt_mutation_laws
  : BroadcastMutationLaws (JblGattBroadcastTransport W S).
Proof.
  refine {| mutation_writes := gatt_writes |}; [|done].
  intros i g r g' E. simpl in E. unfold jbl_gatt_arm in E.
  destruct (connect_public_bearer _ _ _) as [[b|e] w] eqn:Ec;
    apply connect_public_bearer_sent in Ec; simplify_eq/=;
    unfold gatt_writes, gatt_sent, sent_at_most in *; simpl;
    destruct Ec as [->| ->]; rewrite ?filter_app, ?mtu_request_not_write, ?app_nil_r; done.
Defined.
End GattMutation.

(** * The production observer *)

Section Observer.
Context {B M : Type} `{BroadcastBusinessObserver B} `{BroadcastMutationLaws M}.
#[local] Abbreviation obs := (ProductionBroadcastObserver B M).

Definition observer_mutation (o : obs) : M :=
  match o with Ack m => m | Gena c => mutation c end.

Lemma cancel_all_mutation (c c' : ConfirmedBroadcastCoordinator B M) r :
  cancel_all c = (r, c') -> mutation c' = cancel_mutation (mutation c).
Proof. unfold cancel_all. case_match. by intros [= <- <-]. Qed.

#[export] Instance ProductionBroadcastObserver_laws : BroadcastResultObserverLaws obs.
Proof.
  refine {| broadcast_writes o := mutation_writes (observer_mutation o) |}.
  - intros a i [m|c] r o' E; simpl in E.
    + destruct (arm_mutation i m) as [r1 m1] eqn:E1. apply arm_mutation_no_write in E1.
      by simplify_eq/=.
    + unfold coordinator_arm in E. destruct (arm_business_observer (business c)) as [[[]|] b] eqn:Eb.
      * destruct (arm_mutation i (mutation c)) as [[[]|] m1] eqn:E1;
          apply arm_mutation_no_write in E1; [by simplify_eq/=|].
        destruct (cancel_all _) as [rc c1] eqn:Ec. simplify_eq/=.
        by rewrite (cancel_all_mutation _ _ _ Ec), cancel_mutation_no_write.
      * destruct (cancel_all _) as [rc c1] eqn:Ec. simplify_eq/=.
        by rewrite (cancel_all_mutation _ _ _ Ec), cancel_mutation_no_write.
  - intros [m|c]; simpl; [apply cancel_mutation_no_write|].
    destruct (cancel_all c) as [r c1] eqn:Ec. simpl.
    by rewrite (cancel_all_mutation _ _ _ Ec), cancel_mutation_no_write.
Defined.

(** A broadcast is reported as confirmed exactly when the mutation was
    acknowledged, the matching business result was observed and the
    subscription was cleaned up; and whatever the outcome, executing leaves
    both the mutation transport and the business observer cancelled, the first
    failure in that order being the one reported. *)
Theorem coordinator_confirms_and_cleans_up action identity
    (c c' : ConfirmedBroadcastCoordinator B M) r :
  coordinator_execute action identity c = (r, c') ->
  let '(sent, m1) := execute_mutation (broadcast_command action identity) (mutation c) in
  observer_mutation (Gena c') = cancel_mutation m1 /\
  match sent with
  | Err failure =>
      r = Err (map_jbl_gatt_failure failure) /\
      business c' = snd (cancel_business_observer (business c))
  | Ok _ =>
      let '(observed, b1) := observe_business_result (gena_action action) (business c) in
      let '(cleanup, b2) := cancel_business_observer b1 in
      business c' = b2 /\
      (r = Ok BroadcastResultEvidence.ConfirmedNotification <->
         observed = Ok tt /\ cleanup = Ok tt) /\
      r <> Ok BroadcastResultEvidence.AckOnly /\
      (forall failure, observed = Err failure -> r = Err (map_gena_failure failure))
  end.
Proof.
  unfold coordinator_execute, cancel_all. intros E.
  destruct (execute_mutation _ (mutation c)) as [[[]|f] m1] eqn:Em; simpl in *.
  - destruct (observe_business_result _ _) as [ob b1] eqn:Eo.
    destruct (cancel_business_observer b1) as [rc b2] eqn:Ec. simplify_eq/=.
    destruct ob as [[]|], rc as [[]|]; simpl; split_and!; intuition congruence.
  - destruct (cancel_business_observer (business c)) as [rc b2] eqn:Ec. by simplify_eq/=.
Qed.
End Observer.

(** * The pair core *)

Section Core.
Context {J A O : Type} `{JblRoleControlLaws J} `{AuraRoleControlLaws A}
  `{BroadcastResultObserverLaws O}.
#[local] Abbreviation core := (NativePairCore J A O).

Definition native_writes (c : core) : nat :=
  jbl_writes (jbl c) + aura_writes (aura c) + broadcast_writes (broadcast_observer c).

Lemma call_aura_spec {R} (f : A -> R * A) (c c' : core) r :
  call_aura f c = (r, c') -> exists a, f (aura c) = (r, a) /\ c' = set_aura a c.
Proof. unfold call_aura. destruct (f (aura c)) as [r1 a]. intros [= <- <-]. eauto. Qed.

Lemma call_jbl_spec {R} (f : J -> R * J) (c c' : core) r :
  call_jbl f c = (r, c') -> exists j, f (jbl c) = (r, j) /\ c' = set_jbl j c.
Proof. unfold call_jbl. destruct (f (jbl c)) as [r1 j]. intros [= <- <-]. eauto. Qed.

Lemma call_observer_spec {R} (f : O -> R * O) (c c' : core) r :
  call_observer f c = (r, c') ->
  exists o, f (broadcast_observer c) = (r, o) /\ c' = set_observer o c.
Proof. unfold call_observer. destruct (f (broadcast_observer c)) as [r1 o]. intros [= <- <-]. eauto. Qed.

Lemma settled_in_spec l (c c' : core) b :
  settled_in l c = (b, c') ->
  exists a, c' = set_aura a c /\ aura_writes a = aura_writes (aura c) /\
    (b = true -> lifecycle c = l).
Proof.
  unfold settled_in. case_decide as Hl; intros E.
  - destruct (call_aura aura_health c) as [h c1] eqn:E1. simplify_eq.
    apply call_aura_spec in E1 as (a & E1 & ->). apply aura_health_no_write in E1. eauto.
  - simplify_eq. exists (aura c'). by destruct c'.
Qed.

(** A fresh acquisition: the old bearer was released and a new one was verified
    against the pinned identity, without any role command. *)
Definition freshly_acquired (identity : DeviceIdentity) (a a' : A) : Prop :=
  exists a1 a2, aura_shutdown a = (Ok tt, a1) /\ connect_verified identity a1 = (Ok tt, a2) /\
    a' = a2.

Lemma acquire_spec (c c' : core) r :
  acquire_fresh_aura_bearer c = (r, c') ->
  exists a, c' = set_aura a c /\ aura_writes a = aura_writes (aura c) /\
    (r = Ok tt -> freshly_acquired (aura_identity c) (aura c) a).
Proof.
  unfold acquire_fresh_aura_bearer. intros E.
  destruct (call_aura aura_shutdown c) as [[[]|e] c1] eqn:E1; simplify_eq.
  - destruct (call_aura _ c1) as [r2 c2] eqn:E2. simplify_eq.
    apply call_aura_spec in E1 as (a1 & E1 & ->). apply call_aura_spec in E2 as (a2 & E2 & ->).
    simpl in *. exists a2. split; [done|].
    pose proof (aura_shutdown_no_write _ _ _ E1). pose proof (aura_connect_no_write _ _ _ _ E2).
    split; [congruence|]. rewrite map_err_Ok. intros ->. by exists a1, a2.
  - apply call_aura_spec in E1 as (a1 & E1 & ->). exists a1.
    apply aura_shutdown_no_write in E1. done.
Qed.

(** Opens the calls a run has made, replacing each by what it says of the part
    it was made on. *)
Ltac core_calls :=
  repeat match goal with
  | E : call_aura _ _ = _ |- _ => apply call_aura_spec in E as (? & E & ->)
  | E : call_jbl _ _ = _ |- _ => apply call_jbl_spec in E as (? & E & ->)
  | E : call_observer _ _ = _ |- _ => apply call_observer_spec in E as (? & E & ->)
  | E : settled_in _ _ = _ |- _ => apply settled_in_spec in E as (? & -> & E & ?)
  | E : acquire_fresh_aura_bearer _ = _ |- _ => apply acquire_spec in E as (? & -> & E & ?)
  end; simpl in *.

(** Splits a run into its branches, one per place where it can stop. *)
Ltac native_run E :=
  unfold native_start, native_stop, reject_degraded, native_latch_unknown, cancel_observer in E;
  repeat match type of E with
  | context [match ?x with _ => _ end] => let Ex := fresh "Ex" in destruct x eqn:Ex; simplify_eq
  end; core_calls; simplify_eq/=;
  repeat match goal with
  | H : true = true -> _ |- _ => specialize (H eq_refl)
  | H : Ok tt = Ok tt -> _ |- _ => specialize (H eq_refl)
  | u : unit |- _ => destruct u
  end.

(** The ghost counts that the calls of a branch leave alone. *)
Ltac no_role_writes :=
  repeat match goal with
  | E : observer_arm _ _ _ = _ |- _ =>
      generalize (observer_arm_no_write _ _ _ _ _ E); revert E
  | E : aura_shutdown _ = _ |- _ => generalize (aura_shutdown_no_write _ _ _ E); revert E
  | E : aura_start _ = (AuraActionResult.RejectedBeforeSend _, _) |- _ =>
      generalize (aura_start_rejected _ _ _ E); revert E
  | E : aura_stop _ = (AuraActionResult.RejectedBeforeSend _, _) |- _ =>
      generalize (aura_stop_rejected _ _ _ E); revert E
  | E : enter _ = (PlayTogetherWriteResult.Rejected ?e, _) |- _ =>
      generalize (fun H => enter_rejected _ _ _ E H); revert E
  end; rewrite ?observer_cancel_no_write in *; intros;
  repeat match goal with
  | H : _ <> _ -> jbl_writes _ = _ |- _ => specialize (H ltac:(done))
  end.

Lemma native_start_rejected (c c' : core) f :
  native_start c = (PairActionResult.RejectedBeforeSend f, c') ->
  native_writes c' = native_writes c.
Proof. intros E. unfold native_writes. native_run E; no_role_writes; congruence. Qed.

Lemma native_stop_rejected (c c' : core) f :
  native_stop c = (PairActionResult.RejectedBeforeSend f, c') ->
  native_writes c' = native_writes c.
Proof. intros E. unfold native_writes. native_run E; no_role_writes; congruence. Qed.

Lemma native_shutdown_rejected (c c' : core) f :
  native_shutdown c = (PairActionResult.RejectedBeforeSend f, c') ->
  native_writes c' = native_writes c.
Proof.
  unfold native_shutdown, release_pair, native_latch_unknown. intros E.
  destruct (core_unresolved c); [done|]. case_decide.
  - by destruct (call_aura _ _) as [[[]|] ?].
  - destruct (native_stop c) as [[r|f1|f1] c1] eqn:Es; simplify_eq; [|by eapply native_stop_rejected].
    by destruct (call_aura _ _) as [[[]|] ?].
Qed.

Lemma native_recover_stop_rejected (c c' : core) f :
  native_recover_stop c = (PairActionResult.RejectedBeforeSend f, c') ->
  native_writes c' = native_writes c.
Proof.
  unfold native_recover_stop, native_latch_unknown. intros E.
  destruct (call_aura _ _) as [[[]|e] c1] eqn:E1; [|done].
  apply native_stop_rejected in E. core_calls. no_role_writes.
  unfold native_writes in *. simpl in *. lia.
Qed.

Lemma native_health_writes (c c' : core) h :
  native_health c = (h, c') -> native_writes c' = native_writes c.
Proof.
  unfold native_health. intros E. destruct (call_aura _ _) as [x c1] eqn:E1.
  core_calls. apply aura_health_no_write in E1. simplify_eq. unfold native_writes. simpl. lia.
Qed.

Lemma native_teardown_writes (c c' : core) r :
  native_teardown_transport c = (r, c') -> native_writes c' = native_writes c.
Proof.
  unfold native_teardown_transport. intros E. destruct (call_aura _ _) as [x c1] eqn:E1.
  core_calls. apply aura_shutdown_no_write in E1. simplify_eq. unfold native_writes. simpl. lia.
Qed.

#[export] Instance NativePairBackend_laws : PairBackendLaws core.
Proof.
  refine {| role_writes := native_writes |}; simpl.
  - intros c f c'. apply native_start_rejected.
  - intros c f c'. apply native_stop_rejected.
  - intros c f c'. apply native_shutdown_rejected.
  - intros c f c'. apply native_recover_stop_rejected.
  - intros c r c'. destruct (native_health c) as [h c1] eqn:E. intros [= <- <-].
    by eapply native_health_writes.
  - intros c r c'. apply native_teardown_writes.
Defined.

(** C11 The order of a START. A JBL role command needs a freshly acquired,
    identity-verified Aura bearer and an armed observer; a broadcast command
    needs the JBL to have accepted its role; an Aura role command needs both
    the JBL role and the broadcast result; and the pair is reported linked
    only after all three, unless it was already linked and nothing was sent. *)
Theorem native_start_order (c c' : core) r :
  native_start c = (r, c') ->
  (jbl_writes (jbl c') <> jbl_writes (jbl c) ->
     exists a0 a o, aura_writes a0 = aura_writes (aura c) /\
       freshly_acquired (aura_identity c) a0 a /\
       observer_arm BroadcastAction.Start (jbl_identity c) (broadcast_observer c) = (Ok tt, o)) /\
  (broadcast_writes (broadcast_observer c') <> broadcast_writes (broadcast_observer c) ->
     exists response, enter (jbl c) = (PlayTogetherWriteResult.Accepted response, jbl c')) /\
  (aura_writes (aura c') <> aura_writes (aura c) ->
     exists response o evidence,
       enter (jbl c) = (PlayTogetherWriteResult.Accepted response, jbl c') /\
       observer_execute BroadcastAction.Start (jbl_identity c) o = (Ok evidence, broadcast_observer c')) /\
  (forall receipt, r = PairActionResult.Accepted receipt ->
     receipt_lifecycle receipt = PairLifecycle.Linked /\ lifecycle c' = PairLifecycle.Linked /\
     if idempotent receipt then native_writes c' = native_writes c
     else exists response o evidence a0 a,
       enter (jbl c) = (PlayTogetherWriteResult.Accepted response, jbl c') /\
       observer_execute BroadcastAction.Start (jbl_identity c) o = (Ok evidence, broadcast_observer c') /\
       freshly_acquired (aura_identity c) a0 a /\ aura_start a = (AuraActionResult.Accepted, aura c')).
Proof.
  intros E. unfold native_writes. native_run E; unfold accepted, accepted_with_broadcast_evidence.
  all: no_role_writes; split_and!; try congruence; try done; intros; simplify_eq/=; eauto 12 with lia.
Qed.

(** C10 The order of a STOP, receiver first. A broadcast command, and a JBL role
    command even more so, needs the Aura speaker to have acknowledged leaving
    its role on a freshly acquired bearer; and the pair is reported ready only
    after all three, unless it was already ready and nothing was sent. *)
Theorem native_stop_order (c c' : core) r :
  native_stop c = (r, c') ->
  (broadcast_writes (broadcast_observer c') <> broadcast_writes (broadcast_observer c) ->
     exists a0 a, freshly_acquired (aura_identity c) a0 a /\
       aura_stop a = (AuraActionResult.Accepted, aura c')) /\
  (jbl_writes (jbl c') <> jbl_writes (jbl c) ->
     exists a0 a o evidence, freshly_acquired (aura_identity c) a0 a /\
       aura_stop a = (AuraActionResult.Accepted, aura c') /\
       observer_execute BroadcastAction.Stop (jbl_identity c) o = (Ok evidence, broadcast_observer c')) /\
  (forall receipt, r = PairActionResult.Accepted receipt ->
     receipt_lifecycle receipt = PairLifecycle.Ready /\ lifecycle c' = PairLifecycle.Ready /\
     if idempotent receipt then native_writes c' = native_writes c
     else exists response o evidence a0 a,
       freshly_acquired (aura_identity c) a0 a /\ aura_stop a = (AuraActionResult.Accepted, aura c') /\
       observer_execute BroadcastAction.Stop (jbl_identity c) o = (Ok evidence, broadcast_observer c') /\
       exit (jbl c) = (PlayTogetherWriteResult.Accepted response, jbl c')).
Proof.
  intros E. unfold native_writes. native_run E; unfold accepted, accepted_with_broadcast_evidence.
  all: no_role_writes; split_and!; try congruence; try done; intros; simplify_eq/=; eauto 12 with lia.
Qed.

(** What may happen to the core short of an explicit recovery. *)
Inductive native_use : core -> core -> Prop :=
| use_native_start c r c' : native_start c = (r, c') -> native_use c c'
| use_native_stop c r c' : native_stop c = (r, c') -> native_use c c'
| use_native_shutdown c r c' : native_shutdown c = (r, c') -> native_use c c'
| use_native_health c h c' : native_health c = (h, c') -> native_use c c'
| use_native_teardown c r c' : native_teardown_transport c = (r, c') -> native_use c c'.

Lemma native_use_latched (c c' : core) f :
  native_use c c' -> core_unresolved c = Some f ->
  core_unresolved c' = Some f /\ native_writes c' = native_writes c.
Proof.
  intros Hs Hu. destruct Hs as [c r c' E|c r c' E|c r c' E|c h c' E|c r c' E].
  - unfold native_start in E. rewrite Hu in E. by simplify_eq.
  - unfold native_stop in E. rewrite Hu in E. by simplify_eq.
  - unfold native_shutdown in E. rewrite Hu in E. by simplify_eq.
  - split; [|by eapply native_health_writes].
    unfold native_health in E. destruct (call_aura _ c) as [x c1] eqn:E1. core_calls. by simplify_eq.
  - split; [|by eapply native_teardown_writes].
    unfold native_teardown_transport in E. destruct (call_aura _ c) as [x c1] eqn:E1.
    core_calls. by simplify_eq.
Qed.

Lemma native_unknown_latches (c c' : core) f :
  native_start c = (PairActionResult.OutcomeUnknown f, c') \/
  native_stop c = (PairActionResult.OutcomeUnknown f, c') ->
  core_unresolved c' = Some f.
Proof. intros [E|E]; native_run E; done. Qed.

Lemma release_pair_unknown_latches (c c' : core) f :
  release_pair c = (PairActionResult.OutcomeUnknown f, c') -> core_unresolved c' = Some f.
Proof.
  unfold release_pair, native_latch_unknown, accepted. intros E.
  destruct (call_aura _ _) as [[[]|] c1]; by simplify_eq/=.
Qed.

Lemma native_shutdown_unknown_latches (c c' : core) f :
  native_shutdown c = (PairActionResult.OutcomeUnknown f, c') -> core_unresolved c' = Some f.
Proof.
  unfold native_shutdown. intros E. destruct (core_unresolved c) eqn:?; [by simplify_eq|].
  case_decide; [by eapply release_pair_unknown_latches|].
  destruct (native_stop c) as [[r|f1|f1] c1] eqn:Es; simplify_eq;
    [by eapply release_pair_unknown_latches|].
  eapply native_unknown_latches. by right.
Qed.

(** C23 An uncertain action of the pair is terminal. Whichever action left the
    outcome unknown, every later START, STOP and SHUTDOWN answers that same
    failure, and no role command of any kind is sent, whatever is called, until
    an explicit recovery; and a recovery sends nothing either unless it first
    managed to release the old bearer. *)
Theorem native_latch_terminal (c c1 c2 : core) f :
  (native_start c = (PairActionResult.OutcomeUnknown f, c1) \/
   native_stop c = (PairActionResult.OutcomeUnknown f, c1) \/
   native_shutdown c = (PairActionResult.OutcomeUnknown f, c1)) ->
  rtc native_use c1 c2 ->
  native_writes c2 = native_writes c1 /\
  native_start c2 = (PairActionResult.OutcomeUnknown f, c2) /\
  native_stop c2 = (PairActionResult.OutcomeUnknown f, c2) /\
  native_shutdown c2 = (PairActionResult.OutcomeUnknown f, c2) /\
  (is_err (fst (aura_shutdown (aura c2))) = true ->
     native_writes (snd (native_recover_stop c2)) = native_writes c2 /\
     core_unresolved (snd (native_recover_stop c2)) <> None).
Proof.
  intros Hu Hs.
  assert (Hf : core_unresolved c1 = Some f).
  { destruct Hu as [Hu|[Hu|Hu]].
    - by apply (native_unknown_latches c); left.
    - by apply (native_unknown_latches c); right.
    - by apply (native_shutdown_unknown_latches c). }
  assert (X : core_unresolved c2 = Some f /\ native_writes c2 = native_writes c1).
  { clear Hu. induction Hs as [c1|c1 c3 c2 Huse _ IH]; [done|].
    destruct (native_use_latched _ _ _ Huse Hf) as [Hf3 Hw3].
    destruct (IH Hf3) as [? ?]. split; congruence. }
  destruct X as [X W]. unfold native_start, native_stop, native_shutdown. rewrite X.
  split_and!; try done.
  intros Herr. unfold native_recover_stop, call_aura. simpl.
  destruct (aura_shutdown (aura c2)) as [[[]|e] a] eqn:Ea; [done|].
  apply aura_shutdown_no_write in Ea. unfold native_writes. simpl. split; [lia|done].
Qed.

(** The health read is conservative: the pair projects as healthy only when
    nothing is unresolved, the last action ended ready or linked, and the Aura
    transport is ready or was deliberately released; everything else reports an
    error, and the read never sends a role command nor changes the lifecycle. *)
Theorem native_health_conservative (c c' : core) h :
  native_health c = (h, c') ->
  (health_level_of h = PairHealthLevel.Healthy <->
     core_unresolved c = None /\
     (lifecycle c = PairLifecycle.Ready \/ lifecycle c = PairLifecycle.Linked) /\
     (fst (aura_health (aura c)) = AuraHealth.Ready \/
      fst (aura_health (aura c)) = AuraHealth.Offline)) /\
  (reported_error h = false ->
     core_unresolved c = None /\ health_lifecycle h = lifecycle c) /\
  lifecycle c' = lifecycle c /\ core_unresolved c' = core_unresolved c /\
  native_writes c' = native_writes c.
Proof.
  intros E. pose proof (native_health_writes _ _ _ E) as W.
  unfold native_health, call_aura in E. destruct (aura_health (aura c)) as [ah a] eqn:Ea.
  cbn [fst snd set_aura core_unresolved lifecycle aura] in E.
  injection E as <- <-. split_and!; [| |done|done|done].
  - rewrite new_with_route_healthy. simpl.
    destruct (core_unresolved c), (lifecycle c) eqn:El, ah; simpl;
      repeat case_bool_decide; simpl; rewrite ?andb_false_r; simpl; intuition congruence.
  - unfold new_with_route. simpl.
    destruct (core_unresolved c), (lifecycle c), ah; simpl;
      repeat case_bool_decide; simpl; intuition congruence.
Qed.
End Core.

(** * The transport inside the core *)

Section AuraPart.
Context {J A O : Type} `{JblRoleControl J} `{AuraRoleControl A} `{BroadcastResultObserver O}.
#[local] Abbreviation core := (NativePairCore J A O).

(** What every call of the transport keeps ... *)
Record aura_keeps (Q : A -> Prop) : Prop := {
  keeps_connect d a r a' : connect_verified d a = (r, a') -> Q a -> Q a';
  keeps_health a h a' : aura_health a = (h, a') -> Q a -> Q a';
  keeps_start a r a' : aura_start a = (r, a') -> Q a -> Q a';
  keeps_stop a r a' : aura_stop a = (r, a') -> Q a -> Q a';
  keeps_shutdown a r a' : aura_shutdown a = (r, a') -> Q a -> Q a';
}.

Context (Q : A -> Prop) (HQ : aura_keeps Q).

Lemma call_aura_keeps {R} (f : A -> R * A) (c c' : core) r :
  (forall a r a', f a = (r, a') -> Q a -> Q a') ->
  call_aura f c = (r, c') -> Q (aura c) -> Q (aura c').
Proof. unfold call_aura. destruct (f (aura c)) as [r1 a] eqn:E. intros Hf [= <- <-]. by eapply Hf. Qed.

Lemma call_jbl_aura {R} (f : J -> R * J) (c c' : core) r :
  call_jbl f c = (r, c') -> Q (aura c) -> Q (aura c').
Proof. unfold call_jbl. destruct (f (jbl c)). by intros [= <- <-]. Qed.

Lemma call_observer_aura {R} (f : O -> R * O) (c c' : core) r :
  call_observer f c = (r, c') -> Q (aura c) -> Q (aura c').
Proof. unfold call_observer. destruct (f (broadcast_observer c)). by intros [= <- <-]. Qed.

Ltac kept :=
  first [exact (keeps_connect _ HQ _)|exact (keeps_health _ HQ)|exact (keeps_start _ HQ)
        |exact (keeps_stop _ HQ)|exact (keeps_shutdown _ HQ)].

(** Carries [Q] through the calls of a branch. *)
Ltac carry :=
  repeat match goal with
  | E : call_aura _ _ = (_, ?c) |- _ =>
      assert (Q (aura c)) by (apply (fun Hf => call_aura_keeps _ _ _ _ Hf E); [kept|by simpl]); clear E
  | E : call_jbl _ _ = (_, ?c) |- _ =>
      assert (Q (aura c)) by (eapply call_jbl_aura; [exact E|by simpl]); clear E
  | E : call_observer _ _ = (_, ?c) |- _ =>
      assert (Q (aura c)) by (eapply call_observer_aura; [exact E|by simpl]); clear E
  end; try done.

(** Splits a run into its branches and carries [Q] through each. *)
Ltac run_carry E :=
  repeat match type of E with
  | context [match ?x with _ => _ end] => let Ex := fresh "Ex" in destruct x eqn:Ex; simplify_eq
  end; simplify_eq; carry.

Lemma settled_in_keeps l (c c' : core) b : settled_in l c = (b, c') -> Q (aura c) -> Q (aura c').
Proof. unfold settled_in. intros E Hc. run_carry E. Qed.

Lemma acquire_keeps (c c' : core) r :
  acquire_fresh_aura_bearer c = (r, c') -> Q (aura c) -> Q (aura c').
Proof. unfold acquire_fresh_aura_bearer. intros E Hc. run_carry E. Qed.

Lemma native_start_keeps (c c' : core) r : native_start c = (r, c') -> Q (aura c) -> Q (aura c').
Proof.
  unfold native_start, reject_degraded, native_latch_unknown, cancel_observer. intros E Hc.
  destruct (core_unresolved c); [by simplify_eq|].
  destruct (settled_in _ c) as [b c1] eqn:E1. apply settled_in_keeps in E1; [|done].
  destruct b; [by simplify_eq|].
  destruct (acquire_fresh_aura_bearer c1) as [[[]|e] c2] eqn:E2; apply acquire_keeps in E2;
    [|done|by simplify_eq|done]. run_carry E.
Qed.

Lemma native_stop_keeps (c c' : core) r : native_stop c = (r, c') -> Q (aura c) -> Q (aura c').
Proof.
  unfold native_stop, reject_degraded, native_latch_unknown, cancel_observer. intros E Hc.
  destruct (core_unresolved c); [by simplify_eq|].
  destruct (settled_in _ c) as [b c1] eqn:E1. apply settled_in_keeps in E1; [|done].
  destruct b; [by simplify_eq|].
  destruct (acquire_fresh_aura_bearer c1) as [[[]|e] c2] eqn:E2; apply acquire_keeps in E2;
    [|done|by simplify_eq|done]. run_carry E.
Qed.

Lemma release_pair_keeps (c c' : core) r : release_pair c = (r, c') -> Q (aura c) -> Q (aura c').
Proof. unfold release_pair, native_latch_unknown. intros E Hc. run_carry E. Qed.

(** ... every call of the pair core keeps for the transport it holds. *)
Lemma backend_call_keeps (c c' : core) : backend_call c c' -> Q (aura c) -> Q (aura c').
Proof.
  intros [r E|action r E|r E] Hc; simpl in E.
  - unfold native_health in E. destruct (call_aura aura_health c) as [h c1] eqn:E1. carry.
    by simplify_eq.
  - destruct action; simpl in E; [by eapply native_start_keeps|by eapply native_stop_keeps|..].
    + unfold native_shutdown in E. destruct (core_unresolved c); [by simplify_eq|].
      case_decide; [by eapply release_pair_keeps|].
      destruct (native_stop c) as [[]] eqn:Es; apply native_stop_keeps in Es; try done;
        simplify_eq; [by eapply release_pair_keeps|done..].
    + unfold native_recover_stop, native_latch_unknown in E.
      destruct (call_aura _ _) as [[[]|e] c1] eqn:E1; carry; [|by simplify_eq].
      eapply native_stop_keeps; [exact E|done].
  - unfold native_teardown_transport in E. run_carry E.
Qed.
End AuraPart.
