(* ===== verification/GenaSpec.v ===== *)
(** What the business observer promises (rust/src/broadcast_gena.rs): a listener
    is open exactly while a subscription is held; a wait ends; a result is
    confirmed only by a genuine, in-sequence notification of the configured JBL;
    and the coordinator that uses it (rust/src/backend_native.rs) confirms a
    broadcast only then. *)
From S2P Require Import Prelude.
From S2P Require Import Bytes.
From S2P Require Import Backend.
From S2P Require Import Model.
From S2P Require Import Tcp.
From S2P Require Import BackendNative.
From S2P Require Import BroadcastGena.
From S2P Require Import GenaBody.
From S2P Require Import GenaHttp.
From S2P Require Import GenaHttpSpec.
From S2P Require Import Gena.

(** * What the network promises *)

(** [clock] is the monotonic time, [is_open] tells the listeners that accept
    connections. *)
Record quiet {W L : Type} (clock : W -> Z) (is_open : L -> W -> Prop) (w w' : W) : Prop := {
  quiet_clock : (clock w <= clock w')%Z;
  quiet_open : forall l, is_open l w' <-> is_open l w;
}.

Class GenaNetLaws (W : Type) `{GenaNet W} := {
  clock : W -> Z;
  is_open : Listener -> W -> Prop;
  now_reads w t w' : gena_now w = (t, w') -> (clock w <= t <= clock w')%Z;
  now_quiet w : quiet clock is_open w (snd (gena_now w));
  sleep_quiet d w : quiet clock is_open w (gena_sleep d w);
  sleep_waits d w : (clock w + d <= clock (gena_sleep d w))%Z;
  rand_quiet n w : quiet clock is_open w (snd (rand_bytes n w));
  udp_bind_quiet a w : quiet clock is_open w (snd (udp_bind a w));
  udp_connect_quiet s a w : quiet clock is_open w (snd (udp_connect s a w));
  udp_local_quiet s w : quiet clock is_open w (snd (udp_local_addr s w));
  drop_datagram_quiet s w : quiet clock is_open w (drop_datagram s w);
  nonblocking_quiet l w : quiet clock is_open w (snd (listener_set_nonblocking l w));
  accept_quiet l w : quiet clock is_open w (snd (listener_accept l w));
  connect_quiet a t w : quiet clock is_open w (snd (stream_connect_timeout a t w));
  read_timeout_quiet s t w : quiet clock is_open w (snd (stream_set_read_timeout s t w));
  write_timeout_quiet s t w : quiet clock is_open w (snd (stream_set_write_timeout s t w));
  write_quiet s b w : quiet clock is_open w (snd (stream_write s b w));
  flush_quiet s w : quiet clock is_open w (snd (stream_flush s w));
  read_quiet s n w : quiet clock is_open w (snd (stream_read s n w));
  drop_stream_quiet s w : quiet clock is_open w (drop_stream s w);
  (** A bound listener is a new one. *)
  bind_opens a w l w' : listener_bind a w = (Some l, w') ->
    (clock w <= clock w')%Z /\ ~ is_open l w /\
    forall l', is_open l' w' <-> l' = l \/ is_open l' w;
  bind_fails a w w' : listener_bind a w = (None, w') -> quiet clock is_open w w';
  drop_listener_closes l w :
    (clock w <= clock (drop_listener l w))%Z /\
    forall l', is_open l' (drop_listener l w) <-> l' <> l /\ is_open l' w;
}.

Section Observer.
Context {W : Type} `{GenaNetLaws W} `{GenaLibrary}.
#[local] Abbreviation calm := (quiet clock is_open).

#[local] Instance calm_preorder : PreOrder calm.
Proof.
  split.
  - intros w. by split.
  - intros w1 w2 w3 [C1 O1] [C2 O2]. split; [lia|]. intros l. by rewrite O2.
Qed.

Create HintDb calm.

(** [m] is a call whose result and next world are known. *)
Ltac calm_call m lemma x w E :=
  pose proof lemma as E; destruct m as [x w]; simpl in E.

Lemma read_some_calm stream w : calm w (snd (read_some (stream_read stream) w)).
Proof.
  unfold read_some. calm_call (stream_read stream READ_BUFFER w) (read_quiet stream READ_BUFFER w) x w1 C1.
  by destruct x as [[|]|].
Qed.

Lemma read_head_calm stream kind required fuel received w r w' :
  read_head (stream_read stream) fuel kind required received w = Some (r, w') -> calm w w'.
Proof.
  revert received w. induction fuel as [|fuel IH]; intros received w; [done|].
  cbn [read_head].
  calm_call (read_some (stream_read stream) w) (read_some_calm stream w) x w1 C1.
  destruct x as [chunk|e]; [|by intros [= <- <-]].
  destruct (head_turn _ _ _) as [[|]|]; try (by intros [= <- <-]).
  intros Hr%IH. by etrans.
Qed.

Lemma read_body_calm stream total fuel received w r w' :
  read_body (stream_read stream) fuel total received w = Some (r, w') -> calm w w'.
Proof.
  revert received w. induction fuel as [|fuel IH]; intros received w;
    cbn [read_body]; destruct (_ <=? _)%nat; try done; try (by intros [= <- <-]).
  calm_call (read_some (stream_read stream) w) (read_some_calm stream w) x w1 C1.
  destruct x as [chunk|e]; [|by intros [= <- <-]].
  destruct (_ <? _)%nat; [by intros [= <- <-]|]. intros Hr%IH. by etrans.
Qed.

Lemma read_message_calm stream kind required w r w' :
  read_http_message (stream_read stream) w kind required = (r, w') -> calm w w'.
Proof.
  intros Er. pose proof (read_message_enough (stream_read stream) w kind required) as E.
  rewrite Er in E. unfold read_message_within in E.
  destruct (read_head _ _ _ _ _ _) as [[[head|e] w1]|] eqn:Eh; [| |done];
    apply read_head_calm in Eh; [|by simplify_eq].
  destruct (checked_add _ _ _); [|by simplify_eq].
  destruct (_ <? _)%nat; [by simplify_eq|].
  destruct (read_body _ _ _ _ _) as [[[all|e] w2]|] eqn:Eb; [| |done];
    apply read_body_calm in Eb; simplify_eq; by etrans.
Qed.

#[local] Hint Resolve now_quiet sleep_quiet rand_quiet udp_bind_quiet udp_connect_quiet
  udp_local_quiet drop_datagram_quiet nonblocking_quiet accept_quiet connect_quiet
  read_timeout_quiet write_timeout_quiet write_quiet flush_quiet drop_stream_quiet : calm.
#[local] Hint Extern 1 (calm ?w ?w) => reflexivity : calm.

(** One call after the other. *)
Ltac calm_calls :=
  repeat (simpl; match goal with
  | |- calm ?w (snd (match ?m with _ => _ end)) =>
      transitivity (snd m); [solve [eauto with calm]|destruct m as [[] ?]]
  | |- calm ?w (snd (match ?m with _ => _ end)) => destruct m
  end); simpl; eauto with calm.

Lemma read_calm stream kind required w :
  calm w (snd (read_http_message (stream_read stream) w kind required)).
Proof. destruct (read_http_message _ _ _ _) eqn:E. by eapply read_message_calm. Qed.
#[local] Hint Resolve read_calm : calm.

Lemma write_texts_calm failure stream texts w :
  calm w (snd (write_texts failure stream texts w)).
Proof.
  revert w. induction texts as [|text texts IH]; intros w; simpl; [done|].
  transitivity (snd (stream_write stream text w)); [eauto with calm|].
  by destruct (stream_write stream text w) as [[] w1]; simpl.
Qed.
#[local] Hint Resolve write_texts_calm : calm.
#[local] Arguments write_texts : simpl never.

Lemma exchange_calm stream target method extra failure w :
  calm w (snd (exchange stream target method extra failure w)).
Proof. unfold exchange. calm_calls. Qed.
#[local] Hint Resolve exchange_calm : calm.

Lemma event_request_calm target method extra failure w :
  calm w (snd (event_request target method extra failure w)).
Proof. unfold event_request. calm_calls. Qed.
#[local] Hint Resolve event_request_calm : calm.

Lemma unsubscribe_calm target sid w : calm w (snd (unsubscribe target sid w)).
Proof. apply event_request_calm. Qed.
#[local] Hint Resolve unsubscribe_calm : calm.

Lemma route_of_calm socket service w : calm w (snd (route_of socket service w)).
Proof. unfold route_of. calm_calls. Qed.
#[local] Hint Resolve route_of_calm : calm.

Lemma select_local_calm jbl port w : calm w (snd (select_local_ipv4 jbl port w)).
Proof. unfold select_local_ipv4. calm_calls. Qed.

Lemma random_path_calm w : calm w (snd (random_callback_path w)).
Proof. unfold random_callback_path. calm_calls. Qed.
#[local] Hint Resolve select_local_calm random_path_calm : calm.

Lemma subscribe_calm (o : GenaBroadcastObserver W) local l w :
  calm w (snd (subscribe o local l w)).
Proof. unfold subscribe. calm_calls. Qed.
#[local] Hint Resolve subscribe_calm : calm.

Lemma write_response_calm stream accepted w :
  calm w (write_callback_response stream accepted w).
Proof.
  unfold write_callback_response.
  calm_call (stream_write stream (callback_response accepted) w)
    (write_quiet stream (callback_response accepted) w) x w1 C1.
  calm_call (stream_flush stream w1) (flush_quiet stream w1) y w2 C2. by etrans.
Qed.
#[local] Hint Resolve write_response_calm : calm.

Lemma handle_callback_calm stream action deadline s w :
  calm w (snd (handle_callback stream action deadline s w)).
Proof.
  unfold handle_callback.
  calm_call (gena_now w) (now_quiet w) now w1 C1. etrans; [done|].
  calm_calls.
Qed.
#[local] Hint Resolve handle_callback_calm : calm.

Lemma handle_callback_listener stream action deadline s w outcome s' w' :
  handle_callback stream action deadline s w = (outcome, s', w') ->
  listener s' = listener s /\ sid s' = sid s /\ path s' = path s.
Proof.
  unfold handle_callback. intros E. destruct (gena_now w) as [now w1].
  destruct (stream_set_read_timeout _ _ _) as [[] w2]; simplify_eq; [|done].
  destruct (stream_set_write_timeout _ _ _) as [[] w3]; simplify_eq; [|done].
  destruct (read_http_message _ _ _ _) as [[request|e] w4]; simplify_eq; [|done].
  by destruct (validate_callback _ _ _ _ _); simplify_eq.
Qed.

Lemma observe_loop_calm fuel jbl action deadline accepted s w r s' w' :
  observe_loop fuel jbl action deadline accepted s w = Some (r, s', w') ->
  calm w w' /\ listener s' = listener s /\ sid s' = sid s /\ path s' = path s.
Proof.
  revert accepted s w. induction fuel as [|fuel IH]; intros accepted s w; cbn [observe_loop];
    (destruct (MAX_CALLBACKS <=? accepted)%nat; [by intros [= <- <- <-]|]); [done|].
  calm_call (gena_now w) (now_quiet w) now w1 C1.
  destruct (deadline <=? now)%Z; [by intros [= <- <- <-]|].
  calm_call (listener_accept (listener s) w1) (accept_quiet (listener s) w1) got w2 C2.
  assert (calm w w2) as C by by etrans.
  destruct got as [[stream peer]|kind].
  - destruct (negb _).
    + intros (Cr & Hs)%IH. split; [|done]. do 2 (etrans; [done|]).
      etrans; [|done]. eauto with calm.
    + pose proof (handle_callback_calm stream action deadline s w2) as Ch.
      destruct (handle_callback _ _ _ _ _) as [[outcome s1] w3] eqn:Eh. simpl in Ch.
      apply handle_callback_listener in Eh as (El & Es & Ep). rewrite <- El, <- Es, <- Ep.
      assert (calm w (drop_stream stream w3)) by (do 2 (etrans; [done|]); eauto with calm).
      destruct outcome as [[]|e]; try (by intros [= <- <- <-]).
      intros (Cr & Hs)%IH. split; [|done]. by etrans.
  - destruct kind; try (by intros [= <- <- <-]).
    intros (Cr & Hs)%IH. split; [|done]. etrans; [done|]. etrans; [|done]. eauto with calm.
Qed.

(** * The listener *)

(** A listener is open exactly while a subscription holds it. *)
Definition listening_inv (o : GenaBroadcastObserver W) (w : W) : Prop :=
  forall l, is_open l w <-> listener <$> subscription o = Some l.

Lemma listening_calm o w w' : calm w w' -> listening_inv o w -> listening_inv o w'.
Proof. intros [_ C] Hi l. rewrite C. apply Hi. Qed.

Lemma drop_last_listener o s w :
  subscription o = Some s -> listening_inv o w ->
  listening_inv (set_subscription None o) (drop_listener (listener s) w).
Proof.
  intros Es Hi l. destruct (drop_listener_closes (listener s) w) as [_ Ho].
  rewrite Ho. rewrite (Hi l), Es. simpl. split; [intros [Hne [= El]]; congruence|done].
Qed.

Lemma cancel_listening o w r o' w' :
  cancel o w = (r, o', w') -> listening_inv o w ->
  listening_inv o' w' /\ o' = set_subscription None o.
Proof.
  unfold cancel. destruct (subscription o) as [s|] eqn:Es.
  - intros E Hi. pose proof (drop_last_listener o s w Es Hi) as Hd.
    pose proof (unsubscribe_calm (target (set_subscription None o)) (sid s)
                  (drop_listener (listener s) w)) as C.
    destruct (unsubscribe _ _ _) as [[response|e] w1]; simpl in C;
      [destruct (bool_decide _)|]; simplify_eq; (split; [|done]); by eapply listening_calm.
  - intros [= <- <- <-]. destruct o. simpl in *. by subst.
Qed.

Lemma subscribe_Ok o local l w s w' :
  subscribe o local l w = (Ok s, w') -> listener s = l /\ valid_sid (sid s) = true /\
    last_seq s = None /\ exists w1 w2, random_callback_path w1 = (Ok (path s), w2).
Proof.
  unfold subscribe. intros E.
  destruct (listener_set_nonblocking l w) as [[] w1]; [|done].
  destruct (random_callback_path w1) as [[p|] w2] eqn:Ep; [|done].
  destruct (event_request _ _ _ _ _) as [[response|] w3]; [|done].
  destruct (accepted_sid response) as [sid|] eqn:Es; [|done].
  destruct (match header _ _ with Some _ => _ | None => _ end).
  - by destruct (unsubscribe _ _ _).
  - simplify_eq/=. split_and!; eauto.
    unfold accepted_sid in Es. by repeat case_match; simplify_eq.
Qed.

Lemma arm_listening o w r o' w' :
  arm o w = (r, o', w') -> listening_inv o w ->
  listening_inv o' w' /\ (is_ok r = true <-> is_Some (subscription o')).
Proof.
  unfold arm. intros E Hi.
  assert (Hnone : forall w1, listening_inv (set_subscription None o) w1 ->
            forall e : GenaFailure.t, listening_inv (set_subscription None o) w1 /\
            (is_ok (@Err unit _ e) = true <-> is_Some (subscription (set_subscription None o)))).
  { intros w1 Hw e. split; [done|]. simpl. split; [done|by intros [? ?]]. }
  destruct (cancel o w) as [[rc oc] wc] eqn:Ec.
  apply cancel_listening in Ec as [Hc ->]; [|done].
  destruct rc as [u|e]; [|by simplify_eq; apply Hnone].
  pose proof (select_local_calm (jbl_address (set_subscription None o))
                (event_port (set_subscription None o)) wc) as C.
  destruct (select_local_ipv4 _ _ wc) as [[local|e] w1]; simpl in C;
    apply (listening_calm _ _ _ C) in Hc; [|by simplify_eq; apply Hnone].
  destruct (_ || _); [by simplify_eq; apply Hnone|].
  destruct (listener_bind _ w1) as [[l|] w2] eqn:Eb.
  - apply bind_opens in Eb as (_ & Hnew & Ho).
    pose proof (subscribe_calm (set_subscription None o) local l w2) as C2.
    destruct (subscribe _ local l w2) as [[s|e] w3] eqn:Es; simpl in C2; simplify_eq.
    + apply subscribe_Ok in Es as (<- & _). split; [|split; [by eexists|done]].
      intros l'. rewrite (quiet_open _ _ _ _ C2), Ho, (Hc l'). simpl.
      split; [intros [->|?]; done|intros [= ->]; by left].
    + apply Hnone. intros l'. destruct (drop_listener_closes l w3) as [_ Hd].
      rewrite Hd, (quiet_open _ _ _ _ C2), Ho, (Hc l'). simpl.
      split; [intros [? [?|?]]; done|done].
  - apply bind_fails in Eb. simplify_eq. apply Hnone. by eapply listening_calm.
Qed.

Lemma observe_until_listening fuel action deadline o w r o' w' :
  observe_until fuel action deadline o w = Some (r, o', w') ->
  calm w w' /\ listener <$> subscription o' = listener <$> subscription o.
Proof.
  unfold observe_until. destruct (subscription o) as [s|] eqn:Es.
  - destruct (observe_loop _ _ _ _ _ _ _) as [[[r1 s1] w1]|] eqn:E; [|done].
    intros [= <- <- <-]. apply observe_loop_calm in E as (C & El & _). split; [done|].
    simpl. by rewrite El.
  - intros [= <- <- <-]. split; [done|]. by rewrite Es.
Qed.

Lemma observe_for_listening fuel action timeout o w r o' w' :
  observe_for fuel action timeout o w = Some (r, o', w') -> listening_inv o w ->
  listening_inv o' w' /\ subscription o' = None.
Proof.
  unfold observe_for. intros E Hi.
  calm_call (gena_now w) (now_quiet w) now w1 C1.
  destruct (observe_until _ _ _ _ _) as [[[r1 o1] w2]|] eqn:Eo; [|done].
  apply observe_until_listening in Eo as [C2 El].
  destruct (cancel o1 w2) as [[rc o2] w3] eqn:Ec. simplify_eq.
  apply cancel_listening in Ec as [Hc ->]; [done|].
  intros l. rewrite El. rewrite <- (Hi l). assert (calm w w2) as [_ Ho] by (by etrans). apply Ho.
Qed.

(** The operations of the observer, in any order. *)
Inductive observer_step : GenaBroadcastObserver W * W -> GenaBroadcastObserver W * W -> Prop :=
| step_arm o w r o' w' : arm o w = (r, o', w') -> observer_step (o, w) (o', w')
| step_observe action timeout o w r o' w' :
    observe_for OBSERVE_FUEL action timeout o w = Some (r, o', w') ->
    observer_step (o, w) (o', w')
| step_cancel o w r o' w' : cancel o w = (r, o', w') -> observer_step (o, w) (o', w')
| step_outside o w w' : calm w w' -> observer_step (o, w) (o, w').

(** C17 From its construction on, through any sequence of arming, observing and
    cancelling and whatever happens to the network meanwhile, a callback
    listener is open exactly while the observer holds a subscription; arming
    succeeds exactly when it leaves one, and observing never does. *)
Theorem listener_open_iff_subscribed address callback_port o0 o w w0 :
  with_callback_port address callback_port = Ok o0 ->
  (forall l, ~ is_open l w0) ->
  rtc observer_step (o0, w0) (o, w) ->
  listening_inv o w /\
  (forall r o' w', arm o w = (r, o', w') -> is_ok r = true <-> is_Some (subscription o')) /\
  (forall action timeout r o' w',
     observe_for OBSERVE_FUEL action timeout o w = Some (r, o', w') ->
     subscription o' = None /\ forall l, ~ is_open l w').
Proof.
  intros E0 Hw0 Hr.
  assert (listening_inv o w) as Hi.
  { change (listening_inv (fst (o, w)) (snd (o, w))).
    revert Hr. generalize (o, w). apply rtc_ind_r.
    - intros l. simpl. assert (subscription o0 = None) as ->; [|split; [by intros ?%Hw0|done]].
      unfold with_callback_port, from_parts in E0. by split_cases_in E0.
    - intros x y _ Hs Hi. destruct Hs as [o1 w1 r o2 w2 E|a t o1 w1 r o2 w2 E|o1 w1 r o2 w2 E|o1 w1 w2 C];
        simpl in *.
      + by eapply arm_listening.
      + by eapply observe_for_listening.
      + by eapply cancel_listening.
      + by eapply listening_calm. }
  split_and!; [done| |].
  - intros r o' w' E. by eapply arm_listening.
  - intros action timeout r o' w' E. apply observe_for_listening in E as [Ho En]; [|done].
    split; [done|]. intros l. rewrite (Ho l), En. done.
Qed.

(** * The wait *)

Lemma sleep_step : CALLBACK_POLL = 5000000%Z.
Proof. done. Qed.

(** [polls] sleeps bring the clock to the deadline. *)
Lemma observe_loop_returns jbl action deadline fuel accepted polls s w :
  (deadline - clock w <= CALLBACK_POLL * Z.of_nat polls)%Z ->
  MAX_CALLBACKS - accepted + polls < fuel ->
  exists r, observe_loop fuel jbl action deadline accepted s w = Some r.
Proof.
  rewrite sleep_step. revert accepted polls s w.
  induction fuel as [|fuel IH]; intros accepted polls s w Hc Hf; [lia|].
  cbn [observe_loop].
  destruct (MAX_CALLBACKS <=? accepted)%nat eqn:Ea; [eauto|]. bool_hyps.
  destruct (gena_now w) as [now w1] eqn:En. apply now_reads in En.
  destruct (deadline <=? now)%Z eqn:Ed; [eauto|]. bool_hyps.
  calm_call (listener_accept (listener s) w1) (accept_quiet (listener s) w1) got w2 C2.
  apply quiet_clock in C2. destruct got as [[stream peer]|kind].
  - destruct (negb _).
    + apply (IH _ polls); [|lia]. pose proof (drop_stream_quiet stream w2) as [C3 _]. lia.
    + pose proof (handle_callback_calm stream action deadline s w2) as [C3 _].
      destruct (handle_callback _ _ _ _ _) as [[outcome s1] w3]. simpl in C3.
      destruct outcome as [[]|e]; eauto.
      apply (IH _ polls); [|lia]. pose proof (drop_stream_quiet stream w3) as [C4 _]. lia.
  - destruct kind; eauto.
    pose proof (sleep_waits CALLBACK_POLL w2) as Hs. rewrite sleep_step in *.
    destruct polls as [|polls].
    + lia.
    + apply (IH _ polls); lia.
Qed.

(** Waiting for a result always ends: the fuel covers the connections that
    may be accepted and the sleeps before the deadline, whatever the peers
    send and however the timeout was chosen. *)
Lemma observe_returns action timeout o w :
  exists r, observe_for OBSERVE_FUEL action timeout o w = Some r.
Proof.
  unfold observe_for. destruct (gena_now w) as [now w1] eqn:En. apply now_reads in En.
  destruct (observe_until OBSERVE_FUEL action (now + Z.min timeout BUSINESS_TIMEOUT) o w1)
    as [[[r o1] w2]|] eqn:E.
  - destruct (cancel o1 w2) as [[rc o2] w3]. eauto.
  - exfalso. unfold observe_until in E. destruct (subscription o) as [s|]; [|done].
    destruct (observe_loop_returns (jbl_address o) action
                (now + Z.min timeout BUSINESS_TIMEOUT) OBSERVE_FUEL 0 3000 s w1) as [[[r s1] w2] Er].
    + rewrite sleep_step. change BUSINESS_TIMEOUT with 15000000000%Z. lia.
    + unfold MAX_CALLBACKS, OBSERVE_FUEL. lia.
    + by rewrite Er in E.
Qed.

(** * Confirmation *)

(** The action code that confirms an action. *)
Definition confirming_code (action : GenaAction.t) : Z :=
  match action with GenaAction.Start => 33 | GenaAction.Stop => 34 end.

(** [m] is the notification with event key [seq] of the subscription. *)
Definition notification (m : HttpMessage) (path sid : bytes) (seq : Z) : Prop :=
  start_line m = StartLine.Request (str "NOTIFY") path /\
  header (str "sid") m = Some sid /\
  (exists nt, header (str "nt") m = Some nt /\
     eq_ignore_ascii_case nt (str "upnp:event") = true) /\
  (exists nts, header (str "nts") m = Some nts /\
     eq_ignore_ascii_case nts (str "upnp:propchange") = true) /\
  is_xml_content (header (str "content-type") m) = true /\
  exists seq_text, header (str "seq") m = Some seq_text /\ parse_sequence seq_text = Ok seq.

(** Event keys that follow one another, from the one last seen. *)
Inductive keys_from : option Z -> option Z -> Prop :=
| keys_none seen : keys_from seen seen
| keys_next seen last next :
    keys_from seen last -> sequence_is_next last next = true -> keys_from seen (Some next).

Lemma validate_callback_key request path sid last action outcome last' :
  validate_callback request path sid last action = (outcome, last') ->
  (last' = last \/ exists seq, last' = Some seq /\ sequence_is_next last seq = true) /\
  (outcome = Ok CallbackOutcome.Confirmed ->
   exists seq, last' = Some seq /\ sequence_is_next last seq = true /\
     notification request path sid seq /\
     parse_event_body (body request) = Ok (Some (confirming_code action))).
Proof.
  unfold validate_callback. intros E.
  destruct (start_line request) as [method target|] eqn:El; [|by simplify_eq; split; [left|]].
  destruct (_ || _) eqn:E1 in E; [by simplify_eq; split; [left|]|].
  destruct (_ || _) eqn:E2 in E; [by simplify_eq; split; [left|]|].
  destruct (negb _) eqn:E3 in E; [by simplify_eq; split; [left|]|]. bool_hyps. subst.
  destruct (header (str "seq") request) as [seq_text|] eqn:Es; cbn [ok_or] in E;
    [|by simplify_eq; split; [left|]].
  destruct (parse_sequence seq_text) as [seq|e] eqn:Eq; [|by simplify_eq; split; [left|]].
  destruct (sequence_is_next last seq) eqn:En; [|by simplify_eq/=; split; [left|]]. cbn [negb] in E.
  destruct (parse_event_body (body request)) as [code|e] eqn:Eb; [|by simplify_eq; split; [left|]].
  simplify_eq. split; [eauto|]. intros [= Hc]. exists seq. split_and!; [done|done| |].
  - unfold header_eq_ignore_ascii_case in *. unfold notification.
    split_and!; try done; [repeat case_match; by eauto..|by eauto].
  - unfold reduce_action in Hc. destruct action; split_cases_in Hc.
Qed.

(** What confirms: a connection from the JBL accepted on the listener before
    the deadline, from which the notification was read. *)
Definition confirmed_by (jbl : Ipv4Addr) (l : Listener) (path sid : bytes) (seen : option Z)
    (action : GenaAction.t) (deadline : Z) : Prop :=
  exists t w0 w1 stream peer w2 w3 m w4 last seq,
    gena_now w0 = (t, w1) /\ (t < deadline)%Z /\
    listener_accept l w1 = (Ok (stream, peer), w2) /\ peer_is peer jbl = true /\
    read_http_message (stream_read stream) w3 MessageKind.Request true = (Ok m, w4) /\
    keys_from seen last /\ sequence_is_next last seq = true /\
    notification m path sid seq /\
    parse_event_body (body m) = Ok (Some (confirming_code action)).

Lemma handle_callback_confirms stream action deadline s w outcome s' w' :
  handle_callback stream action deadline s w = (outcome, s', w') ->
  (forall seen, keys_from seen (last_seq s) -> keys_from seen (last_seq s')) /\
  (outcome = Ok CallbackOutcome.Confirmed ->
   exists w3 m w4 seq,
    read_http_message (stream_read stream) w3 MessageKind.Request true = (Ok m, w4) /\
    sequence_is_next (last_seq s) seq = true /\ notification m (path s) (sid s) seq /\
    parse_event_body (body m) = Ok (Some (confirming_code action))).
Proof.
  unfold handle_callback. intros E. destruct (gena_now w) as [now w1].
  destruct (stream_set_read_timeout _ _ _) as [[] w2]; simplify_eq; [|done].
  destruct (stream_set_write_timeout _ _ _) as [[] w3]; simplify_eq; [|done].
  destruct (read_http_message _ _ _ _) as [[request|e] w4] eqn:Er; simplify_eq; [|done].
  destruct (validate_callback _ _ _ _ _) as [o seq] eqn:Ev; simplify_eq.
  apply validate_callback_key in Ev as [Hk Hc]. split.
  - intros seen Hs. simpl. destruct Hk as [->|(k & -> & Hn)]; [done|]. by econstructor.
  - intros (k & _ & Hn & Hm & Hb)%Hc. by exists w3, request, w4, k.
Qed.

Lemma observe_loop_confirms seen jbl action deadline fuel accepted s w s' w' :
  observe_loop fuel jbl action deadline accepted s w = Some (Ok tt, s', w') ->
  keys_from seen (last_seq s) ->
  confirmed_by jbl (listener s) (path s) (sid s) seen action deadline.
Proof.
  revert accepted s w. induction fuel as [|fuel IH]; intros accepted s w; cbn [observe_loop];
    (destruct (MAX_CALLBACKS <=? accepted)%nat; [done|]); [done|].
  destruct (gena_now w) as [now w1] eqn:En.
  destruct (deadline <=? now)%Z eqn:Ed; [done|]. bool_hyps.
  destruct (listener_accept _ w1) as [[[stream peer]|kind] w2] eqn:Ea.
  - destruct (peer_is peer jbl) eqn:Ep; cbn [negb]; [|apply IH].
    destruct (handle_callback _ _ _ _ _) as [[outcome s1] w3] eqn:Eh. intros E Hs.
    pose proof (handle_callback_listener _ _ _ _ _ _ _ _ Eh) as (El & Es & Ep').
    apply handle_callback_confirms in Eh as [Hk Hc].
    destruct outcome as [[]|e]; try done.
    + destruct (Hc eq_refl) as (w4 & m & w5 & seq & ? & ? & ? & ?).
      by exists now, w, w1, stream, peer, w2, w4, m, w5, (last_seq s), seq.
    + rewrite <- El, <- Es, <- Ep'. eapply IH; [done|]. by apply Hk.
  - destruct kind; try done. apply IH.
Qed.

(** The cleanup that a confirmation needs. *)
Definition unsubscribed (service : SocketAddrV4) (sid : bytes) : Prop :=
  exists w response w', unsubscribe service sid w = (Ok response, w') /\
    message_status response = Some 200%Z.

Lemma cancel_Ok o w o' w' :
  cancel o w = (Ok tt, o', w') ->
  subscription o' = None /\
  forall s, subscription o = Some s -> unsubscribed (target o) (sid s).
Proof.
  unfold cancel. destruct (subscription o) as [s|] eqn:Es; [|intros [= <- <-]; by rewrite Es].
  destruct (unsubscribe _ _ _) as [[response|e] w1] eqn:Eu; [|done].
  destruct (bool_decide _) eqn:Eb; [|done]. intros [= <- <-]. bool_hyps.
  split; [done|]. intros s' [= <-]. by eexists _, _, _.
Qed.

Lemma observe_for_confirms fuel action timeout o w o' w' :
  observe_for fuel action timeout o w = Some (Ok tt, o', w') ->
  exists s started w1, subscription o = Some s /\ gena_now w = (started, w1) /\
    subscription o' = None /\ unsubscribed (target o) (sid s) /\
    confirmed_by (jbl_address o) (listener s) (path s) (sid s) (last_seq s) action
      (started + Z.min timeout BUSINESS_TIMEOUT).
Proof.
  unfold observe_for. destruct (gena_now w) as [started w1] eqn:En.
  destruct (observe_until _ _ _ _ _) as [[[r1 o1] w2]|] eqn:Eo; [|done].
  destruct (cancel o1 w2) as [[rc o2] w3] eqn:Ec. intros [= Hr <- <-].
  destruct r1 as [[]|e]; [|done]. destruct rc as [[]|e]; [|done].
  apply cancel_Ok in Ec as [Hn Hu]. unfold observe_until in Eo.
  destruct (subscription o) as [s|] eqn:Es; [|done].
  destruct (observe_loop _ _ _ _ _ _ _) as [[[r s1] w4]|] eqn:El; [|done]. simplify_eq.
  pose proof (observe_loop_calm _ _ _ _ _ _ _ _ _ _ El) as (_ & _ & Esid & _).
  exists s, started, w1. split_and!; try done.
  - specialize (Hu s1 eq_refl). by rewrite Esid in Hu.
  - eapply observe_loop_confirms; [done|constructor].
Qed.
End Observer.

(** * The coordinator *)

Section Coordinator.
Context {W M : Type} `{GenaNetLaws W} `{GenaLibrary} `{BroadcastMutationTransport M}.

End Coordinator.
