(* ===== verification/Ip.v ===== *)
(** Textual IP addresses, as [std::net] parses and prints them: the JBL client
    accepts both versions and prints the address into its URLs. *)
From S2P Require Import Prelude.
From S2P Require Import Bytes.
From S2P Require Import Model.
From S2P Require Import Gena.

(** * IPv6 *)

Module Ipv6.
Definition COLON : byte := z2b 58.

(** [read_number(16, Some(4), true)]: the digits are taken as long as there are
    any, and there must be one to four of them. *)
Fixpoint take_hex (input : bytes) : list Z * bytes :=
  match input with
  | c :: rest =>
      match hex_nibble c with
      | Some digit => let '(digits, after) := take_hex rest in (digit :: digits, after)
      | None => ([], input)
      end
  | [] => ([], [])
  end.
Definition read_group (input : bytes) : option (Z * bytes) :=
  let '(digits, rest) := take_hex input in
  if (1 <=? length digits)%nat && (length digits <=? 4)%nat
  then Some (fold_left (fun acc d => acc * 16 + d)%Z digits 0%Z, rest)
  else None.

(** [read_separator(':', index, ..)]. *)
Definition after_separator (index : nat) (input : bytes) : option bytes :=
  match index with O => Some input | S _ => strip_prefix [COLON] input end.

(** [read_groups] on a slice of which [places] are left: the groups, whether
    they end in an embedded IPv4 address, and the rest of the text.  An embedded
    address ends the text: nothing can follow it. *)
Fixpoint read_groups (places index : nat) (input : bytes) : list Z * bool * bytes :=
  match places with
  | O => ([], false, input)
  | S places =>
      match (if (1 <=? places)%nat then after_separator index input ≫= Ipv4.parse else None) with
      | Some v4 =>
          ([octet1 v4 * 256 + octet2 v4; octet3 v4 * 256 + octet4 v4]%Z, true, [])
      | None =>
          match after_separator index input ≫= read_group with
          | Some (group, rest) =>
              let '(groups, ended, rest) := read_groups places (S index) rest in
              (group :: groups, ended, rest)
          | None => ([], false, input)
          end
      end
  end.

(** The eight segments of [Ipv6Addr::from_str]. *)
Definition parse (text : bytes) : option (list Z) :=
  let '(head, head_ipv4, rest) := read_groups 8 0 text in
  if (length head =? 8)%nat then (if bool_decide (rest = []) then Some head else None)
  else if head_ipv4 then None
  else
    match strip_prefix [COLON; COLON] rest with
    | None => None
    | Some rest =>
        let '(tail, _, rest) := read_groups (8 - (length head + 1)) 0 rest in
        if bool_decide (rest = [])
        then Some (head ++ replicate (8 - length head - length tail) 0%Z ++ tail)
        else None
    end.

(** [{:x}] of one segment: its four digits without leading zeros. *)
Fixpoint strip_zeros (digits : list Z) : list Z :=
  match digits with
  | digit :: ((_ :: _) as rest) => if (digit =? 0)%Z then strip_zeros rest else digits
  | _ => digits
  end.
Definition hex_group (n : Z) : bytes :=
  map hex_digit_lower (strip_zeros [n / 4096; n / 256 mod 16; n / 16 mod 16; n mod 16]%Z).

(** [fmt_subslice]. *)
Fixpoint display_groups (segments : list Z) : bytes :=
  match segments with
  | [] => []
  | [segment] => hex_group segment
  | segment :: rest => hex_group segment ++ [COLON] ++ display_groups rest
  end.

(** The first of the longest runs of zero segments: its start and its length. *)
Fixpoint longest_zeroes (segments : list Z) (index : nat) (current longest : nat * nat)
  : nat * nat :=
  match segments with
  | [] => longest
  | segment :: rest =>
      if (segment =? 0)%Z then
        let start := match snd current with O => index | S _ => fst current end in
        let current := (start, S (snd current)) in
        longest_zeroes rest (S index) current
          (if (snd longest <? snd current)%nat then current else longest)
      else longest_zeroes rest (S index) (0, 0) longest
  end.

Definition display (segments : list Z) : bytes :=
  match segments with
  | [0; 0; 0; 0; 0; 0xffff; high; low]%Z =>
      str "::ffff:" ++
      Ipv4.display (mkIpv4 (high / 256) (high mod 256) (low / 256) (low mod 256))
  | _ =>
      let '(start, len) := longest_zeroes segments 0 (0, 0) (0, 0) in
      if (1 <? len)%nat
      then display_groups (take start segments) ++ str "::" ++
           display_groups (drop (start + len) segments)
      else display_groups segments
  end.
End Ipv6.

(** * Either version *)

Module Ip.
Inductive t := V4 (address : Ipv4Addr) | V6 (segments : list Z).
#[global] Instance eq_dec : EqDecision t. Proof. solve_decision. Defined.

(** [str::parse::<IpAddr>]: a text that begins with an IPv4 address and goes on
    is an address of neither version. *)
Definition parse (text : bytes) : option t :=
  match Ipv4.parse text with
  | Some address => Some (V4 address)
  | None => V6 <$> Ipv6.parse text
  end.

Definition display (address : t) : bytes :=
  match address with V4 a => Ipv4.display a | V6 s => Ipv6.display s end.

Definition is_v4 (address : t) : bool := match address with V4 _ => true | V6 _ => false end.
End Ip.

(** How the standard library prints what it read. *)
Example display_samples :
  map (fun text => Ip.display <$> Ip.parse (str text))
    ["192.0.2.10"; "FE80:0:0::1"; "::ffff:1.2.3.4"; "1:2:3:4:5:6:7:8"; "2001:db8::1:0:0:1"; "::";
     "1.2.3"; "1.2.3.4:5"; "1:2:3:4:5:6:7"; "12345::"; "::1%0"; "1::2::3"; "1:2:3:4:5:6:1.2.3.4";
     "2001:0:0:1:0:0:0:1"; "1:2:3:4:5:6:7::"; "::0a00"]%string =
  map (fun text => str <$> text)
    [Some "192.0.2.10"; Some "fe80::1"; Some "::ffff:1.2.3.4"; Some "1:2:3:4:5:6:7:8";
     Some "2001:db8::1:0:0:1"; Some "::"; None; None; None; None; None; None;
     Some "1:2:3:4:5:6:102:304"; Some "2001:0:0:1::1"; Some "1:2:3:4:5:6:7:0"; Some "::a00"]%string.
Proof. by vm_compute. Qed.
