(* ===== verification/Web.v ===== *)
(** The loopback HTTP boundary (rust/src/web.rs): request framing and parsing,
    the host, origin and CSRF checks, the routes with their compare-and-mutate
    dispatch to the one actor, and the sanitized responses.  JSON parsing and
    serialization, the constant-time comparison and the embedded page are the
    interface [WebLibrary]. *)
From S2P Require Import Prelude Bytes Backend Model Controller.

Definition DEFAULT_WEB_PORT : Z := 8096.
Definition MAX_HEADER_BYTES : nat := 16 * 1024.
Definition MAX_HEADER_COUNT : nat := 64.
Definition MAX_BODY_BYTES : nat := 4 * 1024.
Definition MAX_REQUEST_BYTES : nat := MAX_HEADER_BYTES + 4 + MAX_BODY_BYTES.
#[global] Arguments MAX_HEADER_BYTES : simpl never.
#[global] Arguments MAX_BODY_BYTES : simpl never.
#[global] Arguments MAX_REQUEST_BYTES : simpl never.
#[global] Opaque MAX_HEADER_BYTES MAX_BODY_BYTES.
Definition CSRF_COOKIE : bytes := str "jbl_aura_csrf".
Definition CSRF_HEADER : bytes := str "x-csrf-token".
Definition HEAD_END : bytes := CRLF ++ CRLF.

Module WebMutation.
Inductive t := Start | Stop | RecoverStop.
#[global] Instance eq_dec : EqDecision t. Proof. solve_decision. Defined.
End WebMutation.

(** [WebActor]; a [RevisionConflict] holds nothing. *)
Class WebActor (A : Type) := {
  actor_status : A -> ControllerStatus * A;
  mutate_if_revision : Z -> WebMutation.t -> A -> result ControllerActionResult unit * A;
}.

(** * Security inputs *)

Module WebConfigError.
Inductive t := NonLoopbackBind | InvalidPort | InvalidCsrfToken.
#[global] Instance eq_dec : EqDecision t. Proof. solve_decision. Defined.
End WebConfigError.

(** Four or sixteen octets. *)
Module IpAddr.
Inductive t := V4 (octets : bytes) | V6 (octets : bytes).
#[global] Instance eq_dec : EqDecision t. Proof. solve_decision. Defined.
Definition V4_LOCALHOST : t := V4 (map z2b [127; 0; 0; 1]%Z).
Definition V6_LOCALHOST : t := V6 (replicate 15 (z2b 0) ++ [z2b 1]).
End IpAddr.

Record WebSecurity := mkWebSecurity {
  bind_ip : IpAddr.t;
  bind_port : Z;
  csrf_token : bytes;
}.

Definition web_security_new (ip : IpAddr.t) (port : Z) (token : bytes)
  : result WebSecurity WebConfigError.t :=
  if negb (bool_decide (ip = IpAddr.V4_LOCALHOST \/ ip = IpAddr.V6_LOCALHOST))
  then Err WebConfigError.NonLoopbackBind
  else if (port =? 0)%Z then Err WebConfigError.InvalidPort
  else if forallb (fun byte => (b2z byte =? 0)%Z) token then Err WebConfigError.InvalidCsrfToken
  else Ok (mkWebSecurity ip port (concat (map hex_lower token))).

Definition web_security_loopback (token : bytes) : result WebSecurity WebConfigError.t :=
  web_security_new IpAddr.V4_LOCALHOST DEFAULT_WEB_PORT token.

(** * Responses *)

Record HttpResponse := mkHttpResponse {
  response_status : Z;
  response_headers : list (bytes * bytes);
  response_body : bytes;
}.

Definition reason_phrase (status : Z) : bytes :=
  if (status =? 200)%Z then str "OK"
  else if (status =? 400)%Z then str "Bad Request"
  else if (status =? 403)%Z then str "Forbidden"
  else if (status =? 404)%Z then str "Not Found"
  else if (status =? 405)%Z then str "Method Not Allowed"
  else if (status =? 409)%Z then str "Conflict"
  else if (status =? 411)%Z then str "Length Required"
  else if (status =? 413)%Z then str "Payload Too Large"
  else if (status =? 415)%Z then str "Unsupported Media Type"
  else if (status =? 428)%Z then str "Precondition Required"
  else if (status =? 505)%Z then str "HTTP Version Not Supported"
  else str "Error".

Definition header_line (header : bytes * bytes) : bytes :=
  let '(name, value) := header in name ++ str ": " ++ value ++ CRLF.

Definition to_http1_bytes (r : HttpResponse) : bytes :=
  str "HTTP/1.1 " ++ dec (response_status r) ++ str " " ++ reason_phrase (response_status r)
  ++ CRLF ++ concat (map header_line (response_headers r)) ++ CRLF ++ response_body r.

Definition DEFAULT_CSP : bytes :=
  str "default-src 'self'; object-src 'none'; base-uri 'none'; form-action 'none'; frame-ancestors 'none'".
Definition nonce_csp (nonce : bytes) : bytes :=
  str "default-src 'self'; script-src 'nonce-" ++ nonce ++
  str "'; connect-src 'self'; object-src 'none'; base-uri 'none'; form-action 'self'; frame-ancestors 'none'".

Definition response (status : Z) (content_type body : bytes) (csp_nonce : option bytes)
    (additional_headers : list (bytes * bytes)) : HttpResponse :=
  let csp := match csp_nonce with Some nonce => nonce_csp nonce | None => DEFAULT_CSP end in
  mkHttpResponse status
    ([(str "Content-Type", content_type);
      (str "Content-Length", dec (Z.of_nat (length body)));
      (str "Connection", str "close");
      (str "Cache-Control", str "no-store");
      (str "Pragma", str "no-cache");
      (str "X-Content-Type-Options", str "nosniff");
      (str "Referrer-Policy", str "no-referrer");
      (str "Content-Security-Policy", csp);
      (str "X-Frame-Options", str "DENY")] ++ additional_headers)
    body.

(** * Response bodies *)

Record MemberBody := mkMemberBody {
  body_name : bytes; body_verification : bytes; body_channels : list bytes;
}.
Record HealthBody := mkHealthBody {
  body_lifecycle : bytes; body_level : bytes; body_reported_error : bool;
  body_aura_transport : bytes; body_aura_acquisition_route : bytes;
}.
Record LastActionBody := mkLastActionBody {
  last_body_action : bytes; last_body_outcome : bytes; last_body_evidence : option bytes;
  last_body_failure : option bytes; last_body_revision : Z; last_body_age_ms : Z;
}.
Record StatusBody := mkStatusBody {
  body_backend : bytes; body_pair_configuration : bytes;
  body_members : MemberBody * MemberBody; body_managed_state : bytes;
  body_backend_health : option HealthBody; body_unresolved_action : bool;
  body_consecutive_failures : Z; body_revision : Z;
  body_last_action : option LastActionBody;
}.
Record ActionBody := mkActionBody {
  action_body_action : bytes; action_body_outcome : bytes; action_body_managed_state : bytes;
  action_body_evidence : option bytes; action_body_failure : option bytes;
  action_body_revision : Z;
}.

Module Body.
Inductive t :=
| Status (body : StatusBody) | Action (body : ActionBody)
| Error (error : bytes) | Readiness (status : bytes).
End Body.

Definition member_name_text (value : PairMemberName.t) : bytes :=
  match value with
  | PairMemberName.JblAuthentics300 => str "JBL Authentics 300"
  | PairMemberName.AuraStudio5 => str "Aura Studio 5"
  end.

Definition member_verification_name (value : PairMemberVerification.t) : bytes :=
  match value with
  | PairMemberVerification.Verified => str "verified"
  | PairMemberVerification.NotVerified => str "not_verified"
  | PairMemberVerification.Unavailable => str "unavailable"
  end.

Definition member_channel_name (value : PairMemberChannel.t) : bytes :=
  match value with
  | PairMemberChannel.FrontLeft => str "front_left"
  | PairMemberChannel.FrontRight => str "front_right"
  | PairMemberChannel.Left => str "left"
  | PairMemberChannel.Right => str "right"
  | PairMemberChannel.Mono => str "mono"
  | PairMemberChannel.Stereo => str "stereo"
  | PairMemberChannel.Unknown => str "unknown"
  end.

Definition backend_name (value : PairBackendKind.t) : bytes :=
  match value with
  | PairBackendKind.LegacyV04WholePair => str "legacy_v04_whole_pair"
  | PairBackendKind.NativePair => str "native_pair"
  end.

Definition pair_configuration_name (value : PairConfigurationState.t) : bytes :=
  match value with
  | PairConfigurationState.Ready => str "ready"
  | PairConfigurationState.NotReady => str "not_ready"
  | PairConfigurationState.Unavailable => str "unavailable"
  end.

Definition managed_state_name (value : ManagedLiveState.t) : bytes :=
  match value with
  | ManagedLiveState.Unknown => str "unknown"
  | ManagedLiveState.Offline => str "offline"
  | ManagedLiveState.Ready => str "ready"
  | ManagedLiveState.Linking => str "linking"
  | ManagedLiveState.Linked => str "linked"
  | ManagedLiveState.Unlinking => str "unlinking"
  | ManagedLiveState.Recovering => str "recovering"
  | ManagedLiveState.Degraded => str "degraded"
  | ManagedLiveState.ShuttingDown => str "shutting_down"
  end.

Definition lifecycle_name (value : PairLifecycle.t) : bytes :=
  match value with
  | PairLifecycle.Offline => str "offline"
  | PairLifecycle.Initializing => str "initializing"
  | PairLifecycle.Connecting => str "connecting"
  | PairLifecycle.Ready => str "ready"
  | PairLifecycle.Linking => str "linking"
  | PairLifecycle.Linked => str "linked"
  | PairLifecycle.Unlinking => str "unlinking"
  | PairLifecycle.Degraded => str "degraded"
  | PairLifecycle.Recovering => str "recovering"
  | PairLifecycle.ShuttingDown => str "shutting_down"
  | PairLifecycle.Failed => str "failed"
  end.

Definition health_level_name (value : PairHealthLevel.t) : bytes :=
  match value with
  | PairHealthLevel.Healthy => str "healthy"
  | PairHealthLevel.Transitioning => str "transitioning"
  | PairHealthLevel.Degraded => str "degraded"
  | PairHealthLevel.Unavailable => str "unavailable"
  end.

Definition aura_transport_name (value : AuraControlTransport.t) : bytes :=
  match value with
  | AuraControlTransport.Le => str "le"
  | AuraControlTransport.BrEdr => str "br_edr"
  | AuraControlTransport.Unresolved => str "unresolved"
  | AuraControlTransport.Unknown => str "unknown"
  end.

Definition acquisition_route_name (value : AuraAcquisitionRoute.t) : bytes :=
  match value with
  | AuraAcquisitionRoute.StableDirect => str "stable_direct"
  | AuraAcquisitionRoute.A2dpWakeThenStable => str "a2dp_wake_then_stable"
  | AuraAcquisitionRoute.FreshLe => str "fresh_le"
  | AuraAcquisitionRoute.Unresolved => str "unresolved"
  end.

Definition action_name (value : ControllerAction.t) : bytes :=
  match value with
  | ControllerAction.Start => str "start"
  | ControllerAction.Stop => str "stop"
  | ControllerAction.Shutdown => str "shutdown"
  | ControllerAction.RecoverStop => str "recover_stop"
  end.

Definition outcome_name (value : ControllerActionOutcome.t) : bytes :=
  match value with
  | ControllerActionOutcome.Accepted => str "accepted"
  | ControllerActionOutcome.AcceptedUnconfirmed => str "accepted_unconfirmed"
  | ControllerActionOutcome.Idempotent => str "idempotent"
  | ControllerActionOutcome.RejectedBeforeSend => str "rejected_before_send"
  | ControllerActionOutcome.OutcomeUnknown => str "outcome_unknown"
  | ControllerActionOutcome.PostconditionFailed => str "postcondition_failed"
  end.

Definition evidence_name (value : PairBackendEvidence.t) : bytes :=
  match value with
  | PairBackendEvidence.LocalSessionState => str "local_session_state"
  | PairBackendEvidence.LifecycleAcknowledgement => str "lifecycle_acknowledgement"
  | PairBackendEvidence.BroadcastAcknowledgementOnly => str "broadcast_acknowledgement_only"
  | PairBackendEvidence.BroadcastBusinessNotification => str "broadcast_business_notification"
  end.

Definition failure_name (value : ControllerFailure.t) : bytes :=
  match value with
  | ControllerFailure.PairConfigurationUnavailable => str "pair_configuration_unavailable"
  | ControllerFailure.ExpectedPairNotConfigured => str "expected_pair_not_configured"
  | ControllerFailure.BackendRejectedBeforeSend => str "backend_rejected_before_send"
  | ControllerFailure.AuraAdapterUnavailable => str "aura_adapter_unavailable"
  | ControllerFailure.AuraDiscoveryUnavailable => str "aura_discovery_unavailable"
  | ControllerFailure.AuraVerifiedAdvertisementNotFound => str "aura_verified_advertisement_not_found"
  | ControllerFailure.AuraDeviceConnectionFailed => str "aura_device_connection_failed"
  | ControllerFailure.AuraWakeProfileConnectFailed => str "wake_profile_connect_failed"
  | ControllerFailure.AuraWakeFddfTimedOut => str "wake_fddf_timed_out"
  | ControllerFailure.AuraWakeFddfInvalid => str "wake_fddf_invalid"
  | ControllerFailure.AuraWakeFddfUnavailable => str "wake_fddf_unavailable"
  | ControllerFailure.AuraWakeProfileReleaseFailed => str "wake_profile_release_failed"
  | ControllerFailure.AuraGattProfileInvalid => str "aura_gatt_profile_invalid"
  | ControllerFailure.AuraNotificationSetupFailed => str "aura_notification_setup_failed"
  | ControllerFailure.AuraWriteUnknown => str "aura_write_unknown"
  | ControllerFailure.AuraAckTimeout => str "aura_ack_timeout"
  | ControllerFailure.AuraAckChannelClosed => str "aura_ack_channel_closed"
  | ControllerFailure.AuraUnexpectedAck => str "aura_unexpected_ack"
  | ControllerFailure.JblEnterOutcomeUnknown => str "jbl_enter_outcome_unknown"
  | ControllerFailure.JblExitOutcomeUnknown => str "jbl_exit_outcome_unknown"
  | ControllerFailure.JblBroadcastResultTimedOut => str "jbl_broadcast_result_timed_out"
  | ControllerFailure.JblBroadcastResultUnavailable => str "jbl_broadcast_result_unavailable"
  | ControllerFailure.JblBroadcastResultRejected => str "jbl_broadcast_result_rejected"
  | ControllerFailure.AuraStartOutcomeUnknown => str "aura_start_outcome_unknown"
  | ControllerFailure.BackendOutcomeUnknown => str "backend_outcome_unknown"
  | ControllerFailure.UnexpectedBackendLifecycle => str "unexpected_backend_lifecycle"
  | ControllerFailure.MembershipPostconditionFailed => str "membership_postcondition_failed"
  | ControllerFailure.UnresolvedPriorAction => str "unresolved_prior_action"
  | ControllerFailure.RecoveryNotAllowed => str "recovery_not_allowed"
  | ControllerFailure.JournalUnavailable => str "journal_unavailable"
  | ControllerFailure.JournalCommitFailed => str "journal_commit_failed"
  end.

Definition member_body (member : PairMemberStatus) : MemberBody :=
  mkMemberBody (member_name_text (status_name member))
    (member_verification_name (verification member))
    (map member_channel_name (status_channels member)).

Definition health_body (health : PairHealth) : HealthBody :=
  mkHealthBody (lifecycle_name (health_lifecycle health))
    (health_level_name (health_level_of health)) (reported_error health)
    (aura_transport_name (aura_transport health))
    (acquisition_route_name (aura_acquisition_route health)).

Definition last_action_body (action : LastActionStatus) : LastActionBody :=
  mkLastActionBody (action_name (last_action_of action)) (outcome_name (last_outcome action))
    (evidence_name <$> last_evidence action) (failure_name <$> last_failure action)
    (last_revision action) (last_age_ms action).

Definition status_body (status : ControllerStatus) : StatusBody :=
  let '(jbl, aura) := cs_members status in
  mkStatusBody (backend_name (cs_backend status))
    (pair_configuration_name (cs_pair_configuration status))
    (member_body jbl, member_body aura)
    (managed_state_name (cs_managed_state status))
    (health_body <$> cs_backend_health status) (cs_unresolved_action status)
    (cs_consecutive_failures status) (cs_revision status)
    (last_action_body <$> cs_last_action status).

Definition action_body (result : ControllerActionResult) : ActionBody :=
  mkActionBody (action_name (result_action result)) (outcome_name (result_outcome result))
    (managed_state_name (result_managed_state result))
    (evidence_name <$> result_evidence result) (failure_name <$> result_failure result)
    (result_revision result).

(** * Requests *)

Module Method.
Inductive t := Get | Post | Other.
#[global] Instance eq_dec : EqDecision t. Proof. solve_decision. Defined.
End Method.

Module RequestError.
Inductive t :=
| BadRequest | ForbiddenHost | ForbiddenOrigin | CsrfRejected | NotFound | MethodNotAllowed
| RevisionConflict | LengthRequired | PayloadTooLarge | UnsupportedMediaType
| PreconditionRequired | InvalidJsonBody | HttpVersionNotSupported.
#[global] Instance eq_dec : EqDecision t. Proof. solve_decision. Defined.
End RequestError.

Record ParsedRequest := mkParsedRequest {
  method : Method.t;
  target : bytes;
  headers : gmap bytes bytes;
  body : bytes;
  content_length : option Z;
}.

Definition single_header (request : ParsedRequest) (name : bytes) : option bytes :=
  headers request !! name.

Definition is_tchar (byte : byte) : bool :=
  is_ascii_alphanumeric byte || contains_byte byte (str "!#$%&'*+-.^_`|~").

(** A header value's bytes: printable ASCII and the space. *)
Definition is_value_byte (byte : byte) : bool := in_range 0x20 0x7e byte.

Definition usize_max : Z := u64_max.

(** The canonical decimal check shared by the numeric texts: digits only, no
    leading zero. *)
Definition canonical_digits (value : bytes) : bool :=
  negb (bool_decide (value = []) || negb (forallb is_ascii_digit value)
        || (1 <? length value)%nat && starts_with (str "0") value).

Definition parse_content_length (value : bytes) : result Z RequestError.t :=
  if negb (canonical_digits value) then Err RequestError.BadRequest
  else ok_or (parse_digits usize_max value) RequestError.PayloadTooLarge.

Definition parse_strong_revision (value : bytes) : option Z :=
  rest ← strip_prefix [DQUOTE] value;
  digits ← strip_suffix [DQUOTE] rest;
  if negb (canonical_digits digits) then None else parse_digits u64_max digits.

Definition parse_port (value : bytes) : option Z :=
  if negb (canonical_digits value) then None
  else port ← parse_digits u16_max value; if (port =? 0)%Z then None else Some port.

(** * Framing *)

Module RequestFrame.
Inductive t := Incomplete | Complete | Rejected.
#[global] Instance eq_dec : EqDecision t. Proof. solve_decision. Defined.
End RequestFrame.

(** [line.starts_with([' ', '\t'])]. *)
Definition starts_blank (line : bytes) : bool :=
  match line with c :: _ => is_blank c | [] => false end.

(** The header loop of [request_frame]; [None] is a rejection. *)
Fixpoint frame_headers (lines : list bytes) (content_length : option Z) : option (option Z) :=
  match lines with
  | [] => Some content_length
  | line :: lines =>
      if bool_decide (line = []) || starts_blank line then None
      else
      match split_once (z2b 58) line with
      | None => None
      | Some (name, raw_value) =>
          if bool_decide (name = []) || negb (forallb is_tchar name) then None
          else
          let value := trim_matches is_blank raw_value in
          if negb (forallb is_value_byte value) then None
          else if eq_ignore_ascii_case name (str "transfer-encoding") then None
          else if eq_ignore_ascii_case name (str "content-length") then
            if bool_decide (is_Some content_length) then None
            else
            match parse_content_length value with
            | Err _ => None
            | Ok length =>
                if (Z.of_nat MAX_BODY_BYTES <? length)%Z then None
                else frame_headers lines (Some length)
            end
          else frame_headers lines content_length
      end
  end.

Definition request_frame (raw : bytes) : RequestFrame.t :=
  if (MAX_REQUEST_BYTES <? length raw)%nat then RequestFrame.Rejected
  else
  match find_subslice raw HEAD_END with
  | None =>
      if (MAX_HEADER_BYTES + 4 <? length raw)%nat then RequestFrame.Rejected
      else RequestFrame.Incomplete
  | Some head_end =>
  if (MAX_HEADER_BYTES <? head_end)%nat then RequestFrame.Rejected
  else
  let head := take head_end raw in
  if negb (utf8_valid head) then RequestFrame.Rejected
  else
  match split_crlf head with
  | [] => RequestFrame.Rejected
  | request_line :: lines =>
  match split_byte SP request_line with
  | [method; _; _] =>
      match frame_headers lines None with
      | None => RequestFrame.Rejected
      | Some content_length =>
          if bool_decide (method = str "POST") && bool_decide (content_length = None)
          then RequestFrame.Rejected
          else
          let expected := (Z.of_nat (head_end + 4) + default 0 content_length)%Z in
          if (Z.of_nat MAX_REQUEST_BYTES <? expected)%Z then RequestFrame.Rejected
          else if (Z.of_nat (length raw) <? expected)%Z then RequestFrame.Incomplete
          else if (Z.of_nat (length raw) =? expected)%Z then RequestFrame.Complete
          else RequestFrame.Rejected
      end
  | _ => RequestFrame.Rejected
  end end end.

(** * Parsing *)

(** The header loop of [parse_request]. *)
Fixpoint parse_headers (lines : list bytes) (count : nat) (headers : gmap bytes bytes)
  : result (gmap bytes bytes) RequestError.t :=
  match lines with
  | [] => Ok headers
  | line :: lines =>
      let count := S count in
      if (MAX_HEADER_COUNT <? count)%nat || bool_decide (line = []) || starts_blank line
      then Err RequestError.BadRequest
      else
      match split_once (z2b 58) line with
      | None => Err RequestError.BadRequest
      | Some (raw_name, raw_value) =>
          if bool_decide (raw_name = []) || negb (forallb is_tchar raw_name)
          then Err RequestError.BadRequest
          else
          let value := trim_matches is_blank raw_value in
          if negb (forallb is_value_byte value) then Err RequestError.BadRequest
          else
          let name := to_ascii_lowercase raw_name in
          if bool_decide (is_Some (headers !! name)) then Err RequestError.BadRequest
          else parse_headers lines count (<[ name := value ]> headers)
      end
  end.

Definition FORBIDDEN_HEADERS : list bytes :=
  [str "transfer-encoding"; str "trailer"; str "upgrade"; str "proxy-connection"].

Definition is_head_byte (byte : byte) : bool :=
  bool_decide (byte = TAB \/ byte = CR \/ byte = LF) || in_range 0x20 0x7e byte.

Definition method_of (method_text : bytes) : Method.t :=
  if decide (method_text = str "GET") then Method.Get
  else if decide (method_text = str "POST") then Method.Post
  else Method.Other.

Definition target_is_valid (target : bytes) : bool :=
  starts_with (str "/") target && negb (starts_with (str "//") target)
  && negb (contains_byte (z2b 63) target) && negb (contains_byte (z2b 35) target)
  && forallb (in_range 0x21 0x7e) target.

(** The part of [parse_request] after the head was split. *)
Definition parse_body (method : Method.t) (target : bytes) (headers : gmap bytes bytes)
    (body : bytes) : result ParsedRequest RequestError.t :=
  let? content_length :=
    match headers !! str "content-length" with
    | Some value => map_ok Some (parse_content_length value)
    | None => Ok None
    end in
  if bool_decide (method = Method.Post) && bool_decide (content_length = None)
  then Err RequestError.LengthRequired
  else
  let? _ :=
    match content_length with
    | Some n =>
        if (Z.of_nat MAX_BODY_BYTES <? n)%Z then Err RequestError.PayloadTooLarge
        else if (Z.of_nat (length body) =? n)%Z then Ok tt else Err RequestError.BadRequest
    | None => if bool_decide (body = []) then Ok tt else Err RequestError.BadRequest
    end in
  if bool_decide (method = Method.Get) && negb (default 0%Z content_length =? 0)%Z
  then Err RequestError.BadRequest
  else Ok (mkParsedRequest method target headers body content_length).

Definition parse_request (raw : bytes) : result ParsedRequest RequestError.t :=
  match find_subslice raw HEAD_END with
  | None =>
      Err (if (MAX_HEADER_BYTES <? length raw)%nat then RequestError.PayloadTooLarge
           else RequestError.BadRequest)
  | Some head_end =>
  if (MAX_HEADER_BYTES <? head_end)%nat then Err RequestError.PayloadTooLarge
  else
  let head := take head_end raw in
  if negb (forallb is_head_byte head) then Err RequestError.BadRequest
  else if negb (utf8_valid head) then Err RequestError.BadRequest
  else
  match split_crlf head with
  | [] => Err RequestError.BadRequest
  | request_line :: lines =>
  match split_byte SP request_line with
  | [method_text; target; version] =>
      if bool_decide (method_text = []) || bool_decide (target = []) || bool_decide (version = [])
      then Err RequestError.BadRequest
      else if negb (bool_decide (version = str "HTTP/1.1"))
      then Err RequestError.HttpVersionNotSupported
      else if negb (forallb is_tchar method_text) then Err RequestError.BadRequest
      else if negb (target_is_valid target) then Err RequestError.BadRequest
      else
      let? headers := parse_headers lines 0 ∅ in
      if existsb (fun name => bool_decide (is_Some (headers !! name))) FORBIDDEN_HEADERS
      then Err RequestError.BadRequest
      else parse_body (method_of method_text) target headers (drop (head_end + 4) raw)
  | _ => Err RequestError.BadRequest
  end end end.

(** * Host, origin and cookie *)

Module AuthorityHost.
Inductive t := Localhost | Ipv4Loopback | Ipv6Loopback.
#[global] Instance eq_dec : EqDecision t. Proof. solve_decision. Defined.
End AuthorityHost.

Record LoopbackAuthority := mkAuthority { host : AuthorityHost.t; effective_port : Z }.
#[global] Instance LoopbackAuthority_eq_dec : EqDecision LoopbackAuthority.
Proof. solve_decision. Defined.

(** The host and the optional port of an authority text. *)
Definition split_authority (value : bytes) : option (AuthorityHost.t * option Z) :=
  match strip_prefix (str "[") value with
  | Some rest =>
      '(inside, suffix) ← split_once (z2b 93) rest;
      if negb (bool_decide (inside = str "::1")) then None
      else
      match suffix with
      | [] => Some (AuthorityHost.Ipv6Loopback, None)
      | _ =>
          port_text ← strip_prefix (str ":") suffix;
          port ← parse_port port_text;
          Some (AuthorityHost.Ipv6Loopback, Some port)
      end
  | None =>
      '(raw_host, raw_port) ←
        match rsplit_once (z2b 58) value with
        | Some (host, port_text) => port ← parse_port port_text; Some (host, Some port)
        | None => Some (value, None)
        end;
      if eq_ignore_ascii_case raw_host (str "localhost")
      then Some (AuthorityHost.Localhost, raw_port)
      else if decide (raw_host = str "127.0.0.1")
      then Some (AuthorityHost.Ipv4Loopback, raw_port)
      else None
  end.

Definition authority_parse (value : bytes) (configured_port : Z) : option LoopbackAuthority :=
  if bool_decide (value = []) || existsb is_ascii_whitespace value then None
  else
  '(host, port) ← split_authority value;
  if match port with Some port => negb (port =? configured_port)%Z | None => false end then None
  else Some (mkAuthority host (default 80%Z port)).

Definition origin_is_same (value : bytes) (host : LoopbackAuthority) : bool :=
  match strip_prefix (str "http://") value with
  | None => false
  | Some authority =>
      if existsb (fun c => contains_byte c (str "/?#@")) authority then false
      else bool_decide (authority_parse authority (effective_port host) = Some host)
  end.

(** The loop over the cookie fields; a second cookie of the name, or an empty
    one, rejects the header. *)
Fixpoint cookie_loop (fields : list bytes) (found : option bytes) : option bytes :=
  match fields with
  | [] => found
  | field :: fields =>
      '(name, value) ← split_once (z2b 61) (trim_matches is_blank field);
      if decide (name = CSRF_COOKIE) then
        if bool_decide (is_Some found) || bool_decide (value = []) then None
        else cookie_loop fields (Some value)
      else cookie_loop fields found
  end.

Definition csrf_cookie_value (header : bytes) : option bytes :=
  cookie_loop (split_byte (z2b 59) header) None.

(** * Dispatch *)

Module MutationBody.
Inductive t := EmptyObject | RecoverStopConfirmation.
#[global] Instance eq_dec : EqDecision t. Proof. solve_decision. Defined.
End MutationBody.

(** [serde_json::from_slice], [serde_json::to_vec] of a response body,
    [openssl::memcmp::eq] on texts of equal length, and the embedded page with
    its nonce filled in. *)
Class WebLibrary := {
  from_slice : bytes -> option Value.t;
  to_vec : Body.t -> bytes;
  memcmp_eq : bytes -> bytes -> bool;
  page_html : bytes -> bytes;
}.

Class WebLibraryLaws `{WebLibrary} := {
  memcmp_eq_spec a b : length a = length b -> memcmp_eq a b = true <-> a = b;
}.

Section App.
Context `{WebLibrary} {A : Type} `{WebActor A}.

Definition body_matches (rule : MutationBody.t) (body : bytes) : bool :=
  match from_slice body ≫= Value.as_object with
  | None => false
  | Some object =>
      match rule with
      | MutationBody.EmptyObject => bool_decide (object = [])
      | MutationBody.RecoverStopConfirmation =>
          (length object =? 1)%nat
          && bool_decide (field_as Value.as_str (str "confirm") object = Some (str "recover-stop"))
      end
  end.

Definition constant_time_eq (left right : bytes) : bool :=
  if negb (length left =? length right)%nat then false else memcmp_eq left right.

Definition etag (revision : Z) : bytes := [DQUOTE] ++ dec revision ++ [DQUOTE].

Definition json_response (status : Z) (body : Body.t) (revision : option Z) : HttpResponse :=
  response status (str "application/json; charset=utf-8") (to_vec body) None
    (match revision with Some revision => [(str "ETag", etag revision)] | None => [] end).

Definition error_status (error : RequestError.t) : Z * bytes :=
  match error with
  | RequestError.BadRequest | RequestError.InvalidJsonBody => (400%Z, str "bad_request")
  | RequestError.ForbiddenHost => (403%Z, str "host_rejected")
  | RequestError.ForbiddenOrigin => (403%Z, str "origin_rejected")
  | RequestError.CsrfRejected => (403%Z, str "csrf_rejected")
  | RequestError.NotFound => (404%Z, str "not_found")
  | RequestError.MethodNotAllowed => (405%Z, str "method_not_allowed")
  | RequestError.RevisionConflict => (409%Z, str "revision_conflict")
  | RequestError.LengthRequired => (411%Z, str "length_required")
  | RequestError.PayloadTooLarge => (413%Z, str "payload_too_large")
  | RequestError.UnsupportedMediaType => (415%Z, str "unsupported_media_type")
  | RequestError.PreconditionRequired => (428%Z, str "revision_required")
  | RequestError.HttpVersionNotSupported => (505%Z, str "http_version_not_supported")
  end.

Definition error_response (error : RequestError.t) : HttpResponse :=
  let '(status, name) := error_status error in json_response status (Body.Error name) None.

Definition readiness_response : HttpResponse :=
  json_response 200 (Body.Readiness (str "ready")) None.

Definition status_response (status : ControllerStatus) : HttpResponse :=
  json_response 200 (Body.Status (status_body status)) (Some (cs_revision status)).

Definition action_response (result : ControllerActionResult) : HttpResponse :=
  json_response 200 (Body.Action (action_body result)) (Some (result_revision result)).

Record WebApp := mkWebApp { actor : A; security : WebSecurity }.

Definition page_response (app : WebApp) : HttpResponse :=
  let token := csrf_token (security app) in
  response 200 (str "text/html; charset=utf-8") (page_html token) (Some token)
    [(str "Set-Cookie", CSRF_COOKIE ++ str "=" ++ token ++ str "; Path=/; SameSite=Strict")].

Definition valid_csrf (app : WebApp) (request : ParsedRequest) : bool :=
  match single_header request CSRF_HEADER with
  | None => false
  | Some header_token =>
  match single_header request (str "cookie") with
  | None => false
  | Some cookie_header =>
  match csrf_cookie_value cookie_header with
  | None => false
  | Some cookie_token =>
      let token := csrf_token (security app) in
      constant_time_eq header_token cookie_token && constant_time_eq header_token token
      && constant_time_eq cookie_token token
  end end end.

(** The checks of [mutation_response], up to the revision it is to run at. *)
Definition mutation_gate (app : WebApp) (request : ParsedRequest) (rule : MutationBody.t)
  : result Z RequestError.t :=
  if bool_decide (single_header request (str "origin") = None)
  then Err RequestError.ForbiddenOrigin
  else if negb (bool_decide
    (single_header request (str "content-type") = Some (str "application/json")))
  then Err RequestError.UnsupportedMediaType
  else
  let? content_length := ok_or (content_length request) RequestError.LengthRequired in
  if (Z.of_nat MAX_BODY_BYTES <? content_length)%Z then Err RequestError.PayloadTooLarge
  else if negb (body_matches rule (body request)) then Err RequestError.InvalidJsonBody
  else if negb (valid_csrf app request) then Err RequestError.CsrfRejected
  else ok_or (single_header request (str "if-match") ≫= parse_strong_revision)
         RequestError.PreconditionRequired.

Definition mutation_response (request : ParsedRequest) (mutation : WebMutation.t)
    (rule : MutationBody.t) (app : WebApp) : HttpResponse * WebApp :=
  match mutation_gate app request rule with
  | Err error => (error_response error, app)
  | Ok expected_revision =>
      let '(r, a) := mutate_if_revision expected_revision mutation (actor app) in
      let app := mkWebApp a (security app) in
      match r with
      | Ok result => (action_response result, app)
      | Err _ => (error_response RequestError.RevisionConflict, app)
      end
  end.

(** The host and origin checks of [handle]. *)
Definition check_authority (request : ParsedRequest) (port : Z) : result unit RequestError.t :=
  let? host := ok_or (value ← single_header request (str "host"); authority_parse value port)
                     RequestError.ForbiddenHost in
  match single_header request (str "origin") with
  | Some origin =>
      if origin_is_same origin host then Ok tt else Err RequestError.ForbiddenOrigin
  | None => Ok tt
  end.

Definition route (request : ParsedRequest) (app : WebApp) : HttpResponse * WebApp :=
  let at_ := fun path => bool_decide (target request = str path) in
  match method request with
  | Method.Get =>
      if at_ "/" then (page_response app, app)
      else if at_ "/api/status" then
        let '(status, a) := actor_status (actor app) in
        (status_response status, mkWebApp a (security app))
      else if at_ "/healthz" then (readiness_response, app)
      else (error_response RequestError.NotFound, app)
  | Method.Post =>
      if at_ "/api/start"
      then mutation_response request WebMutation.Start MutationBody.EmptyObject app
      else if at_ "/api/stop"
      then mutation_response request WebMutation.Stop MutationBody.EmptyObject app
      else if at_ "/internal/recover-stop"
      then mutation_response request WebMutation.RecoverStop
             MutationBody.RecoverStopConfirmation app
      else (error_response RequestError.NotFound, app)
  | Method.Other => (error_response RequestError.MethodNotAllowed, app)
  end.

Definition handle (raw_request : bytes) (app : WebApp) : HttpResponse * WebApp :=
  match parse_request raw_request with
  | Err error => (error_response error, app)
  | Ok request =>
      match check_authority request (bind_port (security app)) with
      | Err error => (error_response error, app)
      | Ok _ => route request app
      end
  end.
End App.
Arguments WebApp : clear implicits.
