(* ===== verification/WebSpec.v ===== *)
(** What the HTTP boundary guarantees (rust/src/web.rs): framing agrees with
    parsing and does not depend on how the bytes arrive, the revision text is
    canonical, and the actor is reached only through the whole gate. *)
From S2P Require Import Prelude Bytes Backend Model Controller Web.

(** * Searching a buffer that is still being read *)

Lemma starts_with_prefix (n h t : bytes) :
  starts_with n (h ++ t) = true -> length n <= length h -> starts_with n h = true.
Proof.
  intros [u E]%starts_with_true Hl. apply starts_with_true. exists (drop (length n) h).
  assert (n = take (length n) h) as Hn.
  { apply (f_equal (take (length n))) in E. rewrite take_app_le, take_app_length in E by lia. done. }
  rewrite Hn at 1. by rewrite take_drop.
Qed.

Lemma starts_with_app (n h t : bytes) : starts_with n h = true -> starts_with n (h ++ t) = true.
Proof. intros [u ->]%starts_with_true. apply starts_with_true. exists (u ++ t). by rewrite app_assoc. Qed.

Lemma find_subslice_prefix (h t n : bytes) (i : nat) :
  find_subslice (h ++ t) n = Some i -> i + length n <= length h -> find_subslice h n = Some i.
Proof.
  revert i. induction h as [|c h IH]; intros i Hf Hl.
  - destruct n; [|simpl in Hl; lia]. simpl in Hl. assert (i = 0) as -> by lia. done.
  - cbn [find_subslice app] in *. destruct (starts_with n (c :: h)) eqn:E.
    + apply (starts_with_app _ _ t) in E. simpl in E. by rewrite E in Hf.
    + destruct (starts_with n (c :: h ++ t)) eqn:E'.
      * simplify_eq. rewrite app_comm_cons in E'. apply starts_with_prefix in E'; [congruence|lia].
      * destruct (find_subslice (h ++ t) n) as [j|] eqn:F; [|done]. simpl in Hf. simplify_eq.
        simpl in Hl. by rewrite (IH j) by (done || lia).
Qed.

(** * Framing against parsing *)

(** The framer's length and the parser's map agree. *)
Definition length_agrees (hs : gmap bytes bytes) (content_length : option Z) : Prop :=
  match hs !! str "content-length" with
  | Some value => exists n, parse_content_length value = Ok n /\ content_length = Some n /\
      (n <= Z.of_nat MAX_BODY_BYTES)%Z
  | None => content_length = None
  end.

Lemma parse_headers_keeps lines count hs hs' k v :
  parse_headers lines count hs = Ok hs' -> hs !! k = Some v -> hs' !! k = Some v.
Proof.
  revert count hs. induction lines as [|line lines IH]; intros count hs; cbn [parse_headers];
    [by intros [= ->]|].
  intros E Hk. destruct (_ || _ || _); [done|]. destruct (split_once _ line) as [[name value]|]; [|done].
  destruct (_ || _); [done|]. destruct (negb _); [done|].
  destruct (bool_decide _) eqn:G; [done|]. bool_hyps. eapply IH; [done|].
  rewrite lookup_insert_ne; [done|]. intros Ek. apply G. rewrite Ek. eauto.
Qed.

Lemma eq_ignore_case_lower (name lower : bytes) :
  to_ascii_lowercase lower = lower ->
  eq_ignore_ascii_case name lower = bool_decide (to_ascii_lowercase name = lower).
Proof.
  unfold eq_ignore_ascii_case. intros Hl. apply bool_decide_ext. by rewrite Hl.
Qed.

Lemma parse_headers_framed lines count hs hs' content_length cl' :
  parse_headers lines count hs = Ok hs' ->
  hs' !! str "transfer-encoding" = None ->
  length_agrees hs content_length -> length_agrees hs' cl' ->
  frame_headers lines content_length = Some cl'.
Proof.
  revert count hs content_length.
  induction lines as [|line lines IH]; intros count hs content_length; cbn [parse_headers frame_headers].
  { intros [= ->] _. unfold length_agrees. destruct (hs' !! _); [|congruence].
    intros (n & ? & -> & _) (n' & ? & -> & _). congruence. }
  destruct (_ || _ || _) eqn:G1; [done|]. bool_hyps.
  rewrite (bool_decide_eq_false_2 (line = [])) by done.
  match goal with Hb : starts_blank line = false |- _ => rewrite Hb end.
  destruct (split_once _ line) as [[name raw_value]|]; [|done].
  destruct (bool_decide (name = []) || _); [done|].
  destruct (negb (forallb is_value_byte _)); [done|].
  destruct (bool_decide (is_Some (hs !! to_ascii_lowercase name))) eqn:G2; [done|]. bool_hyps.
  intros E Hte Ha Ha'. rewrite !eq_ignore_case_lower by done.
  pose proof (parse_headers_keeps _ _ _ _ (to_ascii_lowercase name)
    (trim_matches is_blank raw_value) E (lookup_insert_eq _ _ _)) as Hin.
  cbn [orb]. case_bool_decide as N1; [congruence|]. case_bool_decide as N2.
  - rewrite N2 in *. unfold length_agrees in Ha, Ha'. rewrite Hin in Ha'.
    destruct (hs !! str "content-length") eqn:Ehs; [by destruct G2|]. subst content_length.
    destruct Ha' as (n & Hn & -> & Hmax). rewrite bool_decide_eq_false_2 by (by intros [? ?]).
    rewrite Hn. destruct (_ <? n)%Z eqn:G3; bool_hyps; [lia|].
    eapply (IH _ _ _ E Hte).
    + unfold length_agrees. rewrite lookup_insert_eq. eauto.
    + unfold length_agrees. rewrite Hin. eauto.
  - eapply IH; eauto. unfold length_agrees in *. by rewrite lookup_insert_ne.
Qed.

Lemma parse_content_length_nonneg value n : parse_content_length value = Ok n -> (0 <= n)%Z.
Proof.
  unfold parse_content_length, parse_digits, canonical_digits. intros E.
  destruct (negb (negb _)) eqn:G; [done|]. bool_hyps.
  destruct (_ <=? _)%Z; simplify_eq/=.
  match goal with Hd : forallb is_ascii_digit value = true |- _ => revert Hd end.
  unfold dec_value. assert (Hg : forall acc, (0 <= acc)%Z -> forallb is_ascii_digit value = true ->
    (0 <= fold_left (fun a c => a * 10 + digit_value c) value acc)%Z); [|apply Hg; lia].
  clear. induction value as [|c value IH]; simpl; intros acc Ha; [done|].
  intros [Hc Hv]%andb_true_iff. apply IH; [|done].
  apply in_range_spec in Hc. unfold digit_value. lia.
Qed.

(** What an accepted request looks like. *)
Lemma parse_body_spec m t hs b req :
  parse_body m t hs b = Ok req ->
  req = mkParsedRequest m t hs b (content_length req) /\
  length_agrees hs (content_length req) /\
  (m = Method.Post -> content_length req <> None) /\
  Z.of_nat (length b) = default 0%Z (content_length req).
Proof.
  unfold parse_body, length_agrees. intros E.
  destruct (hs !! str "content-length") as [value|].
  - destruct (parse_content_length value) as [n|] eqn:En; simpl in E; [|done].
    rewrite andb_false_r in E. destruct (_ <? n)%Z eqn:G1; [done|].
    destruct (_ =? n)%Z eqn:G2; [|done]. destruct (_ && _); [done|]. simplify_eq/=. bool_hyps.
    split_and!; [done| |done|done]. eauto.
  - rewrite (bool_decide_eq_true_2 ((None : option Z) = None)), andb_true_r in E by done.
    destruct (bool_decide (m = _)) eqn:G1; [done|]. destruct (bool_decide (b = [])) eqn:G2; [|done].
    rewrite andb_false_r in E. simplify_eq/=. bool_hyps. by subst.
Qed.

Lemma no_forbidden hs :
  existsb (fun name => bool_decide (is_Some (hs !! name))) FORBIDDEN_HEADERS = false ->
  (hs : gmap bytes bytes) !! str "transfer-encoding" = None.
Proof.
  unfold FORBIDDEN_HEADERS. cbn [existsb]. intros G. bool_hyps.
  destruct (hs !! str "transfer-encoding") eqn:E; [|done]. exfalso. eauto.
Qed.

(** The parser's reading of an accepted request, step by step. *)
Record accepted_request (raw : bytes) (req : ParsedRequest) (ar_head : nat)
    (ar_line : bytes) (ar_lines : list bytes) (ar_method ar_version : bytes) : Prop := {
  ar_found : find_subslice raw HEAD_END = Some ar_head;
  ar_small : ar_head <= MAX_HEADER_BYTES;
  ar_utf8 : utf8_valid (take ar_head raw) = true;
  ar_split : split_crlf (take ar_head raw) = ar_line :: ar_lines;
  ar_parts : split_byte SP ar_line = [ar_method; target req; ar_version];
  ar_method_of : method req = method_of ar_method;
  ar_headers : parse_headers ar_lines 0 ∅ = Ok (headers req);
  ar_plain : headers req !! str "transfer-encoding" = None;
  ar_body : body req = drop (ar_head + 4) raw;
  ar_length : length_agrees (headers req) (content_length req);
  ar_post : method req = Method.Post -> content_length req <> None;
  ar_fits : Z.of_nat (length (body req)) = default 0%Z (content_length req);
}.

Lemma parse_request_accepted raw req : 
  parse_request raw = Ok req ->
  exists head_end line lines m v, accepted_request raw req head_end line lines m v.
Proof.
  unfold parse_request. destruct (find_subslice raw HEAD_END) as [head_end|] eqn:Ef; [|done].
  destruct (_ <? head_end)%nat eqn:Gh; [done|]. destruct (negb (forallb _ _)); [done|].
  destruct (negb (utf8_valid _)) eqn:Gu; [done|]. apply negb_false_iff in Gu.
  destruct (split_crlf _) as [|line lines] eqn:Es; [done|].
  destruct (split_byte SP line) as [|m [|t [|v [|? ?]]]] eqn:Ep; try done.
  destruct (_ || _ || _); [done|]. destruct (negb _); [done|]. destruct (negb _); [done|].
  destruct (negb _); [done|].
  destruct (parse_headers lines 0 ∅) as [hs|] eqn:Eh; [|done].
  destruct (existsb _ _) eqn:Gf; [done|]. apply no_forbidden in Gf.
  intros E%parse_body_spec. destruct E as (Er & Ha & Hp & Hl). bool_hyps.
  rewrite Er. exists head_end, line, lines, m, v. by split.
Qed.

Lemma accepted_request_complete raw req head_end line lines m v :
  accepted_request raw req head_end line lines m v -> request_frame raw = RequestFrame.Complete.
Proof.
  intros [Hf Hs Hu Hsp Hpa Hm Hh Hpl Hb Ha Hpo Hfit]. pose proof (find_subslice_length _ _ _ Hf) as Hlen.
  assert (Hl : (Z.of_nat (length raw) =
    Z.of_nat (head_end + 4) + default 0 (content_length req))%Z).
  { rewrite <- Hfit, Hb, length_drop. simpl in Hlen. lia. }
  assert (Hmax : (default 0 (content_length req) <= Z.of_nat MAX_BODY_BYTES)%Z).
  { unfold length_agrees in Ha. destruct (_ !! str "content-length").
    - destruct Ha as (n & _ & -> & ?). done.
    - rewrite Ha. simpl. lia. }
  assert (Hreq : (Z.of_nat MAX_REQUEST_BYTES = Z.of_nat MAX_HEADER_BYTES + 4 + Z.of_nat MAX_BODY_BYTES)%Z).
  { unfold MAX_REQUEST_BYTES. lia. }
  unfold request_frame. rewrite Hf, Hu, Hsp, Hpa. cbn [negb].
  rewrite (proj2 (Nat.ltb_ge _ _)) by lia. rewrite (proj2 (Nat.ltb_ge _ _)) by lia.
  rewrite (parse_headers_framed lines 0 ∅ (headers req) None (content_length req)) by done.
  rewrite (proj2 (andb_false_iff _ _)).
  - rewrite <- Hl, Z.ltb_irrefl, Z.eqb_refl.
    rewrite (proj2 (Z.ltb_ge _ _)) by lia. done.
  - destruct (decide (m = str "POST")) as [->|]; [right|left; by apply bool_decide_eq_false_2].
    apply bool_decide_eq_false_2, Hpo. by rewrite Hm.
Qed.

Lemma complete_prefix_incomplete (raw extra : bytes) :
  extra <> [] -> request_frame (raw ++ extra) = RequestFrame.Complete ->
  request_frame raw = RequestFrame.Incomplete.
Proof.
  intros Hx. assert (Hlx : 0 < length extra) by (destruct extra; simpl; [done|lia]).
  unfold request_frame. rewrite length_app. destruct (MAX_REQUEST_BYTES <? length raw + length extra)%nat eqn:Gm; [done|]. bool_hyps.
  rewrite (proj2 (Nat.ltb_ge _ (length raw))) by lia.
  destruct (find_subslice (raw ++ extra) HEAD_END) as [he|] eqn:Ef;
    [|by destruct (_ <? _)%nat].
  destruct (_ <? he)%nat eqn:Gh; [done|]. destruct (find_subslice raw HEAD_END) as [i|] eqn:Ei.
  - pose proof (find_subslice_length _ _ _ Ei) as Hi.
    apply (find_subslice_extend _ _ extra) in Ei. assert (i = he) as -> by congruence.
    rewrite Gh, take_app_le by lia. destruct (negb _); [done|].
    destruct (split_crlf _) as [|line lines]; [done|].
    destruct (split_byte SP line) as [|m [|t [|v [|? ?]]]]; try done.
    destruct (frame_headers lines None) as [cl|]; [|done]. destruct (_ && _); [done|].
    cbv zeta. destruct (_ <? _)%Z eqn:Ge; [done|]. rewrite Nat2Z.inj_add.
    destruct (Z.of_nat (length raw) + _ <? _)%Z eqn:G1; [done|].
    destruct (Z.of_nat (length raw) + _ =? _)%Z eqn:G2; [|done]. bool_hyps. intros _.
    by rewrite (proj2 (Z.ltb_lt _ _)) by lia.
  - intros _. bool_hyps. destruct (MAX_HEADER_BYTES + 4 <? length raw)%nat eqn:G; [|done]. bool_hyps.
    rewrite (find_subslice_prefix _ _ _ _ Ef) in Ei; [done|].
    change (length HEAD_END) with 4. lia.
Qed.

(** C36 Framing and parsing agree. Every request the parser accepts is one the
    framer calls complete, so bytes the framer rejects or still waits for are
    never acted on; a complete request followed by anything more is never
    accepted, so nothing pipelined is; and before a request is complete every
    shorter part of it is incomplete, never rejected, so the verdict does not
    depend on how the bytes were split on the way. *)
Theorem framing_agrees_with_parsing (raw extra : bytes) :
  extra <> [] ->
  (forall req, parse_request raw = Ok req -> request_frame raw = RequestFrame.Complete) /\
  (request_frame raw = RequestFrame.Complete -> is_err (parse_request (raw ++ extra)) = true) /\
  (request_frame (raw ++ extra) = RequestFrame.Complete ->
     request_frame raw = RequestFrame.Incomplete).
Proof.
  intros Hx. split_and!.
  - intros req (?&?&?&?&?&E)%parse_request_accepted. by eapply accepted_request_complete.
  - intros Hc. destruct (parse_request (raw ++ extra)) as [req|] eqn:E; [|done].
    apply parse_request_accepted in E as (?&?&?&?&?&E). apply accepted_request_complete in E.
    apply complete_prefix_incomplete in E; congruence.
  - by apply complete_prefix_incomplete.
Qed.

(** * Numeric texts *)

Lemma canonical_digits_spec s : canonical_digits s = true <-> canonical_decimal s.
Proof.
  unfold canonical_digits. split.
  - intros G. bool_hyps. split; [done|done|]. intros Hl.
    match goal with H : _ && _ = false |- _ => apply andb_false_iff in H as [H|H]; [bool_hyps; lia|done] end.
  - intros [Hs Hd Hl]. rewrite bool_decide_eq_false_2, Hd by done. simpl.
    destruct (1 <? length s) eqn:G; [|done]. bool_hyps. by rewrite Hl.
Qed.

Lemma parse_canonical m s n :
  (m <= u64_max)%Z ->
  canonical_digits s = true /\ parse_digits m s = Some n <-> (0 <= n <= m)%Z /\ s = dec n.
Proof.
  intros Hm. rewrite canonical_digits_spec. unfold parse_digits. split.
  - intros [C E]. destruct (_ <=? _)%Z eqn:G; [|done]. bool_hyps. simplify_eq.
    pose proof (dec_value_nonneg s (cd_digits _ C)).
    split; [lia|]. apply canonical_is_dec; [done|lia].
  - intros [Hn ->]. destruct (dec_canonical n) as [C V]; [lia|].
    rewrite V. split; [done|]. by rewrite (proj2 (Z.leb_le n m)) by lia.
Qed.

Lemma parse_content_length_dec n :
  (0 <= n <= usize_max)%Z -> parse_content_length (dec n) = Ok n.
Proof.
  intros Hn. destruct (proj2 (parse_canonical usize_max (dec n) n (Z.le_refl _)) (conj Hn eq_refl)) as [C P].
  unfold parse_content_length. by rewrite C, P.
Qed.

Lemma parse_strong_revision_etag n :
  (0 <= n <= u64_max)%Z -> parse_strong_revision (etag n) = Some n.
Proof.
  intros Hn. unfold parse_strong_revision, etag. rewrite strip_prefix_app. simpl.
  rewrite strip_suffix_app. simpl.
  destruct (proj2 (parse_canonical u64_max (dec n) n (Z.le_refl _)) (conj Hn eq_refl)) as [C P].
  by rewrite C, P.
Qed.

Lemma parse_strong_revision_only value n :
  parse_strong_revision value = Some n -> (0 <= n <= u64_max)%Z /\ value = etag n.
Proof.
  unfold parse_strong_revision, etag.
  destruct (strip_prefix [DQUOTE] value) as [rest|] eqn:E1; [|done]. simpl.
  destruct (strip_suffix [DQUOTE] rest) as [digits|] eqn:E2; [|done]. simpl.
  apply strip_prefix_Some in E1 as ->. apply strip_suffix_Some in E2 as ->.
  destruct (canonical_digits digits) eqn:C; [|done]. simpl. intros P.
  by destruct (proj1 (parse_canonical u64_max digits n (Z.le_refl _)) (conj C P)) as [Hn ->].
Qed.

(** The revision a mutation must present is read exactly: a text is accepted
    as a revision when, and only when, it is the entity tag the server itself
    writes for that revision; every 64-bit revision round-trips, and no other
    spelling (leading zeros, a sign, a weak tag, an overflow) is taken. *)
Theorem strong_revision_exact (value : bytes) (n : Z) :
  parse_strong_revision value = Some n <-> (0 <= n <= u64_max)%Z /\ value = etag n.
Proof.
  split; [apply parse_strong_revision_only|]. intros [Hn ->]. by apply parse_strong_revision_etag.
Qed.

(** * The gate *)

Section Gate.
Context `{WebLibraryLaws} {A : Type} `{WebActor A}.
#[local] Abbreviation app := (WebApp A).

Lemma constant_time_eq_spec a b : constant_time_eq a b = true <-> a = b.
Proof.
  unfold constant_time_eq. destruct (length a =? length b) eqn:E; bool_hyps; simpl.
  - by apply memcmp_eq_spec.
  - split; [done|]. by intros ->.
Qed.

Lemma valid_csrf_spec (a : app) request :
  valid_csrf a request = true <->
  single_header request CSRF_HEADER = Some (csrf_token (security a)) /\
  exists cookie, single_header request (str "cookie") = Some cookie /\
    csrf_cookie_value cookie = Some (csrf_token (security a)).
Proof.
  unfold valid_csrf. split.
  - intros E. destruct (single_header request CSRF_HEADER) as [h|]; [|done].
    destruct (single_header request (str "cookie")) as [c|]; [|done].
    destruct (csrf_cookie_value c) as [t|] eqn:Ec; [|done]. bool_hyps.
    rewrite constant_time_eq_spec in *. subst. eauto.
  - intros (-> & c & -> & ->). by rewrite (proj2 (constant_time_eq_spec _ _) eq_refl).
Qed.

(** The three mutation routes, with the body each asks for. *)
Definition mutation_route (path : bytes) : option (WebMutation.t * MutationBody.t) :=
  if decide (path = str "/api/start") then Some (WebMutation.Start, MutationBody.EmptyObject)
  else if decide (path = str "/api/stop") then Some (WebMutation.Stop, MutationBody.EmptyObject)
  else if decide (path = str "/internal/recover-stop")
  then Some (WebMutation.RecoverStop, MutationBody.RecoverStopConfirmation)
  else None.

(** Everything a request must show before the actor may be asked to mutate. *)
Record authorized (a : app) (request : ParsedRequest) (mutation : WebMutation.t) (n : Z) : Prop := {
  au_method : method request = Method.Post;
  au_route : exists rule, mutation_route (target request) = Some (mutation, rule) /\
    body_matches rule (body request) = true;
  au_same_origin : exists value authority origin,
    single_header request (str "host") = Some value /\
    authority_parse value (bind_port (security a)) = Some authority /\
    single_header request (str "origin") = Some origin /\ origin_is_same origin authority = true;
  au_json : single_header request (str "content-type") = Some (str "application/json");
  au_csrf_header : single_header request CSRF_HEADER = Some (csrf_token (security a));
  au_csrf_cookie : exists cookie, single_header request (str "cookie") = Some cookie /\
    csrf_cookie_value cookie = Some (csrf_token (security a));
  au_revision : single_header request (str "if-match") = Some (etag n);
  au_revision_range : (0 <= n <= u64_max)%Z;
}.

Lemma mutation_gate_spec (a : app) request rule n :
  mutation_gate a request rule = Ok n ->
  is_Some (single_header request (str "origin")) /\
  single_header request (str "content-type") = Some (str "application/json") /\
  body_matches rule (body request) = true /\ valid_csrf a request = true /\
  single_header request (str "if-match") = Some (etag n) /\ (0 <= n <= u64_max)%Z.
Proof.
  unfold mutation_gate. intros E. destruct (bool_decide (_ = None)) eqn:G1; [done|].
  destruct (negb (bool_decide _)) eqn:G2; [done|].
  destruct (content_length request); simpl in E; [|done].
  destruct (_ <? _)%Z; [done|]. destruct (negb (body_matches _ _)) eqn:G3; [done|].
  destruct (negb (valid_csrf _ _)) eqn:G4; [done|]. apply ok_or_Ok in E. bool_hyps.
  destruct (single_header request (str "if-match")) as [v|] eqn:Ev; [|done].
  simpl in E. apply parse_strong_revision_only in E as [? ->].
  split_and!; try done; try lia. by apply not_eq_None_Some.
Qed.

Lemma check_authority_spec request port :
  check_authority request port = Ok tt ->
  exists value authority, single_header request (str "host") = Some value /\
    authority_parse value port = Some authority /\
    forall origin, single_header request (str "origin") = Some origin ->
      origin_is_same origin authority = true.
Proof.
  unfold check_authority. intros E.
  destruct (single_header request (str "host")) as [value|]; simpl in E; [|done].
  destruct (authority_parse value port) as [authority|] eqn:Ea; simpl in E; [|done].
  exists value, authority. split_and!; [done|done|]. intros origin Ho. rewrite Ho in E.
  by destruct (origin_is_same origin authority).
Qed.

Lemma mutation_response_spec request mutation rule (a a' : app) resp :
  mutation_response request mutation rule a = (resp, a') ->
  security a' = security a /\
  (actor a' = actor a \/
   exists n r, mutation_gate a request rule = Ok n /\
     mutate_if_revision n mutation (actor a) = (r, actor a')).
Proof.
  unfold mutation_response. intros E. destruct (mutation_gate a request rule) as [n|]; [|simplify_eq; auto].
  destruct (mutate_if_revision n mutation (actor a)) as [r b] eqn:Em.
  destruct r; simplify_eq/=; split; eauto 6.
Qed.

(** What one request may do to the actor. *)
Inductive dispatched (raw : bytes) (a a' : app) : Prop :=
| dispatched_nothing : actor a' = actor a -> dispatched raw a a'
| dispatched_status request s :
    parse_request raw = Ok request -> method request = Method.Get ->
    target request = str "/api/status" ->
    actor_status (actor a) = (s, actor a') -> dispatched raw a a'
| dispatched_mutation request mutation n r :
    parse_request raw = Ok request -> authorized a request mutation n ->
    mutate_if_revision n mutation (actor a) = (r, actor a') -> dispatched raw a a'.

Lemma mutation_route_dispatched raw request mutation rule (a a' : app) resp :
  parse_request raw = Ok request -> method request = Method.Post ->
  check_authority request (bind_port (security a)) = Ok tt ->
  mutation_route (target request) = Some (mutation, rule) ->
  mutation_response request mutation rule a = (resp, a') ->
  security a' = security a /\ dispatched raw a a'.
Proof.
  intros Hp Hm Hc Hr E. apply mutation_response_spec in E as [Hs [Ha|(n & r & Hg & Hmu)]];
    (split; [done|]); [by apply dispatched_nothing|].
  eapply dispatched_mutation; [done| |done].
  apply mutation_gate_spec in Hg as ([origin Ho] & Hj & Hb & Hv & Hi & Hn).
  apply valid_csrf_spec in Hv as [Hh Hck].
  apply check_authority_spec in Hc as (value & authority & Hhost & Hauth & Hsame).
  split; eauto 10.
Qed.

Lemma handle_dispatched raw (a a' : app) resp :
  handle raw a = (resp, a') -> security a' = security a /\ dispatched raw a a'.
Proof.
  unfold handle. intros E.
  destruct (parse_request raw) as [request|e] eqn:Hp; [|simplify_eq; split; [done|by constructor]].
  destruct (check_authority _ _) as [[]|e] eqn:Hc; [|simplify_eq; split; [done|by constructor]].
  unfold route in E. destruct (method request) eqn:Hm.
  - destruct (bool_decide (target request = str "/")); [simplify_eq; split; [done|by constructor]|].
    destruct (bool_decide (target request = str "/api/status")) eqn:Ht.
    + destruct (actor_status (actor a)) as [s b] eqn:Es. simplify_eq/=. split; [done|].
      bool_hyps. by eapply dispatched_status.
    + destruct (bool_decide (target request = str "/healthz"));
        simplify_eq; (split; [done|by constructor]).
  - destruct (bool_decide (target request = str "/api/start")) eqn:T1;
      [|destruct (bool_decide (target request = str "/api/stop")) eqn:T2;
        [|destruct (bool_decide (target request = str "/internal/recover-stop")) eqn:T3]];
      [..|simplify_eq; split; [done|by constructor]]; bool_hyps;
      (eapply mutation_route_dispatched; [done|done|done| |exact E]); unfold mutation_route;
      repeat (case_decide; simplify_eq); done.
  - simplify_eq. split; [done|by constructor].
Qed.

(** C12 The actor is asked to mutate only by a fully authorized request, at most
    once, and at the revision that request presented: a POST on a mutation
    route with the body of that route, addressed to the loopback authority,
    from the same origin, as JSON, with the server's CSRF token both in the
    header and in the cookie.  Every other request, however
    malformed, leaves the actor alone or only reads its status, and the
    security inputs never change. *)
Theorem mutation_needs_authorization raw (a a' : app) resp :
  handle raw a = (resp, a') -> security a' = security a /\ dispatched raw a a'.
Proof. apply handle_dispatched. Qed.
End Gate.
