(* ===== verification/Http.v ===== *)
(** Lemmas on HTTP/1.1 heads shared by the server and the local client: a head
    written as lines separated by CRLF is found, split and read back. *)
From S2P Require Import Prelude Bytes Web.

(** * Lines *)

Definition plain (line : bytes) : bool := forallb (fun c => negb (bool_decide (c = CR))) line.

Fixpoint join_crlf (lines : list bytes) : bytes :=
  match lines with
  | [] => []
  | [line] => line
  | line :: rest => line ++ CRLF ++ join_crlf rest
  end.

Lemma join_crlf_cons line rest :
  rest <> [] -> join_crlf (line :: rest) = line ++ CRLF ++ join_crlf rest.
Proof. by destruct rest. Qed.

Lemma plain_cons c line : plain (c :: line) = true -> c <> CR /\ plain line = true.
Proof. unfold plain. simpl. intros [H ?]%andb_true_iff. bool_hyps. done. Qed.

Lemma split_crlf_plain line : plain line = true -> split_crlf line = [line].
Proof.
  induction line as [|c line IH]; intros Hp; [done|]. apply plain_cons in Hp as [Hc Hp].
  cbn [split_crlf]. destruct line as [|d line]; [done|]. rewrite decide_False by (by intros [? _]).
  by rewrite (IH Hp).
Qed.

Lemma split_crlf_line line rest :
  plain line = true -> split_crlf (line ++ CRLF ++ rest) = line :: split_crlf rest.
Proof.
  induction line as [|c line IH]; intros Hp.
  - cbn [app CRLF split_crlf]. by rewrite decide_True.
  - apply plain_cons in Hp as [Hc Hp]. specialize (IH Hp).
    change ((c :: line) ++ CRLF ++ rest) with (c :: (line ++ CRLF ++ rest)). cbn [split_crlf].
    destruct (line ++ CRLF ++ rest) as [|d t] eqn:E; [by destruct line|].
    rewrite decide_False by (by intros [? _]). by rewrite IH.
Qed.

Lemma split_join lines :
  lines <> [] -> Forall (fun l => plain l = true) lines -> split_crlf (join_crlf lines) = lines.
Proof.
  intros Hne Hp. induction Hp as [|line rest Hl Hr IH]; [done|].
  destruct rest as [|l2 rest]; [by apply split_crlf_plain|].
  rewrite join_crlf_cons by done. rewrite split_crlf_line by done. by rewrite IH.
Qed.

(** * The end of the head *)

Lemma find_subslice_skip line rest :
  plain line = true ->
  find_subslice (line ++ rest) HEAD_END =
    (fun n => length line + n) <$> find_subslice rest HEAD_END.
Proof.
  induction line as [|c line IH]; intros Hp.
  - simpl. by destruct (find_subslice rest HEAD_END).
  - apply plain_cons in Hp as [Hc Hp]. cbn [app find_subslice].
    assert (starts_with HEAD_END (c :: line ++ rest) = false) as ->.
    { apply not_true_iff_false. intros [t Ht]%starts_with_true. by inversion Ht. }
    rewrite (IH Hp). by destruct (find_subslice rest HEAD_END).
Qed.

Lemma find_subslice_separator line rest :
  plain line = true -> line <> [] ->
  find_subslice (CRLF ++ line ++ rest) HEAD_END =
    (fun n => 2 + n) <$> find_subslice (line ++ rest) HEAD_END.
Proof.
  intros Hp Hne. destruct line as [|c line]; [done|]. apply plain_cons in Hp as [Hc _].
  set (r := (c :: line) ++ rest). assert (r = c :: (line ++ rest)) as Er by done.
  unfold CRLF. cbn [app find_subslice].
  assert (starts_with HEAD_END (CR :: LF :: r) = false) as ->.
  { apply not_true_iff_false. intros [t Ht]%starts_with_true. rewrite Er in Ht. by inversion Ht. }
  assert (starts_with HEAD_END (LF :: r) = false) as ->.
  { apply not_true_iff_false. intros [t Ht]%starts_with_true. by inversion Ht. }
  by destruct (find_subslice r HEAD_END).
Qed.

Lemma find_head_end lines body :
  lines <> [] -> Forall (fun l => plain l = true /\ l <> []) lines ->
  find_subslice (join_crlf lines ++ HEAD_END ++ body) HEAD_END = Some (length (join_crlf lines)).
Proof.
  intros Hne Hp. induction Hp as [|line rest [Hl Hn] Hr IH]; [done|].
  destruct rest as [|l2 rest].
  - simpl join_crlf. rewrite find_subslice_skip by done.
    assert (find_subslice (HEAD_END ++ body) HEAD_END = Some 0) as ->; [|simpl; f_equal; lia].
    destruct (HEAD_END ++ body) eqn:E; [done|]. cbn [find_subslice]. rewrite <- E.
    unfold starts_with. by rewrite strip_prefix_app.
  - rewrite join_crlf_cons, <- !app_assoc by done. rewrite find_subslice_skip by done.
    assert (exists more, join_crlf (l2 :: rest) = l2 ++ more) as [more Em].
    { destruct rest; [exists []; simpl; by rewrite app_nil_r|eexists; by apply join_crlf_cons]. }
    inversion_clear Hr as [|? ? [Hl2 Hn2] _].
    rewrite Em, <- app_assoc. rewrite find_subslice_separator by done.
    rewrite app_assoc, <- Em. rewrite IH by done. simpl. rewrite !length_app. f_equal.
Qed.

(** * Header lines *)

Definition header_text (header : bytes * bytes) : bytes :=
  let '(name, value) := header in name ++ str ": " ++ value.

(** A value as it is sent: printable, and no blank at either end. *)
Definition clean_value (value : bytes) : Prop :=
  forallb is_value_byte value = true /\
  match value with c :: _ => is_blank c = false | [] => True end /\
  match reverse value with c :: _ => is_blank c = false | [] => True end.

Lemma trim_start_first p (c : byte) s : p c = false -> trim_start_matches p (c :: s) = c :: s.
Proof. simpl. by intros ->. Qed.

Lemma trim_clean value : clean_value value -> trim_matches is_blank (str " " ++ value) = value.
Proof.
  intros (_ & Hs & He). unfold trim_matches, trim_end_matches.
  assert (trim_start_matches is_blank (str " " ++ value) = value) as ->.
  { change (trim_start_matches is_blank (str " " ++ value)) with (trim_start_matches is_blank value).
    destruct value; [done|]. by apply trim_start_first. }
  destruct (reverse value) as [|c r] eqn:E.
  - apply (f_equal reverse) in E. rewrite reverse_involutive in E. by subst.
  - rewrite trim_start_first by done. rewrite <- E. apply reverse_involutive.
Qed.

Lemma tchar_not_colon c : is_tchar c = true -> c <> z2b 58.
Proof. intros H ->. vm_compute in H. done. Qed.

Lemma split_once_name name rest :
  forallb is_tchar name = true -> split_once (z2b 58) (name ++ z2b 58 :: rest) = Some (name, rest).
Proof.
  induction name as [|c name IH]; cbn [app split_once forallb]; [by rewrite decide_True|].
  intros [Hc Hn]%andb_true_iff. rewrite decide_False by by apply tchar_not_colon. by rewrite IH.
Qed.

Lemma split_once_header name value :
  forallb is_tchar name = true ->
  split_once (z2b 58) (header_text (name, value)) = Some (name, str " " ++ value).
Proof. intros Hn. by apply (split_once_name name (str " " ++ value)). Qed.

Lemma tchar_plain c : is_tchar c = true -> negb (bool_decide (c = CR)) = true.
Proof. intros Hc. apply negb_true_iff, bool_decide_eq_false. intros ->. by vm_compute in Hc. Qed.

Lemma value_plain c : is_value_byte c = true -> negb (bool_decide (c = CR)) = true.
Proof. intros Hc. apply negb_true_iff, bool_decide_eq_false. intros ->. by vm_compute in Hc. Qed.

Lemma plain_app a b : plain (a ++ b) = plain a && plain b.
Proof. apply forallb_app. Qed.

Lemma header_text_plain name value :
  forallb is_tchar name = true -> name <> [] -> clean_value value ->
  plain (header_text (name, value)) = true /\ header_text (name, value) <> [].
Proof.
  intros Hn Hne [Hv _]. split; [|by destruct name].
  unfold header_text. rewrite !plain_app. unfold plain.
  rewrite (forallb_impl _ _ _ tchar_plain Hn), (forallb_impl _ _ _ value_plain Hv). done.
Qed.

(** One header as the server's parser reads it. *)
Lemma parse_headers_step name value lines count hs :
  forallb is_tchar name = true -> name <> [] -> clean_value value ->
  count < MAX_HEADER_COUNT -> hs !! to_ascii_lowercase name = None ->
  parse_headers (header_text (name, value) :: lines) count hs =
    parse_headers lines (S count) (<[ to_ascii_lowercase name := value ]> hs).
Proof.
  intros Hn Hne Hv Hc Hhs. cbn [parse_headers].
  destruct (header_text_plain name value Hn Hne Hv) as [_ Hne'].
  rewrite (proj2 (Nat.ltb_ge _ _)) by lia. rewrite bool_decide_eq_false_2 by done.
  assert (starts_blank (header_text (name, value)) = false) as ->.
  { destruct name as [|c name]; [done|]. simpl in Hn |- *. apply andb_true_iff in Hn as [Hc' _].
    unfold is_blank. apply bool_decide_eq_false. intros [->| ->]; by vm_compute in Hc'. }
  cbn [orb]. rewrite split_once_header by done. rewrite bool_decide_eq_false_2, Hn by done.
  cbn [orb negb]. rewrite trim_clean by done. destruct Hv as [-> _]. cbn [negb].
  rewrite bool_decide_eq_false_2; [done|]. rewrite Hhs. by intros [? ?].
Qed.

(** * Header lists *)

Record sent_header (h : bytes * bytes) : Prop := {
  sh_name : forallb is_tchar (fst h) = true;
  sh_named : fst h <> [];
  sh_value : clean_value (snd h);
}.

Definition wire_key (h : bytes * bytes) : bytes := to_ascii_lowercase (fst h).

(** The map both parsers build of a list of distinct headers. *)
Fixpoint insert_headers (hs : list (bytes * bytes)) (m : gmap bytes bytes) : gmap bytes bytes :=
  match hs with
  | [] => m
  | h :: hs => insert_headers hs (<[ wire_key h := snd h ]> m)
  end.

Fixpoint find_header (key : bytes) (hs : list (bytes * bytes)) : option bytes :=
  match hs with
  | [] => None
  | h :: hs => if decide (wire_key h = key) then Some (snd h) else find_header key hs
  end.

Lemma find_header_None key hs : key ∉ map wire_key hs -> find_header key hs = None.
Proof.
  induction hs as [|h hs IH]; simpl; [done|]. rewrite not_elem_of_cons.
  intros [Hk Hn]. rewrite decide_False by congruence. auto.
Qed.

Lemma insert_headers_lookup hs m key :
  NoDup (map wire_key hs) ->
  insert_headers hs m !! key =
    match find_header key hs with Some v => Some v | None => m !! key end.
Proof.
  revert m. induction hs as [|h hs IH]; intros m Hd; [done|].
  apply NoDup_cons in Hd as [Hh Hd]. cbn [insert_headers find_header]. rewrite IH by done.
  destruct (decide (wire_key h = key)) as [E|E].
  - rewrite find_header_None by (by rewrite <- E). rewrite E. apply lookup_insert_eq.
  - destruct (find_header key hs); [done|]. by apply lookup_insert_ne.
Qed.

Lemma header_text_name h : header_text h = fst h ++ str ": " ++ snd h.
Proof. by destruct h. Qed.

Lemma sent_header_text h : sent_header h -> plain (header_text h) = true /\ header_text h <> [].
Proof. destruct h. intros [??[??]]. by apply header_text_plain. Qed.

Lemma parse_headers_all hs count m :
  Forall sent_header hs -> NoDup (map wire_key hs) ->
  (forall h, h ∈ hs -> m !! wire_key h = None) -> count + length hs <= MAX_HEADER_COUNT ->
  parse_headers (map header_text hs) count m = Ok (insert_headers hs m).
Proof.
  intros Hs. revert count m. induction Hs as [|h hs Hh Hs IH]; intros count m Hd Hf Hc; [done|].
  apply NoDup_cons in Hd as [Hn Hd]. cbn [map insert_headers]. destruct h as [name value].
  destruct Hh as [H1 H2 H3]. simpl in H1, H2, H3, Hc.
  rewrite parse_headers_step; [|done..|lia|by apply (Hf (name, value)); left].
  change (to_ascii_lowercase name) with (wire_key (name, value)).
  apply IH; [done| |lia]. intros h Hin.
  rewrite lookup_insert_ne; [apply Hf; by right|].
  intros E. apply Hn. rewrite E. by apply list_elem_of_fmap_2.
Qed.

(** * Heads *)

(** A head of one first line and headers, and what the readers find of it. *)
Definition head_of (line : bytes) (hs : list (bytes * bytes)) : bytes :=
  join_crlf (line :: map header_text hs).

Lemma head_of_lines line hs : 
  line ++ CRLF ++ concat (map header_line hs) ++ CRLF = head_of line hs ++ HEAD_END.
Proof.
  unfold head_of. revert line. induction hs as [|h hs IH]; intros line; [done|].
  cbn [map]. rewrite join_crlf_cons by done. rewrite <- !app_assoc. rewrite <- IH.
  cbn [concat]. destruct h as [name value]. unfold header_line, header_text.
  by rewrite <- !app_assoc.
Qed.

Lemma head_of_plain line hs :
  plain line = true -> line <> [] -> Forall sent_header hs ->
  Forall (fun l => plain l = true /\ l <> []) (line :: map header_text hs).
Proof.
  intros Hp Hn Hs. constructor; [done|]. apply Forall_map.
  eapply Forall_impl; [exact Hs|]. apply sent_header_text.
Qed.

Lemma head_of_found line hs content :
  plain line = true -> line <> [] -> Forall sent_header hs ->
  find_subslice (head_of line hs ++ HEAD_END ++ content) HEAD_END = Some (length (head_of line hs)).
Proof. intros. apply find_head_end; [done|]. by apply head_of_plain. Qed.

Lemma head_of_split line hs :
  plain line = true -> line <> [] -> Forall sent_header hs ->
  split_crlf (head_of line hs) = line :: map header_text hs.
Proof.
  intros Hp Hn Hs. apply split_join; [done|].
  eapply Forall_impl; [by apply head_of_plain|]. by intros ? [? _].
Qed.

Lemma tchar_head c : is_tchar c = true -> is_head_byte c = true.
Proof. apply by_bytes_impl. by vm_compute. Qed.
Lemma value_head c : is_value_byte c = true -> is_head_byte c = true.
Proof. apply by_bytes_impl. by vm_compute. Qed.
Lemma head_ascii c : is_head_byte c = true -> in_range 0 0x7F c = true.
Proof. apply by_bytes_impl. by vm_compute. Qed.

Lemma head_bytes_utf8 s : forallb is_head_byte s = true -> utf8_valid s = true.
Proof.
  unfold utf8_valid. induction s as [|c s IH]; [done|]. cbn [forallb length utf8_go].
  intros [Hc Hs]%andb_true_iff. unfold utf8_char.
  rewrite head_ascii by done. auto.
Qed.

Lemma head_of_bytes line hs :
  forallb is_head_byte line = true -> Forall sent_header hs ->
  forallb is_head_byte (head_of line hs) = true.
Proof.
  unfold head_of. intros Hl Hs. revert line Hl. induction Hs as [|h hs Hh Hs IH]; intros line Hl; [done|].
  cbn [map]. rewrite join_crlf_cons by done. rewrite !forallb_app, Hl. cbn [andb].
  rewrite IH; [done|]. destruct Hh as [H1 H2 [H3 _]]. rewrite header_text_name, !forallb_app.
  rewrite (forallb_impl is_tchar is_head_byte _ tchar_head H1).
  rewrite (forallb_impl is_value_byte is_head_byte _ value_head H3). done.
Qed.

(** * Values as they are sent *)

Lemma graphic_value c : is_ascii_graphic c = true -> is_value_byte c = true.
Proof. apply by_bytes_impl. by vm_compute. Qed.
Lemma graphic_not_blank c : is_ascii_graphic c = true -> is_blank c = false.
Proof.
  intros Hc. apply negb_true_iff. revert c Hc. apply by_bytes_impl. by vm_compute.
Qed.

Lemma graphic_clean s : forallb is_ascii_graphic s = true -> clean_value s.
Proof.
  intros Hs. split; [by apply (forallb_impl _ _ _ graphic_value)|]. split.
  - destruct s as [|c s]; [done|]. simpl in Hs. apply andb_true_iff in Hs as [Hc _].
    by apply graphic_not_blank.
  - rewrite <- forallb_reverse in Hs. destruct (reverse s) as [|c r]; [done|].
    simpl in Hs. apply andb_true_iff in Hs as [Hc _]. by apply graphic_not_blank.
Qed.

(** A value whose ends are not blank. *)
Lemma bracketed_clean a b middle :
  is_ascii_graphic a = true -> is_ascii_graphic b = true -> forallb is_value_byte middle = true ->
  clean_value (a :: middle ++ [b]).
Proof.
  intros Ha Hb Hm. split_and!.
  - cbn [forallb]. rewrite forallb_app. simpl. by rewrite Hm, !graphic_value.
  - by apply graphic_not_blank.
  - rewrite reverse_cons, reverse_app. simpl. by apply graphic_not_blank.
Qed.

Lemma dec_length n : (0 <= n <= u64_max)%Z -> length (dec n) <= 20.
Proof.
  intros Hn. destruct (dec_canonical n Hn) as [C V]. apply canonical_length; [done| |lia].
  rewrite V. pose proof u64_max_digits. lia.
Qed.
