(* ===== verification/LocalModel.v ===== *)
(** The data the local client reads (rust/src/local_client.rs): its own copy of
    the vocabulary, the two bodies it decodes with serde and the checks of a
    decoded status.  The JSON text itself is read by serde_json, which is
    third-party code; what the derived decoders do with the value tree is
    written out here. *)
From S2P Require Import Prelude Bytes Model.

(** * Vocabulary: the variants with their names on the wire *)

Module LocalBackend.
Inductive t :=
| LegacyV04WholePair | NativePair.
#[global] Instance eq_dec : EqDecision t. Proof. solve_decision. Defined.
Definition variants : list (bytes * t) :=
  [(str "legacy_v04_whole_pair", LegacyV04WholePair);
   (str "native_pair", NativePair)].
End LocalBackend.

Module LocalPairConfiguration.
Inductive t :=
| Ready | NotReady | Unavailable.
#[global] Instance eq_dec : EqDecision t. Proof. solve_decision. Defined.
Definition variants : list (bytes * t) :=
  [(str "ready", Ready);
   (str "not_ready", NotReady);
   (str "unavailable", Unavailable)].
End LocalPairConfiguration.

Module LocalPairMemberName.
Inductive t :=
| JblAuthentics300 | AuraStudio5.
#[global] Instance eq_dec : EqDecision t. Proof. solve_decision. Defined.
Definition variants : list (bytes * t) :=
  [(str "JBL Authentics 300", JblAuthentics300);
   (str "Aura Studio 5", AuraStudio5)].
End LocalPairMemberName.

Module LocalPairMemberVerification.
Inductive t :=
| Verified | NotVerified | Unavailable.
#[global] Instance eq_dec : EqDecision t. Proof. solve_decision. Defined.
Definition variants : list (bytes * t) :=
  [(str "verified", Verified);
   (str "not_verified", NotVerified);
   (str "unavailable", Unavailable)].
End LocalPairMemberVerification.

Module LocalPairMemberChannel.
Inductive t :=
| FrontLeft | FrontRight | Left | Right | Mono | Stereo | Unknown.
#[global] Instance eq_dec : EqDecision t. Proof. solve_decision. Defined.
Definition variants : list (bytes * t) :=
  [(str "front_left", FrontLeft);
   (str "front_right", FrontRight);
   (str "left", Left);
   (str "right", Right);
   (str "mono", Mono);
   (str "stereo", Stereo);
   (str "unknown", Unknown)].
End LocalPairMemberChannel.

Module LocalManagedState.
Inductive t :=
| Unknown | Offline | Ready | Linking | Linked | Unlinking | Recovering | Degraded
| ShuttingDown.
#[global] Instance eq_dec : EqDecision t. Proof. solve_decision. Defined.
Definition variants : list (bytes * t) :=
  [(str "unknown", Unknown);
   (str "offline", Offline);
   (str "ready", Ready);
   (str "linking", Linking);
   (str "linked", Linked);
   (str "unlinking", Unlinking);
   (str "recovering", Recovering);
   (str "degraded", Degraded);
   (str "shutting_down", ShuttingDown)].
End LocalManagedState.

Module LocalLifecycle.
Inductive t :=
| Offline | Initializing | Connecting | Ready | Linking | Linked | Unlinking | Degraded
| Recovering | ShuttingDown | Failed.
#[global] Instance eq_dec : EqDecision t. Proof. solve_decision. Defined.
Definition variants : list (bytes * t) :=
  [(str "offline", Offline);
   (str "initializing", Initializing);
   (str "connecting", Connecting);
   (str "ready", Ready);
   (str "linking", Linking);
   (str "linked", Linked);
   (str "unlinking", Unlinking);
   (str "degraded", Degraded);
   (str "recovering", Recovering);
   (str "shutting_down", ShuttingDown);
   (str "failed", Failed)].
End LocalLifecycle.

Module LocalHealthLevel.
Inductive t :=
| Healthy | Transitioning | Degraded | Unavailable.
#[global] Instance eq_dec : EqDecision t. Proof. solve_decision. Defined.
Definition variants : list (bytes * t) :=
  [(str "healthy", Healthy);
   (str "transitioning", Transitioning);
   (str "degraded", Degraded);
   (str "unavailable", Unavailable)].
End LocalHealthLevel.

Module LocalAuraTransport.
Inductive t :=
| Le | BrEdr | Unresolved | Unknown.
#[global] Instance eq_dec : EqDecision t. Proof. solve_decision. Defined.
Definition variants : list (bytes * t) :=
  [(str "le", Le);
   (str "br_edr", BrEdr);
   (str "unresolved", Unresolved);
   (str "unknown", Unknown)].
End LocalAuraTransport.

Module LocalAuraAcquisitionRoute.
Inductive t :=
| StableDirect | A2dpWakeThenStable | FreshLe | Unresolved.
#[global] Instance eq_dec : EqDecision t. Proof. solve_decision. Defined.
Definition variants : list (bytes * t) :=
  [(str "stable_direct", StableDirect);
   (str "a2dp_wake_then_stable", A2dpWakeThenStable);
   (str "fresh_le", FreshLe);
   (str "unresolved", Unresolved)].
End LocalAuraAcquisitionRoute.

Module LocalActionName.
Inductive t :=
| Start | Stop | Shutdown | RecoverStop.
#[global] Instance eq_dec : EqDecision t. Proof. solve_decision. Defined.
Definition variants : list (bytes * t) :=
  [(str "start", Start);
   (str "stop", Stop);
   (str "shutdown", Shutdown);
   (str "recover_stop", RecoverStop)].
End LocalActionName.

Module LocalActionOutcome.
Inductive t :=
| Accepted | AcceptedUnconfirmed | Idempotent | RejectedBeforeSend | OutcomeUnknown
| PostconditionFailed.
#[global] Instance eq_dec : EqDecision t. Proof. solve_decision. Defined.
Definition variants : list (bytes * t) :=
  [(str "accepted", Accepted);
   (str "accepted_unconfirmed", AcceptedUnconfirmed);
   (str "idempotent", Idempotent);
   (str "rejected_before_send", RejectedBeforeSend);
   (str "outcome_unknown", OutcomeUnknown);
   (str "postcondition_failed", PostconditionFailed)].
End LocalActionOutcome.

Module LocalActionEvidence.
Inductive t :=
| LocalSessionState | LifecycleAcknowledgement | BroadcastAcknowledgementOnly
| BroadcastBusinessNotification.
#[global] Instance eq_dec : EqDecision t. Proof. solve_decision. Defined.
Definition variants : list (bytes * t) :=
  [(str "local_session_state", LocalSessionState);
   (str "lifecycle_acknowledgement", LifecycleAcknowledgement);
   (str "broadcast_acknowledgement_only", BroadcastAcknowledgementOnly);
   (str "broadcast_business_notification", BroadcastBusinessNotification)].
End LocalActionEvidence.

Module LocalFailure.
Inductive t :=
| PairConfigurationUnavailable | ExpectedPairNotConfigured | BackendRejectedBeforeSend
| AuraAdapterUnavailable | AuraDiscoveryUnavailable | AuraVerifiedAdvertisementNotFound
| AuraDeviceConnectionFailed | WakeProfileConnectFailed | WakeFddfTimedOut | WakeFddfInvalid
| WakeFddfUnavailable | WakeProfileReleaseFailed | AuraGattProfileInvalid
| AuraNotificationSetupFailed | AuraWriteUnknown | AuraAckTimeout | AuraAckChannelClosed
| AuraUnexpectedAck | JblEnterOutcomeUnknown | JblExitOutcomeUnknown
| JblBroadcastResultTimedOut | JblBroadcastResultUnavailable | JblBroadcastResultRejected
| AuraStartOutcomeUnknown | BackendOutcomeUnknown | UnexpectedBackendLifecycle
| MembershipPostconditionFailed | UnresolvedPriorAction | RecoveryNotAllowed
| JournalUnavailable | JournalCommitFailed.
#[global] Instance eq_dec : EqDecision t. Proof. solve_decision. Defined.
Definition variants : list (bytes * t) :=
  [(str "pair_configuration_unavailable", PairConfigurationUnavailable);
   (str "expected_pair_not_configured", ExpectedPairNotConfigured);
   (str "backend_rejected_before_send", BackendRejectedBeforeSend);
   (str "aura_adapter_unavailable", AuraAdapterUnavailable);
   (str "aura_discovery_unavailable", AuraDiscoveryUnavailable);
   (str "aura_verified_advertisement_not_found", AuraVerifiedAdvertisementNotFound);
   (str "aura_device_connection_failed", AuraDeviceConnectionFailed);
   (str "wake_profile_connect_failed", WakeProfileConnectFailed);
   (str "wake_fddf_timed_out", WakeFddfTimedOut);
   (str "wake_fddf_invalid", WakeFddfInvalid);
   (str "wake_fddf_unavailable", WakeFddfUnavailable);
   (str "wake_profile_release_failed", WakeProfileReleaseFailed);
   (str "aura_gatt_profile_invalid", AuraGattProfileInvalid);
   (str "aura_notification_setup_failed", AuraNotificationSetupFailed);
   (str "aura_write_unknown", AuraWriteUnknown);
   (str "aura_ack_timeout", AuraAckTimeout);
   (str "aura_ack_channel_closed", AuraAckChannelClosed);
   (str "aura_unexpected_ack", AuraUnexpectedAck);
   (str "jbl_enter_outcome_unknown", JblEnterOutcomeUnknown);
   (str "jbl_exit_outcome_unknown", JblExitOutcomeUnknown);
   (str "jbl_broadcast_result_timed_out", JblBroadcastResultTimedOut);
   (str "jbl_broadcast_result_unavailable", JblBroadcastResultUnavailable);
   (str "jbl_broadcast_result_rejected", JblBroadcastResultRejected);
   (str "aura_start_outcome_unknown", AuraStartOutcomeUnknown);
   (str "backend_outcome_unknown", BackendOutcomeUnknown);
   (str "unexpected_backend_lifecycle", UnexpectedBackendLifecycle);
   (str "membership_postcondition_failed", MembershipPostconditionFailed);
   (str "unresolved_prior_action", UnresolvedPriorAction);
   (str "recovery_not_allowed", RecoveryNotAllowed);
   (str "journal_unavailable", JournalUnavailable);
   (str "journal_commit_failed", JournalCommitFailed)].
End LocalFailure.

(** * Derived decoders *)

(** The name a unit variant is read from: a string, or an object with that only
    key and no content. *)
Definition variant_name (v : Value.t) : option bytes :=
  match v with
  | Value.String s => Some s
  | Value.Object [(s, Value.Null)] => Some s
  | _ => None
  end.

Definition decode_variant {T} (variants : list (bytes * T)) (v : Value.t) : option T :=
  name ← variant_name v; snd <$> find (fun '(wire, _) => bool_decide (wire = name)) variants.

Definition decode_option {T} (decode : Value.t -> option T) (v : Value.t) : option (option T) :=
  match v with Value.Null => Some None | _ => Some <$> decode v end.

Definition decode_bool : Value.t -> option bool := Value.as_bool.

(** An unsigned integer with maximum [m]. *)
Definition decode_unsigned (m : Z) (v : Value.t) : option Z :=
  match v with
  | Value.Number n => n ← Number.as_u64 n; if (n <=? m)%Z then Some n else None
  | _ => None
  end.

Fixpoint decode_all {T} (decode : Value.t -> option T) (items : list Value.t) : option (list T) :=
  match items with
  | [] => Some []
  | v :: items => x ← decode v; cons x <$> decode_all decode items
  end.

Definition decode_vec {T} (decode : Value.t -> option T) (v : Value.t) : option (list T) :=
  Value.as_array v ≫= decode_all decode.

(** The struct's fields, in the order of [names], [None] for one that is not
    there: an object with known keys and no duplicate, or an array of exactly
    the fields. *)
Definition struct_fields (names : list bytes) (v : Value.t) : option (list (option Value.t)) :=
  match v with
  | Value.Object fields =>
      if bool_decide (NoDup (map fst fields))
         && forallb (fun key => bool_decide (key ∈ names)) (map fst fields)
      then Some (map (fun name => field name fields) names)
      else None
  | Value.Array items =>
      if (length items =? length names)%nat then Some (map Some items) else None
  | _ => None
  end.

(** A required field, and an [Option] field, which may be missing. *)
Definition required {T} (decode : Value.t -> option T) (f : option Value.t) : option T :=
  f ≫= decode.
Definition optional {T} (decode : Value.t -> option T) (f : option Value.t) : option (option T) :=
  match f with Some v => decode_option decode v | None => Some None end.

Record LocalPairMember := mkLocalPairMember {
  name : LocalPairMemberName.t;
  local_verification : LocalPairMemberVerification.t;
  channels : list LocalPairMemberChannel.t;
}.

Record LocalHealth := mkLocalHealth {
  lifecycle : LocalLifecycle.t;
  level : LocalHealthLevel.t;
  reported_error : bool;
  aura_transport : LocalAuraTransport.t;
  aura_acquisition_route : LocalAuraAcquisitionRoute.t;
}.

Record LocalLastAction := mkLocalLastAction {
  last_name : LocalActionName.t;
  last_outcome : LocalActionOutcome.t;
  last_evidence : option LocalActionEvidence.t;
  last_failure : option LocalFailure.t;
  last_revision : Z;
  age_ms : Z;
}.

Record LocalStatus := mkLocalStatus {
  backend : LocalBackend.t;
  pair_configuration : LocalPairConfiguration.t;
  members : LocalPairMember * LocalPairMember;
  managed_state : LocalManagedState.t;
  backend_health : option LocalHealth;
  unresolved_action : bool;
  consecutive_failures : Z;
  status_revision : Z;
  last_action : option LocalLastAction;
}.

Record LocalActionResult := mkLocalActionResult {
  action : LocalActionName.t;
  outcome : LocalActionOutcome.t;
  result_managed_state : LocalManagedState.t;
  evidence : option LocalActionEvidence.t;
  failure : option LocalFailure.t;
  action_revision : Z;
}.
#[global] Instance LocalActionResult_eq_dec : EqDecision LocalActionResult.
Proof. solve_decision. Defined.

Definition decode_member (v : Value.t) : option LocalPairMember :=
  fields ← struct_fields [str "name"; str "verification"; str "channels"] v;
  match fields with
  | [n; ver; chans] =>
      n ← required (decode_variant LocalPairMemberName.variants) n;
      ver ← required (decode_variant LocalPairMemberVerification.variants) ver;
      chans ← required (decode_vec (decode_variant LocalPairMemberChannel.variants)) chans;
      Some (mkLocalPairMember n ver chans)
  | _ => None
  end.

Definition decode_health (v : Value.t) : option LocalHealth :=
  fields ← struct_fields [str "lifecycle"; str "level"; str "reported_error";
                          str "aura_transport"; str "aura_acquisition_route"] v;
  match fields with
  | [l; lev; err; transport; route] =>
      l ← required (decode_variant LocalLifecycle.variants) l;
      lev ← required (decode_variant LocalHealthLevel.variants) lev;
      err ← required decode_bool err;
      transport ← required (decode_variant LocalAuraTransport.variants) transport;
      route ← required (decode_variant LocalAuraAcquisitionRoute.variants) route;
      Some (mkLocalHealth l lev err transport route)
  | _ => None
  end.

Definition decode_last_action (v : Value.t) : option LocalLastAction :=
  fields ← struct_fields [str "action"; str "outcome"; str "evidence"; str "failure";
                          str "revision"; str "age_ms"] v;
  match fields with
  | [a; o; ev; f; rev; age] =>
      a ← required (decode_variant LocalActionName.variants) a;
      o ← required (decode_variant LocalActionOutcome.variants) o;
      ev ← optional (decode_variant LocalActionEvidence.variants) ev;
      f ← optional (decode_variant LocalFailure.variants) f;
      rev ← required (decode_unsigned u64_max) rev;
      age ← required (decode_unsigned u64_max) age;
      Some (mkLocalLastAction a o ev f rev age)
  | _ => None
  end.

Definition decode_action_result (v : Value.t) : option LocalActionResult :=
  fields ← struct_fields [str "action"; str "outcome"; str "managed_state"; str "evidence";
                          str "failure"; str "revision"] v;
  match fields with
  | [a; o; state; ev; f; rev] =>
      a ← required (decode_variant LocalActionName.variants) a;
      o ← required (decode_variant LocalActionOutcome.variants) o;
      state ← required (decode_variant LocalManagedState.variants) state;
      ev ← optional (decode_variant LocalActionEvidence.variants) ev;
      f ← optional (decode_variant LocalFailure.variants) f;
      rev ← required (decode_unsigned u64_max) rev;
      Some (mkLocalActionResult a o state ev f rev)
  | _ => None
  end.

(** [[T; 2]]. *)
Definition decode_two {T} (decode : Value.t -> option T) (v : Value.t) : option (T * T) :=
  match Value.as_array v with
  | Some [a; b] => a ← decode a; b ← decode b; Some (a, b)
  | _ => None
  end.

Definition decode_status (v : Value.t) : option LocalStatus :=
  fields ← struct_fields [str "backend"; str "pair_configuration"; str "members";
                          str "managed_state"; str "backend_health"; str "unresolved_action";
                          str "consecutive_failures"; str "revision"; str "last_action"] v;
  match fields with
  | [b; pc; ms; state; h; u; failures; rev; last] =>
      b ← required (decode_variant LocalBackend.variants) b;
      pc ← required (decode_variant LocalPairConfiguration.variants) pc;
      ms ← required (decode_two decode_member) ms;
      state ← required (decode_variant LocalManagedState.variants) state;
      h ← optional decode_health h;
      u ← required decode_bool u;
      failures ← required (decode_unsigned u8_max) failures;
      rev ← required (decode_unsigned u64_max) rev;
      last ← optional decode_last_action last;
      Some (mkLocalStatus b pc ms state h u failures rev last)
  | _ => None
  end.

(** * Checks of a decoded status *)

Definition succeeded (result : LocalActionResult) : bool :=
  match outcome result with
  | LocalActionOutcome.Accepted
  | LocalActionOutcome.AcceptedUnconfirmed
  | LocalActionOutcome.Idempotent => true
  | _ => false
  end.

Definition valid_health_projection (health : LocalHealth) : bool :=
  match aura_acquisition_route health with
  | LocalAuraAcquisitionRoute.StableDirect
  | LocalAuraAcquisitionRoute.A2dpWakeThenStable =>
      bool_decide (aura_transport health = LocalAuraTransport.BrEdr)
  | LocalAuraAcquisitionRoute.FreshLe =>
      bool_decide (aura_transport health = LocalAuraTransport.Le)
  | LocalAuraAcquisitionRoute.Unresolved => true
  end.

Definition valid_member_projection (member : LocalPairMember) : bool :=
  let chans := channels member in
  negb (bool_decide (chans = [])) && (length chans <=? 6)%nat
  && forallb (fun '(index, channel) =>
       (negb (bool_decide (channel = LocalPairMemberChannel.Unknown)) || (length chans =? 1)%nat)
       && negb (bool_decide (channel ∈ take index chans))) (imap pair chans).

Definition valid_status_projection (status : LocalStatus) : bool :=
  let '(jbl, aura) := members status in
  let both := fun p : LocalPairMember -> bool => p jbl && p aura in
  if negb (bool_decide (name jbl = LocalPairMemberName.JblAuthentics300))
     || negb (bool_decide (name aura = LocalPairMemberName.AuraStudio5))
     || negb (both valid_member_projection)
     || match last_action status with
        | Some a => (status_revision status <? last_revision a)%Z | None => false end
     || match backend_health status with
        | Some h => negb (valid_health_projection h) | None => false end
  then false
  else
  let unavailable := fun member =>
    bool_decide (local_verification member = LocalPairMemberVerification.Unavailable) in
  match pair_configuration status with
  | LocalPairConfiguration.Ready =>
      both (fun member =>
        bool_decide (local_verification member = LocalPairMemberVerification.Verified))
  | LocalPairConfiguration.NotReady => both (fun member => negb (unavailable member))
  | LocalPairConfiguration.Unavailable => both unavailable
  end.
