(* ===== verification/LocalClient.v ===== *)
(** The local client (rust/src/local_client.rs): one bounded HTTP exchange with
    the loopback service per call, the strict response parser, and the flows
    that fetch a fresh token and revision before their single POST. *)
From S2P Require Import Prelude Bytes Model Web Tcp LocalModel.

Definition CONNECT_TIMEOUT : Z := from_secs 2.
Definition READY_TIMEOUT : Z := from_secs 2.
Definition STATUS_TIMEOUT : Z := from_secs 120.
Definition ACTION_TIMEOUT_SECONDS : Z := 600.
Definition ACTION_TIMEOUT : Z := from_secs ACTION_TIMEOUT_SECONDS.
Definition MAX_RESPONSE_BYTES : Z := 64 * 1024.
Definition MAX_RESPONSE_HEADER_BYTES : nat := 16 * 1024.
Definition MAX_RESPONSE_HEADER_COUNT : nat := 64.
#[global] Arguments MAX_RESPONSE_HEADER_BYTES : simpl never.
#[global] Opaque MAX_RESPONSE_HEADER_BYTES.
Definition COOKIE_NAME : bytes := str "jbl_aura_csrf".

Module LocalClientError.
Inductive t :=
| Unavailable | TimedOut | ResponseTooLarge | InvalidResponse | ServiceRejected
| RevisionConflict.
#[global] Instance eq_dec : EqDecision t. Proof. solve_decision. Defined.

Definition display (e : t) : bytes :=
  match e with
  | Unavailable => str "the local Play Together service is unavailable"
  | TimedOut => str "the local Play Together service timed out"
  | ResponseTooLarge => str "the local Play Together response exceeded its limit"
  | InvalidResponse => str "the local Play Together service returned an invalid response"
  | ServiceRejected => str "the local Play Together service rejected the request"
  | RevisionConflict => str "the local Play Together state changed; run the command again"
  end.
End LocalClientError.

Definition service_unavailable (e : LocalClientError.t) : bool :=
  bool_decide (e = LocalClientError.Unavailable).

(** * Response parsing *)

Record LocalHttpResponse := mkLocalHttpResponse {
  status_code : Z;
  response_header_map : gmap bytes bytes;
  payload : bytes;
}.

Definition valid_header_name (value : bytes) : bool :=
  negb (bool_decide (value = []))
  && forallb (fun byte => is_ascii_alphanumeric byte
                          || contains_byte byte (str "!#$%&'*+-.^_`|~")) value.

Definition valid_header_value (value : bytes) : bool :=
  forallb (fun byte => bool_decide (byte = TAB) || in_range 0x20 0x7e byte) value.

(** The status code of the first line. *)
Definition parse_status_line (line : bytes) : option Z :=
  '(version, rest) ← split_once SP line;
  '(status_text, _) ← split_once SP rest;
  if negb (bool_decide (version = str "HTTP/1.1")) then None
  else if negb (length status_text =? 3)%nat || negb (forallb is_ascii_digit status_text)
  then None
  else parse_digits u16_max status_text.

(** The loop over the header lines. *)
Fixpoint parse_response_headers (lines : list bytes) (count : nat) (hs : gmap bytes bytes)
  : option (gmap bytes bytes) :=
  match lines with
  | [] => Some hs
  | line :: lines =>
      if (MAX_RESPONSE_HEADER_COUNT <=? count)%nat || bool_decide (line = []) || starts_blank line
      then None
      else
      '(raw_name, raw_value) ← split_once (z2b 58) line;
      let name := to_ascii_lowercase raw_name in
      let value := trim_matches is_blank raw_value in
      if negb (valid_header_name name) || negb (valid_header_value value)
         || bool_decide (is_Some (hs !! name))
      then None
      else parse_response_headers lines (S count) (<[ name := value ]> hs)
  end.

(** The part of [parse_response] behind the head; every failure is one error. *)
Definition parse_response_parts (head content : bytes) : option LocalHttpResponse :=
  if negb (utf8_valid head) || negb (forallb is_head_byte head) then None
  else
  match split_crlf head with
  | [] => None
  | status_line :: lines =>
      status ← parse_status_line status_line;
      hs ← parse_response_headers lines 0 ∅;
      if bool_decide (is_Some (hs !! str "transfer-encoding")) then None
      else
      content_length ← hs !! str "content-length" ≫= parse_unsigned usize_max;
      if negb (Z.of_nat (length content) =? content_length)%Z
         || (MAX_RESPONSE_BYTES <? Z.of_nat (length content))%Z
      then None
      else Some (mkLocalHttpResponse status hs content)
  end.

Definition parse_response (raw : bytes) : result LocalHttpResponse LocalClientError.t :=
  match find_subslice raw HEAD_END with
  | None => Err LocalClientError.InvalidResponse
  | Some head_end =>
      if (MAX_RESPONSE_HEADER_BYTES <? head_end)%nat then Err LocalClientError.ResponseTooLarge
      else ok_or (parse_response_parts (take head_end raw) (drop (head_end + 4) raw))
             LocalClientError.InvalidResponse
  end.

(** * The requests *)

Definition authority (port : Z) : bytes := str "127.0.0.1:" ++ dec port.
Definition origin (port : Z) : bytes := str "http://" ++ authority port.

(** The head's lines without the header arguments, and the whole request. *)
Definition request_prefix (port : Z) (method path body : bytes) : bytes :=
  method ++ str " " ++ path ++ str " HTTP/1.1" ++ CRLF ++
  str "Host: " ++ authority port ++ CRLF ++
  str "Accept: application/json" ++ CRLF ++
  str "Accept-Encoding: identity" ++ CRLF ++
  str "Connection: close" ++ CRLF ++
  str "Content-Length: " ++ dec (Z.of_nat (length body)) ++ CRLF.

Definition encode_request (port : Z) (method path : bytes) (hs : list (bytes * bytes))
    (body : bytes) : bytes :=
  request_prefix port method path body ++ concat (map header_line hs) ++ CRLF ++ body.

Definition map_io_error (kind : IoErrorKind.t) : LocalClientError.t :=
  match kind with
  | IoErrorKind.TimedOut | IoErrorKind.WouldBlock => LocalClientError.TimedOut
  | _ => LocalClientError.Unavailable
  end.
Definition map_connect_error : IoErrorKind.t -> LocalClientError.t := map_io_error.

Section Exchange.
Context {W : Type} `{TcpStream W}.
#[local] Abbreviation io T := (result T LocalClientError.t * W)%type.

Definition remaining (deadline : Z) (w : W) : io Z :=
  let '(now, w) := instant_now w in
  (if (now <? deadline)%Z then Ok (deadline - now)%Z else Err LocalClientError.TimedOut, w).

Definition mapped {T} (call : result T IoErrorKind.t * W) : io T :=
  let '(r, w) := call in (map_err map_io_error r, w).

(** The loops, with fuel; [None] is out of fuel. *)
Fixpoint write_all_before (fuel : nat) (p : bytes) (deadline : Z) (w : W) : option (io unit) :=
  match p, fuel with
  | [], _ => Some (Ok tt, w)
  | _ :: _, O => None
  | _ :: _, S fuel =>
      let?* (time_left, w) := Some (remaining deadline w) in
      let?* (_, w) := Some (mapped (set_write_timeout time_left w)) in
      match tcp_write p w with
      | (Ok O, w) => Some (Err LocalClientError.Unavailable, w)
      | (Ok written, w) => write_all_before fuel (drop written p) deadline w
      | (Err IoErrorKind.Interrupted, w) => write_all_before fuel p deadline w
      | (Err error, w) => Some (Err (map_io_error error), w)
      end
  end.

Fixpoint read_to_end_before (fuel : nat) (acc : bytes) (deadline : Z) (w : W)
  : option (io bytes) :=
  match fuel with
  | O => None
  | S fuel =>
      let?* (time_left, w) := Some (remaining deadline w) in
      let?* (_, w) := Some (mapped (set_read_timeout time_left w)) in
      match tcp_read 2048 w with
      | (Ok [], w) => Some (Ok acc, w)
      | (Ok chunk, w) =>
          if (MAX_RESPONSE_BYTES <? Z.min (Z.of_nat (length acc + length chunk)) usize_max)%Z
          then Some (Err LocalClientError.ResponseTooLarge, w)
          else read_to_end_before fuel (acc ++ chunk) deadline w
      | (Err IoErrorKind.Interrupted, w) => read_to_end_before fuel acc deadline w
      | (Err error, w) => Some (Err (map_io_error error), w)
      end
  end.

Definition request (fuel : nat) (port : Z) (method path : bytes) (hs : list (bytes * bytes))
    (body : bytes) (timeout : Z) (w : W) : option (io LocalHttpResponse) :=
  let '(now, w) := instant_now w in
  let deadline := (now + timeout)%Z in
  let?* (time_left, w) := Some (remaining deadline w) in
  match connect_timeout port (Z.min time_left CONNECT_TIMEOUT) w with
  | (Err error, w) => Some (Err (map_connect_error error), w)
  | (Ok _, w) =>
      if negb (forallb (fun '(name, value) => valid_header_name name && valid_header_value value) hs)
      then Some (Err LocalClientError.InvalidResponse, w)
      else
      let?* (_, w) := write_all_before fuel (encode_request port method path hs body) deadline w in
      let?* (raw, w) := read_to_end_before fuel [] deadline w in
      Some (parse_response raw, w)
  end.
End Exchange.

(** * The flows *)

(** [serde_json::from_slice] of the two decoded types goes through the value
    tree of the text, an object with all its entries in order. *)
Class LocalLibrary := {
  read_json : bytes -> option Value.t;
}.

Section Flows.
Context {W : Type} `{TcpStream W} `{LocalLibrary}.
Context (fuel : nat) (port : Z).
#[local] Abbreviation io T := (option (result T LocalClientError.t * W)%type).

Definition GET : bytes := str "GET".
Definition POST : bytes := str "POST".

(** [if ok { Ok(x) } else { Err(e) }] at the end of a flow. *)
Definition checked {T} (ok : bool) (x : T) (e : LocalClientError.t) (w : W) : io T :=
  Some (if ok then Ok x else Err e, w).

Definition READY_BODY : bytes :=
  str "{" ++ [DQUOTE] ++ str "status" ++ [DQUOTE] ++ str ":" ++ [DQUOTE] ++ str "ready" ++
  [DQUOTE] ++ str "}".

Definition ready (w : W) : io unit :=
  let?* (r, w) := request fuel port GET (str "/healthz") [] [] READY_TIMEOUT w in
  checked ((status_code r =? 200)%Z && bool_decide (payload r = READY_BODY)) tt
    LocalClientError.InvalidResponse w.

Definition has_etag (r : LocalHttpResponse) (revision : Z) : bool :=
  bool_decide (response_header_map r !! str "etag" = Some (etag revision)).

Definition status (w : W) : io LocalStatus :=
  let?* (r, w) := request fuel port GET (str "/api/status") [] [] STATUS_TIMEOUT w in
  if negb (status_code r =? 200)%Z then Some (Err LocalClientError.ServiceRejected, w)
  else
  match read_json (payload r) ≫= decode_status with
  | None => Some (Err LocalClientError.InvalidResponse, w)
  | Some status =>
      checked (valid_status_projection status && has_etag r (status_revision status)) status
        LocalClientError.InvalidResponse w
  end.

(** The token of a [Set-Cookie] value. *)
Definition cookie_token (cookie : bytes) : option bytes :=
  match split_byte (z2b 59) cookie with
  | [] => None
  | first :: _ =>
      '(name, token) ← split_once (z2b 61) first;
      if negb (bool_decide (name = COOKIE_NAME)) || negb (length token =? 64)%nat
         || negb (forallb (fun byte => is_ascii_hexdigit byte && negb (is_ascii_uppercase byte)) token)
      then None else Some token
  end.

Definition csrf_cookie (w : W) : io bytes :=
  let?* (r, w) := request fuel port GET (str "/") [] [] READY_TIMEOUT w in
  if negb (status_code r =? 200)%Z then Some (Err LocalClientError.ServiceRejected, w)
  else Some (ok_or (response_header_map r !! str "set-cookie" ≫= cookie_token)
               LocalClientError.InvalidResponse, w).

Definition mutation_headers (csrf : bytes) (revision : Z) : list (bytes * bytes) :=
  [(str "Origin", origin port);
   (str "Content-Type", str "application/json");
   (str "If-Match", etag revision);
   (str "X-CSRF-Token", csrf);
   (str "Cookie", COOKIE_NAME ++ str "=" ++ csrf)].

(** The result of the POST. *)
Definition check_mutation (expected_action : LocalActionName.t) (revision : Z)
    (r : LocalHttpResponse) : result LocalActionResult LocalClientError.t :=
  if (status_code r =? 409)%Z then Err LocalClientError.RevisionConflict
  else if negb (status_code r =? 200)%Z then Err LocalClientError.ServiceRejected
  else
  let? result := ok_or (read_json (payload r) ≫= decode_action_result)
                   LocalClientError.InvalidResponse in
  if negb (bool_decide (action result = expected_action)) || (action_revision result <=? revision)%Z
  then Err LocalClientError.InvalidResponse
  else if negb (has_etag r (action_revision result)) then Err LocalClientError.InvalidResponse
  else Ok result.

Definition mutate_with_body (path : bytes) (expected_action : LocalActionName.t) (body : bytes)
    (w : W) : io LocalActionResult :=
  let?* (csrf, w) := csrf_cookie w in
  let?* (status, w) := status w in
  let?* (r, w) := request fuel port POST path (mutation_headers csrf (status_revision status))
                    body ACTION_TIMEOUT w in
  Some (check_mutation expected_action (status_revision status) r, w).

Definition EMPTY_OBJECT : bytes := str "{}".
Definition RECOVER_BODY : bytes :=
  str "{" ++ [DQUOTE] ++ str "confirm" ++ [DQUOTE] ++ str ":" ++ [DQUOTE] ++
  str "recover-stop" ++ [DQUOTE] ++ str "}".

Definition mutate (path : bytes) (expected_action : LocalActionName.t) : W -> io LocalActionResult :=
  mutate_with_body path expected_action EMPTY_OBJECT.
Definition start : W -> io LocalActionResult := mutate (str "/api/start") LocalActionName.Start.
Definition stop : W -> io LocalActionResult := mutate (str "/api/stop") LocalActionName.Stop.
Definition recover_stop : W -> io LocalActionResult :=
  mutate_with_body (str "/internal/recover-stop") LocalActionName.RecoverStop RECOVER_BODY.
End Flows.
