(* ===== verification/HttpSpec.v ===== *)
(** The two ends of the loopback connection understand each other: what the
    local client sends is read back by the server's parser, and what the server
    sends is read back by the client's. *)
From S2P Require Import Prelude Bytes Backend Model Controller Web WebSpec Http Tcp LocalModel LocalClient.

Lemma drop_head head content : drop (length head + 4) (head ++ HEAD_END ++ content) = content.
Proof. by rewrite drop_app_add. Qed.

(** * Responses *)

Definition status_line (status : Z) : bytes :=
  str "HTTP/1.1 " ++ dec status ++ str " " ++ reason_phrase status.

(** A response within the limits the client sets. *)
Record readable_response (r : HttpResponse) : Prop := {
  rr_status : (100 <= response_status r <= 999)%Z;
  rr_headers : Forall sent_header (response_headers r);
  rr_distinct : NoDup (map wire_key (response_headers r));
  rr_count : length (response_headers r) <= MAX_RESPONSE_HEADER_COUNT;
  rr_plain_coding : find_header (str "transfer-encoding") (response_headers r) = None;
  rr_length : find_header (str "content-length") (response_headers r) =
    Some (dec (Z.of_nat (length (response_body r))));
  rr_small : (Z.of_nat (length (response_body r)) <= MAX_RESPONSE_BYTES)%Z;
  rr_head : length (head_of (status_line (response_status r)) (response_headers r))
    <= MAX_RESPONSE_HEADER_BYTES;
}.

Lemma reason_value status : forallb is_value_byte (reason_phrase status) = true.
Proof. unfold reason_phrase. repeat case_match; by vm_compute. Qed.

Lemma value_line s : forallb is_value_byte s = true -> plain s = true /\ forallb is_head_byte s = true.
Proof.
  intros Hs. split.
  - exact (forallb_impl _ _ _ value_plain Hs).
  - exact (forallb_impl _ _ _ value_head Hs).
Qed.

Lemma digit_value_byte_ c : is_ascii_digit c = true -> is_value_byte c = true.
Proof. intros ?. by apply graphic_value, digit_graphic. Qed.

Lemma dec_value_bytes n : (0 <= n <= u64_max)%Z -> forallb is_value_byte (dec n) = true.
Proof. intros Hn. by apply (forallb_impl _ _ _ digit_value_byte_), dec_digits. Qed.

Lemma status_line_value status :
  (0 <= status <= u64_max)%Z -> forallb is_value_byte (status_line status) = true.
Proof.
  intros Hs. unfold status_line. rewrite !forallb_app, dec_value_bytes, reason_value by done.
  by vm_compute.
Qed.

Lemma dec_three n : (100 <= n <= 999)%Z -> length (dec n) = 3.
Proof.
  intros Hn. assert (forallb (fun k => length (dec (100 + Z.of_nat k)) =? 3) (seq 0 900) = true)
    as Hall by by vm_compute.
  rewrite forallb_forall in Hall. specialize (Hall (Z.to_nat (n - 100))).
  rewrite in_seq in Hall. rewrite Z2Nat.id in Hall by lia.
  replace (100 + (n - 100))%Z with n in Hall by lia. apply Nat.eqb_eq, Hall. lia.
Qed.

Lemma digit_not_space c : is_ascii_digit c = true -> negb (bool_decide (c = SP)) = true.
Proof. revert c. apply by_bytes_impl. by vm_compute. Qed.

Lemma parse_digits_dec m n : (0 <= n <= m)%Z -> (m <= u64_max)%Z -> parse_digits m (dec n) = Some n.
Proof. intros Hn Hm. by apply (parse_canonical m (dec n) n). Qed.

Lemma parse_status_line_ok status :
  (100 <= status <= 999)%Z -> parse_status_line (status_line status) = Some status.
Proof.
  intros Hs. unfold parse_status_line, status_line.
  change (str "HTTP/1.1 ") with (str "HTTP/1.1" ++ [SP]). change (str " ") with [SP].
  rewrite <- !app_assoc. cbn [app]. rewrite split_once_app by by vm_compute. simpl mbind.
  rewrite split_once_app.
  - simpl. rewrite dec_three by done. simpl.
    rewrite dec_digits by (unfold u64_max; lia). simpl.
    apply parse_digits_dec; unfold u16_max, u64_max; lia.
  - apply (forallb_impl _ _ _ digit_not_space), dec_digits. unfold u64_max; lia.
Qed.

Lemma lower_name c : is_tchar c = true ->
  (fun c => is_ascii_alphanumeric c || contains_byte c (str "!#$%&'*+-.^_`|~"))
    (to_ascii_lowercase1 c) = true.
Proof. revert c. apply by_bytes_impl. by vm_compute. Qed.

Lemma lower_name_valid name :
  forallb is_tchar name = true -> name <> [] -> valid_header_name (to_ascii_lowercase name) = true.
Proof.
  intros Hn Hne. unfold valid_header_name. rewrite bool_decide_eq_false_2 by by destruct name.
  cbn [negb andb]. clear Hne. induction name as [|c name IH]; [done|]. cbn [forallb to_ascii_lowercase map] in *.
  apply andb_true_iff in Hn as [Hc Hn]. rewrite lower_name by done. apply IH. done.
Qed.

Lemma value_valid value : forallb is_value_byte value = true -> valid_header_value value = true.
Proof.
  apply forallb_impl. apply by_bytes_impl. by vm_compute.
Qed.

Lemma tchar_not_blank c : is_tchar c = true -> is_blank c = false.
Proof. intros Hc. apply negb_true_iff. revert c Hc. apply by_bytes_impl. by vm_compute. Qed.

(** One header as the client's parser reads it. *)
Lemma parse_response_headers_all hs count m :
  Forall sent_header hs -> NoDup (map wire_key hs) ->
  (forall h, h ∈ hs -> m !! wire_key h = None) ->
  count + length hs <= MAX_RESPONSE_HEADER_COUNT ->
  parse_response_headers (map header_text hs) count m = Some (insert_headers hs m).
Proof.
  intros Hs. revert count m. induction Hs as [|h hs Hh Hs IH]; intros count m Hd Hf Hc; [done|].
  apply NoDup_cons in Hd as [Hn Hd]. cbn [map insert_headers parse_response_headers].
  destruct (sent_header_text h Hh) as [_ Hne]. destruct Hh as [H1 H2 H3].
  rewrite (proj2 (Nat.leb_gt _ _)) by (simpl in Hc; lia). rewrite bool_decide_eq_false_2 by done.
  destruct h as [name value]. simpl in H1, H2, H3, Hc.
  assert (starts_blank (header_text (name, value)) = false) as ->.
  { destruct name as [|c name]; [done|]. simpl in H1. apply andb_true_iff in H1 as [? _].
    by apply tchar_not_blank. }
  cbn [orb]. rewrite split_once_header by done. cbn [mbind option_bind]. cbv zeta.
  rewrite lower_name_valid, trim_clean by done. destruct H3 as [Hv ?].
  rewrite value_valid by done. cbn [negb orb].
  change (to_ascii_lowercase name) with (wire_key (name, value)).
  rewrite bool_decide_eq_false_2; cycle 1.
  { rewrite (Hf (name, value)) by by left. by intros [? ?]. }
  apply IH; [done| |lia]. intros h Hin. rewrite lookup_insert_ne; [apply Hf; by right|].
  intros E. apply Hn. rewrite E. by apply list_elem_of_fmap_2.
Qed.

Lemma to_http1_head (r : HttpResponse) :
  to_http1_bytes r = head_of (status_line (response_status r)) (response_headers r) ++
    HEAD_END ++ response_body r.
Proof.
  rewrite app_assoc, <- head_of_lines. unfold to_http1_bytes, status_line.
  by rewrite <- !app_assoc.
Qed.

(** The server's responses, as the client reads them. *)
Lemma parse_response_sent (r : HttpResponse) :
  readable_response r ->
  parse_response (to_http1_bytes r) =
    Ok (mkLocalHttpResponse (response_status r) (insert_headers (response_headers r) ∅)
          (response_body r)).
Proof.
  intros [Hs Hh Hd Hc Ht Hl Hsm Hhd].
  assert (0 <= response_status r <= u64_max)%Z as Hu by (unfold u64_max; lia).
  destruct (value_line _ (status_line_value _ Hu)) as [Hp Hb].
  rewrite to_http1_head.
  unfold parse_response. rewrite head_of_found by done. rewrite (proj2 (Nat.ltb_ge _ _)) by done.
  rewrite take_app_length, drop_head.
  unfold parse_response_parts. rewrite head_bytes_utf8 by by apply head_of_bytes.
  rewrite head_of_bytes, head_of_split by done. cbn [negb orb].
  rewrite parse_status_line_ok by done. simpl mbind.
  rewrite parse_response_headers_all; [|done..|by intros; apply lookup_empty|done]. simpl mbind.
  rewrite !insert_headers_lookup, Ht, Hl by done. rewrite lookup_empty.
  rewrite bool_decide_eq_false_2 by by intros [? ?]. simpl mbind.
  rewrite parse_unsigned_dec by (unfold MAX_RESPONSE_BYTES, usize_max, u64_max in *; lia).
  simpl mbind. rewrite Z.eqb_refl, (proj2 (Z.ltb_ge _ _)) by done. done.
Qed.

(** ** The server's own responses *)

Lemma header_limit n : n <= 2000 -> n <= MAX_RESPONSE_HEADER_BYTES.
Proof. intros. transitivity 2000; [done|]. apply Nat.leb_le. by vm_compute. Qed.

Lemma request_header_limit n : n <= 2000 -> n <= MAX_HEADER_BYTES.
Proof. intros. transitivity 2000; [done|]. apply Nat.leb_le. by vm_compute. Qed.

Lemma head_of_length line hs :
  length (head_of line hs) = length line + sum_list_with (fun h => length (fst h) + length (snd h) + 4) hs.
Proof.
  unfold head_of. revert line. induction hs as [|h hs IH]; intros line; [simpl; lia|].
  cbn [map sum_list_with]. rewrite join_crlf_cons, !length_app, IH, header_text_name by done.
  rewrite !length_app. change (length CRLF) with 2. change (length (str ": ")) with 2. lia.
Qed.

(** Evaluates the lengths of the literals. *)
Ltac literal_lengths :=
  repeat match goal with
  | |- context [length (str ?s)] =>
      let n := eval vm_compute in (length (str s)) in change (length (str s)) with n
  | H : context [length (str ?s)] |- _ =>
      let n := eval vm_compute in (length (str s)) in change (length (str s)) with n in H
  end.

(** A token the server sends: graphic, of bounded length. *)
Definition short_graphic (n : nat) (s : bytes) : Prop :=
  forallb is_ascii_graphic s = true /\ length s <= n.

Definition fixed_headers (content_type body csp : bytes) : list (bytes * bytes) :=
  [(str "Content-Type", content_type);
   (str "Content-Length", dec (Z.of_nat (length body)));
   (str "Connection", str "close");
   (str "Cache-Control", str "no-store");
   (str "Pragma", str "no-cache");
   (str "X-Content-Type-Options", str "nosniff");
   (str "Referrer-Policy", str "no-referrer");
   (str "Content-Security-Policy", csp);
   (str "X-Frame-Options", str "DENY")].

(** The header a response may have besides the fixed ones. *)
Record extra_header (extra : list (bytes * bytes)) : Prop := {
  eh_name : map fst extra = [] \/ map fst extra = [str "ETag"] \/
            map fst extra = [str "Set-Cookie"];
  eh_clean : Forall (fun h => clean_value (snd h) /\ length (snd h) <= 200) extra;
}.

Lemma sent_literal name value :
  forallb is_tchar name && negb (bool_decide (name = [])) = true -> clean_value value ->
  sent_header (name, value).
Proof. intros H ?. bool_hyps. by split. Qed.

Lemma clean_literal s : forallb is_ascii_graphic s = true -> clean_value s.
Proof. apply graphic_clean. Qed.

Lemma extra_cases extra :
  extra_header extra ->
  extra = [] \/ exists v, (extra = [(str "ETag", v)] \/ extra = [(str "Set-Cookie", v)]) /\
    clean_value v /\ length v <= 200.
Proof.
  intros [Hn Hc]. destruct extra as [|[n v] extra]; [by left|right]. exists v.
  apply Forall_cons in Hc as [[??] _].
  destruct Hn as [Hn|[Hn|Hn]]; inversion Hn as [[E1 E2]]; apply map_eq_nil in E2 as ->; auto.
Qed.

Lemma fixed_headers_sent content_type body csp :
  clean_value content_type -> clean_value csp ->
  (Z.of_nat (length body) <= MAX_RESPONSE_BYTES)%Z ->
  Forall sent_header (fixed_headers content_type body csp).
Proof.
  intros Hct Hcsp Hb. unfold fixed_headers.
  assert (clean_value (dec (Z.of_nat (length body)))).
  { apply graphic_clean, dec_graphic. unfold MAX_RESPONSE_BYTES, u64_max in *. lia. }
  repeat (apply Forall_cons_2; [apply sent_literal; [by vm_compute|]; first [done|by apply clean_literal; vm_compute]|]).
  done.
Qed.

Lemma response_readable status content_type body nonce extra :
  (100 <= status <= 999)%Z -> clean_value content_type -> length content_type <= 100 ->
  (Z.of_nat (length body) <= MAX_RESPONSE_BYTES)%Z ->
  (forall n, nonce = Some n -> short_graphic 100 n) -> extra_header extra ->
  readable_response (response status content_type body nonce extra).
Proof.
  intros Hs Hct Hctl Hb Hn Hx.
  set (csp := match nonce with Some n => nonce_csp n | None => DEFAULT_CSP end).
  assert (clean_value csp /\ length csp <= 400) as [Hcsp Hcspl].
  { unfold csp. destruct nonce as [n|]; [|split; [split_and!; by vm_compute|by apply Nat.leb_le; vm_compute]].
    destruct (Hn n eq_refl) as [Hg Hl]. unfold nonce_csp. split; [|rewrite !length_app; literal_lengths; lia].
    split; [|split].
    - rewrite !forallb_app, (forallb_impl _ _ _ graphic_value Hg). by vm_compute.
    - by vm_compute.
    - rewrite !reverse_app. by vm_compute. }
  assert (response status content_type body nonce extra =
    mkHttpResponse status (fixed_headers content_type body csp ++ extra) body) as -> by done.
  pose proof (fixed_headers_sent content_type body csp Hct Hcsp Hb) as Hf.
  assert (Hdl : length (dec (Z.of_nat (length body))) <= 20).
  { apply dec_length. unfold MAX_RESPONSE_BYTES, u64_max in *. lia. }
  assert (Hd3 := dec_three status Hs).
  apply extra_cases in Hx.
  assert (Hrp : length (reason_phrase status) <= 40).
  { unfold reason_phrase. repeat case_match; apply Nat.leb_le; by vm_compute. }
  assert (Hsl : length (status_line status) <= 60).
  { unfold status_line. rewrite !length_app, Hd3. literal_lengths. lia. }
  destruct Hx as [->|(v & [-> | ->] & Hv & Hvl)].
  all: split; cbn [response_status response_headers response_body]; [done| | | |done| |done|].
  all: try (rewrite app_nil_r; exact Hf).
  all: try (apply Forall_app; split; [exact Hf|];
            apply Forall_cons_2; [apply sent_literal; [by vm_compute|done]|done]).
  all: try (unfold fixed_headers, wire_key; cbn [app map fst]; apply nodup_compute; by vm_compute).
  all: try (unfold fixed_headers, MAX_RESPONSE_HEADER_COUNT; cbn [app length]; lia).
  all: try reflexivity.
  all: apply header_limit; rewrite head_of_length; unfold fixed_headers; cbn [app sum_list_with fst snd];
       literal_lengths; lia.
Qed.

(** What the server relies on of its actor: a state predicate that every call
    keeps, and revisions that fit 64 bits. *)
Class WebActorLaws (A : Type) `{WebActor A} := {
  actor_ok : A -> Prop;
  actor_status_ok a s a' :
    actor_status a = (s, a') -> actor_ok a -> actor_ok a' /\ (0 <= cs_revision s <= u64_max)%Z;
  actor_mutate_ok n m a r a' :
    mutate_if_revision n m a = (r, a') -> actor_ok a -> actor_ok a' /\
    forall result, r = Ok result -> (0 <= result_revision result <= u64_max)%Z;
}.

(** The security inputs of a server that was configured with 32 random bytes. *)
Definition minted (s : WebSecurity) : Prop :=
  exists ip port token, length token = 32 /\ web_security_new ip port token = Ok s.

Lemma hex_lower_spec c :
  length (hex_lower c) = 2 /\
  forallb (fun byte => is_ascii_hexdigit byte && negb (is_ascii_uppercase byte)) (hex_lower c) = true.
Proof.
  split; [done|]. revert c. apply forall_bytes. by vm_compute.
Qed.

Lemma minted_token s :
  minted s -> length (csrf_token s) = 64 /\
  forallb (fun byte => is_ascii_hexdigit byte && negb (is_ascii_uppercase byte)) (csrf_token s) = true.
Proof.
  intros (ip & port & token & Hl & E). unfold web_security_new in E.
  repeat case_match; simplify_eq. cbn [csrf_token].
  assert (length (concat (map hex_lower token)) = 2 * length token /\
    forallb (fun byte => is_ascii_hexdigit byte && negb (is_ascii_uppercase byte))
      (concat (map hex_lower token)) = true) as [-> Hg]; [|by rewrite Hl].
  clear. induction token as [|c token [IH1 IH2]]; [done|]. destruct (hex_lower_spec c) as [H1 H2].
  cbn [map concat length]. rewrite length_app, IH1, H1, forallb_app, H2, IH2. split; [lia|done].
Qed.

Lemma hex_graphic c :
  (is_ascii_hexdigit c && negb (is_ascii_uppercase c)) = true -> is_ascii_graphic c = true.
Proof.
  revert c. apply (by_bytes_impl (fun c => is_ascii_hexdigit c && negb (is_ascii_uppercase c))).
  by vm_compute.
Qed.

Lemma minted_graphic s : minted s -> short_graphic 64 (csrf_token s).
Proof.
  intros [Hl Hh]%minted_token. split; [|lia]. exact (forallb_impl _ _ _ hex_graphic Hh).
Qed.

Lemma etag_graphic n : (0 <= n <= u64_max)%Z -> short_graphic 22 (etag n).
Proof.
  intros Hn. unfold etag. split.
  - rewrite !forallb_app, dec_graphic by done. by vm_compute.
  - pose proof (dec_length n Hn). rewrite !length_app. simpl. lia.
Qed.

Section Served.
Context `{WebLibraryLaws} {A : Type} `{WebActorLaws A}.
#[local] Abbreviation app := (WebApp A).

(** The body fits the client's limit. *)
Definition fits (r : HttpResponse) : Prop :=
  (Z.of_nat (length (response_body r)) <= MAX_RESPONSE_BYTES)%Z.

Lemma json_readable status b revision :
  (100 <= status <= 999)%Z -> (forall n, revision = Some n -> (0 <= n <= u64_max)%Z) ->
  fits (json_response status b revision) -> readable_response (json_response status b revision).
Proof.
  intros Hs Hr Hb. apply response_readable; [done| |by apply Nat.leb_le; vm_compute|done|done|].
  - split_and!; by vm_compute.
  - destruct revision as [n|]; [|by split; [left|constructor]].
    destruct (etag_graphic n (Hr n eq_refl)) as [Hg Hl].
    split; [by right; left|]. apply Forall_cons_2; [|done].
    cbn [snd]. split; [by apply graphic_clean|lia].
Qed.

Lemma error_readable e : fits (error_response e) -> readable_response (error_response e).
Proof.
  unfold error_response. destruct (error_status e) as [s n] eqn:E. apply json_readable; [|done].
  destruct e; simpl in E; simplify_eq; lia.
Qed.

Lemma page_readable (a : app) :
  minted (security a) -> fits (page_response a) -> readable_response (page_response a).
Proof.
  intros Hm Hb. destruct (minted_graphic _ Hm) as [Hg Hl].
  apply response_readable; [lia| |by apply Nat.leb_le; vm_compute|done| |].
  - split_and!; by vm_compute.
  - intros n [= <-]. split; [done|lia].
  - split; [by right; right|]. apply Forall_cons_2; [|done]. cbn [snd]. split.
    + set (token := csrf_token _) in *.
      assert (CSRF_COOKIE ++ str "=" ++ token ++ str "; Path=/; SameSite=Strict" =
        z2b 106 :: (str "bl_aura_csrf" ++ str "=" ++ token ++ str "; Path=/; SameSite=Stric") ++ [z2b 116])
        as -> by (unfold CSRF_COOKIE; by rewrite <- !app_assoc).
      apply bracketed_clean; [by vm_compute..|]. rewrite !forallb_app.
      rewrite (forallb_impl _ _ _ graphic_value Hg). by vm_compute.
    + rewrite !length_app. unfold CSRF_COOKIE. literal_lengths. lia.
Qed.

Lemma mutation_readable request mutation rule (a a' : app) resp :
  mutation_response request mutation rule a = (resp, a') -> actor_ok (actor a) ->
  actor_ok (actor a') /\ (fits resp -> readable_response resp).
Proof.
  unfold mutation_response. intros E Ha.
  destruct (mutation_gate a request rule) as [n|e] eqn:Hg; [|simplify_eq; auto using error_readable].
  destruct (mutate_if_revision n mutation (actor a)) as [r act] eqn:Hm.
  destruct (actor_mutate_ok _ _ _ _ _ Hm Ha) as [Hok Hr].
  destruct r as [result|[]]; simplify_eq; split; auto using error_readable.
  intros Hb. apply json_readable; [lia| |done]. intros n' [= <-]. auto.
Qed.

Lemma route_readable request (a a' : app) resp :
  route request a = (resp, a') -> minted (security a) -> actor_ok (actor a) ->
  actor_ok (actor a') /\ (fits resp -> readable_response resp).
Proof.
  intros E Hm Ha. unfold route in E.
  repeat match type of E with
  | context [match method request with _ => _ end] => destruct (method request)
  | context [if ?b then _ else _] => destruct b
  end; simplify_eq; auto using error_readable, page_readable;
    try (by eapply mutation_readable).
  - destruct (actor_status (actor a)) as [s act] eqn:Es. simplify_eq.
    destruct (actor_status_ok _ _ _ Es Ha) as [Hok Hr]. split; [done|].
    intros Hb. apply json_readable; [lia| |done]. intros n [= <-]. done.
  - split; [done|]. intros Hb. by apply json_readable; [lia| |].
Qed.

Lemma handle_readable raw (a a' : app) resp :
  handle raw a = (resp, a') -> minted (security a) -> actor_ok (actor a) ->
  actor_ok (actor a') /\ (fits resp -> readable_response resp).
Proof.
  intros E Hm Ha. unfold handle in E.
  destruct (parse_request raw) as [request|e]; [|simplify_eq; auto using error_readable].
  destruct (check_authority _ _) as [u|e]; [|simplify_eq; auto using error_readable].
  by eapply route_readable.
Qed.
End Served.

(** * Requests *)

Definition request_line (method path : bytes) : bytes :=
  method ++ str " " ++ path ++ str " HTTP/1.1".

(** The headers every request of the client starts with. *)
Definition client_headers (port : Z) (body : bytes) : list (bytes * bytes) :=
  [(str "Host", authority port);
   (str "Accept", str "application/json");
   (str "Accept-Encoding", str "identity");
   (str "Connection", str "close");
   (str "Content-Length", dec (Z.of_nat (length body)))].

Lemma encode_request_head port method path hs body :
  encode_request port method path hs body =
    head_of (request_line method path) (client_headers port body ++ hs) ++ HEAD_END ++ body.
Proof.
  rewrite app_assoc, <- head_of_lines. unfold encode_request, request_prefix, client_headers, request_line.
  cbn [app map concat]. unfold header_line. rewrite map_app, concat_app || idtac.
  cbn [map concat]. by rewrite <- !app_assoc.
Qed.

Lemma target_byte_printable c :
  in_range 0x21 0x7e c = true -> negb (bool_decide (c = SP)) && is_value_byte c = true.
Proof. revert c. apply by_bytes_impl. by vm_compute. Qed.

Definition client_method (method : bytes) : Prop := method = GET \/ method = POST.

Lemma request_line_parts method path :
  client_method method -> target_is_valid path = true ->
  split_byte SP (request_line method path) = [method; path; str "HTTP/1.1"] /\
  forallb is_value_byte (request_line method path) = true.
Proof.
  intros Hm Ht. unfold target_is_valid in Ht. bool_hyps. unfold request_line.
  match goal with H : forallb (in_range _ _) path = true |- _ => rename H into Hp end.
  change (str " HTTP/1.1") with (SP :: str "HTTP/1.1"). change (str " ") with [SP]. cbn [app].
  split.
  - rewrite split_byte_app by (destruct Hm as [-> | ->]; by vm_compute).
    rewrite split_byte_app; [by rewrite split_byte_none by by vm_compute|].
    apply (forallb_impl _ _ _ (fun c Hc => proj1 (andb_prop _ _ (target_byte_printable c Hc))) Hp).
  - rewrite !forallb_app. cbn [forallb]. rewrite forallb_app.
    rewrite (forallb_impl _ _ _ (fun c Hc => proj2 (andb_prop _ _ (target_byte_printable c Hc))) Hp).
    destruct Hm as [-> | ->]; by vm_compute.
Qed.

(** The headers of a request besides the fixed ones. *)
Record client_extra (hs : list (bytes * bytes)) : Prop := {
  ce_sent : Forall sent_header hs;
  ce_distinct : forall p b, NoDup (map wire_key (client_headers p b ++ hs));
  ce_allowed : forallb (fun name => bool_decide (find_header name hs = None)) FORBIDDEN_HEADERS = true;
  ce_count : length hs <= 10;
  ce_small : sum_list_with (fun h => length (fst h) + length (snd h) + 4) hs <= 1000;
}.

Definition valid_port (port : Z) : Prop := (1 <= port <= 65535)%Z.

Lemma authority_graphic port : valid_port port -> short_graphic 30 (authority port).
Proof.
  intros Hp. unfold authority. assert (0 <= port <= u64_max)%Z as Hu by (unfold valid_port, u64_max in *; lia).
  split; [by rewrite forallb_app, dec_graphic by done|]. rewrite length_app.
  pose proof (dec_length port Hu). literal_lengths. lia.
Qed.

Lemma client_headers_sent port body :
  valid_port port -> length body <= MAX_BODY_BYTES -> Forall sent_header (client_headers port body).
Proof.
  intros Hp Hb. assert (Z.of_nat (length body) <= u64_max)%Z.
  { assert (Z.of_nat MAX_BODY_BYTES = 4096%Z) by by vm_compute. unfold u64_max. lia. }
  unfold client_headers. repeat (apply Forall_cons_2; [apply sent_literal; [by vm_compute|]|]); [..|done].
  - by apply graphic_clean, authority_graphic.
  - by apply clean_literal; vm_compute.
  - by apply clean_literal; vm_compute.
  - by apply clean_literal; vm_compute.
  - apply graphic_clean, dec_graphic. lia.
Qed.

Lemma find_header_app key a b :
  find_header key (a ++ b) = match find_header key a with Some v => Some v | None => find_header key b end.
Proof. induction a as [|h a IH]; [done|]. cbn [app find_header]. by case_decide. Qed.

(** A parsed request with the content of the arguments of [encode_request]. *)
Record reads (request : ParsedRequest) (m : Method.t) (path : bytes)
    (hs : list (bytes * bytes)) (content : bytes) : Prop := {
  rd_method : method request = m;
  rd_target : target request = path;
  rd_header : forall k, single_header request k = find_header k hs;
  rd_body : body request = content;
  rd_length : content_length request = Some (Z.of_nat (length content));
}.

(** What the client sends, as the server's parser reads it. *)
Lemma parse_request_sent port method path hs body :
  valid_port port -> client_method method -> target_is_valid path = true -> length path <= 100 ->
  client_extra hs -> length body <= MAX_BODY_BYTES -> (method = GET -> body = []) ->
  exists request, parse_request (encode_request port method path hs body) = Ok request /\
    reads request (method_of method) path (client_headers port body ++ hs) body.
Proof.
  intros Hp Hm Ht Hpl [Hs Hd Ha Hc Hsm] Hb Hget.
  destruct (request_line_parts _ _ Hm Ht) as [Hparts Hval].
  destruct (value_line _ Hval) as [Hplain Hbytes].
  assert (Z.of_nat (length body) <= usize_max)%Z as Hu.
  { assert (Z.of_nat MAX_BODY_BYTES = 4096%Z) by by vm_compute. unfold usize_max, u64_max. lia. }
  set (all := client_headers port body ++ hs).
  assert (Forall sent_header all) as Hall by (apply Forall_app; auto using client_headers_sent).
  assert (length (head_of (request_line method path) all) <= MAX_HEADER_BYTES) as Hhead.
  { apply request_header_limit. rewrite head_of_length. unfold all.
    rewrite sum_list_with_app. unfold client_headers. cbn [sum_list_with fst snd].
    destruct (authority_graphic port Hp) as [_ Hal].
    assert (length (dec (Z.of_nat (length body))) <= 20) by (apply dec_length; unfold usize_max in Hu; lia).
    unfold request_line. rewrite !length_app. literal_lengths.
    assert (length method <= 4) by (destruct Hm as [-> | ->]; by vm_compute; lia). lia. }
  rewrite encode_request_head. fold all. unfold parse_request.
  assert (request_line method path <> []) as Hne by (destruct Hm as [-> | ->]; done).
  rewrite head_of_found by done. rewrite (proj2 (Nat.ltb_ge _ _)) by done.
  rewrite take_app_length, drop_head.
  rewrite head_of_bytes, head_bytes_utf8 by (by try apply head_of_bytes). cbn [negb].
  rewrite head_of_split, Hparts by done.
  rewrite (bool_decide_eq_false_2 (method = [])) by (by destruct Hm as [-> | ->]).
  rewrite (bool_decide_eq_false_2 (path = [])) by (by intros ->).
  assert (forallb is_tchar method = true) as -> by (destruct Hm as [-> | ->]; by vm_compute).
  rewrite Ht. cbn [orb negb].
  rewrite (parse_headers_all all 0 ∅); [|done|apply Hd|by intros; apply lookup_empty|];
    [|unfold all; rewrite length_app; unfold MAX_HEADER_COUNT; simpl; lia].
  assert (forall k, insert_headers all ∅ !! k = find_header k all) as Hlook.
  { intros k. rewrite insert_headers_lookup by apply Hd. rewrite lookup_empty. by destruct (find_header k all). }
  assert (existsb (fun name => bool_decide (is_Some (insert_headers all ∅ !! name))) FORBIDDEN_HEADERS
    = false) as ->.
  { unfold FORBIDDEN_HEADERS in *. cbn [existsb forallb] in *. rewrite !Hlook. unfold all.
    rewrite !find_header_app. bool_hyps.
    repeat match goal with H : find_header _ hs = None |- _ => rewrite H; clear H end.
    unfold client_headers. cbn [find_header]. unfold wire_key. cbn [fst].
    repeat (rewrite decide_False by (by vm_compute)). done. }
  unfold parse_body. rewrite Hlook.
  assert (find_header (str "content-length") all = Some (dec (Z.of_nat (length body)))) as ->.
  { unfold all, client_headers. cbn [app find_header]. unfold wire_key. cbn [fst snd].
    do 4 (rewrite decide_False by (by vm_compute)). by rewrite decide_True. }
  rewrite parse_content_length_dec by lia. cbn [map_ok].
  rewrite (bool_decide_eq_false_2 (Some _ = None)) by done. rewrite andb_false_r.
  rewrite (proj2 (Z.ltb_ge _ _)) by lia. rewrite Z.eqb_refl. cbn [default from_option id].
  exists (mkParsedRequest (method_of method) path (insert_headers all ∅) body
            (Some (Z.of_nat (length body)))). split; [|by split].
  destruct Hm as [-> | ->]; [|done]. by rewrite (Hget eq_refl).
Qed.

(** ** The server accepts the client's mutation requests *)

Lemma trim_clean_same value : clean_value value -> trim_matches is_blank value = value.
Proof. intros Hv. etransitivity; [|apply (trim_clean value Hv)]. done. Qed.

Lemma digit_not_colon c : is_ascii_digit c = true -> negb (bool_decide (c = z2b 58)) = true.
Proof. revert c. apply by_bytes_impl. by vm_compute. Qed.

Lemma parse_port_dec port : valid_port port -> parse_port (dec port) = Some port.
Proof.
  intros Hp. unfold valid_port in Hp. unfold parse_port.
  assert (canonical_digits (dec port) = true /\ parse_digits u16_max (dec port) = Some port) as [C P].
  { apply parse_canonical; [done|]. split; [unfold u16_max; lia|done]. }
  rewrite C, P. simpl.
  rewrite (proj2 (Z.eqb_neq _ _)) by lia. done.
Qed.

Definition loopback_authority (port : Z) : LoopbackAuthority :=
  mkAuthority AuthorityHost.Ipv4Loopback port.

Lemma graphic_not_white c : is_ascii_graphic c = true -> negb (is_ascii_whitespace c) = true.
Proof. revert c. apply by_bytes_impl. by vm_compute. Qed.

Lemma existsb_negb {A} (p : A -> bool) l : forallb (fun x => negb (p x)) l = true -> existsb p l = false.
Proof. induction l; simpl; [done|]. intros [H ?]%andb_true_iff. apply negb_true_iff in H. by rewrite H, IHl. Qed.

Lemma authority_parse_sent port :
  valid_port port -> authority_parse (authority port) port = Some (loopback_authority port).
Proof.
  intros Hp. destruct (authority_graphic port Hp) as [Hg _]. unfold authority_parse.
  rewrite bool_decide_eq_false_2 by done.
  rewrite existsb_negb by (exact (forallb_impl _ _ _ graphic_not_white Hg)). cbn [orb].
  assert (split_authority (authority port) = Some (AuthorityHost.Ipv4Loopback, Some port)) as ->.
  { unfold split_authority, authority.
    change (strip_prefix (str "[") (str "127.0.0.1:" ++ dec port)) with (@None bytes).
    change (str "127.0.0.1:" ++ dec port) with (str "127.0.0.1" ++ z2b 58 :: dec port).
    rewrite rsplit_once_app.
    - rewrite parse_port_dec by done. by vm_compute.
    - apply (forallb_impl _ _ _ digit_not_colon), dec_digits. unfold valid_port, u64_max in *; lia. }
  cbn [mbind option_bind]. rewrite Z.eqb_refl. done.
Qed.

Lemma digit_not_delimiter c :
  is_ascii_digit c = true -> negb (contains_byte c (str "/?#@")) = true.
Proof. revert c. apply by_bytes_impl. by vm_compute. Qed.

Lemma origin_same_sent port :
  valid_port port -> origin_is_same (origin port) (loopback_authority port) = true.
Proof.
  intros Hp. unfold origin_is_same, origin. rewrite strip_prefix_app. cbv iota beta.
  rewrite existsb_negb; cycle 1.
  { unfold authority. rewrite forallb_app. apply andb_true_iff. split; [by vm_compute|].
    apply (forallb_impl _ _ _ digit_not_delimiter), dec_digits. unfold valid_port, u64_max in *; lia. }
  cbn [effective_port loopback_authority].
  rewrite authority_parse_sent by done. by apply bool_decide_eq_true.
Qed.

Lemma graphic_no_separator c :
  (is_ascii_hexdigit c && negb (is_ascii_uppercase c)) = true ->
  negb (bool_decide (c = z2b 59)) = true.
Proof.
  revert c. apply (by_bytes_impl (fun c => is_ascii_hexdigit c && negb (is_ascii_uppercase c))).
  by vm_compute.
Qed.

Lemma minted_cookie s :
  minted s -> csrf_cookie_value (COOKIE_NAME ++ str "=" ++ csrf_token s) = Some (csrf_token s).
Proof.
  intros Hm. destruct (minted_token s Hm) as [Hl Hh]. destruct (minted_graphic s Hm) as [Hg _].
  unfold csrf_cookie_value. rewrite split_byte_none; cycle 1.
  { rewrite !forallb_app, (forallb_impl _ _ _ graphic_no_separator Hh). by vm_compute. }
  cbn [cookie_loop]. rewrite trim_clean_same; cycle 1.
  { apply graphic_clean. rewrite !forallb_app, Hg. by vm_compute. }
  change (COOKIE_NAME ++ str "=" ++ csrf_token s) with (COOKIE_NAME ++ z2b 61 :: csrf_token s).
  rewrite split_once_app by by vm_compute. cbn [mbind option_bind].
  rewrite decide_True by done. rewrite (bool_decide_eq_false_2 (is_Some None)) by by intros [? ?].
  rewrite bool_decide_eq_false_2; [done|]. intros E. by rewrite E in Hl.
Qed.

Lemma mutation_headers_extra port s n :
  valid_port port -> minted s -> (0 <= n <= u64_max)%Z ->
  client_extra (mutation_headers port (csrf_token s) n).
Proof.
  intros Hp Hm Hn. destruct (minted_graphic s Hm) as [Hg Hl], (authority_graphic port Hp) as [Ha Hal],
    (etag_graphic n Hn) as [He Hel]. unfold mutation_headers. split.
  - repeat (apply Forall_cons_2; [apply sent_literal; [by vm_compute|]|]); [apply graphic_clean..|done].
    + unfold origin. rewrite forallb_app, Ha. by vm_compute.
    + by vm_compute.
    + done.
    + done.
    + rewrite !forallb_app, Hg. by vm_compute.
  - intros p b. unfold client_headers, wire_key. cbn [app map fst]. apply nodup_compute. by vm_compute.
  - unfold FORBIDDEN_HEADERS. cbn [forallb find_header]. unfold wire_key. cbn [fst].
    repeat (rewrite decide_False by (by vm_compute)). done.
  - simpl. lia.
  - cbn [sum_list_with fst snd]. unfold origin. rewrite !length_app. literal_lengths.
    change (length COOKIE_NAME) with 13. lia.
Qed.

Lemma no_extra : client_extra [].
Proof.
  split; [done| |done|simpl; lia|simpl; lia].
  intros p b. unfold client_headers, wire_key. cbn [app map fst]. apply nodup_compute. by vm_compute.
Qed.

Section Requests.
Context `{WebLibraryLaws} {A : Type} `{WebActor A}.
Context (a : WebApp A).
Hypothesis Hminted : minted (security a).
Hypothesis Hport : valid_port (bind_port (security a)).
#[local] Abbreviation port := (bind_port (security a)).

(** Reads a header of a request whose header list is literal. *)
Ltac find_sent R :=
  rewrite (rd_header _ _ _ _ _ R);
  unfold client_headers, mutation_headers; cbn [app find_header]; unfold wire_key; cbn [fst snd];
  repeat (first [rewrite decide_True by (by vm_compute) | rewrite decide_False by (by vm_compute)]).

Lemma get_handled path :
  target_is_valid path = true -> length path <= 100 ->
  exists request, method request = Method.Get /\ target request = path /\
    handle (encode_request port GET path [] []) a = route request a.
Proof.
  intros Ht Hl.
  destruct (parse_request_sent port GET path [] []) as (request & E & R);
    [done|by left|done|done|apply no_extra|simpl; lia|done|].
  exists request. split_and!; [by destruct R|by destruct R|]. unfold handle. rewrite E.
  unfold check_authority. find_sent R. cbn [mbind option_bind].
  rewrite authority_parse_sent by done. cbn [ok_or]. by find_sent R.
Qed.

(** The response to an authorized mutation. *)
Definition mutation_reply (r : result ControllerActionResult unit) : HttpResponse :=
  match r with
  | Ok result => action_response result
  | Err _ => error_response RequestError.RevisionConflict
  end.

Lemma mutation_handled path mutation rule content n :
  mutation_route path = Some (mutation, rule) -> body_matches rule content = true ->
  length content <= MAX_BODY_BYTES -> (0 <= n <= u64_max)%Z ->
  handle (encode_request port POST path (mutation_headers port (csrf_token (security a)) n) content) a =
    let '(r, act) := mutate_if_revision n mutation (actor a) in
    (mutation_reply r, mkWebApp act (security a)).
Proof.
  intros Hr Hb Hl Hn.
  assert (target_is_valid path = true /\ length path <= 100) as [Ht Hpl].
  { unfold mutation_route in Hr. repeat case_decide; simplify_eq; (split; [by vm_compute|apply Nat.leb_le; by vm_compute]). }
  destruct (parse_request_sent port POST path (mutation_headers port (csrf_token (security a)) n) content)
    as (request & E & R); [done|by right|done|done|by apply mutation_headers_extra|done|done|].
  unfold handle. rewrite E. unfold check_authority. find_sent R. cbn [mbind option_bind].
  rewrite authority_parse_sent by done. cbn [ok_or]. find_sent R. rewrite origin_same_sent by done.
  assert (mutation_gate a request rule = Ok n) as Hgate.
  { unfold mutation_gate. find_sent R. rewrite (bool_decide_eq_false_2 (Some _ = None)) by done.
    find_sent R. rewrite bool_decide_eq_true_2 by done. rewrite (rd_length _ _ _ _ _ R). cbn [ok_or negb].
    rewrite (proj2 (Z.ltb_ge _ _)) by lia. rewrite (rd_body _ _ _ _ _ R), Hb. cbn [negb].
    rewrite (proj2 (valid_csrf_spec a request)); cycle 1.
    { split; [by find_sent R|]. eexists. split; [by find_sent R|]. by apply minted_cookie. }
    cbn [negb]. find_sent R. cbn [mbind option_bind].
    by rewrite parse_strong_revision_etag. }
  unfold mutation_route in Hr. unfold route.
  rewrite (rd_method _ _ _ _ _ R), (rd_target _ _ _ _ _ R). change (method_of POST) with Method.Post.
  assert (mutation_response request mutation rule a =
    let '(r, act) := mutate_if_revision n mutation (actor a) in
    (mutation_reply r, mkWebApp act (security a))) as Hresp.
  { unfold mutation_response. rewrite Hgate.
    destruct (mutate_if_revision n mutation (actor a)) as [[]]; done. }
  rewrite <- Hresp. cbv zeta.
  repeat case_decide; simplify_eq;
    repeat (first [rewrite bool_decide_eq_true_2 by done | rewrite bool_decide_eq_false_2 by done]); done.
Qed.
End Requests.

(** C31 The client reads back exactly what the server sends: the status, the body
    and every header of each response, errors and pages included.  The server
    never sends a response that its own client would refuse, as long as the body
    keeps the client's size limit. *)
Theorem server_responses_read_back `{WebLibrary} {A} `{WebActorLaws A} raw (a a' : WebApp A) resp :
  handle raw a = (resp, a') -> minted (security a) -> actor_ok (actor a) -> fits resp ->
  parse_response (to_http1_bytes resp) =
    Ok (mkLocalHttpResponse (response_status resp) (insert_headers (response_headers resp) ∅)
          (response_body resp)).
Proof.
  intros E Hm Ha Hf. apply parse_response_sent. by eapply handle_readable.
Qed.
