(* ===== verification/ClientSpec.v ===== *)
(** What a flow of the local client puts on the wire, and that it ends. *)
From S2P Require Import Prelude Bytes Model Web WebSpec Http Tcp LocalModel LocalClient HttpSpec.

(** A record of what was sent, connection by connection: only [tcp_write] sends,
    and no more than it was given. *)
Class TcpWire (W : Type) `{TcpStream W} := {
  wire : W -> list bytes;
  instant_now_wire w t w' : instant_now w = (t, w') -> wire w' = wire w;
  set_write_timeout_wire t w r w' : set_write_timeout t w = (r, w') -> wire w' = wire w;
  set_read_timeout_wire t w r w' : set_read_timeout t w = (r, w') -> wire w' = wire w;
  read_wire n w r w' : tcp_read n w = (r, w') -> wire w' = wire w;
  connect_wire p t w w' : connect_timeout p t w = (Ok tt, w') -> wire w' = wire w ++ [[]];
  connect_refused_wire p t w e w' : connect_timeout p t w = (Err e, w') -> wire w' = wire w;
  write_wire p w n w' old last :
    tcp_write p w = (Ok n, w') -> wire w = old ++ [last] -> wire w' = old ++ [last ++ take n p];
  write_refused_wire p w e w' : tcp_write p w = (Err e, w') -> wire w' = wire w;
}.

Section Wire.
Context {W : Type} `{TcpWire W}.

Lemma remaining_wire deadline w r w' : remaining deadline w = (r, w') -> wire w' = wire w.
Proof.
  unfold remaining. destruct (instant_now w) as [t w1] eqn:E. intros [= _ <-].
  by apply instant_now_wire in E.
Qed.

Lemma write_all_wire fuel p deadline w r w' old last :
  write_all_before fuel p deadline w = Some (r, w') -> wire w = old ++ [last] ->
  exists n, wire w' = old ++ [last ++ take n p] /\ (r = Ok tt -> take n p = p).
Proof.
  revert p w last. induction fuel as [|fuel IH]; intros p w last E Hw; destruct p as [|c p].
  1,3: simplify_eq/=; exists 0; split; [by rewrite Hw, app_nil_r|done].
  - done.
  - cbn [write_all_before] in E.
    assert (Hstop : forall w1, wire w1 = wire w -> forall e,
      exists n, wire w1 = old ++ [last ++ take n (c :: p)] /\ (@Err unit LocalClientError.t e = Ok tt -> take n (c :: p) = c :: p)).
    { intros w1 E1 e. exists 0. split; [by rewrite E1, Hw, app_nil_r|done]. }
    destruct (remaining deadline w) as [[left1|e] w1] eqn:E1; apply remaining_wire in E1;
      [|simplify_eq; by apply Hstop].
    unfold mapped in E. destruct (set_write_timeout left1 w1) as [r2 w2] eqn:E2.
    apply set_write_timeout_wire in E2. destruct r2 as [[]|e2]; cbn [map_err] in E;
      [|simplify_eq; apply Hstop; congruence].
    destruct (tcp_write (c :: p) w2) as [[[|n]|k] w3] eqn:E3.
    + simplify_eq. eapply write_wire in E3; [|by rewrite E2, E1]. exists 0. split; [done|done].
    + eapply write_wire in E3; [|by rewrite E2, E1].
      destruct (IH _ _ _ E E3) as (m & Hm & Hr). exists (S n + m). split.
      * rewrite Hm, <- app_assoc. do 3 f_equal. change (drop (S n) (c :: p)) with (drop n p).
        by rewrite <- take_take_drop.
      * intros Hok. specialize (Hr Hok). rewrite <- take_take_drop, Hr. apply take_drop.
    + apply write_refused_wire in E3.
      destruct k; simplify_eq; try (apply Hstop; congruence). eapply IH; [done|congruence].
Qed.

Lemma read_to_end_wire fuel acc deadline w r w' :
  read_to_end_before fuel acc deadline w = Some (r, w') -> wire w' = wire w.
Proof.
  revert acc w. induction fuel as [|fuel IH]; intros acc w E; [done|]. cbn [read_to_end_before] in E.
  destruct (remaining deadline w) as [[left1|e] w1] eqn:E1; apply remaining_wire in E1; [|by simplify_eq].
  unfold mapped in E. destruct (set_read_timeout left1 w1) as [r2 w2] eqn:E2.
  apply set_read_timeout_wire in E2. destruct r2 as [[]|e2]; cbn [map_err] in E; [|simplify_eq; congruence].
  destruct (tcp_read 2048 w2) as [r3 w3] eqn:E3. apply read_wire in E3.
  destruct r3 as [[|c chunk]|[]]; try (simplify_eq; congruence).
  - destruct (_ <? _)%Z; [simplify_eq; congruence|]. apply IH in E. congruence.
  - apply IH in E. congruence.
Qed.

(** What one exchange may leave on the wire: nothing, or one connection with a
    part of the request; the whole request if there was an answer. *)
Definition one_attempt {T E} (r : result T E) (full : bytes) (sent : list bytes) : Prop :=
  (sent = [] \/ exists part, sent = [part] /\ part `prefix_of` full) /\
  (is_ok r = true -> sent = [full]).

Lemma request_wire fuel port m path hs body timeout w r w' :
  request fuel port m path hs body timeout w = Some (r, w') ->
  exists sent, wire w' = wire w ++ sent /\ one_attempt r (encode_request port m path hs body) sent.
Proof.
  unfold request. set (full := encode_request _ _ _ _ _). intros E.
  assert (Hnone : forall e w1, wire w1 = wire w ->
    exists sent, wire w1 = wire w ++ sent /\ one_attempt (@Err LocalHttpResponse LocalClientError.t e) full sent).
  { intros e w1 Hw. exists []. rewrite app_nil_r. split; [done|]. split; [by left|done]. }
  destruct (instant_now w) as [t w1] eqn:E1. apply instant_now_wire in E1.
  destruct (remaining _ w1) as [[left1|e] w2] eqn:E2; apply remaining_wire in E2;
    [|simplify_eq; apply Hnone; congruence].
  destruct (connect_timeout port _ w2) as [[[]|e] w3] eqn:E3; cycle 1.
  { apply connect_refused_wire in E3. simplify_eq. apply Hnone. congruence. }
  apply connect_wire in E3. rewrite E2, E1 in E3.
  assert (Hpart : forall (r : result LocalHttpResponse LocalClientError.t) n w4,
    wire w4 = wire w ++ [[] ++ take n full] -> (is_ok r = true -> take n full = full) ->
    exists sent, wire w4 = wire w ++ sent /\ one_attempt r full sent).
  { intros r1 n w4 Hw Hr. exists [take n full]. split; [done|]. split.
    - right. exists (take n full). split; [done|]. exists (drop n full). by rewrite take_drop.
    - intros Hok. by rewrite (Hr Hok). }
  destruct (negb (forallb _ hs)); [simplify_eq; by apply (Hpart _ 0)|].
  destruct (write_all_before _ _ _ w3) as [[[[]|e] w4]|] eqn:E4; [| |done];
    destruct (write_all_wire _ _ _ _ _ _ _ _ E4 E3) as (n & Hn & Hr);
    [|simplify_eq; by apply (Hpart _ n)].
  destruct (read_to_end_before _ _ _ w4) as [[[raw|e] w5]|] eqn:E5; [| |done];
    apply read_to_end_wire in E5; simplify_eq; apply (Hpart _ n); [congruence|by auto|congruence|done].
Qed.
End Wire.

(** * One mutation *)

Section Conversation.
Context {W : Type} `{TcpWire W} `{LocalLibrary}.
Context (fuel : nat) (port : Z).

Definition page_request : bytes := encode_request port GET (str "/") [] [].
Definition status_request : bytes := encode_request port GET (str "/api/status") [] [].
Definition post_request (path csrf : bytes) (n : Z) (content : bytes) : bytes :=
  encode_request port POST path (mutation_headers port csrf n) content.

(** The answer of a POST is what the flow returns. *)
Definition answer_of (expected : LocalActionName.t) (n : Z)
    (r : result LocalHttpResponse LocalClientError.t) : result LocalActionResult LocalClientError.t :=
  match r with Ok response => check_mutation expected n response | Err e => Err e end.

(** What a mutation puts on the wire, and how it ends: the page, the status and
    one POST at the revision that was read, each at most once and in this
    order; without the POST there is no success. *)
Inductive conversation (path content : bytes) (expected : LocalActionName.t) :
  list bytes -> result LocalActionResult LocalClientError.t -> Prop :=
| conv_page sent e :
    one_attempt (@Err unit _ e) page_request sent \/ sent = [page_request] ->
    conversation path content expected sent (Err e)
| conv_status sent e :
    one_attempt (@Err unit _ e) status_request sent \/ sent = [status_request] ->
    conversation path content expected (page_request :: sent) (Err e)
| conv_post sent csrf n r :
    one_attempt r (post_request path csrf n content) sent ->
    conversation path content expected (page_request :: status_request :: sent)
      (answer_of expected n r).

Lemma one_attempt_err {T1 T2 E} (e : E) full sent :
  one_attempt (@Err T1 E e) full sent -> one_attempt (@Err T2 E e) full sent.
Proof. intros [? _]. by split. Qed.

Lemma csrf_cookie_wire w r w' :
  csrf_cookie fuel port w = Some (r, w') ->
  exists sent, wire w' = wire w ++ sent /\
    match r with
    | Ok _ => sent = [page_request]
    | Err e => one_attempt (@Err unit _ e) page_request sent \/ sent = [page_request]
    end.
Proof.
  unfold csrf_cookie. intros E.
  destruct (request _ _ _ _ _ _ _ w) as [[[response|e] w1]|] eqn:E1; [| |done];
    apply request_wire in E1 as (sent & Hw & Ho); exists sent.
  - destruct Ho as [_ Ho]. specialize (Ho eq_refl). subst sent.
    destruct (negb _); [simplify_eq; auto|]. injection E as E <-. subst r. split; [done|].
    by destruct (ok_or _ _); [|right].
  - simplify_eq. split; [done|]. left. by eapply one_attempt_err.
Qed.

Lemma status_wire w r w' :
  status fuel port w = Some (r, w') ->
  exists sent, wire w' = wire w ++ sent /\
    match r with
    | Ok _ => sent = [status_request]
    | Err e => one_attempt (@Err unit _ e) status_request sent \/ sent = [status_request]
    end.
Proof.
  unfold status. intros E.
  destruct (request _ _ _ _ _ _ _ w) as [[[response|e] w1]|] eqn:E1; [| |done];
    apply request_wire in E1 as (sent & Hw & Ho); exists sent.
  - destruct Ho as [_ Ho]. specialize (Ho eq_refl). subst sent.
    destruct (negb _); [simplify_eq; auto|].
    destruct (_ ≫= decode_status) as [s|]; [|simplify_eq; auto].
    unfold checked in E. destruct (_ && _); simplify_eq; auto.
  - simplify_eq. split; [done|]. left. by eapply one_attempt_err.
Qed.

Lemma check_mutation_ok expected n response result :
  check_mutation expected n response = Ok result ->
  action result = expected /\ (n < action_revision result)%Z.
Proof.
  unfold check_mutation. destruct (_ =? 409)%Z; [done|]. destruct (negb (_ =? 200)%Z); [done|].
  destruct (ok_or _ _) as [res|]; [|done]. destruct (_ || _) eqn:G; [done|].
  bool_hyps. destruct (has_etag _ _); [|done]. intros [= <-]. done.
Qed.

(** A mutation, as it is seen on the wire. *)
Lemma mutate_wire (path content : bytes) (expected : LocalActionName.t) w r w' :
  mutate_with_body fuel port path expected content w = Some (r, w') ->
  exists sent, wire w' = wire w ++ sent /\ conversation path content expected sent r /\
    (forall result, r = Ok result -> action result = expected /\
       exists csrf n, sent = [page_request; status_request; post_request path csrf n content] /\
         (n < action_revision result)%Z).
Proof.
  unfold mutate_with_body. intros E.
  destruct (csrf_cookie fuel port w) as [[[csrf|e] w1]|] eqn:E1; [| |done];
    apply csrf_cookie_wire in E1 as (s1 & Hw1 & Hs1); [subst s1|].
  2: { simplify_eq. exists s1. split_and!; [done|by constructor|done]. }
  destruct (status fuel port w1) as [[[st|e] w2]|] eqn:E2; [| |done];
    apply status_wire in E2 as (s2 & Hw2 & Hs2); [subst s2|].
  2: { simplify_eq. exists (page_request :: s2). split_and!; [by rewrite Hw2, Hw1, <- app_assoc|by constructor|done]. }
  set (n := status_revision st) in *.
  assert (Hend : forall r0 w3 sent, wire w3 = wire w2 ++ sent ->
    one_attempt r0 (post_request path csrf n content) sent -> (r, w') = (answer_of expected n r0, w3) ->
    exists sent, wire w' = wire w ++ sent /\ conversation path content expected sent r /\
      (forall result, r = Ok result -> action result = expected /\
         exists csrf n, sent = [page_request; status_request; post_request path csrf n content] /\
           (n < action_revision result)%Z)).
  { intros r0 w3 sent Hw3 Ho [= -> ->]. exists (page_request :: status_request :: sent).
    split_and!; [by rewrite Hw3, Hw2, Hw1, <- !app_assoc|by eapply conv_post|].
    intros result Hr. destruct r0 as [response|e0]; [|done]. destruct Ho as [_ Ho].
    rewrite (Ho eq_refl). destruct (check_mutation_ok _ _ _ _ Hr) as [? ?]. eauto 10. }
  destruct (request _ _ _ _ _ _ _ w2) as [[[response|e] w3]|] eqn:E3; [| |done];
    apply request_wire in E3 as (s3 & Hw3 & Ho); (eapply Hend; [exact Hw3|exact Ho|]); by simplify_eq.
Qed.

(** C13 A mutation of the local client is posted at most once.  Whatever the
    network does, the flow opens at most three connections, in order: the page,
    the status, and one POST made with the token and the revision it just read;
    no conflict, timeout or refusal makes it send anything again.  A success
    is the answer to that POST, reports the expected action and a revision
    above the one read. *)
Theorem mutation_posts_once (path content : bytes) (expected : LocalActionName.t) w r w' :
  mutate_with_body fuel port path expected content w = Some (r, w') ->
  exists sent, wire w' = wire w ++ sent /\ conversation path content expected sent r /\
    (forall result, r = Ok result -> action result = expected /\
       exists csrf n, sent = [page_request; status_request; post_request path csrf n content] /\
         (n < action_revision result)%Z).
Proof. apply mutate_wire. Qed.
End Conversation.

(** * Termination *)

Section Ends.
Context {W : Type} `{TcpStreamLaws W}.

Lemma remaining_calm deadline w r w' :
  remaining deadline w = (r, w') -> interruptions w' <= interruptions w.
Proof.
  unfold remaining. destruct (instant_now w) as [t w1] eqn:E. intros [= _ <-].
  by apply instant_now_calm in E.
Qed.

(** [call] returned, and was not interrupted more often than before. *)
Definition ends {T} (w : W) (call : option (result T LocalClientError.t * W)) : Prop :=
  exists r w', call = Some (r, w') /\ interruptions w' <= interruptions w.

Lemma ends_here {T} w w' (r : result T LocalClientError.t) :
  interruptions w' <= interruptions w -> ends w (Some (r, w')).
Proof. intros. by exists r, w'. Qed.

Lemma ends_later {T} w w1 (call : option (result T LocalClientError.t * W)) :
  interruptions w1 <= interruptions w -> ends w1 call -> ends w call.
Proof. intros ? (r & w' & -> & ?). exists r, w'. split; [done|lia]. Qed.

Lemma write_all_ends fuel p deadline w :
  length p + interruptions w <= fuel -> ends w (write_all_before fuel p deadline w).
Proof.
  revert p w. induction fuel as [|fuel IH]; intros p w Hf; destruct p as [|c p];
    try (by apply ends_here); [simpl in Hf; lia|].
  cbn [write_all_before].
  destruct (remaining deadline w) as [[left1|e] w1] eqn:E1; apply remaining_calm in E1;
    [|by apply ends_here].
  unfold mapped. destruct (set_write_timeout left1 w1) as [r2 w2] eqn:E2.
  apply set_write_timeout_calm in E2. destruct r2 as [[]|e2]; cbn [map_err]; [|apply ends_here; lia].
  destruct (tcp_write (c :: p) w2) as [[n|k] w3] eqn:E3; pose proof (write_calm _ _ _ _ E3).
  - pose proof (write_fits _ _ _ _ E3). destruct n as [|n]; [apply ends_here; lia|].
    apply (ends_later w w3); [lia|]. apply IH. rewrite length_drop. simpl in *. lia.
  - destruct k; try (apply ends_here; lia). apply write_interrupted in E3.
    apply (ends_later w w3); [lia|]. apply IH. simpl in *. lia.
Qed.

Lemma read_to_end_ends fuel acc deadline w :
  (Z.of_nat (length acc) <= MAX_RESPONSE_BYTES)%Z ->
  (MAX_RESPONSE_BYTES - Z.of_nat (length acc) + Z.of_nat (interruptions w) < Z.of_nat fuel)%Z ->
  ends w (read_to_end_before fuel acc deadline w).
Proof.
  revert acc w. induction fuel as [|fuel IH]; intros acc w Ha Hf; [lia|].
  cbn [read_to_end_before].
  destruct (remaining deadline w) as [[left1|e] w1] eqn:E1; apply remaining_calm in E1;
    [|by apply ends_here].
  unfold mapped. destruct (set_read_timeout left1 w1) as [r2 w2] eqn:E2.
  apply set_read_timeout_calm in E2. destruct r2 as [[]|e2]; cbn [map_err]; [|apply ends_here; lia].
  destruct (tcp_read 2048 w2) as [[chunk|k] w3] eqn:E3; pose proof (read_calm _ _ _ _ E3).
  - destruct chunk as [|c chunk]; [apply ends_here; lia|].
    destruct (_ <? _)%Z eqn:G; [apply ends_here; lia|]. bool_hyps. apply (ends_later w w3); [lia|].
    assert (Z.of_nat (length acc + length (c :: chunk)) <= MAX_RESPONSE_BYTES)%Z.
    { unfold MAX_RESPONSE_BYTES, usize_max, u64_max in *. lia. }
    apply IH; rewrite length_app; simpl in *; lia.
  - destruct k; try (apply ends_here; lia). apply read_interrupted in E3.
    apply (ends_later w w3); [lia|]. apply IH; lia.
Qed.

(** The turns that any exchange can take, interruptions aside. *)
Definition exchange_turns : Z := MAX_RESPONSE_BYTES + 1.

Definition enough (fuel : nat) (w : W) : Prop :=
  (exchange_turns + Z.of_nat (interruptions w) <= Z.of_nat fuel)%Z.

Lemma enough_later fuel w w' :
  enough fuel w -> interruptions w' <= interruptions w -> enough fuel w'.
Proof. unfold enough. lia. Qed.

Lemma request_ends fuel port m path hs body timeout w :
  (Z.of_nat (length (encode_request port m path hs body)) <= MAX_RESPONSE_BYTES)%Z ->
  enough fuel w -> ends w (request fuel port m path hs body timeout w).
Proof.
  unfold enough, exchange_turns, request. intros Hl Hf.
  destruct (instant_now w) as [t w1] eqn:E1. apply instant_now_calm in E1.
  destruct (remaining _ w1) as [[left1|e] w2] eqn:E2; apply remaining_calm in E2;
    [|apply ends_here; lia].
  destruct (connect_timeout port _ w2) as [[[]|e] w3] eqn:E3; apply connect_calm in E3;
    [|apply ends_here; lia].
  destruct (negb _); [apply ends_here; lia|].
  destruct (write_all_ends fuel (encode_request port m path hs body) (t + timeout) w3)
    as (r4 & w4 & -> & H4); [lia|]. destruct r4; [|apply ends_here; lia].
  destruct (read_to_end_ends fuel [] (t + timeout) w4) as (r5 & w5 & -> & H5);
    [by vm_compute|simpl; lia|]. destruct r5; apply ends_here; lia.
Qed.

Lemma encode_request_length port m path hs body :
  valid_port port ->
  (Z.of_nat (length body) <= u64_max)%Z ->
  length (encode_request port m path hs body) <=
    200 + length m + length path + length body
    + sum_list_with (fun h => length (fst h) + length (snd h) + 4) hs.
Proof.
  intros Hp Hb. rewrite encode_request_head, !length_app, head_of_length, sum_list_with_app.
  unfold client_headers, request_line. cbn [sum_list_with fst snd]. rewrite !length_app.
  destruct (authority_graphic port Hp) as [_ Ha].
  pose proof (dec_length (Z.of_nat (length body)) ltac:(lia)).
  change (length HEAD_END) with 4. literal_lengths. lia.
Qed.
End Ends.

Lemma dec_go_length fuel n acc : length (dec_go fuel n acc) <= fuel + length acc.
Proof.
  revert n acc. induction fuel as [|fuel IH]; intros n acc; cbn [dec_go]; [lia|].
  destruct (n <? 10)%Z; [simpl; lia|]. etransitivity; [apply IH|]. simpl. lia.
Qed.

Lemma etag_length n : length (etag n) <= 22.
Proof. unfold etag, dec. rewrite !length_app. pose proof (dec_go_length 20 n []). simpl in *. lia. Qed.

Section FlowEnds.
Context {W : Type} `{TcpStreamLaws W} `{LocalLibrary}.
Context (fuel : nat) (port : Z).
Hypothesis Hport : valid_port port.

Lemma get_ends path timeout w :
  length path <= 100 -> enough fuel w -> ends w (request fuel port GET path [] [] timeout w).
Proof.
  intros Hl Hf. apply request_ends; [|done].
  pose proof (encode_request_length port GET path [] [] Hport ltac:(by vm_compute)).
  cbn [length sum_list_with] in *. change (length GET) with 3 in *. unfold MAX_RESPONSE_BYTES. lia.
Qed.

Lemma csrf_cookie_ends w : enough fuel w ->
  ends w (csrf_cookie fuel port w) /\
  forall csrf w', csrf_cookie fuel port w = Some (Ok csrf, w') -> length csrf = 64.
Proof.
  intros Hf. unfold csrf_cookie.
  destruct (get_ends (str "/") READY_TIMEOUT w) as (r & w1 & -> & Hc); [by apply Nat.leb_le|done|].
  destruct r as [response|e]; [|split; [by apply ends_here|done]].
  destruct (negb _); [split; [by apply ends_here|done]|]. split; [by apply ends_here|].
  intros csrf w' [= Hr _]. apply ok_or_Ok in Hr.
  destruct (response_header_map response !! _) as [cookie|]; [|done]. simpl in Hr.
  unfold cookie_token in Hr. destruct (split_byte _ cookie) as [|first rest]; [done|].
  destruct (split_once _ first) as [[n token]|]; [|done]. simpl in Hr.
  destruct (_ || _) eqn:G; [done|]. simplify_eq. by bool_hyps.
Qed.

Lemma decode_unsigned_range m v n : decode_unsigned m v = Some n -> (n <= m)%Z.
Proof.
  unfold decode_unsigned. destruct v as [| |num| | |]; try done.
  destruct (Number.as_u64 num) as [k|]; [|done]. simpl.
  destruct (k <=? m)%Z eqn:E; [|done]. intros [= <-]. by bool_hyps.
Qed.

Lemma status_ends w : enough fuel w -> ends w (status fuel port w).
Proof.
  intros Hf. unfold status.
  destruct (get_ends (str "/api/status") STATUS_TIMEOUT w) as (r & w1 & -> & Hc);
    [by apply Nat.leb_le|done|].
  destruct r as [response|e]; [|by apply ends_here]. destruct (negb _); [by apply ends_here|].
  destruct (_ ≫= decode_status); by apply ends_here.
Qed.

(** C39 A mutation of the local client always ends: with one turn of fuel per
    byte a response may have, one more, and one per interrupted system call,
    the flow returns, whatever the peer sends. *)
Theorem mutation_ends path expected content w :
  length path <= 100 -> length content <= MAX_BODY_BYTES -> enough fuel w ->
  exists r w', mutate_with_body fuel port path expected content w = Some (r, w').
Proof.
  intros Hp Hc Hf. unfold mutate_with_body.
  destruct (csrf_cookie_ends w Hf) as [(r1 & w1 & E1 & Hc1) Htoken]. rewrite E1.
  destruct r1 as [csrf|e]; [|eauto]. specialize (Htoken _ _ E1).
  apply (enough_later _ _ w1) in Hf; [|done].
  destruct (status_ends w1 Hf) as (r2 & w2 & E2 & Hc2). rewrite E2.
  destruct r2 as [st|e]; [|eauto]. apply (enough_later _ _ w2) in Hf; [|done].
  destruct (request_ends fuel port POST path (mutation_headers port csrf (status_revision st))
    content ACTION_TIMEOUT w2) as (r3 & w3 & -> & _); [|done|destruct r3; eauto].
  assert (Z.of_nat MAX_BODY_BYTES = 4096%Z) as Hmax by by vm_compute.
  pose proof (encode_request_length port POST path
    (mutation_headers port csrf (status_revision st)) content Hport) as Hl.
  unfold mutation_headers in Hl |- *. cbn [sum_list_with fst snd] in Hl.
  unfold origin in Hl. rewrite !length_app in Hl. literal_lengths.
  destruct (authority_graphic port Hport) as [_ Ha]. pose proof (etag_length (status_revision st)).
  change (length POST) with 4 in Hl. change (length COOKIE_NAME) with 13 in Hl.
  specialize (Hl ltac:(unfold u64_max; lia)). unfold MAX_RESPONSE_BYTES. unfold origin. lia.
Qed.
End FlowEnds.
