(* ===== verification/Service.v ===== *)
(** The process boundary of the service (rust/src/service_runtime.rs): the
    actor around the only controller, its exit, the cross-process ownership
    locks, and the one-shot start of the user service. *)
From S2P Require Import Prelude Bytes LocalClient Web Backend Journal Model Controller.

Module ServiceRuntimeError.
Inductive t :=
| RuntimeDirectoryUnavailable | RuntimeDirectoryUntrusted | AlreadyRunning
| SignalHandlerUnavailable | ServiceManagerUnavailable | ServiceStartFailed
| ServiceReadyTimedOut | LocalServiceInvalid | ControllerInitializationFailed
| GracefulShutdownRejected | GracefulShutdownOutcomeUnknown
| GracefulShutdownPostconditionFailed | TransportTeardownFailed.
#[global] Instance eq_dec : EqDecision t. Proof. solve_decision. Defined.

Definition display (e : t) : bytes :=
  match e with
  | RuntimeDirectoryUnavailable => str "the private user runtime directory is unavailable"
  | RuntimeDirectoryUntrusted => str "the private user runtime directory failed trust checks"
  | AlreadyRunning => str "another v0.4 or Rust Play Together controller already owns the devices"
  | SignalHandlerUnavailable => str "termination handlers could not be installed"
  | ServiceManagerUnavailable => str "the user service manager is unavailable"
  | ServiceStartFailed => str "the Rust Play Together user service could not be started"
  | ServiceReadyTimedOut => str "the Rust Play Together user service did not become ready in time"
  | LocalServiceInvalid => str "the local Rust Play Together service failed its readiness check"
  | ControllerInitializationFailed =>
      str "the native Play Together controller could not be initialized"
  | GracefulShutdownRejected =>
      str "graceful Play Together shutdown was rejected before completion"
  | GracefulShutdownOutcomeUnknown => str "graceful Play Together shutdown outcome is unknown"
  | GracefulShutdownPostconditionFailed =>
      str "graceful Play Together shutdown postcondition failed"
  | TransportTeardownFailed => str "Play Together transport teardown failed"
  end.
End ServiceRuntimeError.

(** * The actor *)

(** [Instant::now()]. *)
Class Clock (K : Type) := { clock_now : K -> Z * K }.

Record ControllerWebActor (B P J K : Type) := mkActor {
  controller : PairController B P J;
  teardown_done : bool;
  clock : K;
}.
Arguments mkActor {B P J K}.
Arguments controller {B P J K}.
Arguments teardown_done {B P J K}.
Arguments clock {B P J K}.

Section Actor.
Context {B P J K : Type}.
Context `{PairBackend B} `{PairConfigurationProbe P} `{UncertaintyJournal J} `{Clock K}.
#[local] Abbreviation web_actor := (ControllerWebActor B P J K).

Definition actor_new (c : PairController B P J) (k : K) : web_actor := mkActor c false k.

(** A call of the controller, at the time it reads the clock. *)
Definition on_controller {T} (call : Z -> PairController B P J -> T * PairController B P J)
    (a : web_actor) : T * web_actor :=
  let '(now, k) := clock_now (clock a) in
  let '(r, c) := call now (controller a) in
  (r, mkActor c (teardown_done a) k).

Definition actor_shutdown : web_actor -> ControllerActionResult * web_actor :=
  on_controller Controller.shutdown.

Definition teardown_transport_once (a : web_actor) : result unit PairBackendError.t * web_actor :=
  if teardown_done a then (Ok tt, a)
  else
    let '(r, c) := teardown_transport_for_exit (controller a) in
    (r, mkActor c (is_ok r) (clock a)).

(** [drop]. *)
Definition actor_drop (a : web_actor) : web_actor := snd (teardown_transport_once a).

Definition shutdown_error (r : ControllerActionResult) : option ServiceRuntimeError.t :=
  match result_outcome r with
  | ControllerActionOutcome.Accepted
  | ControllerActionOutcome.AcceptedUnconfirmed
  | ControllerActionOutcome.Idempotent => None
  | ControllerActionOutcome.RejectedBeforeSend => Some ServiceRuntimeError.GracefulShutdownRejected
  | ControllerActionOutcome.OutcomeUnknown => Some ServiceRuntimeError.GracefulShutdownOutcomeUnknown
  | ControllerActionOutcome.PostconditionFailed =>
      Some ServiceRuntimeError.GracefulShutdownPostconditionFailed
  end.

Definition shutdown_for_exit (a : web_actor) : result unit ServiceRuntimeError.t * web_actor :=
  let '(r, a) := actor_shutdown a in
  let '(torn, a) := teardown_transport_once a in
  (match shutdown_error r, torn with
   | Some error, _ => Err error
   | None, Err _ => Err ServiceRuntimeError.TransportTeardownFailed
   | None, Ok _ => Ok tt
   end, a).

Definition controller_mutation (mutation : WebMutation.t)
  : Z -> PairController B P J -> ControllerActionResult * PairController B P J :=
  match mutation with
  | WebMutation.Start => Controller.start
  | WebMutation.Stop => Controller.stop
  | WebMutation.RecoverStop => Controller.recover_stop
  end.

#[export] Instance ControllerWebActor_actor : WebActor web_actor := {
  actor_status := on_controller Controller.status;
  mutate_if_revision expected_revision mutation a :=
    if negb (revision (controller a) =? expected_revision)%Z then (Err tt, a)
    else
      let '(r, a) := on_controller (controller_mutation mutation) a in (Ok r, a);
}.
End Actor.

(** * Cross-process ownership *)

Definition RUNTIME_DIRECTORY : bytes := str "jbl-aura-link".
Definition OPERATION_LOCK_FILE : bytes := str "operation.lock".
Definition SESSION_LOCK_FILE : bytes := str "session.lock".
Definition V04_LAUNCH_RESERVATION : bytes := str "launch.reservation".

Module MkdirResult.
Inductive t := Created | Exists | Failed.
End MkdirResult.
Module FlockResult.
Inductive t := Locked | WouldBlock | Failed.
End FlockResult.
Module StatResult.
Inductive t := Found | NotFound | Failed.
End StatResult.

(** The system calls on directories and lock files; [F] is an open descriptor.
    A descriptor that is closed gives its lock up. *)
Class RuntimeOs (R F : Type) := {
  os_geteuid : R -> Z;
  open_dir : bytes -> R -> result F unit * R;
  openat_dir : F -> bytes -> R -> result F unit * R;
  mkdirat : F -> bytes -> R -> MkdirResult.t * R;
  openat_lock : F -> bytes -> R -> result F unit * R;
  os_fstat : F -> R -> result Metadata unit * R;
  fstatat : F -> bytes -> R -> StatResult.t * R;
  flock : F -> R -> FlockResult.t * R;
  os_close : F -> R -> R;
}.

Record ControllerProcessLock (F : Type) := mkProcessLock {
  session_file : F;
  operation_file : F;
}.
Arguments mkProcessLock {F}.
Arguments session_file {F}.
Arguments operation_file {F}.

Section Lock.
Context {R F : Type} `{RuntimeOs R F}.
#[local] Abbreviation os T := (result T ServiceRuntimeError.t * R)%type.

Definition owned_fd (call : result F unit * R) : os F :=
  let '(r, w) := call in
  (map_err (fun _ => ServiceRuntimeError.RuntimeDirectoryUnavailable) r, w).

Definition open_directory (path : bytes) (w : R) : os F :=
  if contains_byte (z2b 0) path then (Err ServiceRuntimeError.RuntimeDirectoryUntrusted, w)
  else owned_fd (open_dir path w).

(** The owner, type and mode checks of [validate_directory] and
    [validate_lock_file]. *)
Definition validate_descriptor (kind : FileType.t) (fd : F) (w : R) : os unit :=
  match os_fstat fd w with
  | (Err _, w) => (Err ServiceRuntimeError.RuntimeDirectoryUnavailable, w)
  | (Ok metadata, w) =>
      (if negb (uid metadata =? os_geteuid w)%Z || negb (bool_decide (file_type metadata = kind))
          || negb (Z.land (mode metadata) 63 =? 0)%Z
       then Err ServiceRuntimeError.RuntimeDirectoryUntrusted else Ok tt, w)
  end.
Definition validate_directory := validate_descriptor FileType.Directory.
Definition validate_lock_file := validate_descriptor FileType.Regular.

(** [let x = call?; ...] while [fd] is live: an early return closes it. *)
Definition closing {T} (fd : F) (r : os T) : os T :=
  match r with (Err e, w) => (Err e, os_close fd w) | ok => ok end.

Definition path_exists_at (directory : F) (name : bytes) (w : R) : os bool :=
  match fstatat directory name w with
  | (StatResult.Found, w) => (Ok true, w)
  | (StatResult.NotFound, w) => (Ok false, w)
  | (StatResult.Failed, w) => (Err ServiceRuntimeError.RuntimeDirectoryUnavailable, w)
  end.

Definition acquire_lock_file (directory : F) (name : bytes) (w : R) : os F :=
  match openat_lock directory name w with
  | (Err _, w) => (Err ServiceRuntimeError.RuntimeDirectoryUntrusted, w)
  | (Ok file, w) =>
      closing file (
        let?! (_, w) := validate_lock_file file w in
        match flock file w with
        | (FlockResult.Locked, w) => (Ok file, w)
        | (FlockResult.WouldBlock, w) => (Err ServiceRuntimeError.AlreadyRunning, w)
        | (FlockResult.Failed, w) => (Err ServiceRuntimeError.RuntimeDirectoryUnavailable, w)
        end)
  end.

(** The part of [acquire_at] that holds the runtime directory open. *)
Definition acquire_in (directory : F) (w : R) : os (ControllerProcessLock F) :=
  let?! (_, w) := validate_directory directory w in
  let?! (operation_file, w) := acquire_lock_file directory OPERATION_LOCK_FILE w in
  closing operation_file (
    let?! (reserved, w) := path_exists_at directory V04_LAUNCH_RESERVATION w in
    if reserved : bool then (Err ServiceRuntimeError.AlreadyRunning, w)
    else
    let?! (session_file, w) := acquire_lock_file directory SESSION_LOCK_FILE w in
    (Ok (mkProcessLock session_file operation_file), w)).

(** Runs [body] and closes [fd] behind it. *)
Definition scoped {T} (fd : F) (r : os T) : os T := let '(x, w) := r in (x, os_close fd w).

Definition acquire_at (runtime_root : bytes) (w : R) : os (ControllerProcessLock F) :=
  if negb (is_absolute runtime_root)
  then (Err ServiceRuntimeError.RuntimeDirectoryUntrusted, w)
  else
  let?! (root, w) := open_directory runtime_root w in
  scoped root (
    let?! (_, w) := validate_directory root w in
    match mkdirat root RUNTIME_DIRECTORY w with
    | (MkdirResult.Failed, w) => (Err ServiceRuntimeError.RuntimeDirectoryUnavailable, w)
    | (_, w) =>
        let?! (directory, w) := owned_fd (openat_dir root RUNTIME_DIRECTORY w) in
        scoped directory (acquire_in directory w)
    end).

Definition acquire (XDG_RUNTIME_DIR : option bytes) (w : R) : os (ControllerProcessLock F) :=
  match XDG_RUNTIME_DIR with
  | Some value =>
      if bool_decide (value = [])
      then (Err ServiceRuntimeError.RuntimeDirectoryUnavailable, w)
      else acquire_at value w
  | None => (Err ServiceRuntimeError.RuntimeDirectoryUnavailable, w)
  end.

(** Dropping the lock: the session first, the operation gate last. *)
Definition release (lock : ControllerProcessLock F) (w : R) : R :=
  os_close (operation_file lock) (os_close (session_file lock) w).
End Lock.

(** * Starting the user service *)

Definition SYSTEMCTL_TIMEOUT : Z := from_secs 5.
Definition SERVICE_READY_TIMEOUT : Z := from_secs 15.
Definition READY_POLL_INTERVAL : Z := from_millis 100.

Module ChildState.
Inductive t := Exited (success : bool) | Running | Failed.
End ChildState.

(** The readiness probe of the client, the service manager and the clock. *)
Class ServiceManager (E : Type) := {
  sm_now : E -> Z * E;
  sm_sleep : Z -> E -> E;
  probe_ready : E -> result unit LocalClientError.t * E;
  (** [systemctl --user start UNIT]. *)
  spawn_start : E -> result unit unit * E;
  try_wait : E -> ChildState.t * E;
  kill_and_wait : E -> E;
}.

Section Ensure.
Context {E : Type} `{ServiceManager E}.
#[local] Abbreviation outcome := (option (result unit ServiceRuntimeError.t * E)%type).

(** The loop of [start_user_unit_once], with fuel. *)
Fixpoint wait_start (fuel : nat) (deadline : Z) (e : E) : outcome :=
  match fuel with
  | O => None
  | S fuel =>
      match try_wait e with
      | (ChildState.Exited true, e) => Some (Ok tt, e)
      | (ChildState.Exited false, e) => Some (Err ServiceRuntimeError.ServiceStartFailed, e)
      | (ChildState.Failed, e) => Some (Err ServiceRuntimeError.ServiceManagerUnavailable, e)
      | (ChildState.Running, e) =>
          let '(now, e) := sm_now e in
          if (now <? deadline)%Z then wait_start fuel deadline (sm_sleep (from_millis 25) e)
          else Some (Err ServiceRuntimeError.ServiceManagerUnavailable, kill_and_wait e)
      end
  end.

Definition start_user_unit_once (fuel : nat) (e : E) : outcome :=
  match spawn_start e with
  | (Err _, e) => Some (Err ServiceRuntimeError.ServiceManagerUnavailable, e)
  | (Ok _, e) =>
      let '(now, e) := sm_now e in wait_start fuel (now + SYSTEMCTL_TIMEOUT)%Z e
  end.

(** The polling loop of [ensure_user_service_with], with fuel. *)
Fixpoint wait_ready (fuel : nat) (deadline poll_interval : Z) (e : E) : outcome :=
  match fuel with
  | O => None
  | S fuel =>
      let '(r, e) := probe_ready e in
      match r with
      | Ok _ => Some (Ok tt, e)
      | Err error =>
          if service_unavailable error || bool_decide (error = LocalClientError.TimedOut) then
            let '(now, e) := sm_now e in
            if (deadline <=? now)%Z
            then Some (Err ServiceRuntimeError.ServiceReadyTimedOut, e)
            else wait_ready fuel deadline poll_interval (sm_sleep poll_interval e)
          else Some (Err ServiceRuntimeError.LocalServiceInvalid, e)
      end
  end.

Definition ensure_user_service_with (fuel : nat) (ready_timeout poll_interval : Z) (e : E)
  : outcome :=
  let '(r, e) := probe_ready e in
  match r with
  | Ok _ => Some (Ok tt, e)
  | Err error =>
      if negb (service_unavailable error)
      then Some (Err ServiceRuntimeError.LocalServiceInvalid, e)
      else
      match start_user_unit_once fuel e with
      | Some (Ok _, e) =>
          let '(now, e) := sm_now e in
          wait_ready fuel (now + ready_timeout)%Z poll_interval e
      | other => other
      end
  end.

Definition ensure_user_service (fuel : nat) : E -> outcome :=
  ensure_user_service_with fuel SERVICE_READY_TIMEOUT READY_POLL_INTERVAL.
End Ensure.
