(* ===== verification/ServiceSpec.v ===== *)
(** What the process boundary guarantees: one mutation per revision, an exit
    that never acts on an unresolved device, ownership locks held together or
    not at all, and a user service that is started at most once. *)
From stdpp Require Import relations.
From S2P Require Import Prelude Bytes Tcp LocalModel LocalClient Web WebSpec Http HttpSpec.
From S2P Require Import Backend Journal Model Controller ControllerSpec Service.

(** * The actor *)

Section Actor.
Context {B P J K : Type}.
Context `{PairBackendLaws B} `{PairConfigurationProbe P} `{UncertaintyJournalLaws J} `{Clock K}.
#[local] Abbreviation web_actor := (ControllerWebActor B P J K).

Lemma on_controller_spec {T} (call : Z -> PairController B P J -> T * PairController B P J)
    (a a' : web_actor) r :
  on_controller call a = (r, a') ->
  exists now, call now (controller a) = (r, controller a') /\ teardown_done a' = teardown_done a.
Proof.
  unfold on_controller. destruct (clock_now (clock a)) as [now k].
  destruct (call now (controller a)) as [x c] eqn:E. intros [= -> <-]. by exists now.
Qed.

(** The action a mutation of the web stands for. *)
Definition action_of (m : WebMutation.t) : ControllerAction.t :=
  match m with
  | WebMutation.Start => ControllerAction.Start
  | WebMutation.Stop => ControllerAction.Stop
  | WebMutation.RecoverStop => ControllerAction.RecoverStop
  end.

Lemma controller_mutation_action m (now : Z) (c : PairController B P J) :
  controller_mutation m now c = mutate now (action_of m) c.
Proof. by destruct m. Qed.

Lemma mutate_reported now action (c c' : PairController B P J) r :
  mutate now action c = (r, c') -> result_revision r = revision c' /\ result_action r = action.
Proof. intros [[? ? _ _] _]%mutate_spec. done. Qed.

Lemma mutate_revision_grows now action (c c' : PairController B P J) r :
  mutate now action c = (r, c') -> unsaturated c -> (revision c < revision c')%Z.
Proof.
  intros E Hs. apply mutate_spec in E as [_ Hcase]. unfold unsaturated in Hs.
  pose proof (saturating_succ_lt u64_max (revision c)).
  destruct Hcase as [Href|(c1 & raw & attempted & c2 & Hadm & _ & _ & _ & -> & Hv & _)].
  - rewrite (refusal_revision _ _ _ _ Href). lia.
  - rewrite Hv, (admitted_state _ _ _ Hadm). simpl.
    pose proof (saturating_succ_bounds u64_max (revision c)).
    pose proof (saturating_succ_le u64_max (saturating_succ u64_max (revision c))). lia.
Qed.

Lemma status_reported now (c c' : PairController B P J) s :
  Controller.status now c = (s, c') -> cs_revision s = revision c'.
Proof.
  unfold Controller.status. destruct (read_pair_configuration c) as [[pc ms] c1].
  destruct (read_health c1) as [h c2]. intros [= <- <-]. done.
Qed.

(** The interface of the server, implemented by the invariant of the
    controller. *)
#[export] Instance actor_laws : WebActorLaws web_actor.
Proof.
  refine {| actor_ok a := wf (controller a) |}.
  - intros a s a' (now & E & _)%on_controller_spec Hwf.
    pose proof (wf_status _ _ _ _ E Hwf) as Hwf'. split; [done|].
    rewrite (status_reported _ _ _ _ E). apply (wf_revision _ Hwf').
  - intros n m a r a' E Hwf. simpl in E. destruct (negb _); [by simplify_eq|].
    destruct (on_controller (controller_mutation m) a) as [r0 a0] eqn:Ea. simplify_eq.
    apply on_controller_spec in Ea as (now & Ea & _). rewrite controller_mutation_action in Ea.
    pose proof (wf_mutate _ _ _ _ _ Ea Hwf) as Hwf'. split; [done|]. intros res [= <-].
    destruct (mutate_reported _ _ _ _ _ Ea) as [-> _]. apply (wf_revision _ Hwf').
Defined.

(** A revision admits one mutation.  Presented with any other revision than
    the current one the actor refuses and nothing at all changes; presented
    with the current one it runs exactly that mutation of the controller,
    once; and, below saturation, a second mutation at the same revision, a
    replay or a concurrent client, is refused. *)
Theorem one_mutation_per_revision n m (a a' : web_actor) r :
  mutate_if_revision n m a = (r, a') ->
  unsaturated (controller a) ->
  (r = Err tt <-> n <> revision (controller a)) /\
  (r = Err tt -> a' = a) /\
  (forall result, r = Ok result ->
     (exists now, mutate now (action_of m) (controller a) = (result, controller a')) /\
     forall m2, mutate_if_revision n m2 a' = (Err tt, a')).
Proof.
  intros E Hs. simpl in *. destruct (revision (controller a) =? n)%Z eqn:G; bool_hyps; simpl in E.
  - destruct (on_controller (controller_mutation m) a) as [r0 a0] eqn:Ea. simplify_eq.
    apply on_controller_spec in Ea as (now & Ea & _). rewrite controller_mutation_action in Ea.
    split_and!; [by split|done|]. intros res [= <-]. split; [eauto|]. intros m2.
    pose proof (mutate_revision_grows _ _ _ _ _ Ea Hs).
    rewrite (proj2 (Z.eqb_neq _ _)) by lia. done.
  - simplify_eq. split_and!; [split; [congruence|done]|done|done].
Qed.

(** ** Exit *)

Lemma teardown_once_spec (a a' : web_actor) r :
  teardown_transport_once a = (r, a') ->
  controller a' = set_backend (ctl_backend (controller a')) (controller a) /\
  role_writes (ctl_backend (controller a')) = role_writes (ctl_backend (controller a)) /\
  (r = Ok tt <-> teardown_done a' = true) /\
  (teardown_done a = true -> a' = a).
Proof.
  unfold teardown_transport_once. destruct (teardown_done a) eqn:Ht.
  - intros [= <- <-]. rewrite Ht. split_and!; try done. by destruct (controller a).
  - destruct (teardown_transport_for_exit (controller a)) as [r0 c] eqn:E. intros [= <- <-].
    apply teardown_spec in E as [Hc Hw]. simpl. split_and!; try done.
    destruct r0 as [[]|]; done.
Qed.

(** The exit of the process is safe.  While an action is unresolved it reports
    a rejected shutdown, sends no role command, and leaves the journal as it
    is for the next start; it succeeds only with the controller offline,
    nothing unresolved, and the transport torn down, after which the drop does
    nothing more.  The teardown is attempted in every case, and its failure is
    reported unless the shutdown itself failed. *)
Theorem exit_is_safe (a a' : web_actor) r :
  shutdown_for_exit a = (r, a') -> wf (controller a) ->
  (unresolved_action (controller a) = true ->
     r = Err ServiceRuntimeError.GracefulShutdownRejected /\
     role_writes (ctl_backend (controller a')) = role_writes (ctl_backend (controller a)) /\
     ctl_journal (controller a') = ctl_journal (controller a)) /\
  (r = Ok tt ->
     managed_state (controller a') = ManagedLiveState.Offline /\
     unresolved_action (controller a') = false /\ teardown_done a' = true /\
     actor_drop a' = a') /\
  (teardown_done a' = false -> r <> Ok tt) /\
  (r = Err ServiceRuntimeError.TransportTeardownFailed -> teardown_done a' = false).
Proof.
  unfold shutdown_for_exit, actor_shutdown. intros E Hwf.
  destruct (on_controller Controller.shutdown a) as [res a1] eqn:E1.
  destruct (teardown_transport_once a1) as [torn a2] eqn:E2. simplify_eq.
  apply on_controller_spec in E1 as (now & E1 & _).
  destruct (teardown_once_spec _ _ _ E2) as (Hc & Hw & Ht & Hsame).
  unfold Controller.shutdown in E1.
  split_and!.
  - intros Hu. apply mutate_spec in E1 as [_ [Href|Hred]].
    + pose proof (refusal_writes _ _ _ _ Href).
      destruct Href as [?? Ho ? E|???? ? E|???? ? E|failure p ? Hr ??? E
        |p b ????? E|p b j e Hr ????? E]; try congruence; try (by specialize (Hr Hu)).
      unfold shutdown_error. rewrite Ho, Hc. simpl. split_and!; [done|congruence|by rewrite E].
    + destruct Hred as (c1 & raw & attempted & c2 & Hadm & _).
      by pose proof (admitted_latch _ _ _ Hadm Hu).
  - intros Hr. destruct (shutdown_error res) eqn:Hse; [done|]. destruct torn as [[]|]; [|done].
    assert (Hdone : teardown_done a' = true) by by apply Ht.
    assert (managed_state (controller a1) = ManagedLiveState.Offline /\
            unresolved_action (controller a1) = false) as [Hm Hu].
    { unfold shutdown_error in Hse. apply mutate_spec in E1 as [_ [Href|Hred]].
      - destruct Href as [?? Ho ? E|??? Ho ? E|??? Ho ? E|failure p ??? Ho ? E
          |p b ? _ Hidle ? Ho ? E|p b j e Hr2 ??? Ho ? E]; rewrite ?Ho in Hse; try done.
        + by rewrite E.
        + rewrite E. simpl. by rewrite Hidle.
      - destruct Hred as (c1 & raw & attempted & c2 & _ & _ & _ & Hred & _).
        destruct Hred as [? _ Ho|? [Ho|Ho]|]; [by rewrite Ho in Hse..|done]. }
    rewrite Hc. simpl. split_and!; try done. unfold actor_drop, teardown_transport_once.
    by rewrite Hdone.
  - intros Hf Hr. destruct torn as [[]|]; [|by destruct (shutdown_error res)].
    assert (teardown_done a' = true) by by apply Ht. congruence.
  - intros Hr. destruct torn as [[]|];
      [unfold shutdown_error in Hr; by destruct (result_outcome res)|].
    destruct (teardown_done a') eqn:Hd; [|done]. by pose proof (proj2 Ht eq_refl).
Qed.
End Actor.

(** * Ownership locks *)

(** The descriptor table of the process: [None] is closed, [Some held] open,
    with or without an exclusive lock. *)
Class RuntimeOsLaws (R F : Type) `{RuntimeOs R F, EqDecision F} := {
  opened : R -> F -> option bool;
  fd_same (w w' : R) := forall x, opened w' x = opened w x;
  fd_set (fd : F) (v : option bool) (w w' : R) :=
    forall x, opened w' x = if decide (x = fd) then v else opened w x;
  open_dir_ok p w fd w' : open_dir p w = (Ok fd, w') -> opened w fd = None /\ fd_set fd (Some false) w w';
  open_dir_err p w e w' : open_dir p w = (Err e, w') -> fd_same w w';
  openat_dir_ok d n w fd w' :
    openat_dir d n w = (Ok fd, w') -> opened w fd = None /\ fd_set fd (Some false) w w';
  openat_dir_err d n w e w' : openat_dir d n w = (Err e, w') -> fd_same w w';
  openat_lock_ok d n w fd w' :
    openat_lock d n w = (Ok fd, w') -> opened w fd = None /\ fd_set fd (Some false) w w';
  openat_lock_err d n w e w' : openat_lock d n w = (Err e, w') -> fd_same w w';
  mkdirat_same d n w r w' : mkdirat d n w = (r, w') -> fd_same w w';
  os_fstat_same fd w r w' : os_fstat fd w = (r, w') -> fd_same w w';
  fstatat_same d n w r w' : fstatat d n w = (r, w') -> fd_same w w';
  flock_ok fd w w' : flock fd w = (FlockResult.Locked, w') -> fd_set fd (Some true) w w';
  flock_refused fd w r w' : flock fd w = (r, w') -> r <> FlockResult.Locked -> fd_same w w';
  os_close_set fd w : fd_set fd None w (os_close fd w);
}.

Section Locks.
Context {R F : Type} `{RuntimeOsLaws R F}.

Lemma fd_same_trans w1 w2 w3 : fd_same w1 w2 -> fd_same w2 w3 -> fd_same w1 w3.
Proof. unfold fd_same. intros H1' H2' x. by rewrite H2'. Qed.

Lemma fd_reopened fd w w1 w2 :
  opened w fd = None -> (forall x, x <> fd -> opened w1 x = opened w x) -> fd_set fd None w1 w2 ->
  fd_same w w2.
Proof. intros Hn Hk Hs x. rewrite (Hs x). case_decide; [by subst|auto]. Qed.

(** A call that opens [fd] with a state, or leaves the table alone. *)
Definition opens {E} (v : option bool) (w : R) (call : result F E * R) : Prop :=
  match call with
  | (Ok fd, w') => opened w fd = None /\ fd_set fd v w w'
  | (Err _, w') => fd_same w w'
  end.

Lemma validate_same kind fd w r w' : validate_descriptor kind fd w = (r, w') -> fd_same w w'.
Proof.
  unfold validate_descriptor. destruct (os_fstat fd w) as [[m|e] w1] eqn:E; intros [= _ <-];
    by eapply os_fstat_same.
Qed.

Lemma acquire_lock_file_opens d n w : opens (Some true) w (acquire_lock_file d n w).
Proof.
  unfold acquire_lock_file, validate_lock_file.
  destruct (openat_lock d n w) as [[fd|e] w1] eqn:E1; [|by eapply openat_lock_err].
  destruct (openat_lock_ok _ _ _ _ _ E1) as [Hn Hs1].
  assert (Hclose : forall w2, fd_same w1 w2 -> fd_same w (os_close fd w2)).
  { intros w2 Hw2. eapply (fd_reopened fd w w2); [done| |apply os_close_set].
    intros x Hx. rewrite (Hw2 x), (Hs1 x). by rewrite decide_False. }
  destruct (validate_descriptor _ fd w1) as [r2 w2] eqn:E2. apply validate_same in E2.
  destruct r2 as [[]|e2]; [|by apply Hclose].
  destruct (flock fd w2) as [[] w3] eqn:E3; cbn [closing].
  - apply flock_ok in E3. split; [done|]. intros x. rewrite (E3 x). case_decide; [done|].
    rewrite (E2 x), (Hs1 x). by rewrite decide_False.
  - apply flock_refused in E3; [|done]. by apply Hclose; eapply fd_same_trans.
  - apply flock_refused in E3; [|done]. by apply Hclose; eapply fd_same_trans.
Qed.

Lemma owned_fd_opens call w : opens (Some false) w call -> opens (Some false) w (owned_fd call).
Proof. by destruct call as [[fd|e] w1]. Qed.

Lemma open_dir_opens p w : opens (Some false) w (open_dir p w).
Proof.
  destruct (open_dir p w) as [[fd|e] w1] eqn:E; simpl; [by eapply open_dir_ok|by eapply open_dir_err].
Qed.

Lemma openat_dir_opens d n w : opens (Some false) w (openat_dir d n w).
Proof.
  destruct (openat_dir d n w) as [[fd|e] w1] eqn:E; simpl; [by eapply openat_dir_ok|by eapply openat_dir_err].
Qed.

(** All or nothing: both locks, in descriptors that were closed before, or the
    table as it was. *)
Definition both_or_none (w : R) (call : result (ControllerProcessLock F) ServiceRuntimeError.t * R)
  : Prop :=
  match call with
  | (Ok lock, w') =>
      operation_file lock <> session_file lock /\
      opened w (operation_file lock) = None /\ opened w (session_file lock) = None /\
      forall x, opened w' x =
        if decide (x = operation_file lock \/ x = session_file lock) then Some true else opened w x
  | (Err _, w') => fd_same w w'
  end.

Lemma both_or_none_from w w1 call :
  fd_same w w1 -> both_or_none w1 call -> both_or_none w call.
Proof.
  intros Hw. destruct call as [[lock|e] w2]; simpl; [|by apply fd_same_trans].
  intros (?&H1'&H2'&H3'). rewrite <- !(Hw _). split_and!; [done..|].
  intros x. rewrite (H3' x). by rewrite (Hw x).
Qed.

Lemma acquire_in_spec d w : both_or_none w (acquire_in d w).
Proof.
  unfold acquire_in, validate_directory.
  destruct (validate_descriptor _ d w) as [[[]|e] w1] eqn:E1; apply validate_same in E1; [|done].
  apply (both_or_none_from w w1); [done|]. clear E1 w.
  pose proof (acquire_lock_file_opens d OPERATION_LOCK_FILE w1) as Ho.
  destruct (acquire_lock_file d OPERATION_LOCK_FILE w1) as [[op|e] w2]; [|done].
  destruct Ho as [Hn Hs].
  assert (Hclose : forall w3, fd_same w2 w3 -> fd_same w1 (os_close op w3)).
  { intros w3 Hw3. eapply (fd_reopened op w1 w3); [done| |apply os_close_set].
    intros x Hx. rewrite (Hw3 x), (Hs x). by rewrite decide_False. }
  unfold path_exists_at. destruct (fstatat d V04_LAUNCH_RESERVATION w2) as [[] w3] eqn:E3;
    apply fstatat_same in E3; cbn [closing]; try (by apply Hclose).
  pose proof (acquire_lock_file_opens d SESSION_LOCK_FILE w3) as Hse.
  destruct (acquire_lock_file d SESSION_LOCK_FILE w3) as [[se|e] w4]; cbn [closing opens] in *.
  - destruct Hse as [Hns Hss]. cbn [operation_file session_file].
    assert (op <> se).
    { intros ->. rewrite (E3 se), (Hs se) in Hns. by rewrite decide_True in Hns. }
    assert (opened w1 se = None).
    { rewrite (E3 se), (Hs se) in Hns. by rewrite decide_False in Hns. }
    split_and!; try done. intros x. rewrite (Hss x). repeat case_decide; subst; try tauto.
    + rewrite (E3 x), (Hs x). case_decide; [done|tauto].
    + rewrite (E3 x), (Hs x). by rewrite decide_False by tauto.
  - apply Hclose. by eapply fd_same_trans.
Qed.

Lemma scoped_both_or_none fd w w1 w2 call :
  opened w fd = None -> fd_set fd (Some false) w w1 -> fd_same w1 w2 -> both_or_none w2 call ->
  both_or_none w (scoped fd call).
Proof.
  intros Hn Hs Hw Hb. destruct call as [[lock|e] w3]; cbn [scoped both_or_none] in *.
  - destruct Hb as (Hd & Ho & Hse & Hx).
    assert (Hne : forall x, opened w2 x = None -> x <> fd /\ opened w x = None).
    { intros x Hx2. rewrite (Hw x), (Hs x) in Hx2. by case_decide. }
    destruct (Hne _ Ho), (Hne _ Hse). split_and!; try done. intros x.
    rewrite (os_close_set fd w3 x). case_decide; subst.
    + by rewrite decide_False by (intros [?|?]; congruence).
    + rewrite (Hx x). case_decide; [done|]. rewrite (Hw x), (Hs x). by rewrite decide_False.
  - eapply (fd_reopened fd w w3); [done| |apply os_close_set].
    intros x Hx. rewrite (Hb x), (Hw x), (Hs x). by rewrite decide_False.
Qed.

(** Ownership is taken whole or not at all.  When acquiring the process lock
    succeeds, both lock files, the one of the public operations and the one of
    the session, are held exclusively, by two descriptors opened for it, and no
    other descriptor is left behind; when it fails, for whatever reason and
    however far it got, no descriptor and no lock is kept; and dropping the
    lock gives up exactly what was taken. *)
Theorem process_lock_all_or_nothing env w r w' :
  acquire env w = (r, w') ->
  match r with
  | Ok lock =>
      operation_file lock <> session_file lock /\
      opened w' (operation_file lock) = Some true /\ opened w' (session_file lock) = Some true /\
      (forall x, x <> operation_file lock -> x <> session_file lock -> opened w' x = opened w x) /\
      (forall x, opened (release lock w') x = opened w x)
  | Err _ => forall x, opened w' x = opened w x
  end.
Proof.
  intros E. assert (both_or_none w (r, w')) as Hb.
  { rewrite <- E. unfold acquire. destruct env as [root|]; [|done]. case_bool_decide; [done|].
    unfold acquire_at. destruct (negb (is_absolute root)); [done|].
    unfold open_directory. destruct (contains_byte _ root); [done|].
    pose proof (owned_fd_opens _ _ (open_dir_opens root w)) as Hr.
    destruct (owned_fd (open_dir root w)) as [[rd|e] w1]; [|done]. destruct Hr as [Hn Hs].
    unfold validate_directory. destruct (validate_descriptor _ rd w1) as [[[]|e] w2] eqn:E2;
      apply validate_same in E2; [|by eapply scoped_both_or_none].
    destruct (mkdirat rd RUNTIME_DIRECTORY w2) as [m w3] eqn:E3. apply mkdirat_same in E3.
    assert (Hgo : both_or_none w3 (
      let?! (directory, w) := owned_fd (openat_dir rd RUNTIME_DIRECTORY w3) in
      scoped directory (acquire_in directory w))).
    { pose proof (owned_fd_opens _ _ (openat_dir_opens rd RUNTIME_DIRECTORY w3)) as Hd.
      destruct (owned_fd (openat_dir rd RUNTIME_DIRECTORY w3)) as [[d|e] w4]; [|done].
      destruct Hd. eapply scoped_both_or_none; [done|done|done|apply acquire_in_spec]. }
    destruct m; (eapply scoped_both_or_none; [done|done|by eapply fd_same_trans|done]). }
  destruct r as [lock|e]; [|done]. destruct Hb as (Hd & Ho & Hse & Hx).
  split_and!; [done|rewrite Hx; by rewrite decide_True by auto..| |].
  - intros x ??. rewrite Hx. by rewrite decide_False by (intros [?|?]; done).
  - intros x. unfold release. rewrite (os_close_set _ _ x), (os_close_set _ _ x), (Hx x).
    repeat case_decide; subst; try done. tauto.
Qed.
End Locks.

(** * Starting the user service *)

(** Only [systemctl --user start] starts the unit, and time passes: a pause
    lasts at least as long as asked. *)
Class ServiceManagerLaws (E : Type) `{ServiceManager E} := {
  starts : E -> nat;
  sm_time : E -> Z;
  sm_now_spec e t e' : sm_now e = (t, e') -> starts e' = starts e /\ (sm_time e <= t <= sm_time e')%Z;
  sm_sleep_spec d e : (0 <= d)%Z ->
    starts (sm_sleep d e) = starts e /\ (sm_time e + d <= sm_time (sm_sleep d e))%Z;
  probe_spec e r e' : probe_ready e = (r, e') -> starts e' = starts e /\ (sm_time e <= sm_time e')%Z;
  spawn_spec e r e' : spawn_start e = (r, e') ->
    starts e <= starts e' <= S (starts e) /\ (sm_time e <= sm_time e')%Z;
  try_wait_spec e r e' : try_wait e = (r, e') -> starts e' = starts e /\ (sm_time e <= sm_time e')%Z;
  kill_spec e : starts (kill_and_wait e) = starts e /\ (sm_time e <= sm_time (kill_and_wait e))%Z;
}.

Section Ensure.
Context {E : Type} `{ServiceManagerLaws E}.

Lemma wait_start_ends fuel deadline e :
  (deadline - sm_time e < Z.of_nat fuel * from_millis 25)%Z ->
  exists r e', wait_start (S fuel) deadline e = Some (r, e') /\ starts e' = starts e /\
    (sm_time e <= sm_time e')%Z.
Proof.
  revert e. induction fuel as [|fuel IH]; intros e Hf; cbn [wait_start];
    destruct (try_wait e) as [c e1] eqn:E1; destruct (try_wait_spec _ _ _ E1);
    (destruct c as [[]| |]; [by eauto 10|by eauto 10| |by eauto 10]);
    destruct (sm_now e1) as [t e2] eqn:E2; destruct (sm_now_spec _ _ _ E2) as [? ?];
    (destruct (t <? deadline)%Z eqn:G; bool_hyps;
      [|destruct (kill_spec e2); eexists _, _; split_and!; [done|congruence|lia]]).
  - lia.
  - destruct (sm_sleep_spec (from_millis 25) e2); [by vm_compute|].
    destruct (IH (sm_sleep (from_millis 25) e2)) as (r & e' & Er & Hs & Ht).
    { unfold from_millis in *. lia. }
    exists r, e'. split_and!; [exact Er|congruence|unfold from_millis in *; lia].
Qed.

Lemma wait_ready_ends fuel deadline poll e :
  (0 < poll)%Z -> (deadline - sm_time e < Z.of_nat fuel * poll)%Z ->
  exists r e', wait_ready (S fuel) deadline poll e = Some (r, e') /\ starts e' = starts e /\
    (r = Ok tt -> exists e1, probe_ready e1 = (Ok tt, e')).
Proof.
  intros Hp. revert e. induction fuel as [|fuel IH]; intros e Hf; cbn [wait_ready];
    destruct (probe_ready e) as [[[]|x] e1] eqn:E1; destruct (probe_spec _ _ _ E1);
    [by eauto 10| |by eauto 10|];
    (destruct (service_unavailable x || _); [|by eexists _, _; split_and!]);
    destruct (sm_now e1) as [t e2] eqn:E2; destruct (sm_now_spec _ _ _ E2) as [? ?];
    (destruct (deadline <=? t)%Z eqn:G; bool_hyps;
      [by eexists _, _; split_and!; [done|congruence|]|]).
  - lia.
  - destruct (sm_sleep_spec poll e2); [lia|].
    destruct (IH (sm_sleep poll e2)) as (r & e' & Er & Hs & Ht); [lia|].
    exists r, e'. split_and!; [exact Er|congruence|done].
Qed.

(** C37 The command line starts the user service at most once, and always gets
    an answer.  A unit is started only after the readiness probe found the
    service unavailable, never beside a service that answers wrongly or hangs;
    with fuel for the polls of fifteen seconds the call returns, and it reports
    success exactly behind a successful probe. *)
Theorem service_started_at_most_once fuel e :
  202 <= fuel ->
  exists r e', ensure_user_service fuel e = Some (r, e') /\
    starts e <= starts e' <= S (starts e) /\
    (starts e' <> starts e ->
       exists e1, probe_ready e = (Err LocalClientError.Unavailable, e1)) /\
    (r = Ok tt -> exists e1, probe_ready e1 = (Ok tt, e')).
Proof.
  intros Hf. unfold ensure_user_service, ensure_user_service_with.
  destruct (probe_ready e) as [[[]|x] e1] eqn:E1; destruct (probe_spec _ _ _ E1) as [Hs1 _].
  { eexists _, _. split_and!; [done|lia..|done|eauto]. }
  destruct (negb (service_unavailable x)) eqn:G.
  { eexists _, _. split_and!; [done|lia..|done|done]. }
  unfold service_unavailable in G. bool_hyps. subst x. unfold start_user_unit_once.
  destruct (spawn_start e1) as [[[]|[]] e2] eqn:E2; destruct (spawn_spec _ _ _ E2) as [Hs2 _];
    [|by eexists _, _; split_and!; [done|lia..|eauto|]].
  destruct (sm_now e2) as [t e3] eqn:E3. destruct (sm_now_spec _ _ _ E3) as [Hs3 Ht3].
  destruct fuel as [|fuel]; [lia|].
  destruct (wait_start_ends fuel (t + SYSTEMCTL_TIMEOUT) e3) as (r4 & e4 & -> & Hs4 & Ht4).
  { unfold SYSTEMCTL_TIMEOUT, from_secs, from_millis. lia. }
  destruct r4 as [[]|]; [|by eexists _, _; split_and!; [done|lia..|eauto|]].
  destruct (sm_now e4) as [t5 e5] eqn:E5. destruct (sm_now_spec _ _ _ E5) as [Hs5 Ht5].
  destruct (wait_ready_ends fuel (t5 + SERVICE_READY_TIMEOUT) READY_POLL_INTERVAL e5)
    as (r6 & e6 & -> & Hs6 & Hok); [done|unfold SERVICE_READY_TIMEOUT, READY_POLL_INTERVAL, from_secs, from_millis; lia|].
  exists r6, e6. split_and!; [done|lia|lia|eauto|done].
Qed.
End Ensure.
