(* ===== verification/WebServer.v ===== *)
(** The single-threaded loopback server (rust/src/web_server.rs): options,
    binding, the framed read of one request per connection, the bounded write
    and the accept loop that owns the one actor. *)
From S2P Require Import Prelude Bytes Backend Model Controller Web Tcp.

Definition READ_CHUNK_BYTES : nat := 2048.
#[global] Arguments READ_CHUNK_BYTES : simpl never.

Record WebServerOptions := mkOptions {
  read_deadline : Z;
  write_deadline : Z;
  accept_poll_interval : Z;
}.

Definition MAX_IO_DEADLINE : Z := from_secs 30.
Definition MAX_ACCEPT_POLL : Z := from_millis 250.

Definition options_valid (o : WebServerOptions) : bool :=
  negb (read_deadline o =? 0)%Z && (read_deadline o <=? MAX_IO_DEADLINE)%Z
  && negb (write_deadline o =? 0)%Z && (write_deadline o <=? MAX_IO_DEADLINE)%Z
  && negb (accept_poll_interval o =? 0)%Z && (accept_poll_interval o <=? MAX_ACCEPT_POLL)%Z.

Definition default_options : WebServerOptions :=
  mkOptions (from_secs 3) (from_secs 2) (from_millis 20).

Module WebServerError.
Inductive t :=
| InvalidSecurityConfiguration (error : WebConfigError.t)
| InvalidOptions | RandomGenerationFailed | BindFailed | ListenerValidationFailed
| ListenerConfigurationFailed | AcceptFailed.
#[global] Instance eq_dec : EqDecision t. Proof. solve_decision. Defined.

Definition display (e : t) : bytes :=
  match e with
  | InvalidSecurityConfiguration _ => str "Web service security configuration is invalid"
  | InvalidOptions => str "Web service deadlines are invalid"
  | RandomGenerationFailed => str "Web service CSRF generation failed"
  | BindFailed => str "Web service loopback bind failed"
  | ListenerValidationFailed => str "Web service listener is not trusted loopback"
  | ListenerConfigurationFailed => str "Web service listener configuration failed"
  | AcceptFailed => str "Web service accept failed"
  end.
End WebServerError.

(** A socket address. *)
Definition Addr : Type := IpAddr.t * Z.

(** [IpAddr::is_loopback]. *)
Definition is_loopback (ip : IpAddr.t) : bool :=
  match ip with
  | IpAddr.V4 (first :: _) => (b2z first =? 127)%Z
  | IpAddr.V4 [] => false
  | IpAddr.V6 _ => bool_decide (ip = IpAddr.V6_LOCALHOST)
  end.

(** The listener, the accepted connection's addresses, the random generator and
    the shutdown flag that the signal handlers set. *)
Class WebListener (W : Type) := {
  shutdown_requested : W -> bool * W;
  accept : W -> result Addr IoErrorKind.t * W;
  thread_sleep : Z -> W -> W;
  stream_local_addr : W -> result Addr IoErrorKind.t * W;
  stream_peer_addr : W -> result Addr IoErrorKind.t * W;
  csrf_random : W -> result bytes unit * W;
  tcp_bind : Addr -> W -> result unit unit * W;
  listener_local_addr : W -> result Addr unit * W;
  listener_set_nonblocking : W -> result unit unit * W;
}.

Module ReadOutcome.
Inductive t := Complete (request : bytes) | Rejected (request : bytes) | Closed.
End ReadOutcome.

Record WebServer (A : Type) := mkWebServer {
  local_addr : Addr;
  app : WebApp A;
  options : WebServerOptions;
}.
Arguments mkWebServer {A}.
Arguments local_addr {A}.
Arguments app {A}.
Arguments options {A}.

(** [Instant::checked_add]: seconds in 63 bits. *)
Definition instant_max : Z := 9223372036854775807 * 1000000000 + 999999999.

Section Server.
Context {W : Type} `{TcpStream W} `{WebListener W}.

(** [Ok] and [Err] of a call, and the world it left. *)
Definition ignore {T E} (call : result T E * W) : W := snd call.

Definition has_queued_bytes (w : W) : bool * W :=
  match set_nonblocking true w with
  | (Err _, w) => (true, w)
  | (Ok _, w) =>
      let '(peeked, w) := tcp_peek 1 w in
      let queued :=
        match peeked with
        | Ok count => negb (count =? 0)%nat
        | Err IoErrorKind.WouldBlock => false
        | Err _ => true
        end in
      match set_nonblocking false w with
      | (Err _, w) => (true, w)
      | (Ok _, w) => (queued, w)
      end
  end.

(** The loop of [read_one_request], with fuel. *)
Fixpoint read_loop (fuel : nat) (request : bytes) (deadline stop_poll : Z) (w : W)
  : option (ReadOutcome.t * W) :=
  match fuel with
  | O => None
  | S fuel =>
      let '(stopped, w) := shutdown_requested w in
      if stopped : bool then Some (ReadOutcome.Closed, w)
      else
      match request_frame request with
      | RequestFrame.Complete =>
          let '(queued, w) := has_queued_bytes w in
          Some (if queued then ReadOutcome.Rejected (request ++ [z2b 0])
                else ReadOutcome.Complete request, w)
      | RequestFrame.Rejected => Some (ReadOutcome.Rejected request, w)
      | RequestFrame.Incomplete =>
          let '(now, w) := instant_now w in
          if (deadline <=? now)%Z then Some (ReadOutcome.Closed, w)
          else
          match set_read_timeout (Z.min (Z.max 0 (deadline - now)) stop_poll) w with
          | (Err _, w) => Some (ReadOutcome.Closed, w)
          | (Ok _, w) =>
              let remaining_capacity := MAX_REQUEST_BYTES + 1 - length request in
              if (remaining_capacity =? 0)%nat then Some (ReadOutcome.Rejected request, w)
              else
              match tcp_read (Nat.min remaining_capacity READ_CHUNK_BYTES) w with
              | (Ok [], w) => Some (ReadOutcome.Closed, w)
              | (Ok chunk, w) => read_loop fuel (request ++ chunk) deadline stop_poll w
              | (Err IoErrorKind.Interrupted, w) => read_loop fuel request deadline stop_poll w
              | (Err IoErrorKind.WouldBlock, w) | (Err IoErrorKind.TimedOut, w) =>
                  let '(now, w) := instant_now w in
                  if (deadline <=? now)%Z then Some (ReadOutcome.Closed, w)
                  else read_loop fuel request deadline stop_poll w
              | (Err IoErrorKind.Other, w) => Some (ReadOutcome.Closed, w)
              end
          end
      end
  end.

(** [now.checked_add(timeout)]. *)
Definition checked_deadline (timeout : Z) (w : W) : option Z * W :=
  let '(now, w) := instant_now w in (checked_add instant_max now timeout, w).

Definition read_one_request (fuel : nat) (timeout stop_poll : Z) (w : W)
  : option (ReadOutcome.t * W) :=
  match checked_deadline timeout w with
  | (None, w) => Some (ReadOutcome.Closed, w)
  | (Some deadline, w) => read_loop fuel [] deadline stop_poll w
  end.

(** The loop of [write_with_deadline], with fuel; its result is ignored. *)
Fixpoint write_loop (fuel : nat) (p : bytes) (deadline : Z) (w : W) : option W :=
  match p, fuel with
  | [], _ => Some w
  | _ :: _, O => None
  | _ :: _, S fuel =>
      let '(now, w) := instant_now w in
      if (deadline <=? now)%Z then Some w
      else
      match set_write_timeout (Z.max 0 (deadline - now)) w with
      | (Err _, w) => Some w
      | (Ok _, w) =>
          match tcp_write p w with
          | (Ok O, w) => Some w
          | (Ok count, w) => write_loop fuel (drop count p) deadline w
          | (Err IoErrorKind.Interrupted, w) => write_loop fuel p deadline w
          | (Err IoErrorKind.WouldBlock, w) | (Err IoErrorKind.TimedOut, w) =>
              let '(now, w) := instant_now w in
              if (deadline <=? now)%Z then Some w else write_loop fuel p deadline w
          | (Err IoErrorKind.Other, w) => Some w
          end
      end
  end.

Definition write_with_deadline (fuel : nat) (p : bytes) (timeout : Z) (w : W) : option W :=
  match checked_deadline timeout w with
  | (None, w) => Some w
  | (Some deadline, w) => write_loop fuel p deadline w
  end.

(** The check of the two ends of an accepted connection. *)
Definition addresses_are_trusted (local_addr accepted_peer : Addr) (w : W) : bool * W :=
  let '(local, w) := stream_local_addr w in
  let '(peer, w) := stream_peer_addr w in
  (match result_ok local, result_ok peer with
   | Some local, Some peer =>
       bool_decide (local = local_addr) && is_loopback (fst local)
       && bool_decide (peer = accepted_peer) && is_loopback (fst peer)
   | _, _ => false
   end, w).

Context `{WebLibrary} {A : Type} `{WebActor A}.
#[local] Abbreviation server := (WebServer A).

Definition with_app (app : WebApp A) (s : server) : server :=
  mkWebServer (local_addr s) app (options s).

Definition respond (fuel : nat) (request : bytes) (s : server) (w : W) : option (server * W) :=
  let '(response, app) := handle request (app s) in
  w ← write_with_deadline fuel (to_http1_bytes response) (write_deadline (options s)) w;
  Some (with_app app s, w).

Definition handle_connection (fuel : nat) (accepted_peer : Addr) (s : server) (w : W)
  : option (server * W) :=
  match set_nonblocking false w with
  | (Err _, w) => Some (s, shutdown_both w)
  | (Ok _, w) =>
      let '(trusted, w) := addresses_are_trusted (local_addr s) accepted_peer w in
      if negb trusted then Some (s, shutdown_both w)
      else
      '(outcome, w) ← read_one_request fuel (read_deadline (options s))
                        (accept_poll_interval (options s)) w;
      '(s, w) ←
        match outcome with
        | ReadOutcome.Complete request | ReadOutcome.Rejected request => respond fuel request s w
        | ReadOutcome.Closed => Some (s, w)
        end;
      Some (s, shutdown_both w)
  end.

(** [serve], with fuel for the accepts and for each connection: the actor, or
    the listener's error together with the actor. *)
Fixpoint serve (fuel : nat) (s : server) (w : W)
  : option (result A (WebServerError.t * A) * W) :=
  match fuel with
  | O => None
  | S fuel =>
      let '(stopped, w) := shutdown_requested w in
      if stopped : bool then Some (Ok (actor (app s)), w)
      else
      match accept w with
      | (Ok accepted_peer, w) =>
          '(s, w) ← handle_connection fuel accepted_peer s w; serve fuel s w
      | (Err IoErrorKind.WouldBlock, w) =>
          serve fuel s (thread_sleep (accept_poll_interval (options s)) w)
      | (Err IoErrorKind.Interrupted, w) => serve fuel s w
      | (Err _, w) => Some (Err (WebServerError.AcceptFailed, actor (app s)), w)
      end
  end.

Definition bind_with_options (a : A) (bind_addr : Addr) (o : WebServerOptions) (w : W)
  : result server WebServerError.t * W :=
  if negb (options_valid o) then (Err WebServerError.InvalidOptions, w)
  else
  match csrf_random w with
  | (Err _, w) => (Err WebServerError.RandomGenerationFailed, w)
  | (Ok csrf, w) =>
  match web_security_new (fst bind_addr) (snd bind_addr) csrf with
  | Err error => (Err (WebServerError.InvalidSecurityConfiguration error), w)
  | Ok security =>
  let validated := (bind_ip security, bind_port security) in
  match tcp_bind validated w with
  | (Err _, w) => (Err WebServerError.BindFailed, w)
  | (Ok _, w) =>
  match listener_local_addr w with
  | (Err _, w) => (Err WebServerError.ListenerValidationFailed, w)
  | (Ok local_addr, w) =>
  if negb (bool_decide (local_addr = validated)) || negb (is_loopback (fst local_addr))
  then (Err WebServerError.ListenerValidationFailed, w)
  else
  match listener_set_nonblocking w with
  | (Err _, w) => (Err WebServerError.ListenerConfigurationFailed, w)
  | (Ok _, w) => (Ok (mkWebServer local_addr (mkWebApp a security) o), w)
  end end end end end.

Definition bind (a : A) (bind_addr : Addr) (w : W) : result server WebServerError.t * W :=
  bind_with_options a bind_addr default_options w.
End Server.
