(* ===== verification/WebServerSpec.v ===== *)
(** What the server lets through to its actor: one complete request per
    connection, exactly the bytes it received, and nothing else. *)
From stdpp Require Import relations.
From S2P Require Import Prelude Bytes Backend Model Controller Web WebSpec Tcp WebServer.

(** The bytes received so far, connection by connection: an accepted connection
    starts with none, and only a read of it adds to them. *)
Class WebListenerLaws (W : Type) `{TcpStream W, WebListener W} := {
  connections : W -> list bytes;
  accept_connections w a w' : accept w = (Ok a, w') -> connections w' = connections w ++ [[]];
  accept_failed_connections w e w' : accept w = (Err e, w') -> connections w' = connections w;
  read_connections n w p w' old last :
    tcp_read n w = (Ok p, w') -> connections w = old ++ [last] ->
    connections w' = old ++ [last ++ p];
  read_failed_connections n w e w' :
    tcp_read n w = (Err e, w') -> connections w' = connections w;
  instant_now_connections w t w' : instant_now w = (t, w') -> connections w' = connections w;
  flag_connections w b w' : shutdown_requested w = (b, w') -> connections w' = connections w;
  read_timeout_connections t w r w' :
    set_read_timeout t w = (r, w') -> connections w' = connections w;
  write_timeout_connections t w r w' :
    set_write_timeout t w = (r, w') -> connections w' = connections w;
  write_connections p w r w' : tcp_write p w = (r, w') -> connections w' = connections w;
  nonblocking_connections b w r w' :
    set_nonblocking b w = (r, w') -> connections w' = connections w;
  peek_connections n w r w' : tcp_peek n w = (r, w') -> connections w' = connections w;
  shutdown_connections w : connections (shutdown_both w) = connections w;
  sleep_connections d w : connections (thread_sleep d w) = connections w;
  local_addr_connections w r w' : stream_local_addr w = (r, w') -> connections w' = connections w;
  peer_addr_connections w r w' : stream_peer_addr w = (r, w') -> connections w' = connections w;
}.

Section Spec.
Context {W : Type} `{WebListenerLaws W}.

(** What was read of the last connection: a complete request is exactly its
    bytes, and whatever is refused cannot be parsed as a request. *)
Definition read_result (o : ReadOutcome.t) (last : bytes) : Prop :=
  match o with
  | ReadOutcome.Complete request =>
      request = last /\ request_frame request = RequestFrame.Complete
  | ReadOutcome.Rejected request => forall r, parse_request request <> Ok r
  | ReadOutcome.Closed => True
  end.

Lemma parse_ok_complete raw req :
  parse_request raw = Ok req -> request_frame raw = RequestFrame.Complete.
Proof. intros (?&?&?&?&?&E)%parse_request_accepted. by eapply accepted_request_complete. Qed.

Lemma complete_extended_refused raw extra req :
  extra <> [] -> request_frame raw = RequestFrame.Complete -> parse_request (raw ++ extra) <> Ok req.
Proof.
  intros Hx Hc Hp%parse_ok_complete. apply complete_prefix_incomplete in Hp; [congruence|done].
Qed.

Lemma has_queued_connections w b w' : has_queued_bytes w = (b, w') -> connections w' = connections w.
Proof.
  unfold has_queued_bytes. destruct (set_nonblocking true w) as [[[]|e] w1] eqn:E1;
    apply nonblocking_connections in E1; [|intros [= _ <-]; done].
  destruct (tcp_peek 1 w1) as [p w2] eqn:E2. apply peek_connections in E2.
  destruct (set_nonblocking false w2) as [[[]|e] w3] eqn:E3; apply nonblocking_connections in E3;
    intros [= _ <-]; congruence.
Qed.

Lemma read_loop_spec fuel request deadline stop_poll w o w' old :
  read_loop fuel request deadline stop_poll w = Some (o, w') -> connections w = old ++ [request] ->
  exists last, connections w' = old ++ [last] /\ read_result o last.
Proof.
  revert request w. induction fuel as [|fuel IH]; intros request w E Hr; [done|].
  cbn [read_loop] in E. destruct (shutdown_requested w) as [stopped w1] eqn:E1.
  apply flag_connections in E1.
  assert (Hclosed : forall w2, connections w2 = connections w ->
    exists last, connections w2 = old ++ [last] /\ read_result ReadOutcome.Closed last).
  { intros w2 E2. exists request. by rewrite E2. }
  destruct stopped; [simplify_eq; by apply Hclosed|]. destruct (request_frame request) eqn:Ef.
  - destruct (instant_now w1) as [t w2] eqn:E2. apply instant_now_connections in E2.
    destruct (deadline <=? t)%Z; [simplify_eq; apply Hclosed; congruence|].
    destruct (set_read_timeout _ w2) as [[[]|e] w3] eqn:E3; apply read_timeout_connections in E3;
      [|simplify_eq; apply Hclosed; congruence].
    destruct (_ =? 0)%nat.
    { simplify_eq. exists request. split; [congruence|]. intros r Hp%parse_ok_complete. congruence. }
    destruct (tcp_read _ w3) as [[chunk|k] w4] eqn:E4.
    + eapply read_connections in E4; [|by rewrite E3, E2, E1].
      destruct chunk; [|by eapply IH]. simplify_eq. by exists (request ++ []).
    + apply read_failed_connections in E4. assert (connections w4 = connections w) as H4 by congruence.
      destruct k; try (simplify_eq; by apply Hclosed);
        try (eapply IH; [exact E|congruence]);
        (destruct (instant_now w4) as [t5 w5] eqn:E5; apply instant_now_connections in E5;
         destruct (deadline <=? t5)%Z;
         [simplify_eq; apply Hclosed; congruence|eapply IH; [exact E|congruence]]).
  - destruct (has_queued_bytes w1) as [q w2] eqn:E2. apply has_queued_connections in E2.
    exists request. destruct q; simplify_eq; (split; [congruence|]); [|done].
    intros r. by apply complete_extended_refused.
  - simplify_eq. exists request. split; [congruence|]. intros r Hp%parse_ok_complete. congruence.
Qed.

Lemma write_loop_connections fuel p deadline w w' :
  write_loop fuel p deadline w = Some w' -> connections w' = connections w.
Proof.
  revert p w. induction fuel as [|fuel IH]; intros p w E; destruct p as [|c p];
    try (by simplify_eq/=). cbn [write_loop] in E.
  destruct (instant_now w) as [t w1] eqn:E1. apply instant_now_connections in E1.
  destruct (deadline <=? t)%Z; [by simplify_eq|].
  destruct (set_write_timeout _ w1) as [[[]|e] w2] eqn:E2; apply write_timeout_connections in E2;
    [|simplify_eq; congruence].
  destruct (tcp_write _ w2) as [[[|n]|k] w3] eqn:E3; apply write_connections in E3.
  - simplify_eq; congruence.
  - apply IH in E. congruence.
  - destruct k; try (simplify_eq; congruence); try (apply IH in E; congruence);
      (destruct (instant_now w3) as [t4 w4] eqn:E4; apply instant_now_connections in E4;
       destruct (deadline <=? t4)%Z; [simplify_eq; congruence|apply IH in E; congruence]).
Qed.

Context `{WebLibraryLaws} {A : Type} `{WebActor A}.
#[local] Abbreviation server := (WebServer A).

(** The application after it handled [requests] one after the other. *)
Definition handled_all (requests : list bytes) (a : WebApp A) : WebApp A :=
  fold_left (fun a raw => snd (handle raw a)) requests a.

Lemma handled_all_security requests (a : WebApp A) : security (handled_all requests a) = security a.
Proof.
  revert a. induction requests as [|raw requests IH]; intros a; [done|]. simpl. rewrite IH.
  destruct (handle raw a) as [resp a1] eqn:E. by apply handle_dispatched in E as [? _].
Qed.

Lemma handle_refused raw (a : WebApp A) :
  (forall r, parse_request raw <> Ok r) -> snd (handle raw a) = a.
Proof. unfold handle. destruct (parse_request raw) as [r|e]; [|done]. intros Hp. by destruct (Hp r). Qed.

Lemma respond_spec fuel raw (s s' : server) w w' :
  respond fuel raw s w = Some (s', w') ->
  s' = with_app (snd (handle raw (app s))) s /\ connections w' = connections w.
Proof.
  unfold respond, write_with_deadline, checked_deadline.
  destruct (handle raw (app s)) as [resp a]. cbn [snd].
  destruct (instant_now w) as [t w1] eqn:E1. apply instant_now_connections in E1.
  destruct (checked_add _ _ _) as [deadline|]; simpl; [|intros [= <- <-]; done].
  destruct (write_loop _ _ _ _) as [w2|] eqn:E2; [|done]. simpl.
  apply write_loop_connections in E2. intros [= <- <-]. split; [done|congruence].
Qed.

(** One connection: its bytes, and the request that was handled, if any. *)
Definition one_connection (a : WebApp A) (raw : bytes) (a' : WebApp A) : Prop :=
  exists requests, requests `sublist_of` [raw] /\
    Forall (fun raw => request_frame raw = RequestFrame.Complete) requests /\
    a' = handled_all requests a.

Lemma handle_connection_spec fuel peer (s s' : server) w w' old :
  handle_connection fuel peer s w = Some (s', w') -> connections w = old ++ [[]] ->
  exists raw a, s' = with_app a s /\ connections w' = old ++ [raw] /\ one_connection (app s) raw a.
Proof.
  unfold handle_connection. intros E Hr.
  assert (Hstay : forall w1 last, connections w1 = old ++ [last] ->
    exists raw a, s = with_app a s /\ connections (shutdown_both w1) = old ++ [raw] /\
      one_connection (app s) raw a).
  { intros w1 last E1. exists last, (app s). split_and!; [by destruct s|by rewrite shutdown_connections|].
    exists []. split_and!; [apply sublist_nil_l|done|done]. }
  destruct (set_nonblocking false w) as [[[]|e] w1] eqn:E1; apply nonblocking_connections in E1;
    [|simplify_eq; eapply Hstay; by rewrite E1].
  unfold addresses_are_trusted in E.
  destruct (stream_local_addr w1) as [l w2] eqn:E2. apply local_addr_connections in E2.
  destruct (stream_peer_addr w2) as [p w3] eqn:E3. apply peer_addr_connections in E3.
  destruct (negb _); [simplify_eq; eapply Hstay; by rewrite E3, E2, E1|].
  destruct (read_one_request fuel _ _ w3) as [[o w4]|] eqn:E4; [|done]. simpl in E.
  assert (exists last, connections w4 = old ++ [last] /\ read_result o last) as (last & Hread & Ho).
  { unfold read_one_request, checked_deadline in E4.
    destruct (instant_now w3) as [t w5] eqn:E5. apply instant_now_connections in E5.
    destruct (checked_add _ _ _); [|simplify_eq; exists []; split; [congruence|done]].
    eapply read_loop_spec; [exact E4|congruence]. }
  destruct o as [raw|raw|]; simpl in E; [| |simplify_eq; by eapply Hstay].
  all: destruct (respond fuel raw s w4) as [[s5 w5]|] eqn:E5; [|done]; simpl in E; simplify_eq;
    apply respond_spec in E5 as [-> Hw5]; exists last; eexists; split; [done|];
    (split; [by rewrite shutdown_connections, Hw5|]).
  - destruct Ho as [-> Hc]. exists [last]. split_and!; [done|by repeat constructor|done].
  - exists []. split_and!; [apply sublist_nil_l|done|by apply handle_refused].
Qed.

(** Only complete requests reach the application.  Over any number of
    connections, and whatever the peers send or however their bytes are split,
    the application that is handed back is the one that handled, in order and
    once each, some of the connections' bytes: only ones that are, as they were
    received, one complete request with nothing behind it.  The actor is handed
    back also when the listener fails, and the security inputs never change. *)
Theorem server_runs_complete_requests fuel (s : server) w r w' :
  serve fuel s w = Some (r, w') ->
  exists opened requests,
    connections w' = connections w ++ opened /\ requests `sublist_of` opened /\
    Forall (fun raw => request_frame raw = RequestFrame.Complete) requests /\
    let a := handled_all requests (app s) in
    (r = Ok (actor a) \/ r = Err (WebServerError.AcceptFailed, actor a)) /\
    security a = security (app s).
Proof.
  revert s w. induction fuel as [|fuel IH]; intros s w E; [done|]. cbn [serve] in E.
  destruct (shutdown_requested w) as [stopped w1] eqn:E1. apply flag_connections in E1.
  assert (Hnone : forall w2, connections w2 = connections w ->
    connections w2 = connections w ++ [] /\ [] `sublist_of` ([] : list bytes) /\
    Forall (fun raw => request_frame raw = RequestFrame.Complete) []).
  { intros w2 E2. by rewrite app_nil_r. }
  destruct stopped; [simplify_eq; exists [], []; destruct (Hnone w' E1) as (?&?&?); cbv zeta; by split_and!; auto|].
  destruct (accept w1) as [[peer|k] w2] eqn:E2.
  - apply accept_connections in E2. rewrite E1 in E2.
    destruct (handle_connection fuel peer s w2) as [[s3 w3]|] eqn:E3; [|done]. simpl in E.
    destruct (handle_connection_spec _ _ _ _ _ _ _ E3 E2) as (raw & a & -> & Hw3 & rs & Hs & Hf & ->).
    destruct (IH _ _ E) as (opened & requests & Hc & Hs' & Hf' & Hr & Hsec).
    exists (raw :: opened), (rs ++ requests). cbn [app with_app] in *. unfold handled_all in *.
    rewrite fold_left_app. cbv zeta. split_and!; [by rewrite Hc, Hw3, <- app_assoc| | | |].
    + by apply (sublist_app rs [raw]).
    + by apply Forall_app.
    + done.
    + rewrite Hsec. apply (handled_all_security rs).
  - apply accept_failed_connections in E2.
    assert (Hlater : forall w3, connections w3 = connections w2 -> serve fuel s w3 = Some (r, w') ->
      exists opened requests, connections w' = connections w ++ opened /\
        requests `sublist_of` opened /\
        Forall (fun raw => request_frame raw = RequestFrame.Complete) requests /\
        let a := handled_all requests (app s) in
        (r = Ok (actor a) \/ r = Err (WebServerError.AcceptFailed, actor a)) /\
        security a = security (app s)).
    { intros w3 E3 E4. destruct (IH _ _ E4) as (o & q & Hc & Hrest).
      exists o, q. split; [by rewrite Hc, E3, E2, E1|done]. }
    assert (connections w2 = connections w) as Hw2 by congruence.
    destruct k; simplify_eq.
    + exists [], []. destruct (Hnone _ Hw2) as (?&?&?). cbv zeta. by split_and!; auto.
    + eapply Hlater; [apply sleep_connections|done].
    + apply (Hlater w2); done.
    + exists [], []. destruct (Hnone _ Hw2) as (?&?&?). cbv zeta. by split_and!; auto.
Qed.
End Spec.
