(* ===== verification/ServerLoop.v ===== *)
(** The accept loop as a sequence of calls of the listener, whichever they are,
    and that it ends: every loop of the server polls the shutdown flag, except
    the bounded write, which ends by its deadline. *)
From stdpp Require Import relations.
From S2P Require Import Prelude Bytes Backend Model Controller Web Tcp WebServer.

(** * Runs with fuel *)

(** From some fuel on, the result is [x]. *)
Definition settles {T} (run : nat -> option T) (x : T) : Prop :=
  exists enough, forall fuel, enough <= fuel -> run fuel = Some x.
Definition ends {T} (run : nat -> option T) : Prop := exists x, settles run x.

Section Ends.
Context {T U : Type}.

Lemma ends_value (run : nat -> option T) x : (forall fuel, run fuel = Some x) -> ends run.
Proof. intros E. exists x, 0. auto. Qed.

Lemma ends_turn (run next : nat -> option T) : (forall fuel, run (S fuel) = next fuel) -> ends next -> ends run.
Proof.
  intros E (x & k & Hk). exists x, (S k). intros [|fuel] Hf; [lia|]. rewrite E. apply Hk. lia.
Qed.

Lemma ends_same (run next : nat -> option T) : (forall fuel, run fuel = next fuel) -> ends next -> ends run.
Proof. intros E (x & k & Hk). exists x, k. intros fuel Hf. rewrite E. auto. Qed.

Lemma ends_bind (first : nat -> option T) (next : T -> nat -> option U) :
  ends first -> (forall x, settles first x -> ends (next x)) ->
  ends (fun fuel => x ← first fuel; next x fuel).
Proof.
  intros (x & k & Hk) Hn. destruct (Hn x) as (y & l & Hl); [by exists k|].
  exists y, (k + l). intros fuel Hf. rewrite Hk by lia. apply Hl. lia.
Qed.

Lemma settles_some (run : nat -> option T) x : settles run x -> exists fuel, run fuel = Some x.
Proof. intros (k & Hk). exists k. auto. Qed.
End Ends.

(** * The calls of the loop *)

Inductive server_call {W} `{TcpStream W, WebListener W} (w w' : W) : Prop :=
| call_poll b : shutdown_requested w = (b, w') -> server_call w w'
| call_accept r : accept w = (r, w') -> server_call w w'
| call_sleep d : w' = thread_sleep d w -> server_call w w'
| call_local r : stream_local_addr w = (r, w') -> server_call w w'
| call_peer r : stream_peer_addr w = (r, w') -> server_call w w'
| call_now t : instant_now w = (t, w') -> server_call w w'
| call_read_timeout t r : set_read_timeout t w = (r, w') -> server_call w w'
| call_write_timeout t r : set_write_timeout t w = (r, w') -> server_call w w'
| call_read n r : tcp_read n w = (r, w') -> server_call w w'
| call_write p r : tcp_write p w = (r, w') -> server_call w w'
| call_nonblocking b r : set_nonblocking b w = (r, w') -> server_call w w'
| call_peek n r : tcp_peek n w = (r, w') -> server_call w w'
| call_shutdown : w' = shutdown_both w -> server_call w w'.
Create HintDb server_call.
#[export] Hint Constructors server_call : server_call.

(** Takes the calls of the function under a match off, one after the other. *)
Ltac server_calls :=
  repeat match goal with
  | E : ?call = (_, ?w1) |- rtc server_call ?w ?w2 =>
      match call with context [w] => eapply (rtc_l _ w w1 w2); [by eauto with server_call|]; clear E end
  end; try done; try (apply rtc_once; by eauto with server_call).

Section Calls.
Context {W : Type} `{TcpStream W} `{WebListener W}.

Lemma has_queued_calls (w w' : W) b : has_queued_bytes w = (b, w') -> rtc server_call w w'.
Proof. unfold has_queued_bytes. intros Hq. split_cases_in Hq; simplify_eq; server_calls. Qed.

Lemma read_loop_calls fuel request deadline stop_poll (w w' : W) o :
  read_loop fuel request deadline stop_poll w = Some (o, w') -> rtc server_call w w'.
Proof.
  revert request w. induction fuel as [|fuel IH]; intros request w Hl; [done|]. cbn [read_loop] in Hl.
  destruct (shutdown_requested w) as [[] w1] eqn:E1; [simplify_eq; server_calls|].
  destruct (request_frame request).
  - destruct (instant_now w1) as [t w2] eqn:E2.
    destruct (_ <=? t)%Z; [simplify_eq; server_calls|].
    destruct (set_read_timeout _ w2) as [[[]|e] w3] eqn:E3; [|simplify_eq; server_calls].
    destruct (_ =? 0)%nat; [simplify_eq; server_calls|].
    destruct (tcp_read _ w3) as [[[|c chunk]|[]] w4] eqn:E4; try (simplify_eq; server_calls);
      try (apply IH in Hl; server_calls);
      (destruct (instant_now w4) as [t5 w5] eqn:E5;
       destruct (_ <=? t5)%Z; [simplify_eq; server_calls|apply IH in Hl; server_calls]).
  - destruct (has_queued_bytes w1) as [q w2] eqn:E2. apply has_queued_calls in E2.
    simplify_eq. server_calls.
  - simplify_eq. server_calls.
Qed.

Lemma write_loop_calls fuel p deadline (w w' : W) :
  write_loop fuel p deadline w = Some w' -> rtc server_call w w'.
Proof.
  revert p w. induction fuel as [|fuel IH]; intros p w Hl; destruct p as [|c p];
    try (by simplify_eq/=). cbn [write_loop] in Hl.
  destruct (instant_now w) as [t w1] eqn:E1. destruct (_ <=? t)%Z; [simplify_eq; server_calls|].
  destruct (set_write_timeout _ w1) as [[[]|e] w2] eqn:E2; [|simplify_eq; server_calls].
  destruct (tcp_write _ w2) as [[[|n]|[]] w3] eqn:E3; try (simplify_eq; server_calls);
    try (apply IH in Hl; server_calls);
    (destruct (instant_now w3) as [t4 w4] eqn:E4;
     destruct (_ <=? t4)%Z; [simplify_eq; server_calls|apply IH in Hl; server_calls]).
Qed.

Context `{WebLibrary} {A : Type} `{WebActor A}.
#[local] Abbreviation server := (WebServer A).

Lemma respond_calls fuel raw (s s' : server) (w w' : W) :
  respond fuel raw s w = Some (s', w') -> rtc server_call w w'.
Proof.
  unfold respond, write_with_deadline, checked_deadline. destruct (handle raw (app s)) as [resp a].
  destruct (instant_now w) as [t w1] eqn:E1.
  destruct (checked_add _ _ _) as [deadline|]; simpl; [|intros [= _ <-]; server_calls].
  destruct (write_loop _ _ _ _) as [w2|] eqn:E2; [|done]. apply write_loop_calls in E2.
  intros [= _ <-]. server_calls.
Qed.

Lemma handle_connection_calls fuel peer (s s' : server) (w w' : W) :
  handle_connection fuel peer s w = Some (s', w') -> rtc server_call w w'.
Proof.
  unfold handle_connection, addresses_are_trusted, read_one_request, checked_deadline. intros Hc.
  assert (Hlast : forall w1 w2 : W, rtc server_call w1 w2 -> rtc server_call w1 (shutdown_both w2)).
  { intros w1 w2 Hw. eapply rtc_r; [exact Hw|by eauto with server_call]. }
  destruct (set_nonblocking false w) as [[[]|e] w1] eqn:E1;
    [|simplify_eq; apply Hlast; server_calls].
  destruct (stream_local_addr w1) as [l w2] eqn:E2. destruct (stream_peer_addr w2) as [p w3] eqn:E3.
  destruct (negb _); [simplify_eq; apply Hlast; server_calls|].
  destruct (instant_now w3) as [t w4] eqn:E4.
  destruct (checked_add _ _ _) as [deadline|]; simpl in Hc;
    [|simplify_eq; apply Hlast; server_calls].
  destruct (read_loop _ _ _ _ w4) as [[o w5]|] eqn:E5; [|done]. simpl in Hc.
  apply read_loop_calls in E5.
  destruct o as [raw|raw|]; simpl in Hc; [..|simplify_eq; apply Hlast; server_calls].
  all: destruct (respond fuel raw s w5) as [[s6 w6]|] eqn:E6; [|done]; simpl in Hc; simplify_eq;
    apply respond_calls in E6; apply Hlast; server_calls; by etrans.
Qed.

(** The loop ends by the flag, or by a failed accept. *)
Lemma serve_calls fuel (s : server) (w w' : W) r :
  serve fuel s w = Some (r, w') ->
  exists w1, rtc server_call w w1 /\
    match r with
    | Ok _ => shutdown_requested w1 = (true, w')
    | Err (e, _) => e = WebServerError.AcceptFailed /\ w1 = w'
    end.
Proof.
  revert s w. induction fuel as [|fuel IH]; intros s w Hs; [done|]. cbn [serve] in Hs.
  destruct (shutdown_requested w) as [[] w1] eqn:E1; [by simplify_eq; exists w|].
  destruct (accept w1) as [[peer|k] w2] eqn:E2.
  - destruct (handle_connection fuel peer s w2) as [[s3 w3]|] eqn:E3; [|done]. simpl in Hs.
    apply handle_connection_calls in E3. destruct (IH _ _ Hs) as (w4 & Hw & Hr).
    exists w4. split; [server_calls; by etrans|done].
  - destruct k; try (simplify_eq; exists w'; split; [server_calls|done]).
    + destruct (IH _ _ Hs) as (w4 & Hw & Hr). exists w4. split; [server_calls|done].
      eapply rtc_l; [by eapply call_sleep|done].
    + destruct (IH _ _ Hs) as (w4 & Hw & Hr). exists w4. split; [server_calls|done].
Qed.
End Calls.

(** * The loop ends *)

(** The clock does not go back, and a write that waited until its timeout took
    time. *)
Class TcpClockLaws (W : Type) `{TcpStream W} := {
  clock : W -> Z;
  now_clock w t w' : instant_now w = (t, w') -> (clock w <= t <= clock w')%Z;
  write_timeout_clock t w r w' : set_write_timeout t w = (r, w') -> (clock w <= clock w')%Z;
  write_clock p w r w' : tcp_write p w = (r, w') -> (clock w <= clock w')%Z;
  write_blocked_clock p w e w' :
    tcp_write p w = (Err e, w') -> e = IoErrorKind.WouldBlock \/ e = IoErrorKind.TimedOut ->
    (clock w < clock w')%Z;
}.

(** When a request to stop is awaited, only so many polls of the flag find it
    clear. *)
Class StopRequested (W : Type) `{TcpStream W, WebListener W} := {
  awaited : W -> Prop;
  polls : W -> nat;
  call_polls w w' : server_call w w' -> awaited w -> awaited w' /\ polls w' <= polls w;
  clear_polls w w' : shutdown_requested w = (false, w') -> awaited w -> polls w' < polls w;
}.

Section Progress.
Context {W : Type} `{!TcpStream W, !TcpStreamLaws W, !TcpClockLaws W, !WebListener W, !StopRequested W}.

Lemma calls_polls (w w' : W) :
  rtc server_call w w' -> awaited w -> awaited w' /\ polls w' <= polls w.
Proof.
  induction 1 as [|w w1 w2 E _ IH]; intros Hw; [done|].
  destruct (call_polls _ _ E Hw) as [Ha Hp1]. destruct (IH Ha) as [Hb Hp2]. split; [done|lia].
Qed.

Lemma clear_poll (w w' : W) :
  shutdown_requested w = (false, w') -> awaited w -> awaited w' /\ polls w' < polls w.
Proof.
  intros E Hw. split; [|by eapply clear_polls].
  by eapply call_polls; [eapply call_poll|].
Qed.

(** What is left of the turns of the bounded write. *)
Definition write_turns (p : bytes) (deadline : Z) (w : W) : nat :=
  length p + interruptions w + Z.to_nat (deadline - clock w).

(** One turn of a loop that is a fixpoint on its fuel. *)
Tactic Notation "one_turn" reference(loop) :=
  eapply ends_turn; [intros ?; cbn [loop]; reflexivity|]; cbv beta.

Lemma write_loop_ends p deadline (w : W) : ends (fun fuel => write_loop fuel p deadline w).
Proof.
  remember (S (write_turns p deadline w)) as n eqn:Hn.
  assert (write_turns p deadline w < n) as Hlt by lia. clear Hn. unfold write_turns in Hlt.
  revert p w Hlt. induction n as [|n IH]; intros p w Hlt; [lia|].
  destruct p as [|c p]; [apply (ends_value _ w); by intros [|?]|]. one_turn write_loop.
  destruct (instant_now w) as [t w1] eqn:E1.
  pose proof (now_clock _ _ _ E1). pose proof (instant_now_calm _ _ _ E1).
  destruct (deadline <=? t)%Z eqn:Ed; [by eapply ends_value|]. bool_hyps.
  destruct (set_write_timeout _ w1) as [[[]|e] w2] eqn:E2; [|by eapply ends_value].
  pose proof (write_timeout_clock _ _ _ _ E2). pose proof (set_write_timeout_calm _ _ _ _ E2).
  destruct (tcp_write (c :: p) w2) as [[[|k]|e] w3] eqn:E3;
    pose proof (write_clock _ _ _ _ E3); pose proof (write_calm _ _ _ _ E3);
    [by eapply ends_value| |].
  - pose proof (write_fits _ _ _ _ E3). apply IH. rewrite length_drop. cbn [length] in *. lia.
  - pose proof (write_blocked_clock _ _ _ _ E3) as Hb.
    assert (forall w4, interruptions w4 <= interruptions w3 -> (clock w3 <= clock w4)%Z ->
      e = IoErrorKind.WouldBlock \/ e = IoErrorKind.TimedOut ->
      ends (fun fuel => write_loop fuel (c :: p) deadline w4)) as Hwait
      by (intros w4 ?? He; specialize (Hb He); apply IH; lia).
    destruct e; try (by eapply ends_value);
      try (destruct (instant_now w3) as [t4 w4] eqn:E4; destruct (_ <=? t4)%Z; [by eapply ends_value|];
           pose proof (now_clock _ _ _ E4); pose proof (instant_now_calm _ _ _ E4);
           apply Hwait; auto; lia).
    apply write_interrupted in E3. apply IH. lia.
Qed.

(** The read polls the flag in every turn. *)
Lemma read_loop_ends request deadline stop_poll (w : W) :
  awaited w -> ends (fun fuel => read_loop fuel request deadline stop_poll w).
Proof.
  remember (S (polls w)) as n eqn:Hn. assert (polls w < n) as Hlt by lia. clear Hn.
  revert request w Hlt. induction n as [|n IH]; intros request w Hlt Hw; [lia|].
  one_turn read_loop. destruct (shutdown_requested w) as [[] w1] eqn:E1; [by eapply ends_value|].
  apply clear_poll in E1 as [Hw1 Hp1]; [|done].
  destruct (request_frame request); [|destruct (has_queued_bytes w1); by eapply ends_value
    |by eapply ends_value].
  destruct (instant_now w1) as [t w2] eqn:E2. destruct (_ <=? t)%Z; [by eapply ends_value|].
  destruct (set_read_timeout _ w2) as [[[]|e] w3] eqn:E3; [|by eapply ends_value].
  destruct (_ =? 0)%nat; [by eapply ends_value|].
  destruct (tcp_read _ w3) as [r w4] eqn:E4.
  destruct (calls_polls w1 w4) as [Hw4 Hp4]; [server_calls|done|].
  destruct r as [[|c chunk]|[]]; try (by eapply ends_value); try (apply IH; [lia|done]);
    (destruct (instant_now w4) as [t5 w5] eqn:E5; destruct (_ <=? t5)%Z; [by eapply ends_value|];
     destruct (calls_polls w4 w5) as [Hw5 Hp5]; [server_calls|done|apply IH; [lia|done]]).
Qed.

Context `{WebLibrary} {A : Type} `{WebActor A}.
#[local] Abbreviation server := (WebServer A).

Lemma respond_ends raw (s : server) (w : W) : ends (fun fuel => respond fuel raw s w).
Proof.
  unfold respond, write_with_deadline, checked_deadline. destruct (handle raw (app s)) as [resp a].
  destruct (instant_now w) as [t w1]. apply ends_bind; [|intros; by eapply ends_value].
  destruct (checked_add _ _ _); [apply write_loop_ends|by eapply ends_value].
Qed.

Lemma handle_connection_ends peer (s : server) (w : W) :
  awaited w -> ends (fun fuel => handle_connection fuel peer s w).
Proof.
  unfold handle_connection, addresses_are_trusted, read_one_request, checked_deadline. intros Hw.
  destruct (set_nonblocking false w) as [[[]|e] w1] eqn:E1; [|by eapply ends_value].
  destruct (stream_local_addr w1) as [l w2] eqn:E2. destruct (stream_peer_addr w2) as [p w3] eqn:E3.
  destruct (negb _); [by eapply ends_value|]. apply (ends_bind (T := ReadOutcome.t * W)).
  - destruct (instant_now w3) as [t w4] eqn:E4.
    destruct (checked_add _ _ _); [|by eapply ends_value].
    apply read_loop_ends. apply (calls_polls w w4); [server_calls|done].
  - intros [o w4] _. apply (ends_bind (T := server * W)); [|intros [??] _; by eapply ends_value].
    destruct o; [apply respond_ends..|by eapply ends_value].
Qed.

(** When the service is asked to stop, the accept loop comes back: no peer can
    hold it, whatever it sends and however slowly it reads. *)
Lemma serve_ends (s : server) (w : W) : awaited w -> ends (fun fuel => serve fuel s w).
Proof.
  remember (S (polls w)) as n eqn:Hn. assert (polls w < n) as Hlt by lia. clear Hn.
  revert s w Hlt. induction n as [|n IH]; intros s w Hlt Hw; [lia|].
  one_turn serve. destruct (shutdown_requested w) as [[] w1] eqn:E1; [by eapply ends_value|].
  apply clear_poll in E1 as [Hw1 Hp1]; [|done]. destruct (accept w1) as [r w2] eqn:E2.
  destruct (calls_polls w1 w2) as [Hw2 Hp2]; [server_calls|done|].
  destruct r as [peer|[]]; try (by eapply ends_value).
  - apply (ends_bind (T := server * W)); [by apply handle_connection_ends|].
    intros [s3 w3] (k & E3)%settles_some. apply handle_connection_calls in E3.
    destruct (calls_polls _ _ E3 Hw2). apply IH; [lia|done].
  - destruct (call_polls w2 (thread_sleep (accept_poll_interval (options s)) w2));
      [by eauto with server_call|done|]. apply IH; [lia|done].
  - apply IH; [lia|done].
Qed.
End Progress.
