(* ===== verification/System.v ===== *)
(** The assembled service: the HTTP boundary, the actor, the controller and the
    journal on disk, over the life of a process, a crash of the host, and the
    next process. *)
From stdpp Require Import relations.
From S2P Require Import Prelude Bytes Tcp LocalModel LocalClient Web WebSpec Http HttpSpec.
From S2P Require Import Backend Journal Model Controller ControllerSpec Service ServiceSpec.

Section System.
Context {B P D K : Type}.
Context `{PairBackendLaws B} `{PairConfigurationProbe P} `{JournalDirLaws D} `{Clock K}.
Context `{WebLibraryLaws}.
#[local] Abbreviation service := (ControllerWebActor B P (FileUncertaintyJournal D) K).

(** What the process may do with its actor: serve a request, which calls it at
    most once, or exit. *)
Inductive service_call (a a' : service) : Prop :=
| call_nothing : a' = a -> service_call a a'
| call_status s : actor_status a = (s, a') -> service_call a a'
| call_mutate n m r : mutate_if_revision n m a = (r, a') -> service_call a a'
| call_exit r : shutdown_for_exit a = (r, a') -> service_call a a'.

(** Nothing was accepted by the call. *)
Inductive unsettled_call (a a' : service) : Prop :=
| unsettled_nothing : a' = a -> unsettled_call a a'
| unsettled_read s : actor_status a = (s, a') -> unsettled_call a a'
| unsettled_mutation n m r : mutate_if_revision n m a = (r, a') ->
    (forall result, r = Ok result -> ~ Latch.accepting (result_outcome result)) ->
    unsettled_call a a'
| unsettled_exit r : shutdown_for_exit a = (r, a') -> unsettled_call a a'.

Lemma mutate_if_revision_spec n m (a a' : service) r :
  mutate_if_revision n m a = (r, a') ->
  r = Err tt /\ a' = a \/
  exists result now, r = Ok result /\ revision (controller a) = n /\
    mutate now (action_of m) (controller a) = (result, controller a').
Proof.
  simpl. destruct (_ =? n)%Z eqn:G; bool_hyps; simpl; [|intros [= <- <-]; by left].
  destruct (on_controller (controller_mutation m) a) as [r0 a0] eqn:Ea. intros [= <- <-].
  apply on_controller_spec in Ea as (now & Ea & _). rewrite controller_mutation_action in Ea.
  right. eauto 10.
Qed.

Lemma exit_steps (a a' : service) r :
  shutdown_for_exit a = (r, a') ->
  exists now result c,
    mutate now ControllerAction.Shutdown (controller a) = (result, c) /\
    (controller a' = c \/ exists r', teardown_transport_for_exit c = (r', controller a')).
Proof.
  unfold shutdown_for_exit, actor_shutdown. intros E.
  destruct (on_controller Controller.shutdown a) as [res a1] eqn:E1.
  destruct (teardown_transport_once a1) as [torn a2] eqn:E2. simplify_eq.
  apply on_controller_spec in E1 as (now & E1 & _). exists now, res, (controller a1).
  split; [exact E1|]. unfold teardown_transport_once in E2.
  destruct (teardown_done a1); [by simplify_eq; left|].
  destruct (teardown_transport_for_exit (controller a1)) as [r0 c] eqn:Et. simplify_eq. right. by exists torn.
Qed.

Definition uncertain_state (a : service) : Prop :=
  unresolved_action (controller a) = true /\ latched (ctl_journal (controller a)).

Lemma shutdown_unresolved now (c c' : PairController B P (FileUncertaintyJournal D)) r :
  mutate now ControllerAction.Shutdown c = (r, c') -> unresolved_action c = true ->
  ~ Latch.accepting (result_outcome r).
Proof.
  intros E Hu. apply mutate_spec in E as [_ [Href|Hred]].
  - unfold Latch.accepting. destruct Href as [?? Ho|? Ha|?|failure p ?? Hl Ho|p b ?|p b j e ???? Ho];
      try congruence; rewrite Ho; intuition congruence.
  - destruct Hred as (c1 & ? & ? & c2 & Hadm & _). by pose proof (admitted_latch _ _ _ Hadm Hu).
Qed.

Lemma unsettled_call_latched a a' : unsettled_call a a' -> uncertain_state a -> uncertain_state a'.
Proof.
  intros Hc Hu. destruct Hc as [->|s E|n m r E Hna|r E]; [done|..].
  - simpl in E. apply on_controller_spec in E as (now & E & _).
    eapply unsettled_latched; [by eapply unsettled_status|done].
  - apply mutate_if_revision_spec in E as [[_ ->]|(res & now & -> & _ & E)]; [done|].
    eapply unsettled_latched; [eapply unsettled_mutate; [done|by apply Hna]|done].
  - apply exit_steps in E as (now & res & c & E & Hc).
    assert (unresolved_action c = true /\ latched (ctl_journal c)) as Hl.
    { eapply unsettled_latched; [eapply unsettled_mutate; [done|]|exact Hu].
      eapply shutdown_unresolved; [done|apply Hu]. }
    unfold uncertain_state. destruct Hc as [->|[r' Et]]; [done|].
    eapply unsettled_latched; [by eapply unsettled_teardown|done].
Qed.

Lemma uncertain_stays n m (a a1 a2 : service) result :
  mutate_if_revision n m a = (Ok result, a1) -> Latch.uncertain (result_outcome result) ->
  rtc unsettled_call a1 a2 -> uncertain_state a2.
Proof.
  intros Em Hunc Hs.
  apply mutate_if_revision_spec in Em as [[? _]|(res & now & [= <-] & _ & Em)]; [done|].
  assert (uncertain_state a1) as Hu by (by eapply uncertain_latched).
  clear Em. induction Hs; eauto using unsettled_call_latched.
Qed.

(** ** Requests *)

(** The request asks for no recovery. *)
Definition plain_request (raw : bytes) : Prop :=
  forall request, parse_request raw = Ok request -> target request <> str "/internal/recover-stop".

Inductive plain_step (a a' : WebApp service) : Prop :=
| plain_served raw resp : handle raw a = (resp, a') -> plain_request raw -> plain_step a a'.

Lemma plain_step_spec a a' :
  plain_step a a' -> rtc non_recovery_step (controller (actor a)) (controller (actor a')).
Proof.
  intros [raw resp E Hp]. apply handle_dispatched in E as [_ Hd].
  destruct Hd as [->|request s Hpr Hm Ht Es|request m n r Hpr Hau Em].
  - done.
  - simpl in Es. apply on_controller_spec in Es as (now & Es & _).
    apply rtc_once. by eapply plain_status.
  - apply mutate_if_revision_spec in Em as [[_ ->]|(res & now & _ & _ & Em)]; [done|].
    apply rtc_once. eapply plain_mutate; [|exact Em].
    destruct m; try done. destruct (au_route _ _ _ _ Hau) as (rule & Hroute & _).
    unfold mutation_route in Hroute. repeat case_decide; simplify_eq. by destruct (Hp _ Hpr).
Qed.

Lemma plain_steps_spec a a' :
  rtc plain_step a a' -> rtc non_recovery_step (controller (actor a)) (controller (actor a')).
Proof. induction 1; [done|]. etransitivity; [by apply plain_step_spec|done]. Qed.

(** C4 Uncertainty outlives the process and the host.  When a mutation ended
    without a known outcome, then whatever the service is asked afterwards short
    of an accepted recovery, and even if it exits and the host crashes at any
    point, a service that opens the journal again starts with the action
    unresolved; and that service, over any sequence of requests that are not
    the explicit recovery, sends no role command to the devices and stays
    unresolved. *)
Theorem uncertainty_outlives_crash n m (a a1 a2 : service) result d0 j d1 :
  mutate_if_revision n m a = (Ok result, a1) ->
  Latch.uncertain (result_outcome result) ->
  rtc unsettled_call a1 a2 ->
  crashed (directory (ctl_journal (controller a2))) d0 ->
  open_records d0 = (Ok j, d1) ->
  forall backend probe k security fresh,
    actor fresh = actor_new (with_journal backend probe j) k -> Web.security fresh = security ->
    unresolved_action (controller (actor fresh)) = true /\
    forall later, rtc plain_step fresh later ->
      unresolved_action (controller (actor later)) = true /\
      role_writes (ctl_backend (controller (actor later))) = role_writes backend.
Proof.
  intros Em Hunc Hs Hc Ho backend probe k security fresh Hf _.
  destruct (uncertain_stays _ _ _ _ _ _ Em Hunc Hs) as [_ Hl].
  destruct (latched_survives_crash _ _ _ _ Hl Hc Ho) as [Hp _].
  assert (unresolved_action (controller (actor fresh)) = true) as Hu by by rewrite Hf.
  split; [done|]. intros later Hsteps%plain_steps_spec.
  destruct (latch_holds_steps _ _ Hu Hsteps) as (Hu' & _ & Hw).
  split; [done|]. by rewrite Hw, Hf.
Qed.
End System.
