(* ===== verification/BodySpec.v ===== *)
(** The bodies between the service and its client: the value trees the derived
    serializers write (rust/src/web.rs), the client's view of the controller's
    data, and the facts that the client's decoders read back exactly what the
    service wrote and that its checks accept every genuine status. *)
From S2P Require Import Prelude Bytes LocalModel Backend Journal Model Controller ControllerSpec Web.

(** * Derived serializers *)

Definition text_value (s : bytes) : Value.t := Value.String s.
Definition number_value (n : Z) : Value.t := Value.Number (Number.PosInt n).
Definition option_value {T} (value : T -> Value.t) (o : option T) : Value.t :=
  match o with Some x => value x | None => Value.Null end.

Definition member_value (b : MemberBody) : Value.t :=
  Value.Object
    [(str "name", text_value (body_name b));
     (str "verification", text_value (body_verification b));
     (str "channels", Value.Array (map text_value (body_channels b)))].

Definition health_value (b : HealthBody) : Value.t :=
  Value.Object
    [(str "lifecycle", text_value (body_lifecycle b));
     (str "level", text_value (body_level b));
     (str "reported_error", Value.Bool (body_reported_error b));
     (str "aura_transport", text_value (body_aura_transport b));
     (str "aura_acquisition_route", text_value (body_aura_acquisition_route b))].

Definition last_action_value (b : LastActionBody) : Value.t :=
  Value.Object
    [(str "action", text_value (last_body_action b));
     (str "outcome", text_value (last_body_outcome b));
     (str "evidence", option_value text_value (last_body_evidence b));
     (str "failure", option_value text_value (last_body_failure b));
     (str "revision", number_value (last_body_revision b));
     (str "age_ms", number_value (last_body_age_ms b))].

Definition status_value (b : StatusBody) : Value.t :=
  let '(jbl, aura) := body_members b in
  Value.Object
    [(str "backend", text_value (body_backend b));
     (str "pair_configuration", text_value (body_pair_configuration b));
     (str "members", Value.Array [member_value jbl; member_value aura]);
     (str "managed_state", text_value (body_managed_state b));
     (str "backend_health", option_value health_value (body_backend_health b));
     (str "unresolved_action", Value.Bool (body_unresolved_action b));
     (str "consecutive_failures", number_value (body_consecutive_failures b));
     (str "revision", number_value (body_revision b));
     (str "last_action", option_value last_action_value (body_last_action b))].

Definition action_value (b : ActionBody) : Value.t :=
  Value.Object
    [(str "action", text_value (action_body_action b));
     (str "outcome", text_value (action_body_outcome b));
     (str "managed_state", text_value (action_body_managed_state b));
     (str "evidence", option_value text_value (action_body_evidence b));
     (str "failure", option_value text_value (action_body_failure b));
     (str "revision", number_value (action_body_revision b))].

Definition body_value (b : Body.t) : Value.t :=
  match b with
  | Body.Status b => status_value b
  | Body.Action b => action_value b
  | Body.Error error => Value.Object [(str "error", text_value error)]
  | Body.Readiness status => Value.Object [(str "status", text_value status)]
  end.

(** * The client's view of the controller's data *)

Definition local_member_name (value : PairMemberName.t) : LocalPairMemberName.t :=
  match value with
  | PairMemberName.JblAuthentics300 => LocalPairMemberName.JblAuthentics300
  | PairMemberName.AuraStudio5 => LocalPairMemberName.AuraStudio5
  end.

Definition local_verification_of (value : PairMemberVerification.t) : LocalPairMemberVerification.t :=
  match value with
  | PairMemberVerification.Verified => LocalPairMemberVerification.Verified
  | PairMemberVerification.NotVerified => LocalPairMemberVerification.NotVerified
  | PairMemberVerification.Unavailable => LocalPairMemberVerification.Unavailable
  end.

Definition local_channel (value : PairMemberChannel.t) : LocalPairMemberChannel.t :=
  match value with
  | PairMemberChannel.FrontLeft => LocalPairMemberChannel.FrontLeft
  | PairMemberChannel.FrontRight => LocalPairMemberChannel.FrontRight
  | PairMemberChannel.Left => LocalPairMemberChannel.Left
  | PairMemberChannel.Right => LocalPairMemberChannel.Right
  | PairMemberChannel.Mono => LocalPairMemberChannel.Mono
  | PairMemberChannel.Stereo => LocalPairMemberChannel.Stereo
  | PairMemberChannel.Unknown => LocalPairMemberChannel.Unknown
  end.

Definition local_backend (value : PairBackendKind.t) : LocalBackend.t :=
  match value with
  | PairBackendKind.LegacyV04WholePair => LocalBackend.LegacyV04WholePair
  | PairBackendKind.NativePair => LocalBackend.NativePair
  end.

Definition local_pair_configuration (value : PairConfigurationState.t) : LocalPairConfiguration.t :=
  match value with
  | PairConfigurationState.Ready => LocalPairConfiguration.Ready
  | PairConfigurationState.NotReady => LocalPairConfiguration.NotReady
  | PairConfigurationState.Unavailable => LocalPairConfiguration.Unavailable
  end.

Definition local_managed_state (value : ManagedLiveState.t) : LocalManagedState.t :=
  match value with
  | ManagedLiveState.Unknown => LocalManagedState.Unknown
  | ManagedLiveState.Offline => LocalManagedState.Offline
  | ManagedLiveState.Ready => LocalManagedState.Ready
  | ManagedLiveState.Linking => LocalManagedState.Linking
  | ManagedLiveState.Linked => LocalManagedState.Linked
  | ManagedLiveState.Unlinking => LocalManagedState.Unlinking
  | ManagedLiveState.Recovering => LocalManagedState.Recovering
  | ManagedLiveState.Degraded => LocalManagedState.Degraded
  | ManagedLiveState.ShuttingDown => LocalManagedState.ShuttingDown
  end.

Definition local_lifecycle (value : PairLifecycle.t) : LocalLifecycle.t :=
  match value with
  | PairLifecycle.Offline => LocalLifecycle.Offline
  | PairLifecycle.Initializing => LocalLifecycle.Initializing
  | PairLifecycle.Connecting => LocalLifecycle.Connecting
  | PairLifecycle.Ready => LocalLifecycle.Ready
  | PairLifecycle.Linking => LocalLifecycle.Linking
  | PairLifecycle.Linked => LocalLifecycle.Linked
  | PairLifecycle.Unlinking => LocalLifecycle.Unlinking
  | PairLifecycle.Degraded => LocalLifecycle.Degraded
  | PairLifecycle.Recovering => LocalLifecycle.Recovering
  | PairLifecycle.ShuttingDown => LocalLifecycle.ShuttingDown
  | PairLifecycle.Failed => LocalLifecycle.Failed
  end.

Definition local_health_level (value : PairHealthLevel.t) : LocalHealthLevel.t :=
  match value with
  | PairHealthLevel.Healthy => LocalHealthLevel.Healthy
  | PairHealthLevel.Transitioning => LocalHealthLevel.Transitioning
  | PairHealthLevel.Degraded => LocalHealthLevel.Degraded
  | PairHealthLevel.Unavailable => LocalHealthLevel.Unavailable
  end.

Definition local_aura_transport (value : AuraControlTransport.t) : LocalAuraTransport.t :=
  match value with
  | AuraControlTransport.Le => LocalAuraTransport.Le
  | AuraControlTransport.BrEdr => LocalAuraTransport.BrEdr
  | AuraControlTransport.Unresolved => LocalAuraTransport.Unresolved
  | AuraControlTransport.Unknown => LocalAuraTransport.Unknown
  end.

Definition local_acquisition_route (value : AuraAcquisitionRoute.t) : LocalAuraAcquisitionRoute.t :=
  match value with
  | AuraAcquisitionRoute.StableDirect => LocalAuraAcquisitionRoute.StableDirect
  | AuraAcquisitionRoute.A2dpWakeThenStable => LocalAuraAcquisitionRoute.A2dpWakeThenStable
  | AuraAcquisitionRoute.FreshLe => LocalAuraAcquisitionRoute.FreshLe
  | AuraAcquisitionRoute.Unresolved => LocalAuraAcquisitionRoute.Unresolved
  end.

Definition local_action_name (value : ControllerAction.t) : LocalActionName.t :=
  match value with
  | ControllerAction.Start => LocalActionName.Start
  | ControllerAction.Stop => LocalActionName.Stop
  | ControllerAction.Shutdown => LocalActionName.Shutdown
  | ControllerAction.RecoverStop => LocalActionName.RecoverStop
  end.

Definition local_outcome (value : ControllerActionOutcome.t) : LocalActionOutcome.t :=
  match value with
  | ControllerActionOutcome.Accepted => LocalActionOutcome.Accepted
  | ControllerActionOutcome.AcceptedUnconfirmed => LocalActionOutcome.AcceptedUnconfirmed
  | ControllerActionOutcome.Idempotent => LocalActionOutcome.Idempotent
  | ControllerActionOutcome.RejectedBeforeSend => LocalActionOutcome.RejectedBeforeSend
  | ControllerActionOutcome.OutcomeUnknown => LocalActionOutcome.OutcomeUnknown
  | ControllerActionOutcome.PostconditionFailed => LocalActionOutcome.PostconditionFailed
  end.

Definition local_evidence (value : PairBackendEvidence.t) : LocalActionEvidence.t :=
  match value with
  | PairBackendEvidence.LocalSessionState => LocalActionEvidence.LocalSessionState
  | PairBackendEvidence.LifecycleAcknowledgement => LocalActionEvidence.LifecycleAcknowledgement
  | PairBackendEvidence.BroadcastAcknowledgementOnly => LocalActionEvidence.BroadcastAcknowledgementOnly
  | PairBackendEvidence.BroadcastBusinessNotification => LocalActionEvidence.BroadcastBusinessNotification
  end.

Definition local_failure (value : ControllerFailure.t) : LocalFailure.t :=
  match value with
  | ControllerFailure.PairConfigurationUnavailable => LocalFailure.PairConfigurationUnavailable
  | ControllerFailure.ExpectedPairNotConfigured => LocalFailure.ExpectedPairNotConfigured
  | ControllerFailure.BackendRejectedBeforeSend => LocalFailure.BackendRejectedBeforeSend
  | ControllerFailure.AuraAdapterUnavailable => LocalFailure.AuraAdapterUnavailable
  | ControllerFailure.AuraDiscoveryUnavailable => LocalFailure.AuraDiscoveryUnavailable
  | ControllerFailure.AuraVerifiedAdvertisementNotFound => LocalFailure.AuraVerifiedAdvertisementNotFound
  | ControllerFailure.AuraDeviceConnectionFailed => LocalFailure.AuraDeviceConnectionFailed
  | ControllerFailure.AuraWakeProfileConnectFailed => LocalFailure.WakeProfileConnectFailed
  | ControllerFailure.AuraWakeFddfTimedOut => LocalFailure.WakeFddfTimedOut
  | ControllerFailure.AuraWakeFddfInvalid => LocalFailure.WakeFddfInvalid
  | ControllerFailure.AuraWakeFddfUnavailable => LocalFailure.WakeFddfUnavailable
  | ControllerFailure.AuraWakeProfileReleaseFailed => LocalFailure.WakeProfileReleaseFailed
  | ControllerFailure.AuraGattProfileInvalid => LocalFailure.AuraGattProfileInvalid
  | ControllerFailure.AuraNotificationSetupFailed => LocalFailure.AuraNotificationSetupFailed
  | ControllerFailure.AuraWriteUnknown => LocalFailure.AuraWriteUnknown
  | ControllerFailure.AuraAckTimeout => LocalFailure.AuraAckTimeout
  | ControllerFailure.AuraAckChannelClosed => LocalFailure.AuraAckChannelClosed
  | ControllerFailure.AuraUnexpectedAck => LocalFailure.AuraUnexpectedAck
  | ControllerFailure.JblEnterOutcomeUnknown => LocalFailure.JblEnterOutcomeUnknown
  | ControllerFailure.JblExitOutcomeUnknown => LocalFailure.JblExitOutcomeUnknown
  | ControllerFailure.JblBroadcastResultTimedOut => LocalFailure.JblBroadcastResultTimedOut
  | ControllerFailure.JblBroadcastResultUnavailable => LocalFailure.JblBroadcastResultUnavailable
  | ControllerFailure.JblBroadcastResultRejected => LocalFailure.JblBroadcastResultRejected
  | ControllerFailure.AuraStartOutcomeUnknown => LocalFailure.AuraStartOutcomeUnknown
  | ControllerFailure.BackendOutcomeUnknown => LocalFailure.BackendOutcomeUnknown
  | ControllerFailure.UnexpectedBackendLifecycle => LocalFailure.UnexpectedBackendLifecycle
  | ControllerFailure.MembershipPostconditionFailed => LocalFailure.MembershipPostconditionFailed
  | ControllerFailure.UnresolvedPriorAction => LocalFailure.UnresolvedPriorAction
  | ControllerFailure.RecoveryNotAllowed => LocalFailure.RecoveryNotAllowed
  | ControllerFailure.JournalUnavailable => LocalFailure.JournalUnavailable
  | ControllerFailure.JournalCommitFailed => LocalFailure.JournalCommitFailed
  end.

Definition local_member (m : PairMemberStatus) : LocalPairMember :=
  mkLocalPairMember (local_member_name (status_name m)) (local_verification_of (verification m))
    (map local_channel (status_channels m)).

Definition local_health (h : PairHealth) : LocalHealth :=
  mkLocalHealth (local_lifecycle (health_lifecycle h)) (local_health_level (health_level_of h))
    (reported_error h) (local_aura_transport (aura_transport h))
    (local_acquisition_route (aura_acquisition_route h)).

Definition local_last_action (a : LastActionStatus) : LocalLastAction :=
  mkLocalLastAction (local_action_name (last_action_of a)) (local_outcome (last_outcome a))
    (local_evidence <$> last_evidence a) (local_failure <$> last_failure a)
    (last_revision a) (last_age_ms a).

Definition local_status (s : ControllerStatus) : LocalStatus :=
  let '(jbl, aura) := cs_members s in
  mkLocalStatus (local_backend (cs_backend s)) (local_pair_configuration (cs_pair_configuration s))
    (local_member jbl, local_member aura) (local_managed_state (cs_managed_state s))
    (local_health <$> cs_backend_health s) (cs_unresolved_action s)
    (cs_consecutive_failures s) (cs_revision s) (local_last_action <$> cs_last_action s).

Definition local_action_result (r : ControllerActionResult) : LocalActionResult :=
  mkLocalActionResult (local_action_name (result_action r)) (local_outcome (result_outcome r))
    (local_managed_state (result_managed_state r)) (local_evidence <$> result_evidence r)
    (local_failure <$> result_failure r) (result_revision r).

(** * The decoders read back what was serialized *)

Lemma field_zip (names : list bytes) (values : list Value.t) :
  NoDup names -> length values = length names ->
  map (fun name => field name (zip names values)) names = map Some values.
Proof.
  revert values. induction names as [|k names IH]; intros [|v values] Hn Hl; simplify_eq/=; [done|].
  apply NoDup_cons in Hn as [Hk Hn]. rewrite decide_True by done. f_equal.
  rewrite <- (IH values) by done. apply map_ext_in. intros k' Hin.
  rewrite decide_False; [done|]. intros <-. apply Hk. by apply list_elem_of_In.
Qed.

Lemma struct_fields_object (names : list bytes) (values : list Value.t) :
  NoDup names -> length values = length names ->
  struct_fields names (Value.Object (zip names values)) = Some (map Some values).
Proof.
  intros Hn Hl. cbn [struct_fields].
  assert (map fst (zip names values) = names) as -> by (apply fst_zip; lia).
  rewrite bool_decide_eq_true_2 by done.
  assert (forallb (fun key => bool_decide (key ∈ names)) names = true) as ->.
  { apply forallb_forall. intros k Hk. apply bool_decide_eq_true. by apply list_elem_of_In. }
  cbn [andb]. by rewrite field_zip.
Qed.

Lemma decode_option_value {T U} (value : T -> Value.t) (decode : Value.t -> option U) (f : T -> U)
    (o : option T) :
  (forall x, value x <> Value.Null) -> (forall x, o = Some x -> decode (value x) = Some (f x)) ->
  decode_option decode (option_value value o) = Some (f <$> o).
Proof.
  intros Hn Hd. destruct o as [x|]; [|done]. specialize (Hd x eq_refl). specialize (Hn x). simpl.
  unfold decode_option. rewrite Hd. by destruct (value x).
Qed.

Lemma decode_all_map {T U} (value : T -> Value.t) (decode : Value.t -> option U) (f : T -> U) l :
  (forall x, decode (value x) = Some (f x)) ->
  decode_all decode (map value l) = Some (map f l).
Proof. intros Hd. induction l as [|x l IH]; simpl; [done|]. by rewrite Hd, IH. Qed.

Lemma decode_unsigned_value m n : (0 <= n <= m)%Z -> decode_unsigned m (number_value n) = Some n.
Proof. intros Hn. simpl. by rewrite (proj2 (Z.leb_le _ _)) by lia. Qed.

(** Every enumeration: the decoder of the client on the name the server writes. *)
Ltac by_cases := intros v; destruct v; by vm_compute.

Lemma decode_member_name v :
  decode_variant LocalPairMemberName.variants (text_value (member_name_text v)) = Some (local_member_name v).
Proof. revert v. by_cases. Qed.
Lemma decode_verification v :
  decode_variant LocalPairMemberVerification.variants (text_value (member_verification_name v)) =
    Some (local_verification_of v).
Proof. revert v. by_cases. Qed.
Lemma decode_channel v :
  decode_variant LocalPairMemberChannel.variants (text_value (member_channel_name v)) = Some (local_channel v).
Proof. revert v. by_cases. Qed.
Lemma decode_backend v :
  decode_variant LocalBackend.variants (text_value (backend_name v)) = Some (local_backend v).
Proof. revert v. by_cases. Qed.
Lemma decode_pair_configuration v :
  decode_variant LocalPairConfiguration.variants (text_value (pair_configuration_name v)) =
    Some (local_pair_configuration v).
Proof. revert v. by_cases. Qed.
Lemma decode_managed_state v :
  decode_variant LocalManagedState.variants (text_value (managed_state_name v)) = Some (local_managed_state v).
Proof. revert v. by_cases. Qed.
Lemma decode_lifecycle v :
  decode_variant LocalLifecycle.variants (text_value (lifecycle_name v)) = Some (local_lifecycle v).
Proof. revert v. by_cases. Qed.
Lemma decode_health_level v :
  decode_variant LocalHealthLevel.variants (text_value (health_level_name v)) = Some (local_health_level v).
Proof. revert v. by_cases. Qed.
Lemma decode_transport v :
  decode_variant LocalAuraTransport.variants (text_value (aura_transport_name v)) = Some (local_aura_transport v).
Proof. revert v. by_cases. Qed.
Lemma decode_route v :
  decode_variant LocalAuraAcquisitionRoute.variants (text_value (acquisition_route_name v)) =
    Some (local_acquisition_route v).
Proof. revert v. by_cases. Qed.
Lemma decode_action_name v :
  decode_variant LocalActionName.variants (text_value (action_name v)) = Some (local_action_name v).
Proof. revert v. by_cases. Qed.
Lemma decode_outcome v :
  decode_variant LocalActionOutcome.variants (text_value (outcome_name v)) = Some (local_outcome v).
Proof. revert v. by_cases. Qed.
Lemma decode_evidence v :
  decode_variant LocalActionEvidence.variants (text_value (evidence_name v)) = Some (local_evidence v).
Proof. revert v. by_cases. Qed.
Lemma decode_failure v :
  decode_variant LocalFailure.variants (text_value (failure_name v)) = Some (local_failure v).
Proof. revert v. by_cases. Qed.

(** Reads the fields of a serialized struct: a literal list of names and values. *)
Ltac read_struct names values :=
  change (Value.Object _) with (Value.Object (zip names values));
  rewrite struct_fields_object by (first [done | apply nodup_compute; by vm_compute]);
  cbn [map mbind option_bind required optional].

Lemma decode_member_value m :
  decode_member (member_value (member_body m)) = Some (local_member m).
Proof.
  destruct m as [n v chans]. unfold decode_member, member_value, member_body.
  cbn [status_name verification status_channels body_name body_verification body_channels].
  read_struct [str "name"; str "verification"; str "channels"]
    [text_value (member_name_text n); text_value (member_verification_name v);
     Value.Array (map text_value (map member_channel_name chans))].
  rewrite decode_member_name, decode_verification. unfold decode_vec.
  cbn [Value.as_array mbind option_bind]. rewrite map_map.
  by rewrite (decode_all_map _ _ local_channel) by apply decode_channel.
Qed.

Lemma decode_health_value h :
  decode_health (health_value (health_body h)) = Some (local_health h).
Proof.
  destruct h as [b l lev err t r]. unfold decode_health, health_value, health_body.
  cbn [health_lifecycle health_level_of Backend.reported_error Backend.aura_transport
    Backend.aura_acquisition_route body_lifecycle body_level body_reported_error
    body_aura_transport body_aura_acquisition_route].
  read_struct [str "lifecycle"; str "level"; str "reported_error"; str "aura_transport";
               str "aura_acquisition_route"]
    [text_value (lifecycle_name l); text_value (health_level_name lev); Value.Bool err;
     text_value (aura_transport_name t); text_value (acquisition_route_name r)].
  by rewrite decode_lifecycle, decode_health_level, decode_transport, decode_route.
Qed.

Lemma decode_optional_text {T L} (name : T -> bytes) (decode : Value.t -> option L) (f : T -> L) o :
  (forall v, decode (text_value (name v)) = Some (f v)) ->
  decode_option decode (option_value text_value (name <$> o)) = Some (f <$> o).
Proof.
  intros Hd. rewrite <- (decode_option_value (fun v => text_value (name v)) decode f o) by done.
  by destruct o.
Qed.

(** The numbers of the bodies fit the types that carry them. *)
Definition numbers_fit (s : ControllerStatus) : Prop :=
  (0 <= cs_consecutive_failures s <= u8_max)%Z /\ (0 <= cs_revision s <= u64_max)%Z /\
  forall a, cs_last_action s = Some a ->
    (0 <= last_revision a <= u64_max)%Z /\ (0 <= last_age_ms a <= u64_max)%Z.

Lemma decode_last_action_value a :
  (0 <= last_revision a <= u64_max)%Z -> (0 <= last_age_ms a <= u64_max)%Z ->
  decode_last_action (last_action_value (last_action_body a)) = Some (local_last_action a).
Proof.
  destruct a as [a o ev f rev age]. cbn [last_revision last_age_ms]. intros Hr Ha.
  unfold decode_last_action, last_action_value, last_action_body.
  cbn [last_action_of last_outcome last_evidence last_failure last_revision last_age_ms
    last_body_action last_body_outcome last_body_evidence last_body_failure last_body_revision
    last_body_age_ms].
  read_struct [str "action"; str "outcome"; str "evidence"; str "failure"; str "revision"; str "age_ms"]
    [text_value (action_name a); text_value (outcome_name o);
     option_value text_value (evidence_name <$> ev); option_value text_value (failure_name <$> f);
     number_value rev; number_value age].
  rewrite decode_action_name, decode_outcome, (decode_optional_text _ _ _ _ decode_evidence),
    (decode_optional_text _ _ _ _ decode_failure), !decode_unsigned_value by done. done.
Qed.

Lemma decode_action_value r :
  (0 <= result_revision r <= u64_max)%Z ->
  decode_action_result (action_value (action_body r)) = Some (local_action_result r).
Proof.
  destruct r as [a o s ev f rev]. cbn [result_revision]. intros Hr.
  unfold decode_action_result, action_value, action_body.
  cbn [result_action result_outcome result_managed_state result_evidence result_failure
    result_revision action_body_action action_body_outcome action_body_managed_state
    action_body_evidence action_body_failure action_body_revision].
  read_struct [str "action"; str "outcome"; str "managed_state"; str "evidence"; str "failure";
               str "revision"]
    [text_value (action_name a); text_value (outcome_name o); text_value (managed_state_name s);
     option_value text_value (evidence_name <$> ev); option_value text_value (failure_name <$> f);
     number_value rev].
  rewrite decode_action_name, decode_outcome, decode_managed_state,
    (decode_optional_text _ _ _ _ decode_evidence),
    (decode_optional_text _ _ _ _ decode_failure), decode_unsigned_value by done. done.
Qed.

Lemma decode_status_value s :
  numbers_fit s -> decode_status (status_value (status_body s)) = Some (local_status s).
Proof.
  destruct s as [b pc [m1 m2] st h u failures rev last].
  intros (Hf & Hr & Hl). cbn [cs_consecutive_failures cs_revision cs_last_action] in *.
  unfold decode_status, status_body. cbn [cs_members status_value body_members].
  cbn [cs_backend cs_pair_configuration cs_managed_state cs_backend_health cs_unresolved_action
    cs_consecutive_failures cs_revision cs_last_action body_backend body_pair_configuration
    body_managed_state body_backend_health body_unresolved_action body_consecutive_failures
    body_revision body_last_action].
  read_struct [str "backend"; str "pair_configuration"; str "members"; str "managed_state";
               str "backend_health"; str "unresolved_action"; str "consecutive_failures";
               str "revision"; str "last_action"]
    [text_value (backend_name b); text_value (pair_configuration_name pc);
     Value.Array [member_value (member_body m1); member_value (member_body m2)];
     text_value (managed_state_name st); option_value health_value (health_body <$> h);
     Value.Bool u; number_value failures; number_value rev;
     option_value last_action_value (last_action_body <$> last)].
  rewrite decode_backend, decode_pair_configuration, decode_managed_state. unfold decode_two.
  cbn [Value.as_array mbind option_bind]. rewrite !decode_member_value.
  cbn [mbind option_bind]. rewrite !decode_unsigned_value by done.
  assert (decode_option decode_health (option_value health_value (health_body <$> h))
    = Some (local_health <$> h)) as ->.
  { rewrite <- (decode_option_value (fun h => health_value (health_body h)) decode_health local_health h)
      by (done || intros; apply decode_health_value). by destruct h. }
  assert (decode_option decode_last_action (option_value last_action_value (last_action_body <$> last))
    = Some (local_last_action <$> last)) as ->.
  { rewrite <- (decode_option_value (fun a => last_action_value (last_action_body a))
      decode_last_action local_last_action last).
    - by destruct last.
    - done.
    - intros a Ha. destruct (Hl a Ha). by apply decode_last_action_value. }
  done.
Qed.

(** * Genuine statuses pass the client's checks *)

(** What the projection of a membership answer guarantees of a member: its
    fixed name, and at most six distinct channels, unknown only alone. *)
Record sound_member (n : PairMemberName.t) (m : PairMemberStatus) : Prop := {
  sm_name : status_name m = n;
  sm_some : status_channels m <> [];
  sm_distinct : NoDup (status_channels m);
  sm_unknown : PairMemberChannel.Unknown ∈ status_channels m ->
    status_channels m = [PairMemberChannel.Unknown];
}.

Definition KNOWN_CHANNELS : list PairMemberChannel.t :=
  [PairMemberChannel.FrontLeft; PairMemberChannel.FrontRight; PairMemberChannel.Left;
   PairMemberChannel.Right; PairMemberChannel.Mono; PairMemberChannel.Stereo].

Lemma sound_member_length n m : sound_member n m -> length (status_channels m) <= 6.
Proof.
  intros [_ _ Hd Hu]. destruct (decide (PairMemberChannel.Unknown ∈ status_channels m)) as [H|H].
  - rewrite Hu by done. simpl. lia.
  - change 6 with (length KNOWN_CHANNELS). apply submseteq_length, NoDup_submseteq; [done|].
    intros c Hc. destruct c; try (by apply (bool_decide_unpack _); vm_compute).
Qed.

#[export] Instance local_channel_inj : Inj (=) (=) local_channel.
Proof. intros [] []; by vm_compute. Qed.

Lemma sound_member_valid n m :
  sound_member n m -> valid_member_projection (local_member m) = true.
Proof.
  intros Hm. pose proof (sound_member_length _ _ Hm) as Hl. destruct Hm as [_ Hs Hd Hu].
  unfold valid_member_projection, local_member. cbn [LocalModel.channels].
  set (chans := map local_channel (status_channels m)).
  assert (length chans = length (status_channels m)) as Hlen by apply length_map.
  rewrite bool_decide_eq_false_2; cycle 1.
  { intros E. apply Hs. by apply map_eq_nil in E. }
  rewrite (proj2 (Nat.leb_le _ _)) by lia. cbn [negb andb]. apply forallb_forall.
  intros [i c] Hin. apply list_elem_of_In, elem_of_lookup_imap in Hin as (j & y & [= <- <-] & Hi).
  apply andb_true_iff. split.
  - destruct (decide (c = LocalPairMemberChannel.Unknown)) as [->|Hc].
    2: { by rewrite bool_decide_eq_false_2. }
    apply orb_true_iff. right. rewrite Hlen, Hu; [done|].
    unfold chans in Hi. rewrite list_lookup_fmap in Hi.
    destruct (status_channels m !! i) as [c0|] eqn:Ei; [|done]. simplify_eq/=.
    apply list_elem_of_lookup. exists i. by destruct c0.
  - rewrite bool_decide_eq_false_2; [done|]. intros (j & Hj & Hlt)%elem_of_take.
    assert (NoDup chans) as Hnd by (by apply NoDup_fmap_2; [apply _|]).
    pose proof (NoDup_lookup _ _ _ _ Hnd Hi Hj). lia.
Qed.

(** The route of a health projection fits its transport. *)
Definition sound_health (h : PairHealth) : Prop :=
  match aura_acquisition_route h with
  | AuraAcquisitionRoute.StableDirect | AuraAcquisitionRoute.A2dpWakeThenStable =>
      aura_transport h = AuraControlTransport.BrEdr
  | AuraAcquisitionRoute.FreshLe => aura_transport h = AuraControlTransport.Le
  | AuraAcquisitionRoute.Unresolved => True
  end.

Lemma sound_health_valid h : sound_health h -> valid_health_projection (local_health h) = true.
Proof.
  destruct h as [b l lev err t r]. unfold sound_health, valid_health_projection, local_health.
  cbn. destruct r; cbn; intros; subst; by rewrite ?bool_decide_eq_true_2.
Qed.

(** The members, as they are reported with a configuration state. *)
Definition sound_members (pc : PairConfigurationState.t) (members : PairMemberStatus * PairMemberStatus)
  : Prop :=
  let '(jbl, aura) := members in
  sound_member PairMemberName.JblAuthentics300 jbl /\ sound_member PairMemberName.AuraStudio5 aura /\
  match pc with
  | PairConfigurationState.Ready =>
      verification jbl = PairMemberVerification.Verified /\
      verification aura = PairMemberVerification.Verified
  | PairConfigurationState.NotReady =>
      verification jbl <> PairMemberVerification.Unavailable /\
      verification aura <> PairMemberVerification.Unavailable
  | PairConfigurationState.Unavailable =>
      verification jbl = PairMemberVerification.Unavailable /\
      verification aura = PairMemberVerification.Unavailable
  end.

Record sound_status (s : ControllerStatus) : Prop := {
  ss_members : sound_members (cs_pair_configuration s) (cs_members s);
  ss_health : forall h, cs_backend_health s = Some h -> sound_health h;
  ss_last : forall a, cs_last_action s = Some a -> (last_revision a <= cs_revision s)%Z;
}.

Lemma sound_status_valid s : sound_status s -> valid_status_projection (local_status s) = true.
Proof.
  destruct s as [b pc [m1 m2] st h u failures rev last]. intros [Hm Hh Hl]. cbn in *.
  destruct Hm as (H1 & H2 & Hv). unfold valid_status_projection, local_status.
  cbn [cs_members cs_pair_configuration cs_backend_health cs_last_action cs_revision
    LocalModel.members LocalModel.last_action LocalModel.backend_health
    LocalModel.pair_configuration LocalModel.status_revision].
  rewrite (sm_name _ _ H1), (sm_name _ _ H2),
    (sound_member_valid _ _ H1), (sound_member_valid _ _ H2).
  assert (match local_last_action <$> last with
          | Some a => (rev <? LocalModel.last_revision a)%Z | None => false end = false) as ->.
  { destruct last as [a|]; [|done]. apply Z.ltb_ge. by apply Hl. }
  assert (match local_health <$> h with
          | Some h => negb (valid_health_projection h) | None => false end = false) as ->.
  { destruct h as [h|]; [|done]. simpl. by rewrite sound_health_valid by by apply Hh. }
  cbn. destruct pc; cbn; destruct Hv as [V1 V2]; rewrite ?V1, ?V2; [done| |done].
  by destruct (verification m1), (verification m2).
Qed.

(** ** The membership observation *)

Lemma push_unique_sound chans acc :
  NoDup acc -> NoDup (fold_left push_unique chans acc) /\
  forall c, c ∈ fold_left push_unique chans acc <-> c ∈ acc \/ c ∈ chans.
Proof.
  revert acc. induction chans as [|c0 chans IH]; intros acc Hd; cbn [fold_left].
  - split; [done|]. intros c. rewrite elem_of_nil. tauto.
  - assert (NoDup (push_unique acc c0) /\ forall c, c ∈ push_unique acc c0 <-> c ∈ acc \/ c = c0)
      as [Hd' Hin].
    { unfold push_unique. case_decide as Hc; [split; [done|]; intros c; split; [tauto|]; by intros [| ->]|].
      split.
      - apply NoDup_app. split; [done|]. split; [|apply NoDup_singleton].
        intros c Hca. by intros ->%list_elem_of_singleton.
      - intros c. by rewrite elem_of_app, list_elem_of_singleton. }
    destruct (IH _ Hd') as [Hn Hs]. split; [done|]. intros c. rewrite Hs, Hin, elem_of_cons. tauto.
Qed.

Lemma observed_member_sound n matches : sound_member n (observed_member n matches).
Proof.
  assert (Hone : forall v, sound_member n (fixed_member n v [PairMemberChannel.Unknown])).
  { intros v. split; [done|done|apply NoDup_singleton|done]. }
  unfold observed_member. destruct matches as [|only [|]]; [apply Hone| |apply Hone].
  set (projected := map channel_from_allowlist only).
  case_decide as Hu; [apply Hone|].
  destruct (push_unique_sound projected [] (NoDup_nil_2)) as [Hd Hin].
  destruct (fold_left push_unique projected []) as [|c chans] eqn:E; [apply Hone|].
  split; [done|done|done|]. intros Hc%Hin. by destruct Hc as [?%elem_of_nil|?].
Qed.

Definition observed_configuration (obs : PairConfigurationObservation) : PairConfigurationState.t :=
  if exact_pair_configured obs then PairConfigurationState.Ready else PairConfigurationState.NotReady.

Definition sound_observation (obs : PairConfigurationObservation) : Prop :=
  sound_members (observed_configuration obs) (observed_members obs).

Lemma project_member_named jbl aura raw m j a :
  project_member jbl aura raw = Ok (m, j, a) ->
  (member_name m, j, a) ∈ [(JBL_PUBLIC_ROLE, 1, 0); (AURA_PUBLIC_ROLE, 0, 1); (UNKNOWN, 0, 0)].
Proof.
  unfold project_member. destruct (ok_or _ _); [|done]. cbv zeta.
  destruct (ok_or _ _) as [raw_name|]; [|done]. destruct (ok_or _ _) as [identity|]; [|done].
  destruct (project_name jbl aura raw_name identity) as [[n' j'] a'] eqn:Ep.
  destruct (ok_or _ _); [|done]. destruct (collect _ _); [|done]. intros [= <- <- <-].
  unfold project_name in Ep. cbn [member_name].
  repeat case_bool_decide; simplify_eq; repeat first [by left|right].
Qed.

(** The parser calls the pair configured only when each role has one member. *)
Lemma configured_names response jbl aura st :
  parse_group_status response jbl aura = Ok st -> expected_pair_configured st = true ->
  exists c1 c2, channels_named (str "JBL Authentics 300") (Model.members st) = [c1] /\
    channels_named (str "Aura Studio 5") (Model.members st) = [c2].
Proof.
  unfold parse_group_status. intros Hp He. case_decide; [done|]. destruct (negb _); [done|].
  destruct (ok_or _ _); [|done]. destruct (ok_or _ _) as [raws|]; [|done].
  destruct (negb _) eqn:El; [done|]. destruct (ok_or _ _); [|done].
  destruct raws as [|raw1 [|raw2 [|]]]; try done. cbn [collect] in Hp.
  destruct (project_member jbl aura raw1) as [[[m1 j1] a1]|] eqn:E1; [|done].
  destruct (project_member jbl aura raw2) as [[[m2 j2] a2]|] eqn:E2; [|done].
  injection Hp as <-. cbn [expected_pair_configured Model.members map sum_list] in *. bool_hyps.
  apply project_member_named in E1. apply project_member_named in E2.
  destruct m1 as [n1 c1], m2 as [n2 c2]. cbn [member_name] in *.
  repeat rewrite elem_of_cons in E1. repeat rewrite elem_of_cons in E2. rewrite elem_of_nil in *.
  destruct E1 as [?|[?|[?|[]]]], E2 as [?|[?|[?|[]]]]; simplify_eq; try done;
    eexists _, _; split; by vm_compute.
Qed.

Lemma from_group_status_sound response jbl aura st :
  parse_group_status response jbl aura = Ok st -> sound_observation (from_group_status st).
Proof.
  intros Hp. unfold sound_observation, observed_configuration, from_group_status.
  cbn [exact_pair_configured observed_members]. split; [apply observed_member_sound|].
  split; [apply observed_member_sound|]. destruct (expected_pair_configured st) eqn:E.
  - destruct (configured_names _ _ _ _ Hp E) as (c1 & c2 & -> & ->). done.
  - unfold observed_member. split; repeat case_match; done.
Qed.

(** * The status of the service *)

(** What the probe and the backend of the installation promise. *)
Class SoundProbe (P : Type) `{PairConfigurationProbe P} :=
  pair_configuration_sound p obs p' :
    pair_configuration p = (Ok obs, p') -> sound_observation obs.
(** The health is sound on the states that the backend can get into. *)
Class SoundHealth (B : Type) `{PairBackend B} := {
  health_ok : B -> Prop;
  backend_health_sound b h b' : health_ok b -> backend_health b = (Ok h, b') -> sound_health h;
  backend_call_ok b b' : health_ok b -> backend_call b b' -> health_ok b';
}.

Section ServedStatus.
Context {B P J : Type}.
Context `{SoundHealth B} `{SoundProbe P} `{UncertaintyJournal J}.

Lemma unavailable_members_sound :
  sound_members PairConfigurationState.Unavailable
    (unavailable_members PairMemberVerification.Unavailable).
Proof.
  split; [|split; [|done]]; (split; [done|done|apply NoDup_singleton|done]).
Qed.

Lemma read_pair_configuration_sound (c : PairController B P J) pc members c' :
  read_pair_configuration c = ((pc, members), c') -> sound_members pc members.
Proof.
  unfold read_pair_configuration. destruct (pair_configuration (ctl_probe c)) as [[obs|e] p] eqn:E;
    intros [= <- <- <-]; [by apply pair_configuration_sound in E|apply unavailable_members_sound].
Qed.

Lemma served_status_sound now (c c' : PairController B P J) s :
  Controller.status now c = (s, c') -> wf c -> health_ok (ctl_backend c) ->
  sound_status s /\ numbers_fit s.
Proof.
  intros E Hwf Hok. pose proof (wf_status _ _ _ _ E Hwf) as Hwf'. unfold Controller.status in E.
  destruct (read_pair_configuration c) as [[pc members] c1] eqn:E1.
  assert (ctl_backend c1 = ctl_backend c) as Hb1
    by (unfold read_pair_configuration in E1;
        by destruct (pair_configuration (ctl_probe c)) as [[]]; simplify_eq/=).
  apply read_pair_configuration_sound in E1.
  destruct (read_health c1) as [h c2] eqn:E2. unfold read_health in E2.
  destruct (backend_health (ctl_backend c1)) as [h1 b] eqn:E3. injection E2 as <- _.
  injection E as Hs Hc. rewrite Hc in Hs. subst s.
  assert (forall a, last_action_status now <$> Controller.last_action c' = Some a ->
    (0 <= last_revision a <= revision c')%Z /\ (0 <= last_age_ms a <= u64_max)%Z) as Hl.
  { intros a Ha. destruct (Controller.last_action c') as [r|] eqn:El; [|done].
    injection Ha as <-. cbn [last_revision last_age_ms last_action_status]. split.
    - exact (wf_last_action _ Hwf' r El).
    - pose proof (Z.div_pos (Z.max 0 (now - recorded_at r)) 1000000). unfold as_millis, u64_max. lia. }
  pose proof (wf_revision _ Hwf'). pose proof (wf_failures _ Hwf').
  split; [split; cbn|].
  - done.
  - intros h Hh. destruct h1 as [h1|]; [|done]. simplify_eq/=. rewrite Hb1 in E3.
    by eapply backend_health_sound.
  - intros a Ha. destruct (Hl a Ha). lia.
  - split_and!; cbn; try lia. intros a Ha. destruct (Hl a Ha). lia.
Qed.

(** A controller that started over such a backend stays over one. *)
Lemma reachable_health_ok (c c' : PairController B P J) :
  rtc ctl_step c c' -> health_ok (ctl_backend c) -> health_ok (ctl_backend c').
Proof.
  intros Hs Hok. induction Hs as [|c c1 c2 Hs _ IH]; [done|]. apply IH. clear IH.
  apply ctl_step_calls in Hs. induction Hs; [done|]. eauto using backend_call_ok.
Qed.

(** C30 The client understands every genuine status. Whatever state the service
    is in, the status it serves reads back, field by field and name by name, as
    exactly that status, within the client's integer types; and none of the
    client's consistency checks (names and order of the two members, channel
    lists, verification against configuration, route against transport, age of
    the last action) ever rejects it, when the membership answers come from
    the parser of the device's group status and the backend is in a state it
    can get into, in which its health names the route of its transport. *)
Theorem served_status_accepted now (c c' : PairController B P J) s :
  Controller.status now c = (s, c') -> wf c -> health_ok (ctl_backend c) ->
  decode_status (status_value (status_body s)) = Some (local_status s) /\
  valid_status_projection (local_status s) = true.
Proof.
  intros E Hwf Hok. destruct (served_status_sound _ _ _ _ E Hwf Hok) as [Hs Hn].
  split; [by apply decode_status_value|by apply sound_status_valid].
Qed.
End ServedStatus.
