(* ===== verification/Loopback.v ===== *)
(** The client and the service together, over a loopback network that delivers:
    a request is handed over whole, and the response is read back in chunks.
    The world satisfies the interfaces the client is verified against, and over
    it a mutation of the client is a mutation of the controller. *)
From S2P Require Import Prelude Bytes Tcp LocalModel LocalClient Web WebSpec Http HttpSpec ClientSpec.
From S2P Require Import Backend Journal Model Controller ControllerSpec Service ServiceSpec BodySpec.

(** * The network *)

Record Loopback (A : Type) := mkLoopback {
  hosted : WebApp A;
  (** The connections so far, and what the last one still has to deliver. *)
  sent_log : list bytes;
  outgoing : bytes;
  incoming : option bytes;
}.
Arguments mkLoopback {A}.
Arguments hosted {A}.
Arguments sent_log {A}.
Arguments outgoing {A}.
Arguments incoming {A}.

Section World.
Context `{WebLibrary} {A : Type} `{WebActor A}.
#[local] Abbreviation world := (Loopback A).

(** The service answers once the client stops writing and reads. *)
Definition answered (w : world) : world :=
  match incoming w with
  | Some _ => w
  | None =>
      let '(resp, a) := handle (outgoing w) (hosted w) in
      mkLoopback a (sent_log w) (outgoing w) (Some (to_http1_bytes resp))
  end.

Definition append_last (p : bytes) (log : list bytes) : list bytes :=
  match reverse log with
  | last :: rest => reverse rest ++ [last ++ p]
  | [] => []
  end.

#[export] Instance Loopback_tcp : TcpStream world := {
  instant_now w := (0%Z, w);
  connect_timeout p _ w :=
    if (p =? bind_port (security (hosted w)))%Z
    then (Ok tt, mkLoopback (hosted w) (sent_log w ++ [[]]) [] None)
    else (Err IoErrorKind.Other, w);
  set_write_timeout _ w := (Ok tt, w);
  set_read_timeout _ w := (Ok tt, w);
  tcp_write p w :=
    (Ok (length p),
     mkLoopback (hosted w) (append_last p (sent_log w)) (outgoing w ++ p) (incoming w));
  tcp_read n w :=
    let w := answered w in
    let reply := default [] (incoming w) in
    (Ok (take n reply),
     mkLoopback (hosted w) (sent_log w) (outgoing w) (Some (drop n reply)));
  set_nonblocking _ w := (Ok tt, w);
  tcp_peek _ w := (Err IoErrorKind.WouldBlock, w);
  shutdown_both w := w;
}.

#[export] Instance Loopback_laws : TcpStreamLaws world.
Proof.
  refine {| interruptions _ := 0 |}; intros; try lia; simpl in *; simplify_eq; try done.
  rewrite length_take. lia.
Defined.

Lemma append_last_app p old last : append_last p (old ++ [last]) = old ++ [last ++ p].
Proof. unfold append_last. rewrite reverse_snoc. by rewrite reverse_involutive. Qed.

Lemma answered_log w : sent_log (answered w) = sent_log w.
Proof. unfold answered. destruct (incoming w); [done|]. by destruct (handle _ _). Qed.

#[export] Instance Loopback_wire : TcpWire world.
Proof.
  refine {| wire := sent_log |}; intros; simpl in *; try (by simplify_eq).
  - simplify_eq. simpl. apply answered_log.
  - destruct (_ =? _)%Z; by simplify_eq.
  - destruct (_ =? _)%Z; by simplify_eq.
  - simplify_eq. simpl. rewrite take_ge by done. rewrite <- append_last_app. by f_equal.
Defined.

(** * One exchange *)

Context `{!LocalLibrary}.

Lemma read_reply fuel reply acc deadline a log out :
  (0 < deadline)%Z -> (Z.of_nat (length acc + length reply) <= MAX_RESPONSE_BYTES)%Z ->
  length reply < fuel ->
  read_to_end_before fuel acc deadline (mkLoopback a log out (Some reply)) =
    Some (Ok (acc ++ reply), mkLoopback a log out (Some [])).
Proof.
  intros Hd. revert reply acc. induction fuel as [|fuel IH]; intros reply acc Hm Hf; [lia|].
  cbn [read_to_end_before]. unfold remaining, mapped.
  cbn [instant_now set_read_timeout tcp_read Loopback_tcp answered incoming default from_option id].
  rewrite (proj2 (Z.ltb_lt _ _)) by lia. cbn [map_err].
  destruct reply as [|c reply]; [by rewrite take_nil, drop_nil, app_nil_r|].
  destruct (take 2048 (c :: reply)) as [|c' chunk] eqn:Et.
  { apply (f_equal length) in Et. rewrite length_take in Et. cbn [length] in Et. lia. }
  assert (length (c' :: chunk) <= length (c :: reply)) by (rewrite <- Et, length_take; lia).
  assert (length (drop 2048 (c :: reply)) < length (c :: reply)) by (rewrite length_drop; simpl; lia).
  rewrite (proj2 (Z.ltb_ge _ _)); cycle 1.
  { unfold usize_max, u64_max, MAX_RESPONSE_BYTES in *. lia. }
  cbn [hosted sent_log outgoing]. rewrite IH.
  - by rewrite <- app_assoc, <- Et, take_drop.
  - rewrite length_app, <- Et. pose proof (f_equal length (take_drop 2048 (c :: reply))) as El.
    rewrite length_app in El. lia.
  - simpl in *. lia.
Qed.

Lemma answered_again w : answered (answered w) = answered w.
Proof.
  unfold answered at 2 3. destruct (incoming w) eqn:E; [by unfold answered; rewrite E|].
  by destruct (handle _ _).
Qed.

Lemma read_answered fuel acc d (w : world) :
  (0 < d)%Z -> read_to_end_before (S fuel) acc d w = read_to_end_before (S fuel) acc d (answered w).
Proof.
  intros Hd. cbn [read_to_end_before]. unfold remaining, mapped.
  cbn [instant_now set_read_timeout tcp_read Loopback_tcp].
  rewrite (proj2 (Z.ltb_lt _ _)) by done. by rewrite answered_again.
Qed.

Lemma exchange fuel (w : world) m path hs body timeout resp a :
  (0 < timeout)%Z ->
  forallb (fun '(name, value) => valid_header_name name && valid_header_value value) hs = true ->
  handle (encode_request (bind_port (security (hosted w))) m path hs body) (hosted w) = (resp, a) ->
  (Z.of_nat (length (to_http1_bytes resp)) <= MAX_RESPONSE_BYTES)%Z ->
  (MAX_RESPONSE_BYTES < Z.of_nat fuel)%Z ->
  exists w', hosted w' = a /\
    request fuel (bind_port (security (hosted w))) m path hs body timeout w =
      Some (parse_response (to_http1_bytes resp), w').
Proof.
  intros Ht Hh E Hl Hf. unfold request, remaining. cbn [instant_now connect_timeout Loopback_tcp].
  rewrite (proj2 (Z.ltb_lt _ _)) by lia. rewrite Z.eqb_refl, Hh. cbn [negb].
  set (full := encode_request _ m path hs body) in *.
  destruct fuel as [|fuel]; [lia|].
  assert (exists c rest, full = c :: rest) as (c & rest & Hfull).
  { destruct full as [|c rest] eqn:Ef; [|by eauto]. exfalso.
    assert (length full = 0) as El by by rewrite Ef. unfold full, encode_request, request_prefix in El.
    rewrite !length_app in El. simpl in El. lia. }
  clearbody full. subst full. cbn [write_all_before]. unfold remaining, mapped.
  cbn [instant_now set_write_timeout tcp_write Loopback_tcp].
  rewrite (proj2 (Z.ltb_lt _ _)) by lia. cbn [map_err length].
  rewrite drop_ge by (simpl; lia).
  assert (forall f (d : Z) (w1 : world), write_all_before f [] d w1 = Some (Ok tt, w1)) as Hnil by by intros [].
  rewrite Hnil. cbn [hosted sent_log outgoing incoming].
  set (w1 := mkLoopback _ _ _ None).
  rewrite read_answered by lia.
  unfold answered. cbn [w1 incoming outgoing hosted sent_log]. cbn [app]. rewrite E.
  rewrite read_reply; [|lia|cbn [length]; lia|unfold MAX_RESPONSE_BYTES in *; lia]. cbn [app].
  eexists. split; [|done]. done.
Qed.
End World.

(** * The whole service *)

Section Service.
Context `{WebLibraryLaws, !LocalLibrary} {B P J K : Type}.
Context `{PairBackendLaws B, !SoundHealth B} `{SoundProbe P} `{UncertaintyJournalLaws J} `{Clock K}.
#[local] Abbreviation web_actor := (ControllerWebActor B P J K).
#[local] Abbreviation world := (Loopback web_actor).

(** A body the client's serde_json reads back as it was written, and a page,
    that keep the limits. *)
Definition small (content : bytes) : Prop := (Z.of_nat (length content) <= 32768)%Z.
Definition reads_back (b : Body.t) : Prop :=
  read_json (to_vec b) = Some (body_value b) /\ small (to_vec b).

(** The service is configured and its controller is well-formed. *)
Record serving (a : WebApp web_actor) : Prop := {
  sv_minted : minted (security a);
  sv_port : valid_port (bind_port (security a));
  sv_wf : wf (controller (actor a));
  sv_health : health_ok (ctl_backend (controller (actor a)));
}.

Lemma delivered_small resp :
  readable_response resp -> small (response_body resp) ->
  (Z.of_nat (length (to_http1_bytes resp)) <= MAX_RESPONSE_BYTES)%Z.
Proof.
  intros Hr Hs. rewrite to_http1_head, !length_app. pose proof (rr_head _ Hr).
  assert (Z.of_nat MAX_RESPONSE_HEADER_BYTES = 16384%Z) as Hm by by vm_compute.
  change (length HEAD_END) with 4. unfold small, MAX_RESPONSE_BYTES in *. lia.
Qed.

Lemma exchange_read fuel (w : world) m path hs body timeout resp a :
  serving (hosted w) -> (0 < timeout)%Z ->
  forallb (fun '(name, value) => valid_header_name name && valid_header_value value) hs = true ->
  handle (encode_request (bind_port (security (hosted w))) m path hs body) (hosted w) = (resp, a) ->
  small (response_body resp) -> (MAX_RESPONSE_BYTES < Z.of_nat fuel)%Z ->
  exists w', hosted w' = a /\
    request fuel (bind_port (security (hosted w))) m path hs body timeout w =
      Some (Ok (mkLocalHttpResponse (response_status resp)
                  (insert_headers (response_headers resp) ∅) (response_body resp)), w') /\
    forall key, insert_headers (response_headers resp) ∅ !! key = find_header key (response_headers resp).
Proof.
  intros [Hm _ Hwf _] Ht Hh E Hs Hf.
  assert (readable_response resp) as Hr.
  { eapply handle_readable; [exact E|done|exact Hwf|]. unfold fits, small, MAX_RESPONSE_BYTES in *. lia. }
  destruct (exchange fuel w m path hs body timeout resp a) as (w' & Hw & Ereq);
    [done|done|done|by apply delivered_small|done|].
  exists w'. split; [done|]. split; [by rewrite Ereq, parse_response_sent|].
  intros key. rewrite insert_headers_lookup by apply Hr. rewrite lookup_empty. by destruct (find_header _ _).
Qed.

Lemma cookie_token_minted s :
  minted s ->
  cookie_token (CSRF_COOKIE ++ str "=" ++ csrf_token s ++ str "; Path=/; SameSite=Strict") =
    Some (csrf_token s).
Proof.
  intros Hm. destruct (minted_token s Hm) as [Hl Hh]. unfold cookie_token.
  assert (CSRF_COOKIE ++ str "=" ++ csrf_token s ++ str "; Path=/; SameSite=Strict" =
    (CSRF_COOKIE ++ str "=" ++ csrf_token s) ++ z2b 59 :: str " Path=/; SameSite=Strict") as ->
    by by rewrite <- !app_assoc.
  rewrite split_byte_app; cycle 1.
  { rewrite !forallb_app, (forallb_impl _ _ _ graphic_no_separator Hh). by vm_compute. }
  change (CSRF_COOKIE ++ str "=" ++ csrf_token s) with (COOKIE_NAME ++ z2b 61 :: csrf_token s).
  rewrite split_once_app by by vm_compute. cbn [mbind option_bind].
  by rewrite bool_decide_eq_true_2, Hl, Hh by done.
Qed.

Lemma mutation_headers_valid port s n :
  valid_port port -> minted s -> (0 <= n <= u64_max)%Z ->
  forallb (fun '(name, value) => valid_header_name name && valid_header_value value)
    (mutation_headers port (csrf_token s) n) = true.
Proof.
  intros Hp Hm Hn. destruct (minted_graphic s Hm) as [Hg _], (authority_graphic port Hp) as [Ha _],
    (etag_graphic n Hn) as [He _].
  assert (forall v, forallb is_ascii_graphic v = true -> valid_header_value v = true) as Hv.
  { intros v. apply forallb_impl. apply by_bytes_impl. by vm_compute. }
  unfold mutation_headers. cbn [forallb].
  rewrite (Hv (origin port)) by (unfold origin; by rewrite forallb_app, Ha).
  rewrite (Hv (etag n)), (Hv (csrf_token s)) by done.
  rewrite (Hv (COOKIE_NAME ++ str "=" ++ csrf_token s)) by (by rewrite !forallb_app, Hg).
  by vm_compute.
Qed.

(** Reads one header of a response whose header list is literal. *)
Ltac find_response_header :=
  unfold json_response, response; cbn [response_headers app find_header]; unfold wire_key;
  cbn [fst snd];
  repeat (first [rewrite decide_True by (by vm_compute) | rewrite decide_False by (by vm_compute)]).

Section Steps.
Context (fuel : nat) (w : world).
Hypothesis Hserving : serving (hosted w).
Hypothesis Hfuel : (MAX_RESPONSE_BYTES < Z.of_nat fuel)%Z.
#[local] Abbreviation port := (bind_port (security (hosted w))).

Lemma fetch_token :
  small (page_html (csrf_token (security (hosted w)))) ->
  exists w', hosted w' = hosted w /\
    csrf_cookie fuel port w = Some (Ok (csrf_token (security (hosted w))), w').
Proof.
  intros Hs. pose proof Hserving as [Hm Hp _ _].
  destruct (get_handled (hosted w) Hp (str "/")) as (request & Hmeth & Htar & E);
    [by vm_compute|by apply Nat.leb_le|].
  unfold route in E. rewrite Hmeth, Htar in E. cbv zeta in E.
  rewrite bool_decide_eq_true_2 in E by done.
  destruct (exchange_read fuel w GET (str "/") [] [] READY_TIMEOUT _ _ Hserving
    ltac:(by vm_compute) eq_refl E Hs Hfuel) as (w' & Hw & Ereq & Hfind).
  exists w'. split; [done|]. unfold csrf_cookie. rewrite Ereq.
  cbn [status_code response_header_map]. change (negb _) with false. cbv iota.
  rewrite Hfind. unfold page_response. find_response_header. cbn [mbind option_bind].
  by rewrite cookie_token_minted.
Qed.

Lemma read_status s act :
  actor_status (actor (hosted w)) = (s, act) -> reads_back (Body.Status (status_body s)) ->
  sound_status s -> numbers_fit s ->
  exists w', hosted w' = mkWebApp act (security (hosted w)) /\
    LocalClient.status fuel port w = Some (Ok (local_status s), w').
Proof.
  intros Es [Hj Hs] Hss Hn. pose proof Hserving as [Hm Hp _ _].
  destruct (get_handled (hosted w) Hp (str "/api/status")) as (request & Hmeth & Htar & E);
    [by vm_compute|by apply Nat.leb_le|].
  unfold route in E. rewrite Hmeth, Htar in E. cbv zeta in E.
  rewrite bool_decide_eq_false_2, bool_decide_eq_true_2, Es in E by done.
  destruct (exchange_read fuel w GET (str "/api/status") [] [] STATUS_TIMEOUT _ _ Hserving
    ltac:(by vm_compute) eq_refl E Hs Hfuel) as (w' & Hw & Ereq & Hfind).
  exists w'. split; [done|]. unfold LocalClient.status. rewrite Ereq.
  cbn [status_code response_header_map payload]. change (negb _) with false. cbv iota.
  change (response_body (status_response s)) with (to_vec (Body.Status (status_body s))).
  rewrite Hj. cbn [mbind option_bind body_value]. rewrite decode_status_value by done.
  unfold checked, has_etag. cbn [response_header_map]. rewrite Hfind, sound_status_valid by done.
  assert (status_revision (local_status s) = cs_revision s) as -> by by destruct s as [?? []].
  unfold status_response. find_response_header. by rewrite bool_decide_eq_true_2.
Qed.
Lemma post_action path m rule content n result act :
  mutation_route path = Some (m, rule) -> body_matches rule content = true ->
  length content <= MAX_BODY_BYTES -> n = revision (controller (actor (hosted w))) ->
  unsaturated (controller (actor (hosted w))) ->
  on_controller (controller_mutation m) (actor (hosted w)) = (result, act) ->
  reads_back (Body.Action (action_body result)) ->
  exists r w', hosted w' = mkWebApp act (security (hosted w)) /\
    request fuel port POST path (mutation_headers port (csrf_token (security (hosted w))) n)
      content ACTION_TIMEOUT w = Some (Ok r, w') /\
    check_mutation (local_action_name (action_of m)) n r = Ok (local_action_result result).
Proof.
  intros Hroute Hbody Hlen -> Hun Em [Hj Hs]. pose proof Hserving as [Hm Hp Hwf _].
  destruct (on_controller_spec _ _ _ _ Em) as (now & Ec & _).
  rewrite controller_mutation_action in Ec.
  pose proof (mutate_revision_grows _ _ _ _ _ Ec Hun) as Hgrow.
  pose proof (wf_revision _ (wf_mutate _ _ _ _ _ Ec Hwf)) as Hrange.
  destruct (mutate_reported _ _ _ _ _ Ec) as [Hrev Hname].
  set (n := revision (controller (actor (hosted w)))) in *.
  assert (0 <= n <= u64_max)%Z as Hn by apply (wf_revision _ Hwf).
  pose proof (mutation_handled (hosted w) Hm Hp path m rule content n Hroute Hbody Hlen Hn) as E.
  cbn [mutate_if_revision ControllerWebActor_actor] in E. fold n in E. rewrite Z.eqb_refl, Em in E.
  cbn [negb mutation_reply] in E.
  destruct (exchange_read fuel w POST path (mutation_headers port (csrf_token (security (hosted w))) n)
    content ACTION_TIMEOUT _ _ Hserving ltac:(by vm_compute) (mutation_headers_valid _ _ _ Hp Hm Hn)
    E Hs Hfuel) as (w' & Hw & Ereq & Hfind).
  eexists _, w'. split; [done|]. split; [done|]. unfold check_mutation.
  cbn [status_code response_header_map payload]. change (_ =? 409)%Z with false.
  change (negb (_ =? 200)%Z) with false. cbv iota.
  change (response_body (action_response result)) with (to_vec (Body.Action (action_body result))).
  rewrite Hj. cbn [mbind option_bind body_value].
  rewrite decode_action_value by (rewrite Hrev; done). cbn [ok_or].
  cbn [local_action_result LocalModel.action action_revision].
  rewrite Hname, bool_decide_eq_true_2, (proj2 (Z.leb_gt _ _)) by (done || lia). cbn [negb orb].
  unfold has_etag. cbn [response_header_map]. rewrite Hfind.
  unfold action_response. find_response_header. by rewrite bool_decide_eq_true_2.
Qed.
End Steps.

(** The client drives the controller. Over a network that delivers, a mutation
    of the command-line client is a mutation of the controller behind the
    service: it reads one status, runs exactly that action once, at the
    revision just read, and reports the controller's own result, whatever its
    outcome. Token, origin, revision, framing and JSON checks on either side
    never stand in the way of the genuine client. *)
Lemma client_drives_controller fuel (w : world) path m rule content s act1 result act2 :
  serving (hosted w) -> (MAX_RESPONSE_BYTES < Z.of_nat fuel)%Z ->
  mutation_route path = Some (m, rule) -> body_matches rule content = true ->
  length content <= MAX_BODY_BYTES ->
  on_controller Controller.status (actor (hosted w)) = (s, act1) -> unsaturated (controller act1) ->
  on_controller (controller_mutation m) act1 = (result, act2) ->
  small (page_html (csrf_token (security (hosted w)))) ->
  reads_back (Body.Status (status_body s)) -> reads_back (Body.Action (action_body result)) ->
  exists w', hosted w' = mkWebApp act2 (security (hosted w)) /\
    mutate_with_body fuel (bind_port (security (hosted w))) path (local_action_name (action_of m))
      content w = Some (Ok (local_action_result result), w').
Proof.
  intros Hserving Hfuel Hroute Hbody Hlen Es Hun Em Hpage Hst Hact.
  pose proof Hserving as [Hm Hp Hwf Hok].
  destruct (on_controller_spec _ _ _ _ Es) as (now1 & Ec1 & _).
  destruct (served_status_sound _ _ _ _ Ec1 Hwf Hok) as [Hss Hn].
  pose proof (wf_status _ _ _ _ Ec1 Hwf) as Hwf1. pose proof (status_reported _ _ _ _ Ec1) as Hrev.
  destruct (fetch_token fuel w Hserving Hfuel Hpage) as (w1 & Hw1 & E1).
  rewrite <- Hw1 in Hserving, Es.
  destruct (read_status fuel w1 Hserving Hfuel s act1 Es Hst Hss Hn) as (w2 & Hw2 & E2).
  rewrite Hw1 in Hw2, E2.
  assert (serving (hosted w2)) as Hserving2.
  { rewrite Hw2. split; [done..|]. cbn [actor]. eapply reachable_health_ok; [|exact Hok].
    apply rtc_once. by eapply step_status. }
  destruct (post_action fuel w2 Hserving2 Hfuel path m rule content (cs_revision s) result act2)
    as (r & w3 & Hw3 & E3 & Hc); rewrite ?Hw2; try done.
  rewrite Hw2 in Hw3, E3. cbn [security] in Hw3, E3.
  exists w3. split; [done|]. unfold mutate_with_body. rewrite E1, E2.
  assert (status_revision (local_status s) = cs_revision s) as -> by by destruct s as [?? []].
  by rewrite E3, Hc.
Qed.
End Service.
