(* ===== verification/JblClient.v ===== *)
(** The LAN client of the JBL speaker (rust/src/client.rs): pinned reads, the one
    state-changing POST and its classification, the model cross-check over UPnP,
    and the membership read, with the probe and the role control that are built
    on it (rust/src/backend_native.rs).  The HTTP agents (ureq over OpenSSL), the
    XML and the JSON parser are third-party code and parameters. *)
From S2P Require Import Prelude Bytes Web Backend Model Control Controller BackendNative.

Definition MAX_JBL_RESPONSE_BYTES : Z := 1048576.
Definition JBL_HTTPS_PORT : Z := 443.
Definition JBL_UPNP_PORT : Z := 59152.

Module Command.
Inductive t := DeviceInfo | AuraCastGroupInfo.
#[global] Instance eq_dec : EqDecision t. Proof. solve_decision. Defined.
Definition api_name (c : t) : bytes :=
  match c with
  | DeviceInfo => str "getDeviceInfo"
  | AuraCastGroupInfo => str "getAuraCastGroupInfo"
  end.
End Command.

(** * The HTTP agents *)

(** The three agents: pinned reads, pinned writes without a connection pool, and
    the unauthenticated UPnP reads. *)
Module Agent.
Inductive t := Read | Write | Upnp.
#[global] Instance eq_dec : EqDecision t. Proof. solve_decision. Defined.
End Agent.

(** [ureq::ErrorKind], as far as the client distinguishes it. *)
Module ErrorKind.
Inductive t :=
| InvalidUrl | UnknownScheme | Dns | InsecureRequestHttpsOnly | ConnectionFailed
| InvalidProxyUrl | ProxyConnect | ProxyUnauthorized | Other.
#[global] Instance eq_dec : EqDecision t. Proof. solve_decision. Defined.
End ErrorKind.

(** One error of a chain of sources: the pin mismatch, an I/O error with the
    pin mismatch boxed in it or not, or anything else. *)
Module ErrorSource.
Inductive t := PinMismatch | Io (inner_is_pin_mismatch : bool) | Other.
End ErrorSource.

(** [ureq::Transport]: its kind, and the chain of its sources. *)
Record Transport := mkTransport {
  transport_kind : ErrorKind.t;
  sources : list ErrorSource.t;
}.

(** [ureq::Error]; a response with an error status is still a response. *)
Module CallError.
Inductive t (R : Type) := Status (code : Z) (response : R) | Transport_ (transport : Transport).
Arguments Status {R}.
Arguments Transport_ {R}.
End CallError.

Class Ureq (W R : Type) := {
  http_status : R -> Z;
  (** [agent.get(url).set(..)...call()]. *)
  agent_get : Agent.t -> bytes -> list (bytes * bytes) -> W -> result R (CallError.t R) * W;
  (** [agent.post(url).set(..)...send_bytes(body)]. *)
  agent_post : Agent.t -> bytes -> list (bytes * bytes) -> bytes -> W ->
    result R (CallError.t R) * W;
  (** [response.into_reader().take(limit).read_to_end(..)]. *)
  read_limited : Z -> R -> W -> result bytes unit * W;
}.

(** An XML node, as far as it is looked at, and the two parsers. *)
Record XmlNode := mkXmlNode {
  is_element : bool;
  tag_name : bytes;
  node_text : option bytes;
}.
Class JblLibrary := {
  json_from_slice : bytes -> option Value.t;
  (** [roxmltree::Document::parse] and [descendants]. *)
  xml_descendants : bytes -> option (list XmlNode);
}.

Definition error_is_peer_pin_mismatch (error : ErrorSource.t) : bool :=
  match error with
  | ErrorSource.PinMismatch => true
  | ErrorSource.Io inner_is_pin_mismatch => inner_is_pin_mismatch
  | ErrorSource.Other => false
  end.

Definition has_peer_pin_mismatch (transport : Transport) : bool :=
  existsb error_is_peer_pin_mismatch (sources transport).

Definition definitely_not_sent (kind : ErrorKind.t) : bool :=
  match kind with ErrorKind.Other => false | _ => true end.

Definition classify_write_transport (transport : Transport) : PlayTogetherWriteResult.t :=
  if has_peer_pin_mismatch transport
  then PlayTogetherWriteResult.Rejected JblError.PeerCertificateMismatch
  else if definitely_not_sent (transport_kind transport)
  then PlayTogetherWriteResult.Rejected JblError.NetworkUnreachable
  else PlayTogetherWriteResult.OutcomeUnknown JblError.NetworkUnreachable.

(** * The client *)

(** The text of an address is given by the standard library. *)
Record JblLanClient (W : Type) := mkJblClient {
  address_is_v4 : bool;
  address_text : bytes;
  https_port : Z;
  upnp_port : Z;
  agents : W;
}.
Arguments mkJblClient {W}.
Arguments address_is_v4 {W}.
Arguments address_text {W}.
Arguments https_port {W}.
Arguments upnp_port {W}.
Arguments agents {W}.

(** A literal text with its double quotes spelled as apostrophes. *)
Definition dq (s : String.string) : bytes :=
  map (fun c => if bool_decide (c = z2b 39) then DQUOTE else c) (str s).

Definition ACCEPT_JSON : list (bytes * bytes) :=
  [(str "Accept", str "application/json"); (str "Accept-Encoding", str "identity")].

Definition ENVELOPE : bytes :=
  dq "<?xml version='1.0' encoding='utf-8'?>" ++
  dq "<s:Envelope s:encodingStyle='http://schemas.xmlsoap.org/soap/encoding/' " ++
  dq "xmlns:s='http://schemas.xmlsoap.org/soap/envelope/'><s:Body>" ++
  dq "<u:GetControlDeviceInfo xmlns:u='urn:schemas-upnp-org:service:RenderingControl:1'>" ++
  dq "<InstanceID>0</InstanceID></u:GetControlDeviceInfo></s:Body></s:Envelope>".

Section Client.
Context {W R : Type} `{Ureq W R} `{JblLibrary}.
#[local] Abbreviation client := (JblLanClient W).
#[local] Abbreviation call T := (client -> result T JblError.t * client)%type.

Definition set_agents (w : W) (c : client) : client :=
  mkJblClient (address_is_v4 c) (address_text c) (https_port c) (upnp_port c) w.

Definition bracketed (c : client) : bytes :=
  if address_is_v4 c then address_text c else str "[" ++ address_text c ++ str "]".

(** [:port], left out when it is the default. *)
Definition authority_of (c : client) : bytes :=
  bracketed c ++ (if (https_port c =? JBL_HTTPS_PORT)%Z then [] else str ":" ++ dec (https_port c)).

Definition endpoint (command : Command.t) (c : client) : bytes :=
  str "https://" ++ authority_of c ++ str "/httpapi.asp?command=" ++ Command.api_name command.
Definition write_endpoint (c : client) : bytes :=
  str "https://" ++ authority_of c ++ str "/httpapi.asp".
Definition upnp_endpoint (c : client) : bytes :=
  str "http://" ++ bracketed c ++ str ":" ++ dec (upnp_port c) ++ str "/upnp/control/rendercontrol1".

(** The bounded read of a response. *)
Definition read_payload (response : R) : call bytes := fun c =>
  let '(payload, w) := read_limited (MAX_JBL_RESPONSE_BYTES + 1) response (agents c) in
  (match payload with
   | Err _ => Err JblError.NetworkUnreachable
   | Ok payload =>
       if (MAX_JBL_RESPONSE_BYTES <? Z.of_nat (length payload))%Z
       then Err JblError.ResponseTooLarge else Ok payload
   end, set_agents w c).

Definition get_json (command : Command.t) : call Value.t := fun c =>
  let '(response, w) := agent_get Agent.Read (endpoint command c) ACCEPT_JSON (agents c) in
  let c := set_agents w c in
  match response with
  | Err (CallError.Status status _) => (Err (JblError.HttpStatus status), c)
  | Err (CallError.Transport_ transport) =>
      (Err (if has_peer_pin_mismatch transport then JblError.PeerCertificateMismatch
            else JblError.NetworkUnreachable), c)
  | Ok response =>
      if negb (http_status response =? 200)%Z
      then (Err (JblError.HttpStatus (http_status response)), c)
      else
      let?! (payload, c) := read_payload response c in
      (ok_or (json_from_slice payload) JblError.InvalidJson, c)
  end.

Definition write_response (response : R) (c : client) : PlayTogetherWriteResult.t * client :=
  if negb (http_status response =? 200)%Z
  then (PlayTogetherWriteResult.OutcomeUnknown (JblError.HttpStatus (http_status response)), c)
  else
  match read_payload response c with
  | (Err error, c) => (PlayTogetherWriteResult.OutcomeUnknown error, c)
  | (Ok payload, c) =>
      (match BasicResponse.parse json_from_slice payload with
       | Ok response => PlayTogetherWriteResult.Accepted response
       | Err JblError.ControlCommandRejected =>
           PlayTogetherWriteResult.Rejected JblError.ControlCommandRejected
       | Err error => PlayTogetherWriteResult.OutcomeUnknown error
       end, c)
  end.

Definition send_control_form (form_body : bytes) (c : client)
  : PlayTogetherWriteResult.t * client :=
  let '(response, w) :=
    agent_post Agent.Write (write_endpoint c)
      (ACCEPT_JSON ++ [(str "Content-Type", str "application/x-www-form-urlencoded")])
      form_body (agents c) in
  let c := set_agents w c in
  match response with
  | Ok response | Err (CallError.Status _ response) => write_response response c
  | Err (CallError.Transport_ transport) => (classify_write_transport transport, c)
  end.

Definition send_play_together (command : PlayTogetherCommand.t)
  : client -> PlayTogetherWriteResult.t * client :=
  send_control_form (PlayTogetherCommand.form_body command).

(** The model name in the answer to [GetControlDeviceInfo]. *)
Definition control_model (payload : bytes) : result bytes JblError.t :=
  if negb (utf8_valid payload) then Err JblError.InvalidXml
  else
  let? nodes := ok_or (xml_descendants payload) JblError.InvalidXml in
  let? status :=
    ok_or (find (fun node => is_element node && bool_decide (tag_name node = str "Status")) nodes
           ≫= node_text) JblError.ControlDeviceInfoMissing in
  let? value := ok_or (json_from_slice status) JblError.InvalidJson in
  ok_or (trim <$> (value_get (str "hm_product_name") value ≫= Value.as_str))
    JblError.ControlDeviceInfoMissing.

Definition verified_model (expected_model : bytes) : call bytes := fun c =>
  if negb (bool_decide (expected_model = SUPPORTED_JBL_MODEL))
  then (Err JblError.UnexpectedDeviceModel, c)
  else
  let '(response, w) :=
    agent_post Agent.Upnp (upnp_endpoint c)
      [(str "Content-Type", dq "text/xml;charset='utf-8'");
       (str "SOAPAction",
        dq "'urn:schemas-upnp-org:service:RenderingControl:1#GetControlDeviceInfo'")]
      ENVELOPE (agents c) in
  let c := set_agents w c in
  match response with
  | Err (CallError.Status status _) => (Err (JblError.HttpStatus status), c)
  | Err (CallError.Transport_ _) => (Err JblError.NetworkUnreachable, c)
  | Ok response =>
      let?! (payload, c) := read_payload response c in
      (let? actual_model := control_model payload in
       if negb (bool_decide (actual_model = expected_model))
       then Err JblError.UnexpectedDeviceModel else Ok SUPPORTED_JBL_MODEL, c)
  end.

Definition group_status (jbl aura : DeviceIdentity) : call GroupStatus := fun c =>
  let?! (response, c) := get_json Command.AuraCastGroupInfo c in
  (parse_group_status response jbl aura, c).

(** [parse_device_info(&self.get_json(Command::DeviceInfo)?)]. *)
Definition device_info : call DeviceInfo := fun c =>
  let?! (response, c) := get_json Command.DeviceInfo c in (parse_device_info response, c).

Definition pair_configuration_status (expected_model : bytes) (jbl aura : DeviceIdentity)
  : call GroupStatus := fun c =>
  let?! (_, c) := device_info c in
  let?! (_, c) := verified_model expected_model c in
  group_status jbl aura c.

Definition sanitized_status (expected_model : bytes) (jbl aura : DeviceIdentity)
  : call SanitizedStatus := fun c =>
  let?! (device, c) := device_info c in
  let?! (verified, c) := verified_model expected_model c in
  let?! (play_together, c) := group_status jbl aura c in
  (Ok (mkSanitizedStatus
         (mkDeviceInfo (Some verified) (Some verified) (firmware device) (one_os_version device))
         play_together), c).

(** * What the native backend builds on it *)

#[export] Instance JblLanClient_control : JblRoleControl client := {
  enter := send_play_together PlayTogetherCommand.Enter;
  exit := send_play_together PlayTogetherCommand.Exit;
}.

Record JblPairConfigurationProbe := mkProbe {
  probe_client : client;
  probe_expected_model : bytes;
  probe_jbl_identity : DeviceIdentity;
  probe_aura_identity : DeviceIdentity;
}.

#[export] Instance JblPairConfigurationProbe_probe
  : PairConfigurationProbe JblPairConfigurationProbe := {
  pair_configuration p :=
    let '(r, c) :=
      pair_configuration_status (probe_expected_model p) (probe_jbl_identity p)
        (probe_aura_identity p) (probe_client p) in
    (map_err map_probe_error (map_ok from_group_status r),
     mkProbe c (probe_expected_model p) (probe_jbl_identity p) (probe_aura_identity p));
}.
End Client.
Arguments JblPairConfigurationProbe : clear implicits.
