(* ===== verification/JblSpec.v ===== *)
(** What the LAN client guarantees: a role command leaves at most once and its
    outcome is never reported better than it is, and the membership read is
    authenticated first and writes nothing.  With it the native installation
    implements the interfaces of the service. *)
From S2P Require Import Prelude Bytes LocalModel Web Backend Model Control Controller.
From S2P Require Import ControllerSpec AuraWake AuraBluez BackendNative NativeSpec JblClient BodySpec.

(** What the agents promise: only the write agent changes the device, it tries
    once, and an error from before the request was written says so. *)
Class UreqLaws (W R : Type) `{Ureq W R} := {
  posts : W -> nat;
  agent_get_posts a url hs w r w' : agent_get a url hs w = (r, w') -> posts w' = posts w;
  upnp_posts url hs body w r w' :
    agent_post Agent.Upnp url hs body w = (r, w') -> posts w' = posts w;
  read_posts n response w r w' : read_limited n response w = (r, w') -> posts w' = posts w;
  write_once url hs body w r w' :
    agent_post Agent.Write url hs body w = (r, w') -> posts w <= posts w' <= S (posts w);
  write_not_sent url hs body w t w' :
    agent_post Agent.Write url hs body w = (Err (CallError.Transport_ t), w') ->
    transport_kind t <> ErrorKind.Other \/
      (exists e, e ∈ sources t /\ (e = ErrorSource.PinMismatch \/ e = ErrorSource.Io true)) ->
    posts w' = posts w;
}.

Section Client.
Context {W R : Type} `{UreqLaws W R} `{JblLibrary}.
#[local] Abbreviation client := (JblLanClient W).

Definition client_posts (c : client) : nat := posts (agents c).

Lemma read_payload_posts response (c c' : client) r :
  read_payload response c = (r, c') -> client_posts c' = client_posts c.
Proof.
  unfold read_payload. destruct (read_limited _ _ _) as [p w] eqn:E. apply read_posts in E.
  by intros [= _ <-].
Qed.

Lemma get_json_posts command (c c' : client) r :
  get_json command c = (r, c') -> client_posts c' = client_posts c.
Proof.
  unfold get_json. destruct (agent_get _ _ _ _) as [response w] eqn:E. apply agent_get_posts in E.
  destruct response as [response|[status x|transport]]; try (by intros [= _ <-]).
  destruct (negb _); [by intros [= _ <-]|].
  destruct (read_payload _ _) as [[p|e] c1] eqn:E1; apply read_payload_posts in E1;
    intros [= _ <-]; by rewrite E1.
Qed.

Lemma verified_model_posts model (c c' : client) r :
  verified_model model c = (r, c') -> client_posts c' = client_posts c.
Proof.
  unfold verified_model. destruct (negb _); [by intros [= _ <-]|].
  destruct (agent_post _ _ _ _ _) as [response w] eqn:E. apply upnp_posts in E.
  destruct response as [response|[status x|transport]]; try (by intros [= _ <-]).
  destruct (read_payload _ _) as [[p|e] c1] eqn:E1; apply read_payload_posts in E1;
    intros [= _ <-]; by rewrite E1.
Qed.

Lemma write_response_spec response (c c' : client) r :
  write_response response c = (r, c') -> client_posts c' = client_posts c /\
  (forall e, r = PlayTogetherWriteResult.Rejected e -> e = JblError.ControlCommandRejected) /\
  (forall ack, r = PlayTogetherWriteResult.Accepted ack -> http_status response = 200%Z /\
     exists payload, read_payload response c = (Ok payload, c') /\
       (Z.of_nat (length payload) <= MAX_JBL_RESPONSE_BYTES)%Z /\
       BasicResponse.parse json_from_slice payload = Ok ack).
Proof.
  unfold write_response. destruct (negb _) eqn:Es; [intros [= <- <-]; by split_and!|]. bool_hyps.
  destruct (read_payload response c) as [[payload|e] c1] eqn:E1;
    pose proof (read_payload_posts _ _ _ _ E1); [|intros [= <- <-]; by split_and!].
  destruct (BasicResponse.parse _ payload) as [ack|e] eqn:Ep; intros [= <- <-].
  - split_and!; [done|done|]. intros [] _. destruct ack. split; [done|]. exists payload. split_and!; [done| |done].
    unfold read_payload in E1. destruct (read_limited _ _ _) as [[p|] w]; [|done].
    destruct (_ <? _)%Z eqn:El; [done|]. bool_hyps. by injection E1 as <- _.
  - split_and!; [done| |]; destruct e; by intros; simplify_eq.
Qed.

Lemma classified_not_sent t e :
  classify_write_transport t = PlayTogetherWriteResult.Rejected e ->
  (e = JblError.PeerCertificateMismatch \/ e = JblError.NetworkUnreachable) /\
  (transport_kind t <> ErrorKind.Other \/
   exists e, e ∈ sources t /\ (e = ErrorSource.PinMismatch \/ e = ErrorSource.Io true)).
Proof.
  unfold classify_write_transport. destruct (has_peer_pin_mismatch t) eqn:Hp.
  - intros [= <-]. split; [by left|]. right. unfold has_peer_pin_mismatch in Hp.
    apply existsb_exists in Hp as (x & Hx & Hm). exists x. split; [by apply list_elem_of_In|].
    destruct x as [|[]|]; by auto.
  - destruct (definitely_not_sent _) eqn:Hk; [|done]. intros [= <-]. split; [by right|]. left.
    intros E. by rewrite E in Hk.
Qed.

(** How a role command can come out. *)
Lemma send_control_form_spec form (c c' : client) r :
  send_control_form form c = (r, c') ->
  client_posts c <= client_posts c' <= S (client_posts c) /\
  match r with
  | PlayTogetherWriteResult.Rejected e =>
      e = JblError.ControlCommandRejected \/
      client_posts c' = client_posts c /\
        (e = JblError.PeerCertificateMismatch \/ e = JblError.NetworkUnreachable)
  | PlayTogetherWriteResult.Accepted ack =>
      exists response c1 payload, http_status response = 200%Z /\
        read_payload response c1 = (Ok payload, c') /\
        (Z.of_nat (length payload) <= MAX_JBL_RESPONSE_BYTES)%Z /\
        BasicResponse.parse json_from_slice payload = Ok ack
  | PlayTogetherWriteResult.OutcomeUnknown _ => True
  end.
Proof.
  unfold send_control_form. destruct (agent_post _ _ _ _ _) as [response w] eqn:E.
  pose proof (write_once _ _ _ _ _ _ E) as Hone. change (posts (agents c)) with (client_posts c) in Hone.
  assert (forall response, write_response response (set_agents w c) = (r, c') ->
    client_posts c <= client_posts c' <= S (client_posts c) /\
    match r with
    | PlayTogetherWriteResult.Rejected e =>
        e = JblError.ControlCommandRejected \/
        client_posts c' = client_posts c /\
          (e = JblError.PeerCertificateMismatch \/ e = JblError.NetworkUnreachable)
    | PlayTogetherWriteResult.Accepted ack =>
        exists response c1 payload, http_status response = 200%Z /\
          read_payload response c1 = (Ok payload, c') /\
          (Z.of_nat (length payload) <= MAX_JBL_RESPONSE_BYTES)%Z /\
          BasicResponse.parse json_from_slice payload = Ok ack
    | PlayTogetherWriteResult.OutcomeUnknown _ => True
    end) as Hresp.
  { intros x Hx. apply write_response_spec in Hx as (Hp & Hr & Ha).
    change (client_posts (set_agents w c)) with (posts w) in Hp. split; [by rewrite Hp|].
    destruct r as [ack|e|e]; [|left; by apply Hr|done].
    destruct (Ha ack eq_refl) as (Hs & payload & Hread & Hl & Hparse). eauto 10. }
  destruct response as [response|[status response|transport]]; [by apply Hresp..|].
  intros [= Hr <-]. split; [exact Hone|]. destruct r as [ack|e|e]; [| |done].
  - unfold classify_write_transport in Hr. repeat case_match; done.
  - destruct (classified_not_sent _ _ Hr) as [He Hsrc]. right. split; [|done].
    by apply (write_not_sent _ _ _ _ _ _ E).
Qed.


(** C29 The membership read authenticates before it believes. It writes nothing,
    whatever happens; if the pinned device read fails, for instance on another
    certificate, nothing else is asked; and it succeeds only when the pinned
    read, the model name over UPnP, which must be the supported model, and a
    second pinned read succeeded in this order, and is then exactly the
    projection of that last answer. *)
Theorem membership_read_exact model jbl aura (c c' : client) r :
  pair_configuration_status model jbl aura c = (r, c') ->
  client_posts c' = client_posts c /\
  (forall e c1, device_info c = (Err e, c1) -> r = Err e /\ c' = c1) /\
  (forall st, r = Ok st -> model = SUPPORTED_JBL_MODEL /\
     exists info c1 c2 value, device_info c = (Ok info, c1) /\
       verified_model model c1 = (Ok SUPPORTED_JBL_MODEL, c2) /\
       get_json Command.AuraCastGroupInfo c2 = (Ok value, c') /\
       parse_group_status value jbl aura = Ok st).
Proof.
  unfold pair_configuration_status. destruct (device_info c) as [d c1] eqn:Ed.
  assert (client_posts c1 = client_posts c) as Hp1.
  { unfold device_info in Ed. destruct (get_json _ c) as [[v|e] c0] eqn:Eg;
      apply get_json_posts in Eg; by simplify_eq. }
  destruct d as [info|e]; [|intros [= <- <-]; split_and!; by intros; simplify_eq].
  destruct (verified_model model c1) as [v c2] eqn:Ev. pose proof (verified_model_posts _ _ _ _ Ev) as Hp2.
  destruct v as [name|e]; [|intros [= <- <-]; split_and!; by intros; simplify_eq; congruence].
  assert (model = SUPPORTED_JBL_MODEL /\ name = SUPPORTED_JBL_MODEL) as [Hm ->].
  { unfold verified_model in Ev. destruct (negb _) eqn:En; [done|]. bool_hyps.
    repeat case_match; by simplify_eq. }
  unfold group_status. destruct (get_json _ c2) as [[value|e] c3] eqn:Eg;
    pose proof (get_json_posts _ _ _ _ Eg); intros [= <- <-]; split_and!;
    try (intros; simplify_eq; congruence).
  intros st Hst. split; [done|]. by exists info, c1, c2, value.
Qed.

(** ** The interfaces of the service *)

#[export] Instance JblLanClient_laws : JblRoleControlLaws client.
Proof.
  refine {| jbl_writes := client_posts |}. intros c e c' E Hne.
  apply send_control_form_spec in E as [_ [->|[? _]]]; [done|done].
Defined.

#[export] Instance JblProbe_sound : SoundProbe (JblPairConfigurationProbe W).
Proof.
  intros p obs p' E. simpl in E.
  destruct (pair_configuration_status _ _ _ _) as [[st|e] c] eqn:Ep; [|done].
  simplify_eq/=. unfold pair_configuration_status in Ep.
  destruct (device_info _) as [[d|e] c1]; [|done].
  destruct (verified_model _ c1) as [[v|e] c2]; [|done]. unfold group_status in Ep.
  destruct (get_json _ c2) as [[value|e] c3]; [|done]. simplify_eq.
  by eapply from_group_status_sound.
Qed.
End Client.

(** ** The native backend's health *)

(** A retained bearer was reached by a route of its own transport. *)
Class AuraBearerLaws (I : Type) `{AuraIo I} := {
  bearer_ok : I -> Prop;
  io_bearer_sound i t r :
    bearer_ok i -> io_bearer i = Some (t, r) ->
    match r with
    | AuraAcquisitionRoute.StableDirect | AuraAcquisitionRoute.A2dpWakeThenStable =>
        t = AuraBearerTransport.BrEdr
    | AuraAcquisitionRoute.FreshLe => t = AuraBearerTransport.Le
    | AuraAcquisitionRoute.Unresolved => True
    end;
  connect_verified_ok d i r i' : io_connect_verified d i = (r, i') -> bearer_ok i -> bearer_ok i';
  io_health_ok i h i' : io_health i = (h, i') -> bearer_ok i -> bearer_ok i';
  prepare_command_ok i r i' : prepare_command i = (r, i') -> bearer_ok i -> bearer_ok i';
  begin_write_ok cmd i r i' : begin_write cmd i = (r, i') -> bearer_ok i -> bearer_ok i';
  wait_for_ack_ok i r i' : wait_for_ack i = (r, i') -> bearer_ok i -> bearer_ok i';
  io_shutdown_ok i r i' : io_shutdown i = (r, i') -> bearer_ok i -> bearer_ok i';
}.

Section Bearer.
Context {I : Type} `{AuraBearerLaws I}.

(** The uses of the command core keep that. *)
Lemma core_connect_ok d (c c' : AuraControlCore I) r :
  core_connect_verified d c = (r, c') -> bearer_ok (io c) -> bearer_ok (io c').
Proof.
  unfold core_connect_verified. intros E Hi. destruct (unresolved c).
  - destruct (io_shutdown (io c)) as [[[]|] i1] eqn:E1; apply io_shutdown_ok in E1; simplify_eq/=;
      auto. destruct (io_connect_verified d i1) as [[[]|] i2] eqn:E2; simplify_eq/=;
      eauto using connect_verified_ok.
  - destruct (io_connect_verified d (io c)) as [[[]|] i2] eqn:E2; simplify_eq/=;
      eauto using connect_verified_ok.
Qed.

Lemma core_health_ok (c c' : AuraControlCore I) h :
  core_health c = (h, c') -> bearer_ok (io c) -> bearer_ok (io c').
Proof.
  unfold core_health. intros E Hi. destruct (unresolved c); [by simplify_eq|].
  destruct (io_health (io c)) as [h1 i1] eqn:E1. simplify_eq/=. eauto using io_health_ok.
Qed.

Lemma core_shutdown_ok (c c' : AuraControlCore I) r :
  core_shutdown c = (r, c') -> bearer_ok (io c) -> bearer_ok (io c').
Proof.
  unfold core_shutdown. intros E Hi. destruct (io_shutdown (io c)) as [r1 i1] eqn:E1.
  simplify_eq/=. eauto using io_shutdown_ok.
Qed.

Lemma core_command_ok cmd (c c' : AuraControlCore I) r :
  command cmd c = (r, c') -> bearer_ok (io c) -> bearer_ok (io c').
Proof.
  unfold command, latch_unknown. intros E Hi. destruct (unresolved c); [by simplify_eq|].
  destruct (io_health (io c)) as [h i1] eqn:E1. apply io_health_ok in E1; [|done].
  destruct (negb _); [by simplify_eq/=|].
  pose proof (prepare_command_ok i1). pose proof (begin_write_ok cmd). pose proof wait_for_ack_ok.
  destruct (prepare_command i1) as [[u|e] i2]; [|simplify_eq/=; eauto].
  destruct (begin_write cmd i2) as [[u3|e] i3] eqn:E3; [|simplify_eq/=; eauto].
  destruct (wait_for_ack i3) as [[[]|e] i4] eqn:E4; simplify_eq/=; eauto.
Qed.
End Bearer.

Lemma core_bearer_keeps {I : Type} `{AuraBearerLaws I} :
  aura_keeps (fun a : AuraControlCore I => bearer_ok (io a)).
Proof.
  constructor; intros; simpl in *;
    eauto using core_connect_ok, core_health_ok, core_command_ok, core_shutdown_ok.
Qed.

#[export] Instance native_health_sound {J I O} `{JblRoleControl J} `{AuraBearerLaws I}
    `{BroadcastResultObserver O} : SoundHealth (NativePairCore J (AuraControlCore I) O).
Proof.
  refine {| health_ok c := bearer_ok (io (aura c)) |}.
  - intros c h c' Hc E. pose proof (backend_call_keeps _ core_bearer_keeps c c'
      (backend_asked _ _ _ E) Hc) as Hc'. simpl in E. unfold native_health in E.
    destruct (call_aura aura_health c) as [x c1]. simplify_eq. unfold sound_health.
    cbn [aura_acquisition_route Backend.aura_transport new_with_route acquisition_route transport
      BluezAuraTransport].
    destruct (io_bearer (io (aura c'))) as [[t r]|] eqn:Eb; [|done].
    apply io_bearer_sound in Eb; [|done]. destruct r; simplify_eq/=; try done; by rewrite Eb.
  - intros c c' Hc Hcall. by apply (backend_call_keeps _ core_bearer_keeps c c').
Defined.
