(* ===== verification/PrivateFile.v ===== *)
(** Private files (rust/src/private_file.rs): how the configuration and the
    client credentials are opened, checked and read.  The kernel is an
    interface ([PrivateFs]); what its documentation promises about reading a
    regular file is [PrivateFsLaws]. *)
From S2P Require Import Prelude.
From S2P Require Import Bytes.
From S2P Require Import Journal.
From S2P Require Import Model.

(** * Data *)

Module PrivateFileKind.
Inductive t := Config | Certificate | PrivateKey.
#[global] Instance eq_dec : EqDecision t. Proof. solve_decision. Defined.
End PrivateFileKind.

Module OpenPrivateError.
Inductive t := Missing | PermissionDenied | SymlinkRejected | Unsupported | Other.
#[global] Instance eq_dec : EqDecision t. Proof. solve_decision. Defined.
End OpenPrivateError.

Definition unavailable (kind : PrivateFileKind.t) : JblError.t :=
  match kind with
  | PrivateFileKind.Config => JblError.ConfigUnavailable
  | PrivateFileKind.Certificate => JblError.CertificateUnavailable
  | PrivateFileKind.PrivateKey => JblError.PrivateKeyUnavailable
  end.

Definition permissions (kind : PrivateFileKind.t) : JblError.t :=
  match kind with
  | PrivateFileKind.Config => JblError.ConfigPermissions
  | PrivateFileKind.Certificate => JblError.CertificatePermissions
  | PrivateFileKind.PrivateKey => JblError.PrivateKeyPermissions
  end.

Definition invalid (kind : PrivateFileKind.t) : JblError.t :=
  match kind with
  | PrivateFileKind.Config => JblError.InvalidConfig
  | PrivateFileKind.Certificate | PrivateFileKind.PrivateKey =>
      JblError.CredentialFileInvalid
  end.

Definition too_large (kind : PrivateFileKind.t) : JblError.t :=
  match kind with
  | PrivateFileKind.Config => JblError.ConfigTooLarge
  | PrivateFileKind.Certificate | PrivateFileKind.PrivateKey =>
      JblError.CredentialTooLarge
  end.

(** * The kernel *)

(** [errno] values and flags of Linux, as [libc] spells them. *)
Definition EPERM : Z := 1.
Definition ENOENT : Z := 2.
Definition E2BIG : Z := 7.
Definition EACCES : Z := 13.
Definition EINVAL : Z := 22.
Definition ENOSYS : Z := 38.
Definition ELOOP : Z := 40.

(** [W] is the state of the machine, [H] an open file. *)
Class PrivateFs (W H : Type) := {
  (** [openat2(AT_FDCWD, path, {flags, resolve})]; the error is the raw
      operating-system error, where there is one. *)
  openat2 : bytes -> Z -> Z -> W -> result H (option Z) * W;
  (** [file.metadata()]. *)
  file_metadata : H -> W -> result Metadata unit * W;
  (** [geteuid()]. *)
  effective_uid : W -> Z;
  (** [file.take(limit).read_to_end(..)]. *)
  take_read_to_end : H -> Z -> W -> result bytes unit * W;
}.

(** [content w h] is what the file [h] holds at [w]: a read that succeeds
    returns its first bytes. *)
Class PrivateFsLaws (W H : Type) `{PrivateFs W H} := {
  content : W -> H -> bytes;
  take_read_ok h k w p w' :
    take_read_to_end h k w = (Ok p, w') -> p = take (Z.to_nat k) (content w h);
}.

(** * Operations *)

Definition classify_linux_open_error (raw_os_error : option Z) : OpenPrivateError.t :=
  match raw_os_error with
  | Some errno =>
      if (errno =? ENOENT)%Z then OpenPrivateError.Missing
      else if (errno =? EACCES)%Z then OpenPrivateError.PermissionDenied
      else if (errno =? ELOOP)%Z then OpenPrivateError.SymlinkRejected
      else if ((errno =? ENOSYS) || (errno =? EINVAL) || (errno =? E2BIG) || (errno =? EPERM))%Z
      then OpenPrivateError.Unsupported
      else OpenPrivateError.Other
  | None => OpenPrivateError.Other
  end.

Section PrivateFile.
Context {W H : Type} `{PrivateFs W H}.

Definition open_flags : Z := Z.lor (Z.lor O_RDONLY O_CLOEXEC) O_NONBLOCK.

(** [CString::new] refuses a path with a NUL byte. *)
Definition open_private (path : bytes) (w : W) : result H OpenPrivateError.t * W :=
  if contains_byte (z2b 0) path then (Err OpenPrivateError.Other, w)
  else match openat2 path open_flags RESOLVE_NO_SYMLINKS w with
       | (Ok file, w) => (Ok file, w)
       | (Err e, w) => (Err (classify_linux_open_error e), w)
       end.

Definition validate_metadata (file : H) (kind : PrivateFileKind.t) (max : Z) (w : W)
  : result unit JblError.t * W :=
  match file_metadata file w with
  | (Err _, w) => (Err (invalid kind), w)
  | (Ok metadata, w) =>
      (if negb (bool_decide (file_type metadata = FileType.Regular)) then Err (invalid kind)
       else if (max <? len metadata)%Z then Err (too_large kind)
       else if negb (uid metadata =? effective_uid w)%Z then Err (permissions kind)
       else if negb (Z.land (mode metadata) 63 =? 0)%Z then Err (permissions kind)
       else Ok tt, w)
  end.

Definition read_private_file_if_present (path : bytes) (max : Z)
    (kind : PrivateFileKind.t) (w : W) : result (option bytes) JblError.t * W :=
  match open_private path w with
  | (Err OpenPrivateError.Missing, w) => (Ok None, w)
  | (Err OpenPrivateError.PermissionDenied, w) => (Err (permissions kind), w)
  | (Err OpenPrivateError.SymlinkRejected, w) => (Err (invalid kind), w)
  | (Err (OpenPrivateError.Unsupported | OpenPrivateError.Other), w) =>
      (Err (unavailable kind), w)
  | (Ok file, w) =>
      let?! (_, w) := validate_metadata file kind max w in
      match checked_add u64_max max 1 with
      | None => (Err (too_large kind), w)
      | Some read_limit =>
          match take_read_to_end file read_limit w with
          | (Err _, w) => (Err (invalid kind), w)
          | (Ok payload, w) =>
              if (max <? Z.of_nat (length payload))%Z then (Err (too_large kind), w)
              else (Ok (Some payload), w)
          end
      end
  end.

Definition read_private_file (path : bytes) (max : Z) (kind : PrivateFileKind.t) (w : W)
  : result bytes JblError.t * W :=
  let?! (payload, w) := read_private_file_if_present path max kind w in
  (ok_or payload (unavailable kind), w).
End PrivateFile.

(** * What a successful read means *)

(** Membership of a list that is written out. *)
Ltac listed := rewrite ?list_elem_of_In in *; simpl in *; tauto.

(** The metadata of a file nobody else may read or write, of a bounded size. *)
Record trusted (euid max : Z) (metadata : Metadata) : Prop := {
  trusted_regular : file_type metadata = FileType.Regular;
  trusted_size : (len metadata <= max)%Z;
  trusted_owner : uid metadata = euid;
  trusted_mode : Z.land (mode metadata) 63 = 0%Z;
}.

Section PrivateFileSpec.
Context {W H : Type} `{PrivateFsLaws W H}.

Lemma classify_missing e :
  classify_linux_open_error e = OpenPrivateError.Missing -> e = Some ENOENT.
Proof.
  unfold classify_linux_open_error. intros E. repeat case_match; try done.
  bool_hyps. by subst.
Qed.

Lemma validate_metadata_ok (file : H) kind max w w' :
  validate_metadata file kind max w = (Ok tt, w') ->
  exists metadata, file_metadata file w = (Ok metadata, w') /\
    trusted (effective_uid w') max metadata.
Proof.
  unfold validate_metadata. destruct (file_metadata file w) as [[m|] w1]; [|done].
  intros [= E ->]. repeat case_match; try done; bool_hyps.
  exists m. split; [done|]. split; by try lia.
Qed.

Lemma validate_metadata_err (file : H) kind max w e w' :
  validate_metadata file kind max w = (Err e, w') ->
  e ∈ [invalid kind; too_large kind; permissions kind].
Proof.
  unfold validate_metadata. destruct (file_metadata file w) as [[m|] w1];
    intros [= E ->]; repeat case_match; simplify_eq; listed.
Qed.

Lemma open_private_ok path w (file : H) w' :
  open_private path w = (Ok file, w') ->
  contains_byte (z2b 0) path = false /\
  openat2 path open_flags RESOLVE_NO_SYMLINKS w = (Ok file, w').
Proof. unfold open_private. intros E. repeat case_match; by simplify_eq. Qed.

Lemma open_private_missing path w w' :
  open_private path w = (Err OpenPrivateError.Missing, w') ->
  openat2 path open_flags RESOLVE_NO_SYMLINKS w = (Err (Some ENOENT), w').
Proof.
  unfold open_private. destruct (contains_byte _ path); [done|].
  destruct (openat2 _ _ _ w) as [[file|e] w1]; [done|]. intros [= E ->].
  by rewrite (classify_missing _ E).
Qed.

(** A read of at most one byte more than allowed, that returned no more than
    allowed, returned everything. *)
Lemma take_all (p c : bytes) (max : Z) :
  (0 <= max)%Z -> p = take (Z.to_nat (max + 1)) c -> (Z.of_nat (length p) <= max)%Z -> p = c.
Proof.
  intros Hm -> Hl. rewrite length_take in Hl. apply take_ge. lia.
Qed.

(** C34 A private file is either read whole, from a regular file that the user
    owns, that no one else may access and that no symbolic link of the path led
    to, and within its bound even when it grew after it was checked; or it is
    absent, and nothing but [ENOENT] counts as absent; or one of the four
    errors of its kind is reported. *)
Theorem private_file_whole_or_refused path max kind (w : W) r w' :
  (0 <= max < u64_max)%Z ->
  read_private_file_if_present path max kind w = (r, w') ->
  match r with
  | Ok (Some payload) =>
      exists (file : H) w1 metadata w2,
        openat2 path open_flags RESOLVE_NO_SYMLINKS w = (Ok file, w1) /\
        file_metadata file w1 = (Ok metadata, w2) /\
        trusted (effective_uid w2) max metadata /\
        payload = content w2 file /\ (Z.of_nat (length payload) <= max)%Z
  | Ok None => openat2 path open_flags RESOLVE_NO_SYMLINKS w = (Err (Some ENOENT), w')
  | Err e => e ∈ [unavailable kind; permissions kind; invalid kind; too_large kind]
  end.
Proof.
  intros Hmax. unfold read_private_file_if_present.
  destruct (open_private path w) as [[file|e] w1] eqn:E1; last first.
  { destruct e; intros [= <- <-]; [by eapply open_private_missing|listed..]. }
  apply open_private_ok in E1 as [_ E1].
  destruct (validate_metadata file kind max w1) as [[[]|e2] w2] eqn:E2; last first.
  { intros [= <- <-]. apply validate_metadata_err in E2. listed. }
  apply validate_metadata_ok in E2 as (metadata & E2 & T).
  unfold checked_add. rewrite (proj2 (Z.leb_le _ _)) by lia.
  destruct (take_read_to_end file (max + 1) w2) as [[p|] w3] eqn:E3;
    [|intros [= <- <-]; listed].
  case_match eqn:G; intros [= <- <-]; [listed|]. bool_hyps.
  exists file, w1, metadata, w2. do 3 (split; [done|]).
  split; [eapply take_all; [|by eapply take_read_ok|]; lia|lia].
Qed.

(** The part of it that the readers of the configuration use. *)
Lemma read_private_file_ok path max kind (w : W) p w' :
  read_private_file path max kind w = (Ok p, w') ->
  read_private_file_if_present path max kind w = (Ok (Some p), w').
Proof.
  unfold read_private_file.
  destruct (read_private_file_if_present path max kind w) as [[[q|]|e] w1]; simpl; [|done..].
  by intros [= -> ->].
Qed.

(** An absent file is unavailable to a reader that requires it. *)
Lemma read_private_file_missing path max kind (w : W) w' :
  read_private_file_if_present path max kind w = (Ok None, w') ->
  read_private_file path max kind w = (Err (unavailable kind), w').
Proof. unfold read_private_file. by intros ->. Qed.
End PrivateFileSpec.
