(* ===== verification/Tls.v ===== *)
(** The pinned TLS connector (rust/src/tls.rs): the fingerprint text, the PEM
    blocks of the client credentials, and the comparison of the server's
    certificate with the pin.  OpenSSL and the digest are an interface
    ([OpenSsl]). *)
From S2P Require Import Prelude.
From S2P Require Import Bytes.
From S2P Require Import Model.
From S2P Require Import PrivateFile.

(** * Text *)

Definition CERTIFICATE_BEGIN : bytes := str "-----BEGIN CERT" ++ str "IFICATE-----".
Definition CERTIFICATE_END : bytes := str "-----END CERT" ++ str "IFICATE-----".
Definition PRIVATE_KEY_BEGIN : bytes := str "-----BEGIN PRIVATE " ++ str "KEY-----".
Definition PRIVATE_KEY_END : bytes := str "-----END PRIVATE " ++ str "KEY-----".
Definition MAX_CREDENTIAL_BYTES : Z := 262144.

(** [windows(needle.len()).position(..)], for a needle that is not empty. *)
Definition find_bytes (haystack needle : bytes) : option nat :=
  find_subslice haystack needle.

Definition pem_block (payload begin end_ : bytes) : result bytes JblError.t :=
  match find_bytes payload begin with
  | None => Err JblError.InvalidClientIdentity
  | Some start =>
      let after_begin := start + length begin in
      match find_bytes (drop after_begin payload) end_ with
      | None => Err JblError.InvalidClientIdentity
      | Some relative_end =>
          let block_end := after_begin + relative_end + length end_ in
          Ok (drop start (take block_end payload))
      end
  end.

(** The characters of a fingerprint that are layout. *)
Definition is_layout (c : byte) : bool :=
  bool_decide (c ∈ [z2b 58; SP; TAB; CR; LF]).

Definition compact_fingerprint (value : bytes) : bytes :=
  filter (fun c => is_layout c = false) value.

Definition parse_sha256_fingerprint (value : bytes) : result bytes JblError.t :=
  let compact := compact_fingerprint value in
  if negb (length compact =? 64)%nat || negb (forallb is_ascii_hexdigit compact)
  then Err JblError.InvalidTlsFingerprint
  else ok_or (hex_octets compact) JblError.InvalidTlsFingerprint.

(** * OpenSSL *)

(** What the verification callback looks at. *)
Record X509StoreContext := mkX509StoreContext {
  error_depth : Z;
  (** [current_cert()] in DER, if there is one and it can be encoded. *)
  current_cert_der : option bytes;
}.

Module HandshakeError.
Inductive t := SetupFailure | Failure | WouldBlock.
#[global] Instance eq_dec : EqDecision t. Proof. solve_decision. Defined.
End HandshakeError.

(** The two flags the callback shares with the caller. *)
Record PinState := mkPinState { pin_checked : bool; pin_matched : bool }.

(** The error that [ureq] is given: an [io::Error] with a kind and a payload. *)
Module ConnectErrorKind.
Inductive t := InvalidInput | PermissionDenied | ConnectionAborted | WouldBlock.
#[global] Instance eq_dec : EqDecision t. Proof. solve_decision. Defined.
End ConnectErrorKind.
Module ConnectErrorPayload.
Inductive t := Text (message : bytes) | PeerPinMismatch.
#[global] Instance eq_dec : EqDecision t. Proof. solve_decision. Defined.
End ConnectErrorPayload.
Record ConnectError := mkConnectError {
  connect_kind : ConnectErrorKind.t;
  connect_payload : ConnectErrorPayload.t;
}.
#[global] Instance ConnectError_eq_dec : EqDecision ConnectError.
Proof. solve_decision. Defined.

(** Settings of one connection. *)
Record ConnectOptions := mkConnectOptions {
  verify_hostname : bool;
  use_server_name_indication : bool;
}.

Class OpenSsl (W : Type) := {
  X509 : Type;
  PKey : Type;
  Builder : Type;
  SslConnector : Type;
  Configuration : Type;
  Io : Type;
  SslStream : Type;
  x509_from_pem : bytes -> option X509;
  private_key_from_pem : bytes -> option PKey;
  (** [SslConnector::builder(SslMethod::tls_client())]. *)
  connector_builder : option Builder;
  set_certificate : X509 -> Builder -> option Builder;
  set_private_key : PKey -> Builder -> option Builder;
  check_private_key : Builder -> bool;
  build : Builder -> SslConnector;
  configure : SslConnector -> option Configuration;
  sha256_digest : bytes -> bytes;
  (** [configuration.connect(dns_name, io)] with a verification callback on
      some captured state. *)
  ssl_connect : Configuration -> ConnectOptions ->
    (X509StoreContext -> PinState -> bool * PinState) -> PinState ->
    bytes -> Io -> W -> result SslStream HandshakeError.t * PinState * W;
}.

(** The state a callback is left with after the contexts it was called with. *)
Definition after_callbacks (callback : X509StoreContext -> PinState -> bool * PinState)
    (contexts : list X509StoreContext) (pin : PinState) : PinState :=
  fold_left (fun pin context => snd (callback context pin)) contexts pin.

(** OpenSSL touches the captured state only by calling the callback: on the
    contexts [presented]. *)
Class OpenSslLaws (W : Type) `{OpenSsl W} := {
  presented : Configuration -> ConnectOptions ->
    (X509StoreContext -> PinState -> bool * PinState) -> bytes -> Io -> W ->
    list X509StoreContext;
  ssl_connect_calls configuration options callback pin dns_name io w r pin' w' :
    ssl_connect configuration options callback pin dns_name io w = (r, pin', w') ->
    pin' = after_callbacks callback
             (presented configuration options callback dns_name io w) pin;
}.

(** * Operations *)

Section Connector.
Context {W : Type} `{OpenSsl W}.

Record PinnedOpenSslConnector := mkPinnedOpenSslConnector {
  inner : SslConnector;
  expected_sha256 : bytes;
}.

(** The closure given to [set_verify_callback]. *)
Definition verify_callback (expected : bytes) (context : X509StoreContext) (pin : PinState)
  : bool * PinState :=
  if negb (error_depth context =? 0)%Z then (true, pin)
  else
    let matched := match current_cert_der context with
                   | Some der => bool_decide (sha256_digest der = expected)
                   | None => false
                   end in
    (matched, mkPinState true matched).

Definition pin_mismatch : ConnectError :=
  mkConnectError ConnectErrorKind.PermissionDenied ConnectErrorPayload.PeerPinMismatch.

Definition PINNED_OPTIONS : ConnectOptions := mkConnectOptions false false.

Definition connect (self : PinnedOpenSslConnector) (dns_name : bytes) (io : Io) (w : W)
  : result SslStream ConnectError * W :=
  let text := fun kind message =>
    mkConnectError kind (ConnectErrorPayload.Text message) in
  match configure (inner self) with
  | None => (Err (text ConnectErrorKind.InvalidInput (str "TLS configuration failed")), w)
  | Some configuration =>
      let '(r, pin, w) :=
        ssl_connect configuration PINNED_OPTIONS (verify_callback (expected_sha256 self))
          (mkPinState false false) dns_name io w in
      (match r with
       | Ok stream =>
           if negb (pin_checked pin) || negb (pin_matched pin) then Err pin_mismatch
           else Ok stream
       | Err HandshakeError.Failure =>
           let pin_failed := pin_checked pin && negb (pin_matched pin) in
           if pin_failed then Err pin_mismatch
           else Err (text ConnectErrorKind.ConnectionAborted (str "TLS handshake failed"))
       | Err HandshakeError.WouldBlock =>
           Err (text ConnectErrorKind.WouldBlock (str "TLS handshake would block"))
       | Err HandshakeError.SetupFailure =>
           Err (text ConnectErrorKind.InvalidInput (str "TLS handshake setup failed"))
       end, w)
  end.

(** The client identity: both files are read and both blocks found before
    OpenSSL sees either. *)
Definition build_tls_connector `{PrivateFs W F} (certificate_path private_key_path : bytes)
    (expected : bytes) (w : W) : result PinnedOpenSslConnector JblError.t * W :=
  let?! (certificate_payload, w) :=
    read_private_file certificate_path MAX_CREDENTIAL_BYTES PrivateFileKind.Certificate w in
  let?! (private_key_payload, w) :=
    read_private_file private_key_path MAX_CREDENTIAL_BYTES PrivateFileKind.PrivateKey w in
  let identity := JblError.InvalidClientIdentity in
  (let? certificate_pem := pem_block certificate_payload CERTIFICATE_BEGIN CERTIFICATE_END in
   let? private_key_pem := pem_block private_key_payload PRIVATE_KEY_BEGIN PRIVATE_KEY_END in
   let? certificate := ok_or (x509_from_pem certificate_pem) identity in
   let? private_key := ok_or (private_key_from_pem private_key_pem) identity in
   let? builder := ok_or connector_builder JblError.TlsConfiguration in
   let? builder := ok_or (set_certificate certificate builder) identity in
   let? builder := ok_or (set_private_key private_key builder) identity in
   if check_private_key builder then Ok (mkPinnedOpenSslConnector (build builder) expected)
   else Err identity, w).
End Connector.
Arguments PinnedOpenSslConnector W {_}.

(** * The fingerprint *)

Lemma length_hex_text (octets : bytes) :
  length (concat (map hex_lower octets)) = 2 * length octets.
Proof. induction octets as [|o octets IH]; [done|]. simpl in *. lia. Qed.

Lemma hexdigit_lowercase (c : byte) :
  is_ascii_hexdigit (to_ascii_lowercase1 c) = is_ascii_hexdigit c.
Proof. by_all_bytes_eq c. Qed.

Lemma hexdigits_lowercase (s : bytes) :
  forallb is_ascii_hexdigit (to_ascii_lowercase s) = forallb is_ascii_hexdigit s.
Proof.
  unfold to_ascii_lowercase. induction s as [|c s IH]; [done|]. cbn [map forallb].
  by rewrite hexdigit_lowercase, IH.
Qed.

Lemma hex_text_hexdigits (octets : bytes) :
  forallb is_ascii_hexdigit (concat (map hex_lower octets)) = true.
Proof.
  induction octets as [|o octets IH]; [done|]. cbn [map concat]. rewrite forallb_app, IH.
  assert (forallb is_ascii_hexdigit (hex_lower o) = true) as -> by by_all_bytes o. done.
Qed.

Lemma hexdigit_nibble (c : byte) : is_ascii_hexdigit c = true -> is_Some (hex_nibble c).
Proof.
  intros Hc. assert (Hi : implb (is_ascii_hexdigit c) (bool_decide (is_Some (hex_nibble c))) = true)
    by (clear Hc; by_all_bytes c).
  rewrite Hc in Hi. simpl in Hi. by apply bool_decide_eq_true in Hi.
Qed.

Lemma hexdigits_octets (s : bytes) :
  forallb is_ascii_hexdigit s = true -> is_Some (hex_octets s).
Proof.
  assert (Hn : forall n s, length s <= n -> forallb is_ascii_hexdigit s = true ->
                           is_Some (hex_octets s)); [|by eauto].
  clear s. induction n as [|n IH]; intros [|h [|l s]] Hl; simpl in Hl; try lia; try by eauto.
  cbn [forallb hex_octets]. rewrite !andb_true_iff. intros (Hh&Hlo&Hs). unfold hex_octet.
  destruct (hexdigit_nibble h Hh) as [? ->], (hexdigit_nibble l Hlo) as [? ->].
  destruct (IH s) as [? ->]; [lia|done|]. by eexists.
Qed.

(** A fingerprint text is accepted exactly when, without its colons and white
    space and up to letter case, it is the hexadecimal text of a digest of
    thirty-two bytes; it then denotes that digest, so the text of a digest in
    any layout reads back as the digest. *)
Theorem fingerprint_exact (value digest : bytes) :
  parse_sha256_fingerprint value = Ok digest <->
  length digest = 32 /\
  to_ascii_lowercase (compact_fingerprint value) = concat (map hex_lower digest).
Proof.
  unfold parse_sha256_fingerprint. cbv zeta. set (compact := compact_fingerprint value).
  split.
  - case_match eqn:G; [done|]. bool_hyps. rewrite ok_or_Ok. intros E.
    apply hex_octets_lower in E as E'; [|by exists 32]. split; [|done].
    apply (f_equal length) in E'. rewrite length_hex_text, length_to_ascii_lowercase in E'. lia.
  - intros [Hl E].
    assert (length compact = 64) as Hc
      by (rewrite <- length_to_ascii_lowercase, E, length_hex_text; lia).
    rewrite Hc, <- hexdigits_lowercase, E, hex_text_hexdigits. cbn [Nat.eqb negb orb].
    rewrite ok_or_Ok, <- hex_octets_lowercase by (by exists 32; rewrite Hc).
    rewrite E. apply hex_octets_concat.
Qed.

(** * The PEM blocks *)

(** The block starts and ends with its two markers, and the first marker
    before it is its own. *)
Lemma pem_block_within (payload begin end_ block : bytes) :
  pem_block payload begin end_ = Ok block ->
  exists before body after,
    payload = before ++ block ++ after /\ block = begin ++ body ++ end_ /\
    find_bytes payload begin = Some (length before).
Proof.
  unfold pem_block, find_bytes. destruct (find_subslice payload begin) as [start|] eqn:E1; [|done].
  cbv zeta. destruct (find_subslice (drop _ payload) end_) as [rel|] eqn:E2; [|done].
  intros [= <-].
  apply find_subslice_Some in E1 as (t & E1 & L1). rewrite <- L1 in E2 |- *.
  generalize dependent (take start payload). intros before E1 L1. subst payload.
  rewrite <- length_app, (app_assoc before), drop_app_length. intros E2.
  apply find_subslice_Some in E2 as (after & E2 & L2). rewrite <- L2.
  generalize dependent (take rel t). intros body E2 L2. subst t.
  assert (drop (length before)
    (take (length (before ++ begin) + length body + length end_)
       ((before ++ begin) ++ body ++ end_ ++ after)) = begin ++ body ++ end_) as ->.
  { rewrite <- !length_app, !app_assoc, take_app_length.
    by rewrite <- !app_assoc, drop_app_length. }
  exists before, body, after. by rewrite <- !app_assoc.
Qed.

(** * The pin *)

Section Pin.
Context {W : Type} `{OpenSslLaws W}.

(** The last certificate of depth 0 the callback was called with: [None] when
    it never was. *)
Definition last_leaf (contexts : list X509StoreContext) : option X509StoreContext :=
  last (filter (fun context => error_depth context = 0%Z) contexts).

(** A context carries the certificate the pin names. *)
Definition carries_pin (expected : bytes) (context : X509StoreContext) : Prop :=
  exists der, current_cert_der context = Some der /\ sha256_digest der = expected.

Definition matched_pin (expected : bytes) (context : X509StoreContext) : bool :=
  fst (verify_callback expected context (mkPinState false false)).

Lemma matched_pin_spec expected context :
  error_depth context = 0%Z -> matched_pin expected context = true <-> carries_pin expected context.
Proof.
  intros Hd. unfold matched_pin, verify_callback, carries_pin. rewrite Hd. simpl.
  destruct (current_cert_der context) as [der|]; [rewrite bool_decide_eq_true; split; [eauto|]
    |split; [done|]]; by intros (? & [= <-] & ?) || by intros (? & ? & ?).
Qed.

(** The flags tell whether a leaf was seen, and whether the last one matched. *)
Lemma after_callbacks_leaf expected contexts :
  after_callbacks (verify_callback expected) contexts (mkPinState false false) =
  match last_leaf contexts with
  | None => mkPinState false false
  | Some context => mkPinState true (matched_pin expected context)
  end.
Proof.
  unfold after_callbacks, last_leaf. induction contexts as [|c cs IH] using rev_ind; [done|].
  rewrite fold_left_app, IH, filter_app. simpl. rewrite filter_cons, filter_nil.
  unfold matched_pin, verify_callback. case_decide as Hd.
  - rewrite last_snoc, Hd. by destruct (last _).
  - rewrite (proj2 (Z.eqb_neq _ _)), app_nil_r by done. by destruct (last _).
Qed.

Lemma last_leaf_depth contexts context :
  last_leaf contexts = Some context -> error_depth context = 0%Z.
Proof.
  unfold last_leaf. rewrite last_Some. intros [l E].
  assert (context ∈ filter (fun c => error_depth c = 0%Z) contexts) as Hin
    by (rewrite E; set_solver).
  by apply list_elem_of_filter in Hin as [? _].
Qed.

(** C15 A connection is handed out only when the last certificate the server
    presented for itself has the pinned digest, whatever OpenSSL's own verdict
    (a resumed session, for which no certificate was checked, included); and a
    pin mismatch, which the client of the connection reads as "nothing was
    sent", is never reported for a peer whose certificate has that digest. *)
Theorem pinned_session_only (self : PinnedOpenSslConnector W) dns_name io w r w' configuration :
  let shown := presented configuration PINNED_OPTIONS
                 (verify_callback (expected_sha256 self)) dns_name io w in
  configure (inner self) = Some configuration ->
  connect self dns_name io w = (r, w') ->
  match r with
  | Ok _ => exists leaf, last_leaf shown = Some leaf /\ carries_pin (expected_sha256 self) leaf
  | Err e => e = pin_mismatch -> forall leaf,
      last_leaf shown = Some leaf -> ~ carries_pin (expected_sha256 self) leaf
  end.
Proof.
  intros shown Hc. unfold connect. cbv zeta. rewrite Hc.
  destruct (ssl_connect _ _ _ _ dns_name io w) as [[r1 pin] w1] eqn:E.
  apply ssl_connect_calls in E. fold shown in E. rewrite after_callbacks_leaf in E.
  intros [= <- <-]. destruct (last_leaf shown) as [leaf|] eqn:El; subst pin; simpl.
  - pose proof (matched_pin_spec (expected_sha256 self) leaf (last_leaf_depth _ _ El)) as M.
    destruct (matched_pin _ leaf); [|by destruct r1 as [|[]]; simpl;
      intros _ ? [= <-] ?%M].
    destruct r1 as [stream|[]]; simpl; [|done..]. exists leaf. split; [done|by apply M].
  - by destruct r1 as [|[]].
Qed.
End Pin.
