(* ===== verification/Config.v ===== *)
(** The private configuration (rust/src/config.rs): where it is looked for, the
    text it is written in, what a loaded configuration is, and its atomic
    installation.  Paths are byte strings; the environment of the process and
    the configuration directory are interfaces. *)
From S2P Require Import Prelude.
From S2P Require Import Bytes.
From S2P Require Import Journal.
From S2P Require Import Model.
From S2P Require Import PrivateFile.

(** * Paths ([std::path] on Unix) *)

Definition SLASH : byte := z2b 47.
Definition DOT : byte := z2b 46.

Module Component.
Inductive t := CurDir | ParentDir | Normal (name : bytes).
End Component.

Definition include_cur_dir (path : bytes) : bool :=
  match path with
  | [c] => bool_decide (c = DOT)
  | c :: d :: _ => bool_decide (c = DOT) && bool_decide (d = SLASH)
  | [] => false
  end.

Definition len_before_body (path : bytes) : nat :=
  (if is_absolute path then 1 else 0) + (if include_cur_dir path then 1 else 0).

Definition parse_single_component (comp : bytes) : option Component.t :=
  if bool_decide (comp = [DOT]) then None
  else if bool_decide (comp = [DOT; DOT]) then Some Component.ParentDir
  else if bool_decide (comp = []) then None
  else Some (Component.Normal comp).

(** The last component of the body, with the bytes it takes. *)
Definition parse_next_component_back (start : nat) (path : bytes)
  : nat * option Component.t :=
  let body := drop start path in
  let '(extra, comp) := match rsplit_once SLASH body with
                        | Some (_, comp) => (1, comp)
                        | None => (0, body)
                        end in
  (length comp + extra, parse_single_component comp).

(** [Components::next_back] in the body: every turn removes a byte at least. *)
Fixpoint next_back (fuel start : nat) (path : bytes) : option Component.t * bytes :=
  match fuel with
  | O => (None, path)
  | S f =>
      if (length path <=? start)%nat then (None, path)
      else
        let '(size, comp) := parse_next_component_back start path in
        let path := take (length path - size) path in
        match comp with
        | Some _ => (comp, path)
        | None => next_back f start path
        end
  end.

(** [Components::trim_right]. *)
Fixpoint trim_right (fuel start : nat) (path : bytes) : bytes :=
  match fuel with
  | O => path
  | S f =>
      if (length path <=? start)%nat then path
      else
        let '(size, comp) := parse_next_component_back start path in
        match comp with
        | Some _ => path
        | None => trim_right f start (take (length path - size) path)
        end
  end.

(** [Path::parent] and [Path::file_name]. *)
Definition path_parent (path : bytes) : option bytes :=
  let start := len_before_body path in
  match next_back (length path) start path with
  | (Some _, rest) => Some (trim_right (length rest) start rest)
  | (None, rest) =>
      if is_absolute path then None
      else if include_cur_dir path then Some (take (length rest - 1) rest)
      else None
  end.
Definition file_name (path : bytes) : option bytes :=
  match next_back (length path) (len_before_body path) path with
  | (Some (Component.Normal name), _) => Some name
  | _ => None
  end.

(** * Data *)

Definition MAX_CONFIG_BYTES : Z := 65536.
Definition DEFAULT_GENA_CALLBACK_PORT : Z := 8098.

Module BroadcastConfirmation.
Inductive t := Ack | Gena.
#[global] Instance eq_dec : EqDecision t. Proof. solve_decision. Defined.
End BroadcastConfirmation.

Definition DEFAULT_BROADCAST_CONFIRMATION : BroadcastConfirmation.t :=
  BroadcastConfirmation.Ack.

Definition ALLOWED_KEYS : list bytes :=
  [str "JBL_IP"; str "JBL_LOCAL_API_CERT"; str "JBL_LOCAL_API_KEY";
   str "JBL_LOCAL_API_TLS_SHA256"; str "JBL_LOCAL_API_TIMEOUT";
   str "JBL_GENA_CALLBACK_PORT"; str "JBL_BROADCAST_CONFIRMATION";
   str "JBL_BT_MAC"; str "JBL_EXPECTED_MODEL"; str "AURA_BT_MAC"].

Record RuntimeConfig := mkRuntimeConfig {
  address : bytes;
  certificate : bytes;
  private_key : bytes;
  tls_sha256 : bytes;
  jbl_identity : DeviceIdentity;
  expected_model : bytes;
  aura_identity : DeviceIdentity;
  timeout : Z;
  gena_callback_port : Z;
  broadcast_confirmation : BroadcastConfirmation.t;
}.
#[global] Instance RuntimeConfig_eq_dec : EqDecision RuntimeConfig.
Proof. solve_decision. Defined.

Module ConfigSource.
Inductive t := Required (path : bytes) | OptionalDefault (path : bytes) | None_.
#[global] Instance eq_dec : EqDecision t. Proof. solve_decision. Defined.

Definition path (source : t) : option bytes :=
  match source with Required path | OptionalDefault path => Some path | None_ => None end.
End ConfigSource.

(** [HashMap<String, String>]. *)
Abbreviation settings := (gmap bytes bytes).

(** * The environment of the process *)

Class ProcessEnv (W : Type) := {
  (** [env::var_os(key)]: the raw value. *)
  var_os : bytes -> W -> option bytes;
  (** [env::current_dir().ok()]. *)
  current_dir : W -> option bytes;
}.

Definition non_empty (value : option bytes) : option bytes :=
  match value with Some [] => None | _ => value end.

Section Environment.
Context {W : Type} `{ProcessEnv W}.

Definition automatic_config_path (w : W) : option bytes :=
  match non_empty (var_os (str "XDG_CONFIG_HOME") w) with
  | Some root =>
      Some (path_join (path_join root (str "jbl-aura-link-rust")) (str "devices.env"))
  | None =>
      (fun root =>
         path_join (path_join (path_join root (str ".config"))
                              (str "jbl-aura-link-rust")) (str "devices.env"))
      <$> non_empty (var_os (str "HOME") w)
  end.

(** The loop of [environment_overrides]; [env::var] refuses a value that is
    not UTF-8. *)
Fixpoint overrides_from (keys : list bytes) (values : settings) (w : W)
  : result settings JblError.t :=
  match keys with
  | [] => Ok values
  | key :: rest =>
      match var_os key w with
      | None => overrides_from rest values w
      | Some value =>
          if utf8_valid value then overrides_from rest (<[key := value]> values) w
          else Err JblError.InvalidConfig
      end
  end.
Definition environment_overrides (w : W) : result settings JblError.t :=
  overrides_from ALLOWED_KEYS ∅ w.

Definition resolve_path (value : bytes) (config_path : option bytes) (w : W)
  : result bytes JblError.t :=
  if is_absolute value then Ok value
  else match config_path ≫= path_parent with
       | Some parent => Ok (path_join parent value)
       | None =>
           match current_dir w with
           | Some directory => Ok (path_join directory value)
           | None => Err JblError.InvalidConfig
           end
       end.
End Environment.

Definition select_config_source (explicit_path environment_path automatic_path : option bytes)
  : ConfigSource.t :=
  match explicit_path with
  | Some path => ConfigSource.Required path
  | None =>
      match environment_path with
      | Some path => ConfigSource.Required path
      | None =>
          match automatic_path with
          | Some path => ConfigSource.OptionalDefault path
          | None => ConfigSource.None_
          end
      end
  end.

(** * The configuration text *)

Definition APOSTROPHE : byte := z2b 39.

(** [str::lines]: the pieces between line feeds, a carriage return before the
    line feed removed, and no empty piece after the last line feed. *)
Definition strip_cr (line : bytes) : bytes := default line (strip_suffix [CR] line).
Definition lines (text : bytes) : list bytes :=
  let pieces := split_byte LF text in
  let tail := default [] (last pieces) in
  map strip_cr (removelast pieces) ++ (if bool_decide (tail = []) then [] else [tail]).

(** One pair of enclosing quotes, of the same kind, is removed. *)
Definition unquote (value : bytes) : bytes :=
  match value, last value with
  | first :: _ :: _, Some final =>
      if bool_decide (first = APOSTROPHE /\ final = APOSTROPHE
                      \/ first = DQUOTE /\ final = DQUOTE)
      then take (length value - 2) (drop 1 value)
      else value
  | _, _ => value
  end.

(** The body of the loop of [parse_config_text]. *)
Definition parse_config_line (raw_line : bytes) (values : settings)
  : result settings JblError.t :=
  let line := trim raw_line in
  if bool_decide (line = []) || starts_with (str "#") line then Ok values
  else match split_once (z2b 61) line with
       | None => Err JblError.InvalidConfig
       | Some (raw_key, raw_value) =>
           let key := trim raw_key in
           if negb (bool_decide (key ∈ ALLOWED_KEYS)) then Ok values
           else
             let value := unquote (trim raw_value) in
             match values !! key with
             | Some _ => Err JblError.InvalidConfig
             | None => Ok (<[key := value]> values)
             end
       end.

Fixpoint parse_config_lines (raw_lines : list bytes) (values : settings)
  : result settings JblError.t :=
  match raw_lines with
  | [] => Ok values
  | raw_line :: rest =>
      let? values := parse_config_line raw_line values in
      parse_config_lines rest values
  end.
Definition parse_config_text (text : bytes) : result settings JblError.t :=
  parse_config_lines (lines text) ∅.

Definition required (values : settings) (key : bytes) : result bytes JblError.t :=
  match trim <$> values !! key with
  | Some ((_ :: _) as value) => Ok value
  | _ => Err (JblError.MissingSetting key)
  end.

(** * Loading *)

(** [.ok().filter(|value| (low..=high).contains(value))]. *)
Definition within (low high : Z) (value : option Z) : option Z :=
  match value with
  | Some v => if ((low <=? v) && (v <=? high))%Z then Some v else None
  | None => None
  end.

Definition timeout_setting (values : settings) : result Z JblError.t :=
  let text := default (str "5") (values !! str "JBL_LOCAL_API_TIMEOUT") in
  ok_or (within 1 30 (parse_unsigned u64_max text)) JblError.InvalidTimeout.

Definition port_setting (values : settings) : result Z JblError.t :=
  match values !! str "JBL_GENA_CALLBACK_PORT" with
  | Some value =>
      ok_or (within 1024 u16_max (parse_unsigned u16_max value)) JblError.InvalidConfig
  | None => Ok DEFAULT_GENA_CALLBACK_PORT
  end.

Definition confirmation_setting (values : settings)
  : result BroadcastConfirmation.t JblError.t :=
  match values !! str "JBL_BROADCAST_CONFIRMATION" with
  | Some value =>
      if decide (value = str "ack") then Ok BroadcastConfirmation.Ack
      else if decide (value = str "gena") then Ok BroadcastConfirmation.Gena
      else Err JblError.InvalidConfig
  | None => Ok DEFAULT_BROADCAST_CONFIRMATION
  end.

Definition identity_setting (values : settings) (key : bytes)
  : result DeviceIdentity JblError.t :=
  let? text := required values key in
  ok_or (identity_parse text) JblError.InvalidConfig.

Section Load.
Context {W H : Type} `{ProcessEnv W} `{PrivateFs W H}.

Definition config_values (source : ConfigSource.t) (w : W)
  : result settings JblError.t * W :=
  let?! (payload, w) :=
    match source with
    | ConfigSource.Required path =>
        let?! (payload, w) := read_private_file path MAX_CONFIG_BYTES PrivateFileKind.Config w in
        (Ok (Some payload), w)
    | ConfigSource.OptionalDefault path =>
        read_private_file_if_present path MAX_CONFIG_BYTES PrivateFileKind.Config w
    | ConfigSource.None_ => (Ok None, w)
    end in
  (match payload with
   | None => Ok ∅
   | Some payload =>
       if utf8_valid payload then parse_config_text payload else Err JblError.InvalidConfig
   end, w).

(** The part of [load_from_source] that follows the reading of the file: the
    settings in the order in which the code looks at them. *)
Definition config_from_values (source : ConfigSource.t) (values : settings) (w : W)
  : result RuntimeConfig JblError.t :=
  let? certificate_value := required values (str "JBL_LOCAL_API_CERT") in
  let? private_key_value := required values (str "JBL_LOCAL_API_KEY") in
  let? timeout_seconds := timeout_setting values in
  let? port := port_setting values in
  let? confirmation := confirmation_setting values in
  let? jbl := identity_setting values (str "JBL_BT_MAC") in
  let? aura := identity_setting values (str "AURA_BT_MAC") in
  if bool_decide (jbl = aura) then Err JblError.InvalidConfig
  else
    let? address := required values (str "JBL_IP") in
    let? certificate := resolve_path certificate_value (ConfigSource.path source) w in
    let? private_key := resolve_path private_key_value (ConfigSource.path source) w in
    let? tls := required values (str "JBL_LOCAL_API_TLS_SHA256") in
    Ok {| address := address;
          certificate := certificate;
          private_key := private_key;
          tls_sha256 := tls;
          jbl_identity := jbl;
          expected_model :=
            default (str "JBL Authentics 300") (values !! str "JBL_EXPECTED_MODEL");
          aura_identity := aura;
          timeout := from_secs timeout_seconds;
          gena_callback_port := port;
          broadcast_confirmation := confirmation |}.

(** The overrides win over the file ([HashMap::extend]). *)
Definition load_from_source (source : ConfigSource.t) (overrides : settings) (w : W)
  : result RuntimeConfig JblError.t * W :=
  let?! (values, w) := config_values source w in
  (config_from_values source (overrides ∪ values) w, w).

Definition load (explicit_path : option bytes) (w : W)
  : result RuntimeConfig JblError.t * W :=
  let source := select_config_source explicit_path (var_os (str "JBL_AURA_CONFIG") w)
                  (automatic_config_path w) in
  match environment_overrides w with
  | Err e => (Err e, w)
  | Ok overrides => load_from_source source overrides w
  end.
End Load.

(** * Installing *)

Definition safe_config_value (value : bytes) : bool :=
  negb (bool_decide (value = [])
        || (contains_byte (z2b 0) value || contains_byte LF value || contains_byte CR value)
        || (starts_with [APOSTROPHE] value || starts_with [DQUOTE] value)
        || (ends_with [APOSTROPHE] value || ends_with [DQUOTE] value)).

Definition confirmation_text (c : BroadcastConfirmation.t) : bytes :=
  match c with
  | BroadcastConfirmation.Ack => str "ack"
  | BroadcastConfirmation.Gena => str "gena"
  end.

(** The keys and values of the [format!] that writes the file, in its order. *)
Definition config_entries (config : RuntimeConfig) : list (bytes * bytes) :=
  [(str "JBL_IP", address config);
   (str "JBL_EXPECTED_MODEL", expected_model config);
   (str "JBL_BT_MAC", compact_config_value (jbl_identity config));
   (str "AURA_BT_MAC", compact_config_value (aura_identity config));
   (str "JBL_LOCAL_API_CERT", certificate config);
   (str "JBL_LOCAL_API_KEY", private_key config);
   (str "JBL_LOCAL_API_TLS_SHA256", tls_sha256 config);
   (str "JBL_LOCAL_API_TIMEOUT", dec (timeout config / from_secs 1));
   (str "JBL_GENA_CALLBACK_PORT", dec (gena_callback_port config));
   (str "JBL_BROADCAST_CONFIRMATION", confirmation_text (broadcast_confirmation config))].

Definition entry_text (entry : bytes * bytes) : bytes :=
  entry.1 ++ str "=" ++ entry.2 ++ [LF].
Definition config_payload (config : RuntimeConfig) : bytes :=
  concat (map entry_text (config_entries config)).

(** The directory of the configuration: the calls of [JournalDir] are made on
    its entries, which the code names by paths under it; [sync_dir] opens and
    syncs it.  The two calls below take whole paths. *)
Class ConfigDirectory (W : Type) := {
  (** [DirBuilder::new().mode(0o700).recursive(true).create(path)]. *)
  create_private_dir_all : bytes -> W -> result unit IoError.t * W;
  (** [fs::symlink_metadata(path)]. *)
  path_metadata : bytes -> W -> result Metadata IoError.t * W;
}.

(** The guard of an existing destination. *)
Definition replaceable (euid : Z) (metadata : Metadata) : bool :=
  bool_decide (file_type metadata = FileType.Regular)
  && (uid metadata =? euid)%Z
  && (Z.land (mode metadata) 511 =? 384)%Z
  && (nlink metadata =? 1)%Z.

Section Install.
Context {W : Type} `{JournalDir W} `{ConfigDirectory W}.

Definition config_temporary (random : bytes) : bytes :=
  str ".devices." ++ concat (map hex_lower random) ++ str ".tmp".

(** The directory exists, is private, and the destination may be replaced. *)
Definition prepare_config_directory (path parent : bytes) (w : W)
  : result unit JblError.t * W :=
  match create_private_dir_all parent w with
  | (Err _, w) => (Err JblError.ConfigUnavailable, w)
  | (Ok _, w) =>
  match path_metadata parent w with
  | (Err _, w) => (Err JblError.ConfigUnavailable, w)
  | (Ok parent_metadata, w) =>
      if negb (bool_decide (file_type parent_metadata = FileType.Directory))
         || negb (uid parent_metadata =? geteuid w)%Z
         || negb (Z.land (mode parent_metadata) 511 =? 448)%Z
      then (Err JblError.ConfigPermissions, w)
      else
        match path_metadata path w with
        | (Ok metadata, w) =>
            if replaceable (geteuid w) metadata then (Ok tt, w)
            else (Err JblError.ConfigPermissions, w)
        | (Err IoError.NotFound, w) => (Ok tt, w)
        | (Err IoError.Other, w) => (Err JblError.ConfigUnavailable, w)
        end
  end end.

(** Every text that goes into the file must be writable in its format. *)
Definition writable_config (config : RuntimeConfig) : bool :=
  (utf8_valid (certificate config) && safe_config_value (certificate config))
  && (utf8_valid (private_key config) && safe_config_value (private_key config))
  && forallb safe_config_value [address config; tls_sha256 config; expected_model config].

(** What the [OpenOptions] of the temporary file ask the kernel for. *)
Definition config_how : OpenHow :=
  mkOpenHow (Z.lor (Z.lor (Z.lor (Z.lor O_WRONLY O_CREAT) O_EXCL) O_CLOEXEC) O_NOFOLLOW) 384 0.

(** The closure that writes, publishes and syncs. *)
Definition publish_config (temporary target payload : bytes) (w : W)
  : result unit JblError.t * W :=
  let unavailable := fun '(r, w) =>
    (map_err (fun _ : IoError.t => JblError.ConfigUnavailable) r, w) in
  let?! (_, w) := unavailable (write_all temporary payload w) in
  let?! (_, w) := unavailable (sync_file temporary w) in
  let?! (_, w) := unavailable (renameat temporary target w) in
  unavailable (sync_dir w).

Definition install_private_config (path : bytes) (config : RuntimeConfig) (w : W)
  : result unit JblError.t * W :=
  match path_parent path with
  | None => (Err JblError.InvalidConfig, w)
  | Some parent =>
      let?! (_, w) := prepare_config_directory path parent w in
      if negb (writable_config config) then (Err JblError.InvalidConfig, w)
      else
        let payload := config_payload config in
        match rand_bytes 8 w with
        | (Err _, w) => (Err JblError.ConfigUnavailable, w)
        | (Ok random, w) =>
            let temporary := config_temporary random in
            match openat temporary config_how w with
            | (Err _, w) => (Err JblError.ConfigUnavailable, w)
            | (Ok _, w) =>
                let '(r, w) :=
                  publish_config temporary (default [] (file_name path)) payload w in
                if is_err r
                then let '(_, w) := unlinkat temporary 0 w in (r, w)
                else (r, w)
            end
        end
  end.

Definition INSTALLED_KEYS : list bytes :=
  [str "JBL_IP"; str "JBL_LOCAL_API_CERT"; str "JBL_LOCAL_API_KEY";
   str "JBL_LOCAL_API_TLS_SHA256"; str "JBL_BT_MAC"; str "AURA_BT_MAC"].

Fixpoint require_all (keys : list bytes) (values : settings) : result unit JblError.t :=
  match keys with
  | [] => Ok tt
  | key :: rest => let? _ := required values key in require_all rest values
  end.

Definition install_private_default_from_environment `{ProcessEnv W} `{PrivateFs W F} (w : W)
  : result unit JblError.t * W :=
  match (let? overrides := environment_overrides w in
         let? _ := require_all INSTALLED_KEYS overrides in
         Ok overrides) with
  | Err e => (Err e, w)
  | Ok overrides =>
      let?! (config, w) := load_from_source ConfigSource.None_ overrides w in
      match automatic_config_path w with
      | None => (Err JblError.ConfigUnavailable, w)
      | Some path => install_private_config path config w
      end
  end.
End Install.
