(* ===== verification/ConfigSpec.v ===== *)
(** What the configuration promises: what exactly an installed text loads back
    as, that the installation is all or nothing, and that a configuration that
    was loaded is within its bounds. *)
From S2P Require Import Prelude.
From S2P Require Import Bytes Trim.
From S2P Require Import Journal.
From S2P Require Import Model.
From S2P Require Import PrivateFile.
From S2P Require Import Config.

(** * Lines *)

Lemma split_byte_nonempty sep t : split_byte sep t <> [].
Proof. destruct t as [|c t]; simpl; [done|]. repeat case_match; done. Qed.

(** A byte does not occur in a text. *)
Abbreviation without c := (forallb (fun b : byte => negb (bool_decide (b = c)))).

Lemma lines_cons l t :
  without LF l = true -> ends_with [CR] l = false -> lines (l ++ [LF] ++ t) = l :: lines t.
Proof.
  intros Hl Hr. unfold lines. cbv zeta. cbn [app]. rewrite split_byte_app by done.
  pose proof (split_byte_nonempty LF t). destruct (split_byte LF t) as [|p ps] eqn:E; [done|].
  assert (strip_cr l = l) as Hs.
  { unfold strip_cr. revert Hr. unfold ends_with. by destruct (strip_suffix [CR] l). }
  change (removelast (l :: p :: ps)) with (l :: removelast (p :: ps)).
  change (last (l :: p :: ps)) with (last (p :: ps)). cbn [map]. by rewrite Hs.
Qed.

Lemma lines_nil : lines [] = [].
Proof. done. Qed.

(** * One entry of the file *)

(** A value that the installation may write and that trimming leaves alone. *)
Record plain_value (v : bytes) : Prop := {
  pv_some : v <> [];
  pv_trimmed : trim v = v;
  pv_line : without LF v = true;
  pv_cr : without CR v = true;
  pv_quote : starts_with [APOSTROPHE] v = false /\ starts_with [DQUOTE] v = false;
}.

Lemma contains_byte_without c v : contains_byte c v = false -> without c v = true.
Proof.
  unfold contains_byte. induction v as [|b v IH]; [done|]. simpl.
  intros [Hb Hv]%orb_false_iff. rewrite IH by done. rewrite andb_true_r.
  apply bool_decide_eq_false in Hb. by rewrite bool_decide_eq_false_2.
Qed.

Lemma without_ends_with c v : without c v = true -> ends_with [c] v = false.
Proof.
  intros Hv. unfold ends_with. destruct (strip_suffix [c] v) as [t|] eqn:E; [|done].
  apply strip_suffix_Some in E as ->. rewrite forallb_app in Hv. simpl in Hv.
  rewrite bool_decide_eq_true_2 in Hv by done. by rewrite andb_false_r in Hv.
Qed.

Lemma safe_plain v : safe_config_value v = true -> trim v = v -> plain_value v.
Proof.
  unfold safe_config_value. intros Hs Ht. bool_hyps. split; try done.
  - by apply contains_byte_without.
  - by apply contains_byte_without.
Qed.

Lemma graphic_without c v :
  is_ascii_graphic c = false -> forallb is_ascii_graphic v = true -> without c v = true.
Proof.
  intros Hc. apply forallb_impl. intros b Hb. apply negb_true_iff, bool_decide_eq_false.
  intros ->. congruence.
Qed.

Lemma graphic_plain v :
  v <> [] -> forallb is_ascii_graphic v = true ->
  starts_with [APOSTROPHE] v = false -> starts_with [DQUOTE] v = false -> plain_value v.
Proof.
  intros Hn Hg Ha Hd. split; try done.
  - by apply trim_graphic.
  - by apply graphic_without.
  - by apply graphic_without.
Qed.

Lemma unquote_plain v : plain_value v -> unquote v = v.
Proof.
  intros P. destruct (pv_quote v P) as [Ha Hd]. unfold unquote.
  destruct v as [|a [|b v]]; [done..|]. destruct (last _); [|done].
  rewrite bool_decide_eq_false_2; [done|]. unfold starts_with in Ha, Hd. simpl in Ha, Hd.
  intros [[-> _]|[-> _]]; [by rewrite decide_True in Ha|by rewrite decide_True in Hd].
Qed.

(** A key, and what it consists of. *)
Definition is_key_byte (c : byte) : bool :=
  is_ascii_graphic c && negb (bool_decide (c = z2b 61)) && negb (bool_decide (c = z2b 35)).

Lemma allowed_key k : k ∈ ALLOWED_KEYS -> k <> [] /\ forallb is_key_byte k = true.
Proof.
  intros Hk%list_elem_of_In. revert k Hk.
  assert (Ha : forallb (fun k => negb (bool_decide (k = [])) && forallb is_key_byte k)
                 ALLOWED_KEYS = true) by by vm_compute.
  intros k Hk. rewrite forallb_forall in Ha. apply Ha in Hk. bool_hyps. done.
Qed.

Lemma allowed_graphic k : k ∈ ALLOWED_KEYS -> forallb is_ascii_graphic k = true.
Proof.
  intros [_ Hb]%allowed_key. revert Hb. apply forallb_impl. intros c Hc.
  unfold is_key_byte in Hc. by bool_hyps.
Qed.

(** A value that stays on its line. *)
Record line_value (v : bytes) : Prop := {
  lv_line : without LF v = true;
  lv_cr : without CR v = true;
}.

Lemma plain_line v : plain_value v -> line_value v.
Proof. intros []. by split. Qed.

(** What is read of a written value: white space around it is lost, and then
    quotes around what is left. *)
Definition read_value (v : bytes) : bytes := unquote (trim v).

Lemma read_plain v : plain_value v -> read_value v = v.
Proof. intros P. unfold read_value. rewrite (pv_trimmed v P). by apply unquote_plain. Qed.

Lemma parse_config_entry k v values :
  k ∈ ALLOWED_KEYS -> values !! k = None ->
  parse_config_line (k ++ str "=" ++ v) values = Ok (<[k := read_value v]> values).
Proof.
  intros Hk Hn. destruct (allowed_key k Hk) as [Hne Hb]. pose proof (allowed_graphic k Hk) as Hg.
  assert (He : without (z2b 61) k = true).
  { revert Hb. apply forallb_impl. intros c Hc. unfold is_key_byte in Hc.
    by apply andb_true_iff in Hc as [[_ Hc]%andb_true_iff _]. }
  destruct (strip_back v) as (m & b & -> & Hblank & Hm).
  assert (Hh : starts_with (str "#") (k ++ str "=" ++ m) = false).
  { destruct k as [|c k]; [done|]. simpl in Hb. unfold is_key_byte in Hb. bool_hyps.
    unfold starts_with. simpl. by rewrite decide_False. }
  unfold parse_config_line, read_value. cbv zeta. change (str "=") with [z2b 61] in *.
  rewrite app_assoc in Hh |- *.
  rewrite trim_after_graphic by (by rewrite ?forallb_app, ?Hg).
  rewrite Hh, bool_decide_eq_false_2 by (by destruct k). cbn [orb].
  rewrite <- app_assoc. cbn [app]. rewrite split_once_app by done.
  rewrite (trim_graphic k) by done. rewrite bool_decide_eq_true_2 by done. cbn [negb].
  by rewrite Hn, trim_before_blank.
Qed.

(** * The whole file *)

(** The settings a list of entries stands for. *)
Definition insert_entry (m : settings) (e : bytes * bytes) : settings := <[e.1 := e.2]> m.
Definition settings_of (l : list (bytes * bytes)) : settings := foldl insert_entry ∅ l.

Record writable_entry (e : bytes * bytes) : Prop := {
  we_key : e.1 ∈ ALLOWED_KEYS;
  we_value : line_value e.2;
}.

(** The entry as it is read. *)
Definition read_entry (e : bytes * bytes) : bytes * bytes := (e.1, read_value e.2).

Lemma read_entry_keys l : (map read_entry l).*1 = l.*1.
Proof. induction l as [|e l IH]; [done|]. simpl. by f_equal. Qed.

Lemma key_line k v c : k ∈ ALLOWED_KEYS -> without c v = true -> is_ascii_graphic c = false ->
  without c (k ++ str "=" ++ v) = true.
Proof.
  intros Hk Hv Hc. rewrite !forallb_app, Hv, andb_true_r.
  rewrite (graphic_without c k), (graphic_without c (str "=")) by (done || by apply allowed_graphic).
  done.
Qed.

Lemma lines_entry e rest :
  writable_entry e -> lines (entry_text e ++ rest) = (e.1 ++ str "=" ++ e.2) :: lines rest.
Proof.
  intros [Hk P]. unfold entry_text. rewrite <- !app_assoc.
  replace (e.1 ++ str "=" ++ e.2 ++ [LF] ++ rest)
    with ((e.1 ++ str "=" ++ e.2) ++ [LF] ++ rest) by (by rewrite <- !app_assoc).
  apply lines_cons; [|apply without_ends_with]; by apply key_line; [|apply P|].
Qed.

Lemma parse_entries l m :
  Forall writable_entry l -> NoDup l.*1 -> (forall e, e ∈ l -> m !! e.1 = None) ->
  parse_config_lines (lines (concat (map entry_text l))) m =
    Ok (foldl insert_entry m (map read_entry l)).
Proof.
  intros Hl. revert m. induction Hl as [|e l [Hk P] Hl IH]; intros m Hd Hm; [done|].
  cbn [map concat foldl]. rewrite lines_entry by done. cbn [parse_config_lines].
  rewrite fmap_cons, NoDup_cons in Hd. destruct Hd as [Hn Hd].
  rewrite parse_config_entry by (done || by apply Hm; left). apply IH; [done|].
  intros f Hf. unfold insert_entry. rewrite lookup_insert_ne; [apply Hm; by right|].
  intros E. apply Hn. cbn in E. rewrite E. by apply list_elem_of_fmap_2.
Qed.

(** Entries with different keys all keep their values. *)
Lemma foldl_insert_other l m k : k ∉ l.*1 -> foldl insert_entry m l !! k = m !! k.
Proof.
  revert m. induction l as [|e l IH]; intros m Hk; [done|].
  rewrite fmap_cons, not_elem_of_cons in Hk. destruct Hk as [Hne Hk].
  cbn [foldl]. rewrite IH by done. by apply lookup_insert_ne.
Qed.

Lemma settings_lookup l k v : NoDup l.*1 -> (k, v) ∈ l -> settings_of l !! k = Some v.
Proof.
  unfold settings_of. generalize (∅ : settings).
  induction l as [|e l IH]; intros m Hd Hin; [by apply not_elem_of_nil in Hin|].
  rewrite fmap_cons, NoDup_cons in Hd. destruct Hd as [Hn Hd]. cbn [foldl].
  apply elem_of_cons in Hin as [<-|Hin]; [|by apply IH].
  rewrite foldl_insert_other by done. apply lookup_insert_eq.
Qed.

(** * What a loaded configuration is *)

Lemma required_ok values key v :
  required values key = Ok v -> v <> [] /\ trimmed v.
Proof.
  unfold required. destruct (values !! key) as [raw|]; [|done]. simpl.
  destruct (trim raw) as [|c t] eqn:E; [done|]. intros [= <-].
  split; [done|]. rewrite <- E. apply trim_trimmed.
Qed.

Lemma required_some values key v :
  values !! key = Some v -> v <> [] -> trimmed v -> required values key = Ok v.
Proof.
  intros Hv Hn Ht. unfold required. rewrite Hv. simpl. rewrite Ht. by destruct v.
Qed.

Lemma within_ok low high o v : within low high o = Some v -> (low <= v <= high)%Z.
Proof. unfold within. destruct o; [|done]. case_match; [|done]. intros [= <-]. bool_hyps. lia. Qed.

Lemma within_in low high v : (low <= v <= high)%Z -> within low high (Some v) = Some v.
Proof. intros Hv. unfold within. by rewrite !(proj2 (Z.leb_le _ _)) by lia. Qed.

Record valid_config (config : RuntimeConfig) : Prop := {
  vc_jbl : identity_valid (jbl_identity config);
  vc_aura : identity_valid (aura_identity config);
  vc_distinct : jbl_identity config <> aura_identity config;
  vc_timeout : exists n, (1 <= n <= 30)%Z /\ timeout config = from_secs n;
  vc_port : (1024 <= gena_callback_port config <= u16_max)%Z;
  vc_address : address config <> [] /\ trimmed (address config);
  vc_tls : tls_sha256 config <> [] /\ trimmed (tls_sha256 config);
}.

Section Load.
Context {W H : Type} `{ProcessEnv W} `{PrivateFs W H}.

Lemma identity_setting_valid values key identity :
  identity_setting values key = Ok identity -> identity_valid identity.
Proof.
  unfold identity_setting. destruct (required values key); [|done].
  rewrite ok_or_Ok. apply identity_parse_valid.
Qed.

Lemma port_setting_bounds values port :
  port_setting values = Ok port -> (1024 <= port <= u16_max)%Z.
Proof.
  unfold port_setting. destruct (values !! _); [|by intros [= <-]].
  rewrite ok_or_Ok. apply within_ok.
Qed.

Lemma config_from_values_valid source values (w : W) config :
  config_from_values source values w = Ok config -> valid_config config.
Proof.
  unfold config_from_values.
  destruct (required values (str "JBL_LOCAL_API_CERT")); [|done].
  destruct (required values (str "JBL_LOCAL_API_KEY")); [|done].
  destruct (timeout_setting values) as [n|] eqn:Et; [|done].
  unfold timeout_setting in Et. rewrite ok_or_Ok in Et. apply within_ok in Et.
  destruct (port_setting values) as [port|] eqn:Ep; [|done]. apply port_setting_bounds in Ep.
  destruct (confirmation_setting values); [|done].
  destruct (identity_setting values (str "JBL_BT_MAC")) as [jbl|] eqn:Ej; [|done].
  destruct (identity_setting values (str "AURA_BT_MAC")) as [aura|] eqn:Ea; [|done].
  apply identity_setting_valid in Ej, Ea.
  case_bool_decide as Hne; [done|].
  destruct (required values (str "JBL_IP")) as [address|] eqn:Ei; [|done].
  destruct (resolve_path _ _ w); [|done]. destruct (resolve_path _ _ w); [|done].
  destruct (required values (str "JBL_LOCAL_API_TLS_SHA256")) as [tls|] eqn:El; [|done].
  apply required_ok in Ei, El. intros [= <-]. split; try done. by exists n.
Qed.
End Load.

(** * The installed text loads back *)

(** The strings are UTF-8, as every [String] is, and the two paths are absolute
    with no white space around them. *)
Record placed_config (config : RuntimeConfig) : Prop := {
  sc_utf8 : Forall (fun v => utf8_valid v = true)
              [address config; tls_sha256 config; expected_model config];
  sc_trimmed : Forall trimmed [certificate config; private_key config];
  sc_absolute : is_absolute (certificate config) = true /\
                is_absolute (private_key config) = true;
}.

(** What an installed configuration is read back as: the expected model alone is
    written as it is and read without the white space around it, and then
    without quotes around what is left. *)
Definition reloaded (config : RuntimeConfig) : RuntimeConfig := {|
  address := address config;
  certificate := certificate config;
  private_key := private_key config;
  tls_sha256 := tls_sha256 config;
  jbl_identity := jbl_identity config;
  expected_model := read_value (expected_model config);
  aura_identity := aura_identity config;
  timeout := timeout config;
  gena_callback_port := gena_callback_port config;
  broadcast_confirmation := broadcast_confirmation config;
|}.

Lemma unquote_le v : length (unquote v) <= length v.
Proof.
  unfold unquote. destruct v as [|a [|b v]]; try done. destruct (last _); [|done].
  case_bool_decide; [|done]. rewrite length_take, length_drop. simpl. lia.
Qed.

(** A written model is read back as it is exactly when no white space surrounds
    it. *)
Lemma read_value_same v : safe_config_value v = true -> read_value v = v <-> trim v = v.
Proof.
  intros Hs. split; intros E.
  - apply trim_same_length. pose proof (unquote_le (trim v)). pose proof (trim_le v).
    apply (f_equal length) in E. unfold read_value in E. lia.
  - by apply read_plain, safe_plain.
Qed.

Lemma reloaded_same config :
  safe_config_value (expected_model config) = true ->
  reloaded config = config <-> trim (expected_model config) = expected_model config.
Proof.
  intros Hs. rewrite <- read_value_same by done. split; intros E.
  - by apply (f_equal expected_model) in E.
  - unfold reloaded. rewrite E. by destruct config.
Qed.

Lemma confirmation_plain c : plain_value (confirmation_text c).
Proof. by destruct c; apply graphic_plain; vm_compute. Qed.

Lemma graphic_start_plain v :
  v <> [] -> forallb is_ascii_alphanumeric v = true -> plain_value v.
Proof.
  intros Hn Ha.
  assert (Hg : forallb is_ascii_graphic v = true).
  { revert Ha. apply forallb_impl, by_bytes_impl. by vm_compute. }
  apply graphic_plain; [done..| |]; destruct v as [|c v]; try done;
    simpl in Ha; apply andb_true_iff in Ha as [Hc _];
    unfold starts_with; simpl; rewrite decide_False; try done; intros <-;
    by vm_compute in Hc.
Qed.

Lemma dec_plain n : (0 <= n <= u64_max)%Z -> plain_value (dec n).
Proof.
  intros Hn. apply graphic_start_plain; [by apply (dec_canonical n Hn)|].
  apply (forallb_impl is_ascii_digit); [|by apply dec_digits].
  apply by_bytes_impl. by vm_compute.
Qed.

Lemma compact_plain identity : plain_value (compact_config_value identity).
Proof.
  apply graphic_start_plain; [by destruct identity|].
  unfold compact_config_value. induction (binary identity) as [|o os IH]; [done|].
  cbn [map concat]. rewrite forallb_app, IH.
  assert (forallb is_ascii_alphanumeric (hex_lower o) = true) as -> by by_all_bytes o. done.
Qed.

Lemma seconds_of_timeout n : (from_secs n / from_secs 1)%Z = n.
Proof. unfold from_secs. rewrite Z.mul_1_l. by apply Z.div_mul. Qed.

Lemma entries_keys config :
  NoDup (config_entries config).*1 /\ Forall (fun k => k ∈ ALLOWED_KEYS) (config_entries config).*1.
Proof.
  split; [by apply nodup_compute; vm_compute|].
  apply (bool_decide_unpack _). by vm_compute.
Qed.

(** Every value of the written file but the model reads as it is written. *)
Definition plain_entries (config : RuntimeConfig) : Prop :=
  Forall (fun e => e.1 <> str "JBL_EXPECTED_MODEL" -> plain_value e.2) (config_entries config).

Lemma entries_plain config :
  valid_config config -> placed_config config -> writable_config config = true ->
  line_value (expected_model config) /\ plain_entries config.
Proof.
  intros V S Hw. unfold writable_config in Hw. bool_hyps. simpl in *. bool_hyps.
  destruct (vc_timeout _ V) as (n & Hn & Ht). pose proof (vc_port _ V) as Hp.
  pose proof (sc_trimmed _ S) as Hs. rewrite !Forall_cons in Hs. destruct_and?.
  split.
  { assert (safe_config_value (expected_model config) = true) as Hm by done.
    unfold safe_config_value in Hm. bool_hyps. by split; apply contains_byte_without. }
  unfold plain_entries, config_entries. rewrite Ht, seconds_of_timeout.
  repeat apply Forall_cons_2; try apply Forall_nil_2; simpl; intros Hk; try done;
    try by apply safe_plain.
  - apply safe_plain; [done|apply V].
  - apply compact_plain.
  - apply compact_plain.
  - apply safe_plain; [done|apply V].
  - apply dec_plain. unfold u64_max. lia.
  - apply dec_plain. unfold u64_max, u16_max in *. lia.
  - apply confirmation_plain.
Qed.

Lemma model_entry config e :
  e ∈ config_entries config -> e.1 = str "JBL_EXPECTED_MODEL" -> e.2 = expected_model config.
Proof.
  intros He Hk. pose proof (settings_lookup _ e.1 e.2 (proj1 (entries_keys config))) as L.
  rewrite Hk in L. rewrite (settings_lookup _ _ (expected_model config)) in L;
    [|apply entries_keys|unfold config_entries; right; left].
  symmetry. apply (inj Some), L. destruct e; simpl in *. by subst.
Qed.

Lemma entries_writable config :
  valid_config config -> placed_config config -> writable_config config = true ->
  Forall writable_entry (config_entries config).
Proof.
  intros V S Hw. destruct (entries_plain config V S Hw) as [Hm Hp].
  destruct (entries_keys config) as [_ K]. apply Forall_fmap in K. unfold plain_entries in Hp.
  rewrite Forall_forall in K, Hp |- *. intros e He. split; [by apply (K e)|].
  destruct (decide (e.1 = str "JBL_EXPECTED_MODEL")) as [E|E]; [|by apply plain_line, Hp].
  by rewrite (model_entry config e).
Qed.

(** The written file is read as the file of the reloaded configuration. *)
Lemma read_entries config :
  valid_config config -> placed_config config -> writable_config config = true ->
  map read_entry (config_entries config) = config_entries (reloaded config).
Proof.
  intros V S Hw. destruct (entries_plain config V S Hw) as [_ Hp].
  unfold plain_entries, config_entries in *. rewrite !Forall_cons in Hp. destruct_and!.
  unfold read_entry. cbn [map fst snd reloaded]. by repeat f_equal; apply read_plain;
    match goal with P : _ -> plain_value ?v |- plain_value ?v => apply P end.
Qed.

Lemma payload_utf8 config :
  valid_config config -> placed_config config -> writable_config config = true ->
  utf8_valid (config_payload config) = true.
Proof.
  intros V S Hw. unfold writable_config in Hw. bool_hyps.
  pose proof (sc_utf8 _ S) as Hu. rewrite !Forall_cons in Hu. destruct_and?.
  destruct (vc_timeout _ V) as (n & Hn & Ht). pose proof (vc_port _ V) as Hp.
  destruct (entries_keys config) as [_ K]. apply Forall_fmap in K.
  assert (P : Forall (fun e => utf8_valid e.2 = true) (config_entries config)).
  { unfold config_entries. rewrite Ht, seconds_of_timeout.
    repeat apply Forall_cons_2; simpl; try done.
    - apply utf8_graphic, compact_graphic.
    - apply utf8_graphic, compact_graphic.
    - apply utf8_graphic, dec_graphic. unfold u64_max. lia.
    - apply utf8_graphic, dec_graphic. unfold u64_max, u16_max in *. lia.
    - by destruct (broadcast_confirmation config). }
  unfold config_payload. apply utf8_valid_concat, Forall_fmap.
  rewrite Forall_forall in K, P |- *. intros e He. simpl. unfold entry_text.
  repeat apply utf8_valid_app; try done; [|by apply P].
  by apply utf8_graphic, allowed_graphic, (K e).
Qed.

Lemma payload_parses config :
  valid_config config -> placed_config config -> writable_config config = true ->
  parse_config_text (config_payload config) =
    Ok (settings_of (config_entries (reloaded config))).
Proof.
  intros V S Hw. unfold parse_config_text, config_payload, settings_of.
  rewrite <- read_entries by done.
  apply parse_entries; [by apply entries_writable|apply entries_keys|].
  intros e _. apply lookup_empty.
Qed.

(** One setting of an installed file. *)
Lemma entry_lookup config k v :
  (k, v) ∈ config_entries config -> settings_of (config_entries config) !! k = Some v.
Proof. apply settings_lookup, entries_keys. Qed.

(** An entry of the written-out list, found by its key. *)
Ltac entry :=
  unfold config_entries; repeat first [apply list_elem_of_here | apply list_elem_of_further].

Section Roundtrip.
Context {W H : Type} `{ProcessEnv W} `{PrivateFs W H}.

Lemma compact_parses identity :
  identity_valid identity -> identity_parse (compact_config_value identity) = Some identity.
Proof.
  intros Hv. apply (identity_parse_digits _ (compact_config_value identity)).
  - rewrite trim_graphic by apply compact_graphic.
    apply identity_digits_plain, length_compact.
  - split; [apply hex_octets_concat|done].
Qed.

Lemma settings_load config source (w : W) :
  valid_config config -> plain_entries config ->
  is_absolute (certificate config) = true -> is_absolute (private_key config) = true ->
  config_from_values source (settings_of (config_entries config)) w = Ok config.
Proof.
  intros V E Ac Ak. unfold plain_entries in E.
  destruct (vc_timeout _ V) as (n & Hn & Ht). pose proof (vc_port _ V) as Hp.
  set (values := settings_of (config_entries config)).
  assert (L : forall k v, (k, v) ∈ config_entries config -> values !! k = Some v)
    by apply entry_lookup.
  assert (R : forall k v, (k, v) ∈ config_entries config -> k <> str "JBL_EXPECTED_MODEL" ->
              required values k = Ok v).
  { intros k v Hin Hk. rewrite Forall_forall in E. pose proof (E _ Hin Hk) as P.
    apply required_some; [by apply L|apply P..]. }
  assert (T : timeout_setting values = Ok n).
  { unfold timeout_setting. erewrite L by entry. cbn [from_option id].
    rewrite Ht, seconds_of_timeout, parse_unsigned_dec by (unfold u64_max; lia).
    by rewrite within_in. }
  assert (P : port_setting values = Ok (gena_callback_port config)).
  { unfold port_setting. erewrite L by entry.
    rewrite parse_unsigned_dec by (unfold u64_max, u16_max in *; lia). by rewrite within_in. }
  assert (C : confirmation_setting values = Ok (broadcast_confirmation config)).
  { unfold confirmation_setting. erewrite L by entry.
    by destruct (broadcast_confirmation config). }
  assert (I : forall k identity, (k, compact_config_value identity) ∈ config_entries config ->
              k <> str "JBL_EXPECTED_MODEL" -> identity_valid identity ->
              identity_setting values k = Ok identity).
  { intros k identity Hin Hk Hv. unfold identity_setting. rewrite (R _ _ Hin Hk).
    by rewrite compact_parses. }
  unfold config_from_values. do 2 erewrite R by (done || entry). rewrite T, P, C.
  erewrite (I (str "JBL_BT_MAC")), (I (str "AURA_BT_MAC")) by (done || entry || apply V).
  rewrite bool_decide_eq_false_2 by apply V. do 2 erewrite R by (done || entry).
  unfold resolve_path. rewrite Ac, Ak. erewrite L by entry. cbn [from_option id].
  rewrite <- Ht. by destruct config.
Qed.

Lemma reloaded_valid config : valid_config config -> valid_config (reloaded config).
Proof. by intros []. Qed.

Lemma reloaded_plain config : plain_entries config -> plain_entries (reloaded config).
Proof.
  unfold plain_entries, config_entries. rewrite !Forall_cons. cbn [fst snd reloaded].
  intros. by destruct_and!; split_and!.
Qed.

(** Reading the installed text gives the reloaded configuration, without
    overrides. *)
Lemma payload_loads config path (w w' : W) :
  valid_config config -> placed_config config -> writable_config config = true ->
  read_private_file path MAX_CONFIG_BYTES PrivateFileKind.Config w =
    (Ok (config_payload config), w') ->
  load_from_source (ConfigSource.Required path) ∅ w = (Ok (reloaded config), w').
Proof.
  intros V S Hw E. unfold load_from_source, config_values. rewrite E. cbn [fst snd].
  rewrite payload_utf8, payload_parses by done. rewrite (left_id_L ∅ _).
  destruct (entries_plain config V S Hw) as [_ P]. destruct (sc_absolute _ S).
  rewrite settings_load; [done|by apply reloaded_valid|by apply reloaded_plain|done..].
Qed.
End Roundtrip.

(** * Installation *)

(** The calls that look at the directory change none of its entries. *)
Class ConfigDirectoryLaws (W : Type) `{JournalDirLaws W, ConfigDirectory W} := {
  create_private_dir_all_frame p w r w' :
    create_private_dir_all p w = (r, w') -> untouched [] w w';
  path_metadata_frame p w r w' : path_metadata p w = (r, w') -> untouched [] w w';
}.

Section Install.
Context {W : Type} `{ConfigDirectoryLaws W}.

Lemma untouched_nil_kept n (w w' : W) : untouched [] w w' -> kept n w w'.
Proof. intros U. exact (U n (not_elem_of_nil n)). Qed.

Lemma prepare_kept n path parent (w : W) r w' :
  prepare_config_directory path parent w = (r, w') -> kept n w w'.
Proof.
  unfold prepare_config_directory. intros E.
  destruct (create_private_dir_all parent w) as [[[]|] w1] eqn:E1;
    apply create_private_dir_all_frame, (untouched_nil_kept n) in E1; [|by simplify_eq].
  destruct (path_metadata parent w1) as [[pm|] w2] eqn:E2;
    apply path_metadata_frame, (untouched_nil_kept n) in E2;
    pose proof (kept_trans _ _ _ _ E1 E2) as K2; [|by simplify_eq].
  destruct (_ || _); [by simplify_eq|].
  destruct (path_metadata path w2) as [[m|[]] w3] eqn:E3;
    apply path_metadata_frame, (untouched_nil_kept n) in E3;
    pose proof (kept_trans _ _ _ _ K2 E3) as K3; [|by simplify_eq..].
  destruct (replaceable _ m); by simplify_eq.
Qed.

(** The installation publishes its file the way the journal does. *)
Lemma publish_config_journal temporary target payload (w : W) :
  publish_config temporary target payload w =
  let '(r, w') := publish temporary target payload w in
  (map_err (fun _ => JblError.ConfigUnavailable) r, w').
Proof.
  unfold publish_config, publish. destruct (write_all _ _ w) as [[[]|] w1]; [|done].
  cbn [map_err]. destruct (sync_file _ w1) as [[[]|] w2]; [|done]. cbn [map_err].
  unfold rename_entry. destruct (renameat _ _ w2) as [[[]|] w3]; [|done]. cbn [map_err].
  by destruct (sync_dir w3) as [[[]|] w4].
Qed.

Lemma config_temporary_prefix random : starts_with (str ".devices.") (config_temporary random) = true.
Proof. unfold config_temporary. apply starts_with_true. eauto. Qed.

(** Whatever happens, the entry of the configuration has its old content or the
    whole new one, for other processes and after a crash at any later time; and
    a successful installation is durable. *)
Lemma install_published path target config (w : W) r w' :
  file_name path = Some target -> starts_with (str ".devices.") target = false ->
  install_private_config path config w = (r, w') ->
  published target (config_payload config) w w' /\
  (r = Ok tt -> writable_config config = true /\ durable target (config_payload config) w').
Proof.
  intros Hf Ht. unfold install_private_config. rewrite Hf. cbn [from_option id].
  destruct (path_parent path) as [parent|];
    [|by intros [= <- <-]; split; [apply published_kept, kept_refl|]].
  destruct (prepare_config_directory path parent w) as [[[]|] w1] eqn:E1;
    apply (prepare_kept target) in E1; cbn [fst snd];
    [|by intros [= <- <-]; split; [apply published_kept|]].
  destruct (writable_config config); cbn [negb];
    [|by intros [= <- <-]; split; [apply published_kept|]]. cbv zeta.
  destruct (rand_bytes 8 w1) as [[random|] w2] eqn:E2;
    apply rand_bytes_frame, (untouched_nil_kept target) in E2;
    pose proof (kept_trans _ _ _ _ E1 E2) as K2;
    [|by intros [= <- <-]; split; [apply published_kept|]].
  assert (Hne : target <> config_temporary random)
    by (intros ->; by rewrite config_temporary_prefix in Ht).
  generalize dependent (config_temporary random). intros temporary Hne.
  destruct (openat temporary config_how w2) as [[[]|] w3] eqn:E3;
    pose proof (create_frame _ _ _ _ _ E3 eq_refl) as U3;
    assert (K3 : kept target w w3)
      by (eapply kept_trans; [exact K2|eapply kept_of; [exact U3|by rewrite list_elem_of_singleton]]);
    [|by intros [= <- <-]; split; [apply published_kept|]].
  apply create_ok in E3; [|done]. rewrite publish_config_journal.
  destruct (publish temporary target _ w3) as [r4 w4] eqn:E4.
  destruct (publish_spec _ _ _ _ _ _ E4 Hne E3) as [P D].
  pose proof (published_kept_l _ _ _ _ _ K3 P) as P4.
  destruct r4 as [[]|e]; cbn [map_err is_err is_ok negb].
  - intros [= <- <-]. by split; [|intros _; split; [|apply D]].
  - destruct (unlinkat temporary 0 w4) as [r5 w5] eqn:E5. intros [= <- <-].
    split; [|done]. eapply published_kept_r; [exact P4|].
    apply unlink_frame in E5. eapply kept_of; [exact E5|by rewrite list_elem_of_singleton].
Qed.

End Install.

(** * The place of the automatic configuration *)

Lemma file_name_join base leaf :
  len_before_body (base ++ SLASH :: leaf) <= length base ->
  without SLASH leaf = true -> parse_single_component leaf = Some (Component.Normal leaf) ->
  file_name (base ++ SLASH :: leaf) = Some leaf.
Proof.
  intros Hb Hl Hp. unfold file_name. set (path := base ++ SLASH :: leaf) in *.
  assert (Hlen : length path = length base + S (length leaf)) by (unfold path; by rewrite length_app).
  rewrite Hlen, Nat.add_succ_r. cbn [next_back].
  rewrite (proj2 (Nat.leb_gt _ _)) by lia. unfold parse_next_component_back.
  unfold path at 2. rewrite drop_app_le, rsplit_once_app by done. by rewrite Hp.
Qed.

Lemma include_cur_dir_dot path : include_cur_dir path = true -> is_absolute path = false.
Proof.
  destruct path as [|c [|d path]]; [done| |]; unfold include_cur_dir; intros Hc; bool_hyps; by subst.
Qed.

Lemma len_before_body_small path : len_before_body path <= 1.
Proof.
  unfold len_before_body. pose proof (include_cur_dir_dot path) as Hi.
  destruct (include_cur_dir path); [rewrite Hi by done; simpl; lia|].
  destruct (is_absolute path); simpl; lia.
Qed.

(** [base] joined with two plain names ends in the second. *)
Lemma file_name_application base :
  file_name (path_join (path_join base APPLICATION_DIRECTORY) (str "devices.env"))
  = Some (str "devices.env").
Proof.
  assert (exists front, path_join base APPLICATION_DIRECTORY = front ++ APPLICATION_DIRECTORY)
    as [front ->].
  { unfold path_join. change (is_absolute APPLICATION_DIRECTORY) with false. cbv iota.
    destruct (_ || _); [by eexists|]. exists (base ++ str "/"). by rewrite <- app_assoc. }
  unfold path_join at 1. change (is_absolute (str "devices.env")) with false. cbv iota.
  rewrite bool_decide_eq_false_2 by (by destruct front).
  assert (ends_with (str "/") (front ++ APPLICATION_DIRECTORY) = false) as ->.
  { unfold ends_with, strip_suffix. by rewrite reverse_app. }
  cbn [orb]. apply file_name_join; [|done..].
  pose proof (len_before_body_small
    ((front ++ APPLICATION_DIRECTORY) ++ SLASH :: str "devices.env")).
  rewrite length_app. change (length APPLICATION_DIRECTORY) with 18. lia.
Qed.

Lemma automatic_file_name {W} `{ProcessEnv W} (w : W) path :
  automatic_config_path w = Some path -> file_name path = Some (str "devices.env").
Proof.
  unfold automatic_config_path. destruct (non_empty _) as [root|].
  - intros [= <-]. apply file_name_application.
  - destruct (non_empty _) as [root|]; [|done]. cbn [fmap option_fmap option_map].
    intros [= <-]. apply file_name_application.
Qed.

(** * Properties *)

Section Properties.
Context {W H : Type} `{ProcessEnv W} `{PrivateFs W H}.

(** Whatever the file and the environment hold, a configuration that loads
    names two different valid speakers, a time limit of one to thirty seconds,
    an unprivileged callback port, and an address and a pin that are not
    empty and carry no white space around them. *)
Theorem loaded_config_valid explicit_path (w : W) config w' :
  load explicit_path w = (Ok config, w') -> valid_config config.
Proof.
  unfold load, load_from_source. destruct (environment_overrides w) as [overrides|]; [|done].
  destruct (config_values _ w) as [[values|] w1]; [|done].
  intros [= E _]. by eapply config_from_values_valid.
Qed.

(** An override from the environment decides over the file. *)
Lemma override_wins (overrides values : settings) key v :
  overrides !! key = Some v -> (overrides ∪ values) !! key = Some v.
Proof. apply lookup_union_Some_l. Qed.
End Properties.

Section InstallProperties.
Context {W F : Type} `{JournalDirLaws W, !ConfigDirectory W, !ConfigDirectoryLaws W}.
Context `{!ProcessEnv W, !PrivateFs W F}.

(** A configuration that is made from the environment alone is placed: its
    strings are the values of UTF-8 variables, and its paths start at the root
    or at the working directory. *)
Lemma overrides_utf8 keys values (w : W) overrides :
  overrides_from keys values w = Ok overrides ->
  map_Forall (fun _ v => utf8_valid v = true) values ->
  map_Forall (fun _ v => utf8_valid v = true) overrides.
Proof.
  revert values. induction keys as [|key keys IH]; intros values; cbn [overrides_from].
  { by intros [= <-]. }
  destruct (var_os key w) as [v|]; [|by apply IH]. destruct (utf8_valid v) eqn:Hv; [|done].
  intros E Hm. eapply IH; [exact E|]. by apply map_Forall_insert_2.
Qed.

Lemma required_utf8 values key v :
  map_Forall (fun _ v => utf8_valid v = true) values ->
  required values key = Ok v -> utf8_valid v = true.
Proof.
  intros Hm. unfold required. destruct (values !! key) as [raw|] eqn:E; [|done].
  cbn [fmap option_fmap option_map]. destruct (trim raw) as [|c t] eqn:Et; [done|].
  intros [= <-]. rewrite <- Et. by eapply trim_utf8, (Hm key).
Qed.

(** A trimmed name behind a directory from the root. *)
Lemma join_shape directory v :
  is_absolute directory = true -> is_absolute v = false ->
  exists p, path_join directory v = p ++ SLASH :: v /\ is_absolute (p ++ [SLASH]) = true.
Proof.
  unfold is_absolute, path_join. intros Hd Hv. unfold is_absolute. rewrite Hv.
  apply starts_with_true in Hd as [d ->]. rewrite bool_decide_eq_false_2 by done. cbn [orb].
  destruct (ends_with _ _) eqn:E.
  - unfold ends_with in E. destruct (strip_suffix _ _) as [p|] eqn:Ep; [|done].
    apply strip_suffix_Some in Ep. exists p. rewrite Ep, <- app_assoc. split; [done|].
    change (p ++ [SLASH]) with (p ++ str "/"). rewrite <- Ep. by apply starts_with_true; eauto.
  - exists (str "/" ++ d). rewrite <- !app_assoc. split; [done|]. by apply starts_with_true; eauto.
Qed.

Lemma absolute_start p : is_absolute p = true -> strip_white p = None.
Proof. intros [t ->]%starts_with_true. by apply (strip_white_graphic SLASH). Qed.

Lemma resolved_placed v (w : W) path :
  (forall directory, current_dir w = Some directory -> is_absolute directory = true) ->
  trimmed v -> resolve_path v None w = Ok path -> trimmed path /\ is_absolute path = true.
Proof.
  intros Hc Ht. unfold resolve_path. destruct (is_absolute v) eqn:Ha; [by intros [= <-]|].
  cbn [mbind option_bind]. destruct (current_dir w) as [d|]; [|done]. intros [= <-].
  destruct (join_shape d v) as (p & -> & Hp); [by apply Hc|done|].
  assert (is_absolute (p ++ SLASH :: v) = true) as Hpath.
  { apply starts_with_true in Hp as [t Hp]. replace (p ++ SLASH :: v) with ((p ++ [SLASH]) ++ v)
      by (by rewrite <- app_assoc). rewrite Hp. apply starts_with_true. exists (t ++ v).
    by rewrite <- app_assoc. }
  split; [|done]. apply trimmed_of; [by apply absolute_start|].
  rewrite reverse_app, reverse_cons, <- app_assoc. apply strip_white_rev_app; [done|].
  by apply trimmed_end.
Qed.

Lemma none_source_stays overrides (w : W) r w' :
  load_from_source (H := F) ConfigSource.None_ overrides w = (r, w') ->
  w' = w /\ r = config_from_values ConfigSource.None_ overrides w.
Proof.
  unfold load_from_source, config_values. intros [= <- <-]. by rewrite (right_id_L ∅ _).
Qed.

Lemma environment_config_placed overrides (w : W) config :
  (forall directory, current_dir w = Some directory -> is_absolute directory = true) ->
  environment_overrides w = Ok overrides ->
  config_from_values ConfigSource.None_ overrides w = Ok config -> placed_config config.
Proof.
  intros Hc Hu. apply overrides_utf8 in Hu; [|apply map_Forall_empty].
  unfold config_from_values. cbn [ConfigSource.path].
  destruct (required overrides (str "JBL_LOCAL_API_CERT")) as [c|] eqn:Ec; [|done].
  destruct (required overrides (str "JBL_LOCAL_API_KEY")) as [k|] eqn:Ek; [|done].
  destruct (timeout_setting overrides); [|done]. destruct (port_setting overrides); [|done].
  destruct (confirmation_setting overrides); [|done].
  destruct (identity_setting overrides (str "JBL_BT_MAC")); [|done].
  destruct (identity_setting overrides (str "AURA_BT_MAC")); [|done].
  case_bool_decide; [done|].
  destruct (required overrides (str "JBL_IP")) as [a|] eqn:Ea; [|done].
  destruct (resolve_path c _ w) as [certificate|] eqn:Rc; [|done].
  destruct (resolve_path k _ w) as [private_key|] eqn:Rk; [|done].
  destruct (required overrides (str "JBL_LOCAL_API_TLS_SHA256")) as [t|] eqn:Et; [|done].
  intros [= <-].
  destruct (resolved_placed c w certificate) as [Tc Ac]; [done|by eapply required_ok|done|].
  destruct (resolved_placed k w private_key) as [Tk Ak]; [done|by eapply required_ok|done|].
  split; simpl; [|by repeat constructor|done].
  repeat apply Forall_cons_2; [by eapply required_utf8..| |done].
  destruct (overrides !! _) as [m|] eqn:Em; [by apply (Hu _ _ Em)|done].
Qed.

(** The parts of the configure command: either the entry is left as it was, or
    the configuration of the environment is installed. *)
Lemma configure_parts (w : W) r w' :
  install_private_default_from_environment (F := F) w = (r, w') ->
  (is_err r = true /\ w' = w) \/
  exists overrides config path,
    environment_overrides w = Ok overrides /\
    load_from_source (H := F) ConfigSource.None_ overrides w = (Ok config, w) /\
    file_name path = Some (str "devices.env") /\
    install_private_config path config w = (r, w').
Proof.
  unfold install_private_default_from_environment. intros E.
  destruct (environment_overrides w) as [overrides|e]; cbn beta iota in E;
    [|by simplify_eq; left].
  destruct (require_all _ overrides) as [|e]; cbn beta iota in E; [|by simplify_eq; left].
  destruct (load_from_source ConfigSource.None_ overrides w) as [[config|e] w1] eqn:El;
    pose proof (none_source_stays _ _ _ _ El) as [-> _]; [|by simplify_eq; left].
  destruct (automatic_config_path w) as [path|] eqn:Ep; [|by simplify_eq; left].
  right. exists overrides, config, path. split_and!; try done. by eapply automatic_file_name.
Qed.

Lemma none_source_valid overrides (w : W) config w' :
  load_from_source (H := F) ConfigSource.None_ overrides w = (Ok config, w') -> valid_config config.
Proof.
  intros [-> E]%none_source_stays. symmetry in E. by eapply config_from_values_valid.
Qed.

(** C32 What the configure command installed stays, and loads back.  When the
    command succeeds, it has made one configuration out of the environment; the
    entry holds its whole text, now and after a crash; and whoever reads that
    text later, from whatever path and in whatever environment, without
    overrides, loads a configuration of the same address, paths, pin, speakers,
    time limit, port and confirmation.  The expected model alone may differ:
    what is loaded is the model without the white space around it, and then
    without one pair of quotes around what is left.  So it is the very
    configuration that was installed exactly when no white space surrounds the
    model.  The working directory, where there is one, is taken to be a path
    from the root; and the reader refuses a text over [MAX_CONFIG_BYTES], a
    bound which the installation does not check. *)
Theorem installed_config_loads_back (w w1 : W) :
  (forall directory, current_dir w = Some directory -> is_absolute directory = true) ->
  install_private_default_from_environment (F := F) w = (Ok tt, w1) ->
  exists overrides config,
    environment_overrides w = Ok overrides /\
    load_from_source (H := F) ConfigSource.None_ overrides w = (Ok config, w) /\
    durable (str "devices.env") (config_payload config) w1 /\
    (forall source_path w2 w3,
       read_private_file source_path MAX_CONFIG_BYTES PrivateFileKind.Config w2 =
         (Ok (config_payload config), w3) ->
       load_from_source (ConfigSource.Required source_path) ∅ w2 =
         (Ok (reloaded config), w3)) /\
    (reloaded config = config <-> trim (expected_model config) = expected_model config).
Proof.
  intros Hc [[? _]|(overrides & config & path & Eo & El & Hf & E)]%configure_parts; [done|].
  exists overrides, config. pose proof (none_source_valid _ _ _ _ El) as V.
  apply none_source_stays in El as L. destruct L as [_ L]. symmetry in L.
  pose proof (environment_config_placed _ _ _ Hc Eo L) as S.
  destruct (install_published _ _ _ _ _ _ Hf eq_refl E) as [_ D].
  destruct (D eq_refl) as [Hw Hd]. do 3 (split; [done|]). split.
  - intros. by apply payload_loads.
  - apply reloaded_same. unfold writable_config in Hw. bool_hyps. simpl in *. by bool_hyps.
Qed.

(** C33 The configure command is all or nothing: it either leaves the
    configuration as it was, or, whatever its result and wherever a crash
    stops it, the configuration is the old one or the complete text of a valid
    one; and when it succeeds that text is there to stay. *)
Theorem configure_all_or_nothing (w : W) r w' :
  install_private_default_from_environment (F := F) w = (r, w') ->
  let target := str "devices.env" in
  (is_err r = true /\ kept target w w') \/
  exists config, valid_config config /\ published target (config_payload config) w w' /\
    (r = Ok tt -> durable target (config_payload config) w').
Proof.
  intros [[? ->]|(overrides & config & path & _ & El & Hf & E)]%configure_parts.
  { left. split; [done|apply kept_refl]. }
  right. exists config. split; [by eapply none_source_valid|].
  destruct (install_published _ _ _ _ _ _ Hf eq_refl E) as [P D].
  split; [done|]. intros Hr. by apply D.
Qed.
End InstallProperties.
