(* ===== verification/Cli.v ===== *)
(** The command line (rust/src/main.rs): its arguments, the dispatch to the
    service, the local client and the direct checks, what it prints and the
    exit code.  Standard output and serde_json are an interface; so are the
    operations that assemble the device clients ([NativeRuntime]), which
    [Native] implements. *)
From S2P Require Import Prelude.
From S2P Require Import Bytes.
From S2P Require Import Tcp.
From S2P Require Import Web.
From S2P Require Import WebServer.
From S2P Require Import Backend.
From S2P Require Import Journal.
From S2P Require Import Model.
From S2P Require Import Controller.
From S2P Require Import JblClient.
From S2P Require Import PrivateFile.
From S2P Require Import Service.
From S2P Require Import Config.
From S2P Require Import LocalModel.
From S2P Require Import LocalClient.

(** * Arguments *)

Module CliCommand.
Inductive t := Configure | Serve | Start | Stop | RecoverStop | Status | Doctor | Group | Help.
#[global] Instance eq_dec : EqDecision t. Proof. solve_decision. Defined.
End CliCommand.

Module CliError.
Inductive t :=
| InvalidArguments | OutputFailed
| Configuration (error : JblError.t)
| LocalClient (error : LocalClientError.t)
| ServiceRuntime (error : ServiceRuntimeError.t)
| WebServer (error : WebServerError.t)
| ActionNotAccepted.

Definition display (e : t) : bytes :=
  match e with
  | InvalidArguments => str "invalid command-line arguments"
  | OutputFailed => str "command output could not be written"
  | Configuration error => JblError.display error
  | LocalClient error => LocalClientError.display error
  | ServiceRuntime error => ServiceRuntimeError.display error
  | WebServer error => WebServerError.display error
  | ActionNotAccepted => str "the Play Together action was not accepted"
  end.
End CliError.

Record Options := mkOptions {
  command : CliCommand.t;
  config_path : option bytes;
  json : bool;
  recovery_confirmed : bool;
  from_environment : bool;
}.

(** The local variables of [parse_options_from]. *)
Record ParseState := mkParseState {
  command_slot : option CliCommand.t;
  path_slot : option bytes;
  json_seen : bool;
  confirm_seen : bool;
  from_env_seen : bool;
}.

Definition no_arguments : ParseState := mkParseState None None false false false.

(** The arms that name a command. *)
Definition command_of (argument : bytes) : option CliCommand.t :=
  if decide (argument = str "configure") then Some CliCommand.Configure
  else if decide (argument = str "serve") then Some CliCommand.Serve
  else if decide (argument = str "start") then Some CliCommand.Start
  else if decide (argument = str "stop") then Some CliCommand.Stop
  else if decide (argument = str "recover-stop") then Some CliCommand.RecoverStop
  else if decide (argument = str "status") then Some CliCommand.Status
  else if decide (argument = str "doctor") then Some CliCommand.Doctor
  else if decide (argument = str "group") then Some CliCommand.Group
  else if decide (argument ∈ [str "help"; str "-h"; str "--help"]) then Some CliCommand.Help
  else None.

Definition set_command (value : CliCommand.t) (st : ParseState) : result ParseState CliError.t :=
  match command_slot st with
  | Some _ => Err CliError.InvalidArguments
  | None =>
      Ok (mkParseState (Some value) (path_slot st) (json_seen st) (confirm_seen st)
            (from_env_seen st))
  end.

(** The loop of [parse_options_from]; arguments are raw operating-system
    strings, and only the value of [--config] need not be UTF-8. *)
Fixpoint parse_arguments (arguments : list bytes) (st : ParseState)
  : result ParseState CliError.t :=
  match arguments with
  | [] => Ok st
  | argument :: rest =>
      if negb (utf8_valid argument) then Err CliError.InvalidArguments
      else
      match command_of argument with
      | Some value => let? st := set_command value st in parse_arguments rest st
      | None =>
          if bool_decide (argument = str "--json") && negb (json_seen st) then
            parse_arguments rest
              (mkParseState (command_slot st) (path_slot st) true (confirm_seen st)
                 (from_env_seen st))
          else if bool_decide (argument = str "--confirm") && negb (confirm_seen st) then
            parse_arguments rest
              (mkParseState (command_slot st) (path_slot st) (json_seen st) true
                 (from_env_seen st))
          else if bool_decide (argument = str "--from-env") && negb (from_env_seen st) then
            parse_arguments rest
              (mkParseState (command_slot st) (path_slot st) (json_seen st) (confirm_seen st) true)
          else if bool_decide (argument = str "--config") && bool_decide (path_slot st = None) then
            match rest with
            | [] => Err CliError.InvalidArguments
            | path :: rest =>
                parse_arguments rest
                  (mkParseState (command_slot st) (Some path) (json_seen st) (confirm_seen st)
                     (from_env_seen st))
            end
          else Err CliError.InvalidArguments
      end
  end.

(** The checks after the loop. *)
Definition check_options (o : Options) : bool :=
  let confirmation_valid :=
    match command o with
    | CliCommand.RecoverStop => recovery_confirmed o && negb (from_environment o)
    | CliCommand.Configure => recovery_confirmed o && from_environment o
    | _ => negb (recovery_confirmed o) && negb (from_environment o)
    end in
  negb (negb confirmation_valid
        || (bool_decide (config_path o <> None)
            && negb (bool_decide (command o ∈ [CliCommand.Serve; CliCommand.Doctor; CliCommand.Group])))
        || (json o
            && bool_decide (command o ∈ [CliCommand.Configure; CliCommand.Serve; CliCommand.Help]))).

Definition options_of (st : ParseState) : Options :=
  mkOptions (default CliCommand.Status (command_slot st)) (path_slot st) (json_seen st)
    (confirm_seen st) (from_env_seen st).

Definition parse_options_from (arguments : list bytes) : result Options CliError.t :=
  let? st := parse_arguments arguments no_arguments in
  if check_options (options_of st) then Ok (options_of st) else Err CliError.InvalidArguments.

(** * Fixed names *)

Definition backend_name (value : LocalBackend.t) : bytes :=
  match value with
  | LocalBackend.LegacyV04WholePair => str "legacy_v04_whole_pair"
  | LocalBackend.NativePair => str "native_pair"
  end.
Definition pair_configuration_name (value : LocalPairConfiguration.t) : bytes :=
  match value with
  | LocalPairConfiguration.Ready => str "ready"
  | LocalPairConfiguration.NotReady => str "not_ready"
  | LocalPairConfiguration.Unavailable => str "unavailable"
  end.
Definition managed_state_name (value : LocalManagedState.t) : bytes :=
  match value with
  | LocalManagedState.Unknown => str "unknown"
  | LocalManagedState.Offline => str "offline"
  | LocalManagedState.Ready => str "ready"
  | LocalManagedState.Linking => str "linking"
  | LocalManagedState.Linked => str "linked"
  | LocalManagedState.Unlinking => str "unlinking"
  | LocalManagedState.Recovering => str "recovering"
  | LocalManagedState.Degraded => str "degraded"
  | LocalManagedState.ShuttingDown => str "shutting_down"
  end.
Definition lifecycle_name (value : LocalLifecycle.t) : bytes :=
  match value with
  | LocalLifecycle.Offline => str "offline"
  | LocalLifecycle.Initializing => str "initializing"
  | LocalLifecycle.Connecting => str "connecting"
  | LocalLifecycle.Ready => str "ready"
  | LocalLifecycle.Linking => str "linking"
  | LocalLifecycle.Linked => str "linked"
  | LocalLifecycle.Unlinking => str "unlinking"
  | LocalLifecycle.Degraded => str "degraded"
  | LocalLifecycle.Recovering => str "recovering"
  | LocalLifecycle.ShuttingDown => str "shutting_down"
  | LocalLifecycle.Failed => str "failed"
  end.
Definition health_level_name (value : LocalHealthLevel.t) : bytes :=
  match value with
  | LocalHealthLevel.Healthy => str "healthy"
  | LocalHealthLevel.Transitioning => str "transitioning"
  | LocalHealthLevel.Degraded => str "degraded"
  | LocalHealthLevel.Unavailable => str "unavailable"
  end.
Definition aura_transport_name (value : LocalAuraTransport.t) : bytes :=
  match value with
  | LocalAuraTransport.Le => str "le"
  | LocalAuraTransport.BrEdr => str "br_edr"
  | LocalAuraTransport.Unresolved => str "unresolved"
  | LocalAuraTransport.Unknown => str "unknown"
  end.
Definition acquisition_route_name (value : LocalAuraAcquisitionRoute.t) : bytes :=
  match value with
  | LocalAuraAcquisitionRoute.StableDirect => str "stable_direct"
  | LocalAuraAcquisitionRoute.A2dpWakeThenStable => str "a2dp_wake_then_stable"
  | LocalAuraAcquisitionRoute.FreshLe => str "fresh_le"
  | LocalAuraAcquisitionRoute.Unresolved => str "unresolved"
  end.
Definition action_name (value : LocalActionName.t) : bytes :=
  match value with
  | LocalActionName.Start => str "start"
  | LocalActionName.Stop => str "stop"
  | LocalActionName.Shutdown => str "shutdown"
  | LocalActionName.RecoverStop => str "recover_stop"
  end.
Definition pair_member_name (value : LocalPairMemberName.t) : bytes :=
  match value with
  | LocalPairMemberName.JblAuthentics300 => str "JBL Authentics 300"
  | LocalPairMemberName.AuraStudio5 => str "Aura Studio 5"
  end.
Definition pair_member_verification_name (value : LocalPairMemberVerification.t) : bytes :=
  match value with
  | LocalPairMemberVerification.Verified => str "verified"
  | LocalPairMemberVerification.NotVerified => str "not_verified"
  | LocalPairMemberVerification.Unavailable => str "unavailable"
  end.
Definition pair_member_channel_name (value : LocalPairMemberChannel.t) : bytes :=
  match value with
  | LocalPairMemberChannel.FrontLeft => str "front_left"
  | LocalPairMemberChannel.FrontRight => str "front_right"
  | LocalPairMemberChannel.Left => str "left"
  | LocalPairMemberChannel.Right => str "right"
  | LocalPairMemberChannel.Mono => str "mono"
  | LocalPairMemberChannel.Stereo => str "stereo"
  | LocalPairMemberChannel.Unknown => str "unknown"
  end.
Definition action_outcome_name (value : LocalActionOutcome.t) : bytes :=
  match value with
  | LocalActionOutcome.Accepted => str "accepted"
  | LocalActionOutcome.AcceptedUnconfirmed => str "accepted_unconfirmed"
  | LocalActionOutcome.Idempotent => str "idempotent"
  | LocalActionOutcome.RejectedBeforeSend => str "rejected_before_send"
  | LocalActionOutcome.OutcomeUnknown => str "outcome_unknown"
  | LocalActionOutcome.PostconditionFailed => str "postcondition_failed"
  end.
Definition evidence_name (value : LocalActionEvidence.t) : bytes :=
  match value with
  | LocalActionEvidence.LocalSessionState => str "local_session_state"
  | LocalActionEvidence.LifecycleAcknowledgement => str "lifecycle_acknowledgement"
  | LocalActionEvidence.BroadcastAcknowledgementOnly => str "broadcast_acknowledgement_only"
  | LocalActionEvidence.BroadcastBusinessNotification => str "broadcast_business_notification"
  end.
Definition failure_name (value : LocalFailure.t) : bytes :=
  match value with
  | LocalFailure.PairConfigurationUnavailable => str "pair_configuration_unavailable"
  | LocalFailure.ExpectedPairNotConfigured => str "expected_pair_not_configured"
  | LocalFailure.BackendRejectedBeforeSend => str "backend_rejected_before_send"
  | LocalFailure.AuraAdapterUnavailable => str "aura_adapter_unavailable"
  | LocalFailure.AuraDiscoveryUnavailable => str "aura_discovery_unavailable"
  | LocalFailure.AuraVerifiedAdvertisementNotFound => str "aura_verified_advertisement_not_found"
  | LocalFailure.AuraDeviceConnectionFailed => str "aura_device_connection_failed"
  | LocalFailure.WakeProfileConnectFailed => str "wake_profile_connect_failed"
  | LocalFailure.WakeFddfTimedOut => str "wake_fddf_timed_out"
  | LocalFailure.WakeFddfInvalid => str "wake_fddf_invalid"
  | LocalFailure.WakeFddfUnavailable => str "wake_fddf_unavailable"
  | LocalFailure.WakeProfileReleaseFailed => str "wake_profile_release_failed"
  | LocalFailure.AuraGattProfileInvalid => str "aura_gatt_profile_invalid"
  | LocalFailure.AuraNotificationSetupFailed => str "aura_notification_setup_failed"
  | LocalFailure.AuraWriteUnknown => str "aura_write_unknown"
  | LocalFailure.AuraAckTimeout => str "aura_ack_timeout"
  | LocalFailure.AuraAckChannelClosed => str "aura_ack_channel_closed"
  | LocalFailure.AuraUnexpectedAck => str "aura_unexpected_ack"
  | LocalFailure.JblEnterOutcomeUnknown => str "jbl_enter_outcome_unknown"
  | LocalFailure.JblExitOutcomeUnknown => str "jbl_exit_outcome_unknown"
  | LocalFailure.JblBroadcastResultTimedOut => str "jbl_broadcast_result_timed_out"
  | LocalFailure.JblBroadcastResultUnavailable => str "jbl_broadcast_result_unavailable"
  | LocalFailure.JblBroadcastResultRejected => str "jbl_broadcast_result_rejected"
  | LocalFailure.AuraStartOutcomeUnknown => str "aura_start_outcome_unknown"
  | LocalFailure.BackendOutcomeUnknown => str "backend_outcome_unknown"
  | LocalFailure.UnexpectedBackendLifecycle => str "unexpected_backend_lifecycle"
  | LocalFailure.MembershipPostconditionFailed => str "membership_postcondition_failed"
  | LocalFailure.UnresolvedPriorAction => str "unresolved_prior_action"
  | LocalFailure.RecoveryNotAllowed => str "recovery_not_allowed"
  | LocalFailure.JournalUnavailable => str "journal_unavailable"
  | LocalFailure.JournalCommitFailed => str "journal_commit_failed"
  end.

(** * Output *)

Record DoctorReport := mkDoctorReport {
  report_configuration : bytes;
  report_tls_pin : bytes;
  report_lan : bytes;
  report_pair_configuration : bytes;
  report_members : nat;
  report_bluetooth_backend : bytes;
}.

(** Standard output, and [serde_json::to_string] of the four printed types. *)
Class CliOutput (W : Type) := {
  stdout_line : bytes -> W -> result unit unit * W;
  (** [writeln!] to the standard error, whose result is ignored. *)
  stderr_line : bytes -> W -> W;
  status_json : LocalStatus -> option bytes;
  action_json : LocalActionResult -> option bytes;
  report_json : DoctorReport -> option bytes;
  group_json : GroupStatus -> option bytes;
}.

(** The help text, line by line. *)
Definition USAGE : list bytes := map str
  ["Usage: jbl-aura-link-rust [--json] <start|stop|status>";
   "       jbl-aura-link-rust recover-stop --confirm [--json]";
   "       jbl-aura-link-rust configure --from-env --confirm";
   "       jbl-aura-link-rust [--config PATH] <serve|doctor|group> [--json]";
   EmptyString;
   "Commands:";
   "  configure     Atomically install private Rust config from environment";
   "  serve         Run the loopback-only single-owner service";
   "  start         Ask the local service to start Play Together";
   "  stop          Ask the local service to stop Play Together";
   "  recover-stop  Explicit one-shot safe STOP recovery; requires --confirm";
   "  status        Read sanitized managed state from the local service (default)";
   "  doctor        Direct read-only configuration and device check";
   "  group         Direct read-only retained membership check";
   "  help          Show this text";
   EmptyString;
   "start/stop/status/recover-stop never open a device backend. If needed,";
   "they start jbl-aura-link-rust.service once and use only loopback HTTP."]%string.
Definition usage_text : bytes :=
  concat (map (fun line => line ++ [LF]) (removelast USAGE)) ++ default [] (last USAGE).

Definition bool_text (b : bool) : bytes := if b then str "true" else str "false".
Definition ready_text (b : bool) : bytes := if b then str "ready" else str "not_ready".

(** [items.join(",")]. *)
Fixpoint join_comma (items : list bytes) : bytes :=
  match items with
  | [] => []
  | [item] => item
  | item :: rest => item ++ str "," ++ join_comma rest
  end.

(** [value.map(name).unwrap_or("none")]. *)
Definition or_none {T} (name : T -> bytes) (value : option T) : bytes :=
  match value with Some v => name v | None => str "none" end.

Section Output.
Context {W : Type} `{CliOutput W}.
#[local] Abbreviation printed := (result unit CliError.t * W)%type.

Definition write_line (text : bytes) (w : W) : printed :=
  let '(r, w) := stdout_line text w in
  (map_err (fun _ : unit => CliError.OutputFailed) r, w).

(** Consecutive [outln!]s, each with [?]. *)
Fixpoint write_lines (texts : list bytes) (w : W) : printed :=
  match texts with
  | [] => (Ok tt, w)
  | text :: rest => let?! (_, w) := write_line text w in write_lines rest w
  end.

Definition print_json (serialized : option bytes) (w : W) : printed :=
  match serialized with
  | Some text => write_line text w
  | None => (Err CliError.OutputFailed, w)
  end.

Definition member_line (member : LocalPairMember) : bytes :=
  str "member=" ++ pair_member_name (LocalModel.name member) ++
  str " verification=" ++ pair_member_verification_name (local_verification member) ++
  str " channels=" ++ join_comma (map pair_member_channel_name (LocalModel.channels member)).

Definition health_line (health : option LocalHealth) : bytes :=
  match health with
  | Some health =>
      str "backend_health=" ++ health_level_name (level health) ++
      str " lifecycle=" ++ lifecycle_name (lifecycle health) ++
      str " reported_error=" ++ bool_text (reported_error health) ++
      str " aura_transport=" ++ aura_transport_name (aura_transport health) ++
      str " aura_acquisition_route=" ++ acquisition_route_name (aura_acquisition_route health)
  | None => str "backend_health=unavailable"
  end.

Definition last_action_line (last : option LocalLastAction) : bytes :=
  match last with
  | Some last =>
      str "last_action=" ++ action_name (last_name last) ++
      str " outcome=" ++ action_outcome_name (last_outcome last) ++
      str " evidence=" ++ or_none evidence_name (last_evidence last) ++
      str " failure=" ++ or_none failure_name (last_failure last) ++
      str " revision=" ++ dec (last_revision last) ++
      str " age_ms=" ++ dec (age_ms last)
  | None => str "last_action=none"
  end.

Definition print_local_status (status : LocalStatus) (json : bool) (w : W) : printed :=
  if json then print_json (status_json status) w
  else
    let '(jbl, aura) := LocalModel.members status in
    write_lines
      [str "backend=" ++ backend_name (backend status) ++
       str " pair_configuration=" ++ pair_configuration_name (pair_configuration status) ++
       str " managed_state=" ++ managed_state_name (managed_state status) ++
       str " revision=" ++ dec (status_revision status);
       health_line (backend_health status);
       member_line jbl;
       member_line aura;
       last_action_line (last_action status);
       str "unresolved_action=" ++ bool_text (unresolved_action status) ++
       str " consecutive_failures=" ++ dec (consecutive_failures status)] w.

Definition action_line (result : LocalActionResult) : bytes :=
  str "action=" ++ action_name (action result) ++
  str " outcome=" ++ action_outcome_name (outcome result) ++
  str " managed_state=" ++ managed_state_name (result_managed_state result) ++
  str " evidence=" ++ or_none evidence_name (evidence result) ++
  str " failure=" ++ or_none failure_name (failure result) ++
  str " revision=" ++ dec (action_revision result).

(** The result is printed in either form; the exit code follows the outcome. *)
Definition print_action (result : LocalActionResult) (json : bool) (w : W) : printed :=
  let?! (_, w) :=
    if json then print_json (action_json result) w else write_line (action_line result) w in
  (if succeeded result then Ok tt else Err CliError.ActionNotAccepted, w).

Definition print_group (group : GroupStatus) (w : W) : printed :=
  write_lines
    ((str "pair_configuration=" ++ ready_text (expected_pair_configured group) ++
      str " members=" ++ dec (Z.of_nat (member_count group)))
     :: map (fun member =>
          str "member=" ++ member_name member ++ str " channels=" ++
          (if bool_decide (Model.channels member = []) then str "-"
           else join_comma (Model.channels member))) (Model.members group)) w.
End Output.

(** * Commands *)

(** The service actor, as the process boundary uses it. *)
Class ServiceActor (A : Type) := {
  exit_shutdown : A -> result unit ServiceRuntimeError.t * A;
}.
#[export] Instance ControllerWebActor_exit {B P J K}
  `{PairBackend B, PairConfigurationProbe P, UncertaintyJournal J, Clock K}
  : ServiceActor (ControllerWebActor B P J K) := {
  exit_shutdown := shutdown_for_exit;
}.

(** The constructors of the device clients and the signal handlers.  A client
    is given by the form and the text of its address. *)
Class NativeRuntime (W A : Type) := {
  build_native_service_actor : RuntimeConfig -> W -> result A ServiceRuntimeError.t * W;
  install_termination_handlers : W -> result unit ServiceRuntimeError.t * W;
  validate_native_runtime : RuntimeConfig -> W -> result unit ServiceRuntimeError.t * W;
  jbl_lan_client_new : RuntimeConfig -> W -> result (bool * bytes) JblError.t * W;
}.

(** [From<JblError>] and its siblings, on a call. *)
Definition lifted {E W T} (wrap : E -> CliError.t) (call : result T E * W)
  : result T CliError.t * W :=
  let '(r, w) := call in (map_err wrap r, w).

Definition finish_service {A} `{ServiceActor A} (a : A) (listener_error : option WebServerError.t)
  : result unit CliError.t * A :=
  match exit_shutdown a with
  | (Err error, a) => (Err (CliError.ServiceRuntime error), a)
  | (Ok _, a) =>
      (match listener_error with
       | Some error => Err (CliError.WebServer error)
       | None => Ok tt
       end, a)
  end.

Section LocalCommand.
Context {W : Type} `{TcpStream W} `{LocalLibrary} `{ServiceManager W} `{CliOutput W}.
#[local] Abbreviation ran := (option (result unit CliError.t * W)%type).

(** [print(client.call()?, json)]. *)
Definition after_call {T} (call : option (result T LocalClientError.t * W))
    (print : T -> W -> result unit CliError.t * W) : ran :=
  match call with
  | None => None
  | Some (Err e, w) => Some (Err (CliError.LocalClient e), w)
  | Some (Ok x, w) => Some (print x w)
  end.

(** [None] is out of fuel, and the panic of a command that is not local. *)
Definition run_local_command (fuel : nat) (o : Options) (w : W) : ran :=
  match ensure_user_service fuel w with
  | None => None
  | Some (Err e, w) => Some (Err (CliError.ServiceRuntime e), w)
  | Some (Ok _, w) =>
      let port := DEFAULT_WEB_PORT in
      match command o with
      | CliCommand.Status =>
          after_call (LocalClient.status fuel port w) (fun s => print_local_status s (json o))
      | CliCommand.Start =>
          after_call (LocalClient.start fuel port w) (fun r => print_action r (json o))
      | CliCommand.Stop =>
          after_call (LocalClient.stop fuel port w) (fun r => print_action r (json o))
      | CliCommand.RecoverStop =>
          if negb (recovery_confirmed o) then Some (Err CliError.InvalidArguments, w)
          else after_call (LocalClient.recover_stop fuel port w)
                 (fun r => print_action r (json o))
      | _ => None
      end
  end.
End LocalCommand.

Section Run.
Context {W F A R : Type} `{!TcpStream W, !WebListener W, !LocalLibrary, !ServiceManager W, !CliOutput W}.
Context `{!ProcessEnv W, !PrivateFs W F, !JournalDir W, !ConfigDirectory W}.
Context `{!Ureq W R, !JblLibrary, !WebLibrary, !WebActor A, !ServiceActor A, !NativeRuntime W A}.
#[local] Abbreviation ran := (option (result unit CliError.t * W)%type).
#[local] Abbreviation configuration := (lifted CliError.Configuration).
#[local] Abbreviation runtime := (lifted CliError.ServiceRuntime).

Definition run_configure (o : Options) (w : W) : result unit CliError.t * W :=
  if negb (recovery_confirmed o) || negb (from_environment o)
  then (Err CliError.InvalidArguments, w)
  else
    let?! (_, w) := configuration (install_private_default_from_environment (F := F) w) in
    write_line (str "private_configuration=installed service_started=false") w.

(** The actor is shut down whether the listener stopped or failed. *)
Definition run_service (fuel : nat) (path : option bytes) (w : W) : ran :=
  match configuration (load (H := F) path w) with
  | (Err e, w) => Some (Err e, w)
  | (Ok config, w) =>
  match runtime (build_native_service_actor (A := A) config w) with
  | (Err e, w) => Some (Err e, w)
  | (Ok actor, w) =>
  match runtime (install_termination_handlers (A := A) w) with
  | (Err e, w) => Some (Err e, w)
  | (Ok _, w) =>
  match lifted CliError.WebServer (bind actor (IpAddr.V4_LOCALHOST, DEFAULT_WEB_PORT) w) with
  | (Err e, w) => Some (Err e, w)
  | (Ok server, w) =>
  match serve fuel server w with
  | None => None
  | Some (Ok actor, w) => Some (fst (finish_service actor None), w)
  | Some (Err (listener_error, actor), w) =>
      Some (fst (finish_service actor (Some listener_error)), w)
  end end end end end.

(** [build_client]. *)
Definition build_client (config : RuntimeConfig) (w : W)
  : result (JblLanClient W) JblError.t * W :=
  let?! (client, w) := jbl_lan_client_new (A := A) config w in
  (Ok (mkJblClient (fst client) (snd client) JBL_HTTPS_PORT JBL_UPNP_PORT w), w).

(** A call of the client, of which only the world is kept. *)
Definition on_client {T} (call : JblLanClient W -> result T JblError.t * JblLanClient W)
    (client : JblLanClient W) : result T JblError.t * W :=
  let '(r, client) := call client in (r, agents client).

Definition doctor_report (status : SanitizedStatus) : DoctorReport := {|
  report_configuration := str "ok";
  report_tls_pin := str "present";
  report_lan := str "ok";
  report_pair_configuration := ready_text (expected_pair_configured (play_together status));
  report_members := member_count (play_together status);
  report_bluetooth_backend := str "native_constructed";
|}.

Definition run_doctor (path : option bytes) (json : bool) (w : W) : result unit CliError.t * W :=
  let?! (config, w) := configuration (load (H := F) path w) in
  let?! (_, w) := runtime (validate_native_runtime (A := A) config w) in
  let?! (client, w) := configuration (build_client config w) in
  let?! (status, w) := configuration (on_client (sanitized_status
    (expected_model config) (jbl_identity config) (aura_identity config)) client) in
  let report := doctor_report status in
  if json then print_json (report_json report) w
  else
    write_lines
      [str "configuration=" ++ report_configuration report ++
       str " tls_pin=" ++ report_tls_pin report ++ str " lan=" ++ report_lan report;
       str "pair_configuration=" ++ report_pair_configuration report ++
       str " members=" ++ dec (Z.of_nat (report_members report));
       str "bluetooth_backend=" ++ report_bluetooth_backend report] w.

Definition run_group (path : option bytes) (json : bool) (w : W) : result unit CliError.t * W :=
  let?! (config, w) := configuration (load (H := F) path w) in
  let?! (client, w) := configuration (build_client config w) in
  let?! (group, w) := configuration (on_client (pair_configuration_status
    (expected_model config) (jbl_identity config) (aura_identity config)) client) in
  if json then print_json (group_json group) w else print_group group w.

Definition usage : W -> result unit CliError.t * W := write_line usage_text.

Definition run (fuel : nat) (arguments : list bytes) (w : W) : ran :=
  match parse_options_from arguments with
  | Err e => Some (Err e, w)
  | Ok o =>
      match command o with
      | CliCommand.Help => Some (usage w)
      | CliCommand.Configure => Some (run_configure o w)
      | CliCommand.Serve => run_service fuel (config_path o) w
      | CliCommand.Start | CliCommand.Stop | CliCommand.RecoverStop | CliCommand.Status =>
          run_local_command fuel o w
      | CliCommand.Doctor => Some (run_doctor (config_path o) (json o) w)
      | CliCommand.Group => Some (run_group (config_path o) (json o) w)
      end
  end.

(** The exit code of [main]: [true] is [ExitCode::SUCCESS]; a failure is named
    on the standard error. *)
Definition main (fuel : nat) (arguments : list bytes) (w : W) : option (bool * W) :=
  '(r, w) ← run fuel arguments w;
  match r with
  | Ok _ => Some (true, w)
  | Err error => Some (false, stderr_line (str "jbl-aura-link-rust: " ++ CliError.display error) w)
  end.
End Run.
