(* ===== verification/CliSpec.v ===== *)
(** What the command line promises: the arguments it accepts are those of a
    small grammar, and a local command that exits with success made exactly one
    request of its kind and was answered that the action succeeded. *)
From S2P Require Import Prelude.
From S2P Require Import Bytes.
From S2P Require Import Tcp.
From S2P Require Import Web.
From S2P Require Import WebServer.
From S2P Require Import Service.
From S2P Require Import Config.
From S2P Require Import LocalModel.
From S2P Require Import LocalClient.
From S2P Require Import ClientSpec.
From S2P Require Import Cli.

(** * The grammar of the arguments *)

Inductive token :=
| TCommand (spelling : bytes) | TJson | TConfirm | TFromEnv | TConfig (path : bytes).

Definition token_text (t : token) : list bytes :=
  match t with
  | TCommand spelling => [spelling]
  | TJson => [str "--json"]
  | TConfirm => [str "--confirm"]
  | TFromEnv => [str "--from-env"]
  | TConfig path => [str "--config"; path]
  end.

(** Every kind of token may occur once. *)
Definition kind (t : token) : nat :=
  match t with TCommand _ => 0 | TJson => 1 | TConfirm => 2 | TFromEnv => 3 | TConfig _ => 4 end.

Definition known (t : token) : Prop :=
  match t with TCommand spelling => is_Some (command_of spelling) | _ => True end.

(** What the tokens say, in any order. *)
Definition apply_token (st : ParseState) (t : token) : ParseState :=
  match t with
  | TCommand spelling =>
      mkParseState (command_of spelling) (path_slot st) (json_seen st) (confirm_seen st)
        (from_env_seen st)
  | TJson => mkParseState (command_slot st) (path_slot st) true (confirm_seen st) (from_env_seen st)
  | TConfirm => mkParseState (command_slot st) (path_slot st) (json_seen st) true (from_env_seen st)
  | TFromEnv => mkParseState (command_slot st) (path_slot st) (json_seen st) (confirm_seen st) true
  | TConfig path =>
      mkParseState (command_slot st) (Some path) (json_seen st) (confirm_seen st) (from_env_seen st)
  end.

Definition says (tokens : list token) : Options :=
  options_of (foldl apply_token no_arguments tokens).

(** A kind that has not been seen yet. *)
Definition unseen (st : ParseState) (k : nat) : Prop :=
  match k with
  | 0 => command_slot st = None
  | 1 => json_seen st = false
  | 2 => confirm_seen st = false
  | 3 => from_env_seen st = false
  | _ => path_slot st = None
  end.

Lemma unseen_apply st t k : k <= 4 -> kind t <> k -> unseen (apply_token st t) k <-> unseen st k.
Proof.
  intros Hk Hne. do 5 (destruct k as [|k]; [by destruct t|]). lia.
Qed.

Lemma seen_apply st t : known t -> unseen (apply_token st t) (kind t) -> False.
Proof. destruct t; simpl; [by intros [? ->]|done..]. Qed.

Lemma kind_bound t : kind t <= 4.
Proof. destruct t; simpl; lia. Qed.

Lemma command_utf8 a c : command_of a = Some c -> utf8_valid a = true.
Proof.
  unfold command_of. intros E.
  repeat (case_decide; [subst; by vm_compute|]).
  case_decide as Hd; [|done]. rewrite !elem_of_cons, elem_of_nil in Hd.
  by destruct Hd as [->|[->|[->|[]]]]; vm_compute.
Qed.

(** One turn of the loop reads one token. *)
Lemma parse_token t rest st :
  known t -> unseen st (kind t) ->
  parse_arguments (token_text t ++ rest) st = parse_arguments rest (apply_token st t).
Proof.
  intros Hk Hu. destruct t as [spelling| | | |path]; cbn [token_text Datatypes.app parse_arguments].
  - destruct Hk as [c Hc]. rewrite (command_utf8 _ _ Hc), Hc. cbn [negb].
    unfold set_command. simpl in Hu. rewrite Hu. simpl. by rewrite Hc.
  - simpl in Hu. by rewrite Hu.
  - simpl in Hu. by rewrite Hu.
  - simpl in Hu. by rewrite Hu.
  - simpl in Hu. by rewrite Hu.
Qed.

Lemma parse_tokens tokens st :
  Forall known tokens -> NoDup (map kind tokens) -> (forall t, t ∈ tokens -> unseen st (kind t)) ->
  parse_arguments (concat (map token_text tokens)) st = Ok (foldl apply_token st tokens).
Proof.
  intros Hk. revert st. induction Hk as [|t tokens Hk _ IH]; intros st Hd Hu; [done|].
  cbn [map] in Hd. apply NoDup_cons in Hd as [Hn Hd]. cbn [map concat foldl].
  rewrite parse_token by (done || apply Hu; left). apply IH; [done|].
  intros t' Ht'. apply unseen_apply; [apply kind_bound| |by apply Hu; right].
  intros E. apply Hn. rewrite E. by apply list_elem_of_fmap_2.
Qed.

(** A turn that succeeds has read a token. *)
Lemma parse_first a rest st st' :
  parse_arguments (a :: rest) st = Ok st' ->
  exists t rest', a :: rest = token_text t ++ rest' /\ known t /\ unseen st (kind t) /\
    parse_arguments rest' (apply_token st t) = Ok st'.
Proof.
  cbn [parse_arguments]. destruct (negb (utf8_valid a)); [done|].
  destruct (command_of a) as [c|] eqn:Ec.
  { unfold set_command. destruct (command_slot st) eqn:Es; [done|]. intros E.
    exists (TCommand a), rest. simpl. rewrite Ec. by split_and!. }
  destruct (_ && negb (json_seen st)) eqn:G1; [bool_hyps; subst; by exists TJson, rest|].
  destruct (_ && negb (confirm_seen st)) eqn:G2; [bool_hyps; subst; by exists TConfirm, rest|].
  destruct (_ && negb (from_env_seen st)) eqn:G3; [bool_hyps; subst; by exists TFromEnv, rest|].
  destruct (_ && bool_decide (path_slot st = None)) eqn:G4; [|done]. bool_hyps. subst.
  destruct rest as [|path rest]; [done|]. by exists (TConfig path), rest.
Qed.

(** What was parsed is such a list. *)
Lemma parsed_tokens fuel arguments st st' :
  length arguments <= fuel -> parse_arguments arguments st = Ok st' ->
  exists tokens, arguments = concat (map token_text tokens) /\ Forall known tokens /\
    NoDup (map kind tokens) /\ (forall t, t ∈ tokens -> unseen st (kind t)) /\
    st' = foldl apply_token st tokens.
Proof.
  revert arguments st. induction fuel as [|fuel IH]; intros [|a rest] st Hl E; simpl in Hl;
    try lia; try (simplify_eq/=; exists []; split_and!; [done..|by constructor| |done];
                  by intros t []%elem_of_nil).
  apply parse_first in E as (t & rest' & Ha & Hk & Hu & E).
  apply IH in E as (tokens & -> & Fk & Nd & Us & ->).
  2: { apply (f_equal length) in Ha. rewrite length_app in Ha. simpl in Ha.
       assert (0 < length (token_text t)) by (destruct t; simpl; lia). lia. }
  assert (Hne : forall t', t' ∈ tokens -> kind t <> kind t').
  { intros t' Hin E. eapply seen_apply; [exact Hk|]. rewrite E. by apply Us. }
  exists (t :: tokens). split_and!; [done|by constructor| | |done].
  - cbn [map]. apply NoDup_cons. split; [|done].
    intros (t' & E & Hin)%list_elem_of_fmap. by apply (Hne t').
  - intros t' [->|Hin]%elem_of_cons; [done|].
    apply (unseen_apply st t); [apply kind_bound|by apply Hne|by apply Us].
Qed.

(** The program accepts exactly the argument lists of a small grammar: a
    command, [--json], [--confirm], [--from-env] and [--config PATH], each at
    most once and in any order, whose combination is allowed; and the options
    are what the tokens say.  In particular a recovery stop needs its explicit
    confirmation, and no local command takes a configuration path. *)
Theorem arguments_exact (arguments : list bytes) (o : Options) :
  parse_options_from arguments = Ok o <->
  exists tokens, arguments = concat (map token_text tokens) /\ Forall known tokens /\
    NoDup (map kind tokens) /\ says tokens = o /\ check_options o = true.
Proof.
  unfold parse_options_from, says. split.
  - destruct (parse_arguments arguments no_arguments) as [st|] eqn:E; [|done].
    eapply parsed_tokens in E as (tokens & Ha & Hk & Hd & _ & ->); [|done].
    destruct (check_options _) eqn:C; [|done]. intros [= <-]. by exists tokens.
  - intros (tokens & -> & Hk & Hd & <- & C). rewrite parse_tokens; [by rewrite C|done..|].
    intros t _. by destruct t.
Qed.

(** * The names that are printed *)

(** Every fixed name the command line prints is the name under which the
    service serializes that value. *)
Ltac all_variants := intros []; by vm_compute.
Lemma names_are_serialized :
  (forall v, decode_variant LocalBackend.variants (Model.Value.String (backend_name v)) = Some v) /\
  (forall v, decode_variant LocalPairConfiguration.variants
               (Model.Value.String (pair_configuration_name v)) = Some v) /\
  (forall v, decode_variant LocalManagedState.variants
               (Model.Value.String (managed_state_name v)) = Some v) /\
  (forall v, decode_variant LocalLifecycle.variants
               (Model.Value.String (lifecycle_name v)) = Some v) /\
  (forall v, decode_variant LocalHealthLevel.variants
               (Model.Value.String (health_level_name v)) = Some v) /\
  (forall v, decode_variant LocalAuraTransport.variants
               (Model.Value.String (aura_transport_name v)) = Some v) /\
  (forall v, decode_variant LocalAuraAcquisitionRoute.variants
               (Model.Value.String (acquisition_route_name v)) = Some v) /\
  (forall v, decode_variant LocalActionName.variants (Model.Value.String (action_name v)) = Some v) /\
  (forall v, decode_variant LocalPairMemberName.variants
               (Model.Value.String (pair_member_name v)) = Some v) /\
  (forall v, decode_variant LocalPairMemberVerification.variants
               (Model.Value.String (pair_member_verification_name v)) = Some v) /\
  (forall v, decode_variant LocalPairMemberChannel.variants
               (Model.Value.String (pair_member_channel_name v)) = Some v) /\
  (forall v, decode_variant LocalActionOutcome.variants
               (Model.Value.String (action_outcome_name v)) = Some v) /\
  (forall v, decode_variant LocalActionEvidence.variants
               (Model.Value.String (evidence_name v)) = Some v) /\
  (forall v, decode_variant LocalFailure.variants (Model.Value.String (failure_name v)) = Some v).
Proof. split_and!; all_variants. Qed.

(** * A local command *)

(** The probe of readiness of the service manager is the client's; of its other
    calls, and of printing, nothing goes to the service. *)
Definition ready_request : bytes := encode_request DEFAULT_WEB_PORT GET (str "/healthz") [] [].
Definition probes (sent : list bytes) : Prop := Forall (fun part => part `prefix_of` ready_request) sent.

Class LocalCommandWire (W : Type) `{TcpWire W, ServiceManager W, CliOutput W} := {
  probe_wire w r w' : probe_ready w = (r, w') -> exists sent, wire w' = wire w ++ sent /\ probes sent;
  sm_now_wire w t w' : sm_now w = (t, w') -> wire w' = wire w;
  sm_sleep_wire d w : wire (sm_sleep d w) = wire w;
  spawn_wire w r w' : spawn_start w = (r, w') -> wire w' = wire w;
  try_wait_wire w r w' : try_wait w = (r, w') -> wire w' = wire w;
  kill_wire w : wire (kill_and_wait w) = wire w;
  stdout_wire text w r w' : stdout_line text w = (r, w') -> wire w' = wire w;
}.

Section LocalCommand.
Context {W : Type} `{LocalCommandWire W} `{LocalLibrary}.

(** Only probes were sent between two states. *)
Definition probed (w w' : W) : Prop := exists sent, wire w' = wire w ++ sent /\ probes sent.

Lemma probed_same w w' : wire w' = wire w -> probed w w'.
Proof. intros E. exists []. rewrite app_nil_r. split; [done|by constructor]. Qed.

Lemma probed_trans w1 w2 w3 : probed w1 w2 -> probed w2 w3 -> probed w1 w3.
Proof.
  intros (a & E1 & P1) (b & E2 & P2). exists (a ++ b).
  split; [by rewrite E2, E1, <- app_assoc|by apply Forall_app].
Qed.

Lemma probe_probed w r w' : probe_ready w = (r, w') -> probed w w'.
Proof. apply probe_wire. Qed.

Lemma wait_start_wire fuel deadline w r w' :
  wait_start fuel deadline w = Some (r, w') -> wire w' = wire w.
Proof.
  revert w. induction fuel as [|fuel IH]; intros w; [done|]. cbn [wait_start].
  destruct (try_wait w) as [[[]| |] w1] eqn:E1; apply try_wait_wire in E1;
    try by intros [= <- <-].
  destruct (sm_now w1) as [t w2] eqn:E2. apply sm_now_wire in E2.
  destruct (t <? deadline)%Z.
  - intros E%IH. rewrite E, sm_sleep_wire. congruence.
  - intros [= <- <-]. rewrite kill_wire. congruence.
Qed.

Lemma wait_ready_probed fuel deadline poll w r w' :
  wait_ready fuel deadline poll w = Some (r, w') -> probed w w'.
Proof.
  revert w. induction fuel as [|fuel IH]; intros w; [done|]. cbn [wait_ready].
  destruct (probe_ready w) as [[[]|e] w1] eqn:E1; apply probe_probed in E1; [by intros [= <- <-]|].
  destruct (_ || _); [|by intros [= <- <-]].
  destruct (sm_now w1) as [t w2] eqn:E2. apply sm_now_wire, probed_same in E2.
  destruct (deadline <=? t)%Z.
  - intros [= <- <-]. by eapply probed_trans.
  - intros E%IH. eapply probed_trans; [exact E1|]. eapply probed_trans; [exact E2|].
    eapply probed_trans; [|exact E]. apply probed_same, sm_sleep_wire.
Qed.

Lemma ensure_probed fuel w r w' : ensure_user_service fuel w = Some (r, w') -> probed w w'.
Proof.
  unfold ensure_user_service, ensure_user_service_with.
  destruct (probe_ready w) as [[[]|e] w1] eqn:E1; apply probe_probed in E1; [by intros [= <- <-]|].
  destruct (negb _); [by intros [= <- <-]|]. unfold start_user_unit_once.
  destruct (spawn_start w1) as [[[]|] w2] eqn:E2; apply spawn_wire, probed_same in E2;
    pose proof (probed_trans _ _ _ E1 E2) as P2; [|by intros [= <- <-]].
  destruct (sm_now w2) as [t w3] eqn:E3; apply sm_now_wire, probed_same in E3.
  pose proof (probed_trans _ _ _ P2 E3) as P3.
  destruct (wait_start fuel _ w3) as [[[[]|e4] w4]|] eqn:E4; [| |done];
    apply wait_start_wire, probed_same in E4; pose proof (probed_trans _ _ _ P3 E4) as P4;
    [|by intros [= <- <-]].
  destruct (sm_now w4) as [t5 w5] eqn:E5; apply sm_now_wire, probed_same in E5.
  intros E%wait_ready_probed. eapply probed_trans; [exact P4|]. by eapply probed_trans.
Qed.

Lemma write_line_wire text w r w' : write_line text w = (r, w') -> wire w' = wire w.
Proof.
  unfold write_line. destruct (stdout_line text w) as [r1 w1] eqn:E. apply stdout_wire in E.
  by intros [= <- <-].
Qed.

Lemma write_lines_wire texts w r w' : write_lines texts w = (r, w') -> wire w' = wire w.
Proof.
  revert w. induction texts as [|text texts IH]; intros w; cbn [write_lines]; [by intros [= <- <-]|].
  destruct (write_line text w) as [[[]|e] w1] eqn:E; apply write_line_wire in E.
  - intros ?%IH. congruence.
  - by intros [= <- <-].
Qed.

Lemma print_json_wire text w r w' : print_json text w = (r, w') -> wire w' = wire w.
Proof. destruct text; [apply write_line_wire|by intros [= <- <-]]. Qed.

Lemma print_status_wire s j w r w' : print_local_status s j w = (r, w') -> wire w' = wire w.
Proof.
  unfold print_local_status. destruct j; [apply print_json_wire|].
  destruct (LocalModel.members s). apply write_lines_wire.
Qed.

Lemma print_action_spec result j w r w' :
  print_action result j w = (r, w') -> wire w' = wire w /\ (r = Ok tt -> succeeded result = true).
Proof.
  unfold print_action.
  destruct (if j then _ else _) as [[[]|e] w1] eqn:E.
  - assert (wire w1 = wire w) by (destruct j; [by eapply print_json_wire|by eapply write_line_wire]).
    intros [= <- <-]. split; [done|]. by destruct (succeeded result).
  - assert (wire w1 = wire w) by (destruct j; [by eapply print_json_wire|by eapply write_line_wire]).
    by intros [= <- <-].
Qed.

(** What a command posts to, with what, and the action it expects back. *)
Definition mutation_of (c : CliCommand.t) : option (bytes * bytes * LocalActionName.t) :=
  match c with
  | CliCommand.Start => Some (str "/api/start", EMPTY_OBJECT, LocalActionName.Start)
  | CliCommand.Stop => Some (str "/api/stop", EMPTY_OBJECT, LocalActionName.Stop)
  | CliCommand.RecoverStop =>
      Some (str "/internal/recover-stop", RECOVER_BODY, LocalActionName.RecoverStop)
  | _ => None
  end.

(** What a mutation command sent, if it got that far, and what its success
    means. *)
Definition mutation_sent (path body : bytes) (expected : LocalActionName.t)
    (sent : list bytes) (r : result unit CliError.t) : Prop :=
  (sent = [] \/ exists answer, conversation DEFAULT_WEB_PORT path body expected sent answer) /\
  (r = Ok tt -> exists csrf n result,
     sent = [page_request DEFAULT_WEB_PORT; status_request DEFAULT_WEB_PORT;
             post_request DEFAULT_WEB_PORT path csrf n body] /\
     (n < action_revision result)%Z /\ action result = expected /\ succeeded result = true).

(** The mutation flow followed by the printing of its result. *)
Lemma mutation_printed fuel path body expected j w r w' :
  after_call (mutate_with_body fuel DEFAULT_WEB_PORT path expected body w)
    (fun x => print_action x j) = Some (r, w') ->
  exists sent, wire w' = wire w ++ sent /\ mutation_sent path body expected sent r.
Proof.
  unfold after_call.
  destruct (mutate_with_body _ _ _ _ _ w) as [[[result|e] w1]|] eqn:E; [| |done];
    apply mutate_wire in E as (sent & Hw & Hc & Hok).
  - intros [= E]. apply print_action_spec in E as [Hw' Hs]. exists sent.
    split; [congruence|]. split; [right; by eexists|]. intros Hr.
    destruct (Hok _ eq_refl) as (Ha & csrf & n & -> & Hn).
    exists csrf, n, result. split_and!; [done..|by apply Hs].
  - intros [= <- <-]. exists sent. split; [done|]. split; [right; by eexists|done].
Qed.

(** The read of the status followed by its printing. *)
Lemma status_printed fuel j w r w' :
  after_call (LocalClient.status fuel DEFAULT_WEB_PORT w)
    (fun s => print_local_status s j) = Some (r, w') ->
  exists sent, wire w' = wire w ++ sent /\
    Forall (fun part => part `prefix_of` status_request DEFAULT_WEB_PORT) sent /\ length sent <= 1.
Proof.
  unfold after_call.
  assert (One : forall sent, sent = [status_request DEFAULT_WEB_PORT] ->
    Forall (fun part => part `prefix_of` status_request DEFAULT_WEB_PORT) sent /\ length sent <= 1).
  { intros sent ->. split; [by repeat constructor|done]. }
  destruct (LocalClient.status _ _ w) as [[[s|e] w1]|] eqn:E; [| |done];
    apply status_wire in E as (sent & Hw & Hs).
  - intros [= E]. apply print_status_wire in E. exists sent.
    split; [congruence|by apply One].
  - intros [= <- <-]. exists sent. split; [done|].
    destruct Hs as [[Hs _]|Hs]; [|by apply One].
    destruct Hs as [->|(part & -> & Hp)]; [by split; [constructor|simpl; lia]|].
    split; [by repeat constructor|done].
Qed.

End LocalCommand.
