(* ===== verification/Signals.v ===== *)
(** The termination handlers of the service (rust/src/service_runtime.rs): one
    flag, shared with the signal handler through a static pointer, that SIGINT
    and SIGTERM set.  The signal dispositions of the process are an interface
    ([SignalOs]). *)
From S2P Require Import Prelude Service.

Definition SIGINT : Z := 2.
Definition SIGTERM : Z := 15.

(** [sigemptyset] on the mask of the action, [sigaction] with the termination
    handler, and whether that handler is the disposition of a signal. *)
Class SignalOs (S : Type) := {
  sigemptyset : S -> bool * S;
  sigaction : Z -> S -> bool * S;
  handled : Z -> S -> bool;
}.

Class SignalOsLaws (S : Type) `{SignalOs S} := {
  sigemptyset_handled signal w : handled signal (snd (sigemptyset w)) = handled signal w;
  sigaction_ok signal w w' other : sigaction signal w = (true, w') ->
    handled other w' = bool_decide (other = signal) || handled other w;
  sigaction_failed signal w w' other : sigaction signal w = (false, w') ->
    handled other w' = handled other w;
}.

(** The flags that were allocated, by their address, and the static
    [SIGNAL_FLAG]: null, or the address that was leaked to it. *)
Record SignalState (S : Type) := mkSignalState {
  flags : list bool;
  SIGNAL_FLAG : option nat;
  dispositions : S;
}.
Arguments mkSignalState {S}.
Arguments flags {S}.
Arguments SIGNAL_FLAG {S}.
Arguments dispositions {S}.

Section Signals.
Context {S : Type} `{SignalOs S}.
#[local] Abbreviation state := (SignalState S).

Definition install_signal (signal : Z) (w : S) : result unit ServiceRuntimeError.t * S :=
  match sigemptyset w with
  | (false, w) => (Err ServiceRuntimeError.SignalHandlerUnavailable, w)
  | (true, w) =>
      match sigaction signal w with
      | (false, w) => (Err ServiceRuntimeError.SignalHandlerUnavailable, w)
      | (true, w) => (Ok tt, w)
      end
  end.

(** The address of the flag is the result. *)
Definition install_termination_handlers (s : state)
  : result nat ServiceRuntimeError.t * state :=
  let shutdown := length (flags s) in
  let allocated := flags s ++ [false] in
  match SIGNAL_FLAG s with
  | Some _ =>
      (Err ServiceRuntimeError.SignalHandlerUnavailable,
       mkSignalState allocated (SIGNAL_FLAG s) (dispositions s))
  | None =>
      let '(r, w) :=
        let?! (_, w) := install_signal SIGINT (dispositions s) in install_signal SIGTERM w in
      (map_ok (fun _ => shutdown) r, mkSignalState allocated (Some shutdown) w)
  end.

(** The handler: the signal number is not looked at. *)
Definition termination_handler (s : state) : state :=
  match SIGNAL_FLAG s with
  | Some flag => mkSignalState (<[flag := true]> (flags s)) (SIGNAL_FLAG s) (dispositions s)
  | None => s
  end.

(** The kernel delivers a signal whose disposition is the handler. *)
Definition delivered (signal : Z) (s : state) : state :=
  if handled signal (dispositions s) then termination_handler s else s.

(** [shutdown.load(..)]. *)
Definition flag_set (flag : nat) (s : state) : bool := default false (flags s !! flag).
End Signals.

(** What can happen to the handlers after they were installed. *)
Module Event.
Inductive t := Signal (signal : Z) | InstallAgain.
End Event.

Definition is_termination_signal (signal : Z) : bool :=
  bool_decide (signal = SIGINT \/ signal = SIGTERM).
Definition is_termination (event : Event.t) : bool :=
  match event with
  | Event.Signal signal => is_termination_signal signal
  | Event.InstallAgain => false
  end.

Section Theorems.
Context {S : Type} `{SignalOsLaws S}.
#[local] Abbreviation state := (SignalState S).

Definition after_event (s : state) (event : Event.t) : state :=
  match event with
  | Event.Signal signal => delivered signal s
  | Event.InstallAgain => snd (install_termination_handlers s)
  end.

Lemma install_signal_handled signal (w w' : S) other :
  install_signal signal w = (Ok tt, w') ->
  handled other w' = bool_decide (other = signal) || handled other w.
Proof.
  unfold install_signal. pose proof (sigemptyset_handled other w) as He.
  destruct (sigemptyset w) as [[] w1]; [|done]. simpl in He.
  destruct (sigaction signal w1) as [[] w2] eqn:E; [|done]. intros [= <-].
  by rewrite (sigaction_ok _ _ _ _ E), He.
Qed.

(** The installed flag, in force: the static names it, the two signals and no
    other reach the handler, and [seen] says whether one of them came. *)
Record in_force (flag : nat) (seen : bool) (s : state) : Prop := {
  if_static : SIGNAL_FLAG s = Some flag;
  if_handled signal : handled signal (dispositions s) = is_termination_signal signal;
  if_flag : flags s !! flag = Some seen;
}.

Lemma install_in_force (s s' : state) flag :
  install_termination_handlers s = (Ok flag, s') ->
  (forall signal, handled signal (dispositions s) = false) -> in_force flag false s'.
Proof.
  unfold install_termination_handlers. destruct (SIGNAL_FLAG s); [done|].
  destruct (install_signal SIGINT (dispositions s)) as [[[]|e] w1] eqn:E1; [|done].
  destruct (install_signal SIGTERM w1) as [[[]|e] w2] eqn:E2; [|done].
  intros [= <- <-] Hnone. split; simpl; [done| |by rewrite list_lookup_middle]. intros signal.
  rewrite (install_signal_handled _ _ _ _ E2), (install_signal_handled _ _ _ _ E1), Hnone.
  rewrite orb_false_r, orb_comm. unfold is_termination_signal. symmetry. apply bool_decide_or.
Qed.

Lemma event_in_force flag seen (s : state) event :
  in_force flag seen s -> in_force flag (seen || is_termination event) (after_event s event).
Proof.
  intros [Hs Hh Hf]. destruct event as [signal|]; simpl.
  - unfold delivered, termination_handler. rewrite Hs, Hh.
    destruct (is_termination_signal signal); [|by rewrite orb_false_r].
    rewrite orb_true_r. split; simpl; [done..|].
    rewrite list_lookup_insert_eq; [done|]. by eapply lookup_lt_Some.
  - unfold install_termination_handlers. rewrite Hs, orb_false_r. split; simpl; [done..|].
    by rewrite lookup_app_l by by eapply lookup_lt_Some.
Qed.

(** When nothing handled signals before, the flag that the accept loop polls is
    set exactly when a termination signal was delivered since the handlers were
    installed, however many attempts to install them again are made meanwhile;
    and every such attempt is refused. *)
Theorem termination_flag_tracks_signals (s s' : state) flag events :
  install_termination_handlers s = (Ok flag, s') ->
  (forall signal, handled signal (dispositions s) = false) ->
  let later := fold_left after_event events s' in
  flag_set flag later = existsb is_termination events /\
  is_err (fst (install_termination_handlers later)) = true.
Proof.
  intros E Hnone later. apply install_in_force in E; [|done].
  assert (in_force flag (existsb is_termination events) later) as [Hs _ Hf].
  { subst later. change (existsb is_termination events) with
      (false || existsb is_termination events).
    generalize false, s', E. clear. induction events as [|event events IH]; intros seen s' E; simpl.
    - by rewrite orb_false_r.
    - rewrite orb_assoc. apply IH. by apply event_in_force. }
  unfold flag_set, install_termination_handlers. by rewrite Hf, Hs.
Qed.
End Theorems.
