(* ===== verification/Native.v ===== *)
(** The native service, assembled (the constructors of rust/src/client.rs,
    backend_native.rs and service_runtime.rs): the LAN client with its three
    HTTP agents, the pair backend over the two Bluetooth transports and the
    observer of business results, the membership probe, and the actor that
    holds the ownership locks.  Each part is handed its own part of the host. *)
From S2P Require Import Prelude.
From S2P Require Import Bytes.
From S2P Require Import Web.
From S2P Require Import Backend.
From S2P Require Import Journal.
From S2P Require Import Model.
From S2P Require Import Controller.
From S2P Require Import Bluez.
From S2P Require Import AuraBluez.
From S2P Require Import BluezIo.
From S2P Require Import JblGatt.
From S2P Require Import BroadcastGena.
From S2P Require Import GenaBody.
From S2P Require Import GenaHttp.
From S2P Require Import BackendNative.
From S2P Require Import Gena.
From S2P Require Import Ip.
From S2P Require Import JblClient.
From S2P Require Import PrivateFile.
From S2P Require Import Tls.
From S2P Require Import Service.
From S2P Require Import Config.
From S2P Require Import Signals.
From S2P Require Import Cli.

(** * The HTTP agents *)

(** What [ureq::AgentBuilder] was told; [None] is the library's default. *)
Record AgentBuilder (C : Type) := mkAgentBuilder {
  tls_connector : option C;
  try_proxy_from_env : bool;
  https_only : option bool;
  redirects : Z;
  max_idle_connections : option Z;
  max_idle_connections_per_host : option Z;
  agent_timeout : Z;
  timeout_connect : Z;
  timeout_read : Z;
  timeout_write : Z;
}.
Arguments mkAgentBuilder {C}.

Section AgentOptions.
Context {C : Type}.

Definition read_agent (connector : C) (timeout : Z) : AgentBuilder C :=
  mkAgentBuilder (Some connector) false (Some true) 0 None None timeout timeout timeout timeout.

(** No pooled connection: [ureq] retries on a pooled one. *)
Definition write_agent (connector : C) (timeout : Z) : AgentBuilder C :=
  mkAgentBuilder (Some connector) false (Some true) 0 (Some 0%Z) (Some 0%Z)
    timeout timeout timeout timeout.

Definition upnp_agent (timeout : Z) : AgentBuilder C :=
  mkAgentBuilder None false None 0 None None timeout timeout timeout timeout.
End AgentOptions.

(** [AgentBuilder::build] of the three agents of one client. *)
Class AgentFactory (C A : Type) := {
  build_agents : AgentBuilder C -> AgentBuilder C -> AgentBuilder C -> A;
}.

(** * The LAN client *)

Record ClientPorts := mkClientPorts { https : Z; upnp : Z }.
Definition JBL_PORTS : ClientPorts := mkClientPorts JBL_HTTPS_PORT JBL_UPNP_PORT.

Section LanClient.
Context {W F A : Type} `{!PrivateFs W F, !OpenSsl W, !AgentFactory (PinnedOpenSslConnector W) A}.

Definition new_with_ports (address certificate_path private_key_path tls_sha256 : bytes)
    (timeout : Z) (ports : ClientPorts) (w : W) : result (JblLanClient A) JblError.t * W :=
  match Ip.parse address with
  | None => (Err JblError.InvalidAddress, w)
  | Some address =>
  match parse_sha256_fingerprint tls_sha256 with
  | Err e => (Err e, w)
  | Ok expected_sha256 =>
      let?! (connector, w) :=
        build_tls_connector certificate_path private_key_path expected_sha256 w in
      (Ok (mkJblClient (Ip.is_v4 address) (Ip.display address) (https ports) (upnp ports)
             (build_agents (read_agent connector timeout) (write_agent connector timeout)
                (upnp_agent timeout))), w)
  end end.

Definition jbl_client_new (address certificate_path private_key_path tls_sha256 : bytes)
    (timeout : Z) : W -> result (JblLanClient A) JblError.t * W :=
  new_with_ports address certificate_path private_key_path tls_sha256 timeout JBL_PORTS.

Definition build_jbl_client (config : RuntimeConfig)
  : W -> result (JblLanClient A) JblError.t * W :=
  jbl_client_new (Config.address config) (certificate config) (private_key config)
    (tls_sha256 config) (Config.timeout config).

(** [JblPairConfigurationProbe::new]: a client of its own. *)
Definition probe_new (config : RuntimeConfig) (w : W)
  : result (JblPairConfigurationProbe A) JblError.t * W :=
  let?! (client, w) := build_jbl_client config w in
  (Ok (mkProbe client (expected_model config) (jbl_identity config) (aura_identity config)), w).
End LanClient.

(** * The JBL mutation transport *)

(** [JblGattBroadcastTransport::new]. *)
Definition jbl_gatt_transport_new {BW BS : Type} `{!BluezStack BW BS, !BluezDiscovery BW} (w : BW)
  : result (JblGattBroadcastTransport BW BS) JblGattFailure.t * BW :=
  let?! (_, w) := or_fail JblGattFailure.RuntimeUnavailable (runtime_build w) in
  (Ok (jbl_gatt_new w), w).

(** * The host *)

(** The parts of the host: files and environment, descriptors and locks, the
    root of the journal, a connection to the Bluetooth stack for each of the
    two transports, the network, the clock, and the signals. *)
Record ServiceHost (W O V BW NW K G : Type) := mkServiceHost {
  host_files : W;
  host_locks : O;
  host_state : V;
  aura_stack : BW;
  gatt_stack : BW;
  host_network : NW;
  host_clock : K;
  host_signals : SignalState G;
}.
Arguments mkServiceHost {W O V BW NW K G}.
Arguments host_files {W O V BW NW K G}.
Arguments host_locks {W O V BW NW K G}.
Arguments host_state {W O V BW NW K G}.
Arguments aura_stack {W O V BW NW K G}.
Arguments gatt_stack {W O V BW NW K G}.
Arguments host_network {W O V BW NW K G}.
Arguments host_clock {W O V BW NW K G}.
Arguments host_signals {W O V BW NW K G}.

Section SetHost.
Context {W O V BW NW K G : Type}.
#[local] Abbreviation host := (ServiceHost W O V BW NW K G).
Definition set_files (w : W) (h : host) : host :=
  mkServiceHost w (host_locks h) (host_state h) (aura_stack h) (gatt_stack h) (host_network h)
    (host_clock h) (host_signals h).
Definition set_locks (o : O) (h : host) : host :=
  mkServiceHost (host_files h) o (host_state h) (aura_stack h) (gatt_stack h) (host_network h)
    (host_clock h) (host_signals h).
Definition set_state (v : V) (h : host) : host :=
  mkServiceHost (host_files h) (host_locks h) v (aura_stack h) (gatt_stack h) (host_network h)
    (host_clock h) (host_signals h).
Definition set_stacks (aura gatt : BW) (h : host) : host :=
  mkServiceHost (host_files h) (host_locks h) (host_state h) aura gatt (host_network h)
    (host_clock h) (host_signals h).
Definition set_signals (g : SignalState G) (h : host) : host :=
  mkServiceHost (host_files h) (host_locks h) (host_state h) (aura_stack h) (gatt_stack h)
    (host_network h) (host_clock h) g.
End SetHost.

(** * The pair backend *)

Module NativePairBuildError.
Inductive t :=
| InvalidJoinDelay | JblClientUnavailable | AuraTransportUnavailable
| JblGattTransportUnavailable | JblGenaObserverUnavailable.
#[global] Instance eq_dec : EqDecision t. Proof. solve_decision. Defined.

Definition display (e : t) : bytes :=
  match e with
  | InvalidJoinDelay => str "native pair join delay is invalid"
  | JblClientUnavailable => str "native JBL control client could not be initialized"
  | AuraTransportUnavailable => str "native Aura transport could not be initialized"
  | JblGattTransportUnavailable => str "native JBL GATT transport could not be initialized"
  | JblGenaObserverUnavailable =>
      str "native JBL business-result observer could not be initialized"
  end.
End NativePairBuildError.

(** The observer and the mutation transport of the production. *)
#[global] Abbreviation native_observer NW BW BS :=
  (ProductionBroadcastObserver (GenaBroadcastObserver NW * NW) (JblGattBroadcastTransport BW BS)).
(** [NativePairBackend]. *)
#[global] Abbreviation native_pair A NW BW BS :=
  (NativePairCore (JblLanClient A) (AuraControlCore (BluezIo BW BS)) (native_observer NW BW BS)).

Section Assembly.
Context {W F O L V D A R BW BS NW K G : Type}.
Context `{!PrivateFs W F, !ProcessEnv W, !OpenSsl W}.
Context `{!AgentFactory (PinnedOpenSslConnector W) A, !Ureq A R, !JblLibrary}.
Context `{!BluezStack BW BS, !BluezDiscovery BW, !GenaNet NW, !GenaLibrary}.
Context `{!RuntimeOs O L, !JournalRoot V D, !JournalDir D, !Clock K, !SignalOs G}.
#[local] Abbreviation host := (ServiceHost W O V BW NW K G).
#[local] Abbreviation pair := (native_pair A NW BW BS).
#[local] Abbreviation probe := (JblPairConfigurationProbe A).
#[local] Abbreviation journal := (FileUncertaintyJournal D).
#[local] Abbreviation pair_controller := (PairController pair probe journal).

(** The observer that the configuration asks for. *)
Definition broadcast_observer_new (config : RuntimeConfig)
    (mutation : JblGattBroadcastTransport BW BS) (network : NW)
  : result (native_observer NW BW BS) NativePairBuildError.t :=
  match broadcast_confirmation config with
  | BroadcastConfirmation.Ack => Ok (Ack mutation)
  | BroadcastConfirmation.Gena =>
      let? business :=
        map_err (fun _ => NativePairBuildError.JblGenaObserverUnavailable)
          (with_callback_port (Config.address config) (gena_callback_port config)) in
      Ok (BackendNative.Gena (mkCoordinator (business, network) mutation))
  end.

(** [NativePairBackend::new]. *)
Definition native_pair_backend_new (config : RuntimeConfig) (aura_config : AuraBluezConfig)
    (join_delay : Z) (h : host) : result pair NativePairBuildError.t * host :=
  if (MAX_JOIN_DELAY <? join_delay)%Z then (Err NativePairBuildError.InvalidJoinDelay, h)
  else
  match build_jbl_client config (host_files h) with
  | (Err _, w) => (Err NativePairBuildError.JblClientUnavailable, set_files w h)
  | (Ok jbl, w) =>
  let h := set_files w h in
  match bluez_transport_new aura_config (aura_stack h) with
  | (Err _, s) =>
      (Err NativePairBuildError.AuraTransportUnavailable, set_stacks s (gatt_stack h) h)
  | (Ok aura, s) =>
  let h := set_stacks s (gatt_stack h) h in
  match jbl_gatt_transport_new (gatt_stack h) with
  | (Err _, s) =>
      (Err NativePairBuildError.JblGattTransportUnavailable, set_stacks (aura_stack h) s h)
  | (Ok mutation, s) =>
  let h := set_stacks (aura_stack h) s h in
  match broadcast_observer_new config mutation (host_network h) with
  | Err e => (Err e, h)
  | Ok observer =>
      (Ok (native_core_new jbl aura observer (jbl_identity config) (aura_identity config)
             join_delay), h)
  end end end end.

(** * The service actor *)

Definition SERVICE_JOIN_DELAY : Z := from_secs 2.

(** The actor with its process lock, which is dropped after its other fields. *)
Record NativeServiceActor := mkNativeServiceActor {
  web_actor : ControllerWebActor pair probe journal K;
  process_lock : ControllerProcessLock L;
}.

(** [drop] of the actor. *)
Definition native_actor_drop (a : NativeServiceActor) (h : host)
  : ControllerWebActor pair probe journal K * host :=
  let dropped := actor_drop (web_actor a) in
  (dropped, set_locks (release (process_lock a) (host_locks h)) h).

Definition on_web_actor {T} (call : ControllerWebActor pair probe journal K ->
    T * ControllerWebActor pair probe journal K) (a : NativeServiceActor)
  : T * NativeServiceActor :=
  let '(r, w) := call (web_actor a) in (r, mkNativeServiceActor w (process_lock a)).

#[export] Instance NativeServiceActor_web : WebActor NativeServiceActor := {
  actor_status := on_web_actor actor_status;
  mutate_if_revision n m := on_web_actor (mutate_if_revision n m);
}.
#[export] Instance NativeServiceActor_service : ServiceActor NativeServiceActor := {
  exit_shutdown := on_web_actor exit_shutdown;
}.

(** The part of [build_native_service_actor] behind the process lock: every
    failure in it is reported as the same error. *)
Definition build_controller (config : RuntimeConfig) (h : host)
  : result pair_controller ServiceRuntimeError.t * host :=
  let failed := ServiceRuntimeError.ControllerInitializationFailed in
  match native_pair_backend_new config default_bluez_config SERVICE_JOIN_DELAY h with
  | (Err _, h) => (Err failed, h)
  | (Ok backend, h) =>
  match probe_new config (host_files h) with
  | (Err _, w) => (Err failed, set_files w h)
  | (Ok probe, w) =>
  let h := set_files w h in
  match open_default (D := D) (var_os (str "XDG_STATE_HOME") (host_files h))
          (var_os (str "HOME") (host_files h)) (host_state h) with
  | (Err _, v) => (Err failed, set_state v h)
  | (Ok journal, v) => (Ok (with_journal backend probe journal), set_state v h)
  end end end.

(** A failure behind the lock drops the lock. *)
Definition build_service (config : RuntimeConfig) (h : host)
  : result NativeServiceActor ServiceRuntimeError.t * host :=
  match acquire (var_os (str "XDG_RUNTIME_DIR") (host_files h)) (host_locks h) with
  | (Err e, o) => (Err e, set_locks o h)
  | (Ok lock, o) =>
      match build_controller config (set_locks o h) with
      | (Err e, h) => (Err e, set_locks (release lock (host_locks h)) h)
      | (Ok controller, h) =>
          (Ok (mkNativeServiceActor (actor_new controller (host_clock h)) lock), h)
      end
  end.

(** [validate_native_runtime]: the backend is built and dropped. *)
Definition validate_runtime (config : RuntimeConfig) (h : host)
  : result unit ServiceRuntimeError.t * host :=
  let '(r, h) := native_pair_backend_new config default_bluez_config SERVICE_JOIN_DELAY h in
  (map_err (fun _ => ServiceRuntimeError.ControllerInitializationFailed)
     (map_ok (fun _ => tt) r), h).

Definition install_handlers (h : host) : result unit ServiceRuntimeError.t * host :=
  let '(r, g) := Signals.install_termination_handlers (host_signals h) in
  (map_ok (fun _ => tt) r, set_signals g h).

(** The constructors, as the command line uses them. *)
#[export] Instance Native_runtime : NativeRuntime host NativeServiceActor := {
  build_native_service_actor := build_service;
  install_termination_handlers := install_handlers;
  validate_native_runtime := validate_runtime;
  jbl_lan_client_new config h :=
    let '(client, w) := build_jbl_client (A := A) config (host_files h) in
    (map_ok (fun c => (address_is_v4 c, address_text c)) client, set_files w h);
}.
End Assembly.
