(* ===== verification/NativeServiceSpec.v ===== *)
(** The assembled native service: what was proved of its parts holds of the
    concrete whole, it is built only under the ownership locks and without
    touching a device, and after an uncertain outcome and a crash the next
    process sends nothing to either speaker. *)
From stdpp Require Import relations.
From S2P Require Import Prelude Bytes Web WebSpec Http HttpSpec LocalModel LocalClient.
From S2P Require Import Backend Model Control Controller ControllerSpec Bluez AuraBluez BluezIo BluezIoSpec.
From S2P Require Import JblGatt BroadcastGena GenaBody GenaHttp BackendNative Gena NativeSpec.
From S2P Require Import JblClient BodySpec JblSpec PrivateFile Tls Service ServiceSpec System.
From S2P Require Import Config Signals Cli Native Journal.

(** * The transport, as a part of the service *)

Section Bearer.
Context {W S : Type} `{BluezStack W S} `{BluezDiscovery W}.

(** A verified bearer names the route it was reached by. *)
#[export] Instance BluezIo_bearer_laws : AuraBearerLaws (BluezIo W S).
Proof.
  refine {| bearer_ok i := bearers_verified i |}.
  - intros i t r Hv E. cbn in E. destruct (bearer i) as [b|] eqn:Eb; [|done]. simplify_eq/=.
    destruct (Hv b Eb) as [_ Hb]. destruct (bearer_transport b), (bearer_route b); try done;
      destruct Hb; congruence.
  - intros d i r i' E Hi. exact (proj1 (io_connect_verified_bearer _ _ _ _ E Hi)).
  - intros i h i' E Hi. exact (proj1 (health_verified _ _ _ E Hi)).
  - intros i r i' E Hi. apply prepare_keeps in E. unfold bearers_verified. by rewrite E.
  - intros cmd i r i' E Hi. apply begin_write_keeps in E. unfold bearers_verified. by rewrite E.
  - intros i r i' E Hi. apply wait_keeps in E. unfold bearers_verified. by rewrite E.
  - intros i r i' [= _ <-] _ b Hb. discriminate Hb.
Defined.
End Bearer.

(** * The journal's directory *)

(** [on_disk v d]: the calls on the root of the journal may yield the directory
    [d] at [v]. *)
Class JournalRootLaws (V D : Type) `{JournalRoot V D} := {
  on_disk : V -> D -> Prop;
  create_dir_all_disk path v d : on_disk (snd (create_dir_all path v)) d -> on_disk v d;
  create_dir_disk path v d : on_disk (snd (create_dir path v)) d -> on_disk v d;
  symlink_metadata_disk path v d : on_disk (snd (symlink_metadata path v)) d -> on_disk v d;
  open_directory_disk path v d v' :
    openat2_directory path directory_how v = (Ok d, v') -> on_disk v d;
}.

Section Opened.
Context {V D : Type} `{JournalRootLaws V D} `{JournalDirLaws D}.

Lemma prepare_directory_disk path v r v' d :
  prepare_directory path v = (r, v') -> on_disk v' d -> on_disk v d.
Proof.
  unfold prepare_directory. intros E Hd.
  pose proof (symlink_metadata_disk path v d) as Hd1.
  destruct (symlink_metadata path v) as [[m|[]] v1]; simplify_eq/=; eauto.
  pose proof (create_dir_disk path v1 d) as Hd2.
  destruct (create_dir path v1) as [[u|e] v2]; simplify_eq/=; eauto.
  pose proof (symlink_metadata_disk path v2 d) as Hd3.
  destruct (symlink_metadata path v2) as [[m|e] v3]; simplify_eq/=; eauto.
Qed.

(** The journal that is opened is what the records on the disk say. *)
Lemma open_default_disk xdg home v j v' :
  open_default (D := D) xdg home v = (Ok j, v') ->
  exists d0 metadata d1 d2, on_disk v d0 /\ dir_metadata d0 = (Ok metadata, d1) /\
    open_records d1 = (Ok j, d2).
Proof.
  unfold open_default, open_under. destruct (default_state_root xdg home) as [root|]; [|done].
  destruct (negb (is_absolute root)); [done|].
  pose proof (create_dir_all_disk root v) as Hd1.
  destruct (create_dir_all root v) as [[u|e] v1]; [|done]. simpl in Hd1.
  destruct (prepare_directory _ v1) as [[u2|e] v2] eqn:E2; [|done].
  destruct (Journal.open_directory _ v2) as [[d|e] v3] eqn:E3; [|done].
  unfold Journal.open_directory in E3. destruct (contains_byte _ _); [done|].
  destruct (openat2_directory _ _ v2) as [[d'|e] v4] eqn:E4; [|done].
  injection E3 as -> ->. rename E4 into E3.
  destruct (dir_metadata d) as [[metadata|e] d1] eqn:E4; [|done].
  destruct (validate_directory_metadata _ _); [|done].
  destruct (open_records d1) as [rj d2] eqn:E5. intros [= -> <-].
  exists d, metadata, d1, d2. split_and!; [|done..].
  apply Hd1. eapply prepare_directory_disk; [exact E2|]. by eapply open_directory_disk.
Qed.

Lemma crashed_metadata d d0 d1 r :
  dir_metadata d0 = (r, d1) -> crashed d d0 -> crashed d d1.
Proof.
  intros E [Hb Hc]. apply dir_metadata_frame in E.
  assert (forall n, vis d1 n = vis d0 n /\ forall c, possible d1 n c -> possible d0 n c) as Hn.
  { intros n. destruct (E n) as (Hv & Hp & _); [apply not_elem_of_nil|done]. }
  split.
  - intros n c Hp. destruct (Hn n) as [-> Hpp]. auto.
  - intros n. destruct (Hn n) as [-> _]. auto.
Qed.
End Opened.

(** * Calls that no device hears *)

(** The backend is asked for its health or gives its connection back. *)
Inductive quiet_call {B : Type} `{PairBackend B} (b b' : B) : Prop :=
| quiet_health r : backend_health b = (r, b') -> quiet_call b b'
| quiet_teardown r : backend_teardown_transport b = (r, b') -> quiet_call b b'.

Section Quiet.
Context {B P J : Type} `{PairBackend B} `{PairConfigurationProbe P} `{UncertaintyJournalLaws J}.
#[local] Abbreviation ctl := (PairController B P J).

Lemma latched_step_quiet (c c' : ctl) :
  non_recovery_step c c' -> unresolved_action c = true ->
  unresolved_action c' = true /\ rtc quiet_call (ctl_backend c) (ctl_backend c').
Proof.
  intros [now c0 s c0' E|now action c0 r c0' Hne E|c0 r c0' E] Hu.
  - apply status_spec in E as (_ & Hs & _ & _ & Hb & _). split; [congruence|].
    destruct Hb as [->|[r Hr]]; [done|]. apply rtc_once. by eapply quiet_health.
  - apply mutate_spec in E as [_ [Href|(c1 & raw & attempted & c2 & Hadm & _)]].
    + destruct Href as [???? E|?|?|failure p ? Hl|?|p b j e Hl];
        try congruence; try (by destruct Hne; auto). by rewrite E.
    + destruct Hne. by apply (admitted_latch _ _ _ Hadm).
  - unfold teardown_transport_for_exit in E.
    destruct (backend_teardown_transport (ctl_backend c0)) as [r' b'] eqn:Et. simplify_eq/=.
    split; [done|]. apply rtc_once. by eapply quiet_teardown.
Qed.

Lemma latched_steps_quiet (c c' : ctl) :
  rtc non_recovery_step c c' -> unresolved_action c = true ->
  unresolved_action c' = true /\ rtc quiet_call (ctl_backend c) (ctl_backend c').
Proof.
  induction 1 as [c|c c1 c2 Hs _ IH]; intros Hu; [done|].
  destruct (latched_step_quiet _ _ Hs Hu) as [Hu1 H1']. destruct (IH Hu1) as [Hu2 H2'].
  split; [done|]. by etransitivity.
Qed.
End Quiet.

Section QuietPair.
Context {J A O X : Type} `{JblRoleControl J} `{AuraRoleControl A} `{BroadcastResultObserver O}.
Context (view : A -> X).
Hypothesis health_view : forall a h a', aura_health a = (h, a') -> view a' = view a.
Hypothesis shutdown_view : forall a r a', aura_shutdown a = (r, a') -> view a' = view a.

(** Then the pair core uses neither the JBL client nor the observer, and on the
    transport what its health and its shutdown keep is kept. *)
Lemma quiet_untouched (c c' : NativePairCore J A O) :
  rtc quiet_call c c' ->
  jbl c' = jbl c /\ broadcast_observer c' = broadcast_observer c /\ view (aura c') = view (aura c).
Proof.
  induction 1 as [c|c c1 c2 Hs _ (-> & -> & ->)]; [done|].
  destruct Hs as [r E|r E]; simpl in E.
  - unfold native_health, call_aura in E. destruct (aura_health (aura c)) as [h a] eqn:Ea.
    apply health_view in Ea. by simplify_eq/=.
  - unfold native_teardown_transport, call_aura in E.
    destruct (aura_shutdown (aura c)) as [r1 a] eqn:Ea.
    apply shutdown_view in Ea. by simplify_eq/=.
Qed.
End QuietPair.

Section QuietTransport.
Context {W S : Type} `{BluezDiscoveryLaws W S}.
#[local] Abbreviation transport := (AuraControlCore (BluezIo W S)).

Lemma health_sends_nothing (t t' : transport) h :
  core_health t = (h, t') -> sent (io_world (io t')) = sent (io_world (io t)).
Proof.
  unfold core_health. destruct (unresolved t); [by intros [= <- <-]|].
  destruct (io_health (io t)) as [h1 i1] eqn:E1. intros [= <- <-].
  by apply health_silent in E1.
Qed.

Lemma shutdown_sends_nothing (t t' : transport) r :
  core_shutdown t = (r, t') -> sent (io_world (io t')) = sent (io_world (io t)).
Proof. unfold core_shutdown. by intros [= <- <-]. Qed.
End QuietTransport.

(** * The service that is built *)

Section Built.
Context {W F O L V D A R BW BS NW K G : Type}.
Context `{!PrivateFs W F, !ProcessEnv W, !OpenSsl W}.
Context `{!AgentFactory (PinnedOpenSslConnector W) A, !Ureq A R, !UreqLaws A R, !JblLibrary}.
Context `{!BluezStack BW BS, !BluezStackLaws BW BS, !BluezDiscovery BW, !BluezDiscoveryLaws BW BS}.
Context `{!GenaNet NW, !GenaLibrary, !RuntimeOs O L, !EqDecision L, !RuntimeOsLaws O L}.
Context `{!JournalRoot V D, !JournalDir D, !JournalRootLaws V D, !JournalDirLaws D}.
Context `{!Clock K, !SignalOs G}.
#[local] Abbreviation host := (ServiceHost W O V BW NW K G).
#[local] Abbreviation pair := (native_pair A NW BW BS).
#[local] Abbreviation probe := (JblPairConfigurationProbe A).
#[local] Abbreviation service := (ControllerWebActor pair probe (FileUncertaintyJournal D) K).

(** A client for the configured address whose HTTPS agents accept the configured
    pin and no other certificate. *)
Definition pinned_client (config : RuntimeConfig) (c : JblLanClient A) : Prop :=
  exists address pin connector,
    Ip.Ip.parse (Config.address config) = Some address /\
    address_text c = Ip.Ip.display address /\
    parse_sha256_fingerprint (tls_sha256 config) = Ok pin /\
    Tls.expected_sha256 connector = pin /\
    agents c = build_agents (read_agent connector (Config.timeout config))
                 (write_agent connector (Config.timeout config))
                 (upnp_agent (Config.timeout config)).

(** A pair that has not done anything yet. *)
Record fresh_pair (config : RuntimeConfig) (h : host) (p : pair) : Prop := {
  fp_identities : BackendNative.jbl_identity p = Config.jbl_identity config /\
    BackendNative.aura_identity p = Config.aura_identity config;
  fp_idle : BackendNative.lifecycle p = PairLifecycle.Offline /\ core_unresolved p = None;
  fp_no_bearer : bearer (io (aura p)) = None /\
    jbl_bearer (observer_mutation (broadcast_observer p)) = None;
  fp_silent : sent (io_world (io (aura p))) = sent (aura_stack h) /\
    gatt_sent (observer_mutation (broadcast_observer p)) = sent (gatt_stack h);
  fp_pinned : pinned_client config (jbl p);
}.

(** What building does to the host: files are read, the locks are another's
    business, and no packet is handed to the Bluetooth stack. *)
Definition built_silently (h h' : host) : Prop :=
  host_locks h' = host_locks h /\ sent (aura_stack h') = sent (aura_stack h) /\
  sent (gatt_stack h') = sent (gatt_stack h).

Lemma build_jbl_client_pinned config w c w' :
  build_jbl_client config w = (Ok c, w') -> pinned_client config c.
Proof.
  unfold build_jbl_client, jbl_client_new, new_with_ports.
  destruct (Ip.Ip.parse _) as [address|] eqn:Ea; [|done].
  destruct (parse_sha256_fingerprint _) as [pin|e] eqn:Ep; [|done].
  destruct (build_tls_connector _ _ pin w) as [[connector|e] w1] eqn:Ec; [|done].
  intros [= <- <-]. exists address, pin, connector. split_and!; try done. revert Ec.
  unfold build_tls_connector. clear.
  destruct (read_private_file (certificate config) _ _ _) as [[?|?] w2]; [|done].
  destruct (read_private_file (private_key config) _ _ _) as [[?|?] w3]; [|done].
  intros [= Ec _]. revert Ec.
  repeat match goal with
  | |- context [match ?x with _ => _ end] => destruct x; try done
  end.
  by intros [= <-].
Qed.

Lemma bluez_transport_fresh config (w w' : BW) (t : AuraControlCore (BluezIo BW BS)) :
  bluez_transport_new config w = (Ok t, w') ->
  bearer (io t) = None /\ io_world (io t) = w'.
Proof.
  unfold bluez_transport_new, bluez_io_new. destruct (validate _); [|done].
  destruct validate_protocol_constants; [|done]. destruct (or_fail _ _) as [[[]|] w1]; [|done].
  by intros [= <- <-].
Qed.

Lemma bluez_transport_silent config (w : BW) :
  sent (snd (bluez_transport_new (S := BS) config w)) = sent w.
Proof.
  unfold bluez_transport_new, bluez_io_new. destruct (validate _); [|done].
  destruct validate_protocol_constants; [|done].
  pose proof (runtime_silent w) as Hr. unfold silent, or_fail in *.
  by destruct (runtime_build w) as [[[]|] w1].
Qed.

Lemma gatt_transport_fresh (w w' : BW) (g : JblGattBroadcastTransport BW BS) :
  jbl_gatt_transport_new w = (Ok g, w') -> g = jbl_gatt_new w'.
Proof.
  unfold jbl_gatt_transport_new. destruct (or_fail _ _) as [[[]|] w1]; [|done].
  by intros [= <- <-].
Qed.

Lemma gatt_transport_silent (w : BW) :
  sent (snd (jbl_gatt_transport_new (BS := BS) w)) = sent w.
Proof.
  unfold jbl_gatt_transport_new. pose proof (runtime_silent w) as Hr. unfold silent, or_fail in *.
  by destruct (runtime_build w) as [[[]|] w1].
Qed.

Lemma backend_new_silent config aura_config delay (h h' : host) (r : result pair _) :
  native_pair_backend_new config aura_config delay h = (r, h') -> built_silently h h'.
Proof.
  unfold native_pair_backend_new, built_silently. destruct (_ <? delay)%Z; [by intros [= <- <-]|].
  destruct (build_jbl_client config _) as [[c|e] w1]; [|by intros [= <- <-]].
  pose proof (bluez_transport_silent aura_config (aura_stack h)) as Ha.
  cbn [aura_stack gatt_stack set_files].
  destruct (bluez_transport_new aura_config (aura_stack h)) as [[t|e] s1]; simpl in Ha;
    [|by intros [= <- <-]].
  pose proof (gatt_transport_silent (gatt_stack h)) as Hg. cbn [aura_stack gatt_stack set_stacks].
  destruct (jbl_gatt_transport_new (gatt_stack h)) as [[g|e] s2]; simpl in Hg;
    [|by intros [= <- <-]].
  by destruct (broadcast_observer_new _ _ _); intros [= <- <-].
Qed.

Lemma backend_new_fresh config aura_config delay (h h' : host) (p : pair) :
  native_pair_backend_new config aura_config delay h = (Ok p, h') -> fresh_pair config h p.
Proof.
  unfold native_pair_backend_new. destruct (_ <? delay)%Z; [done|].
  destruct (build_jbl_client config _) as [[c|e] w1] eqn:Ec; [|done].
  apply build_jbl_client_pinned in Ec.
  pose proof (bluez_transport_silent aura_config (aura_stack h)) as Ha.
  cbn [aura_stack gatt_stack set_files].
  destruct (bluez_transport_new aura_config (aura_stack h)) as [[t|e] s1] eqn:Et; [|done].
  apply bluez_transport_fresh in Et as [Hb Hw]. simpl in Ha.
  pose proof (gatt_transport_silent (gatt_stack h)) as Hg. cbn [aura_stack gatt_stack set_stacks].
  destruct (jbl_gatt_transport_new (gatt_stack h)) as [[g|e] s2] eqn:Eg; [|done].
  apply gatt_transport_fresh in Eg as ->. simpl in Hg.
  destruct (broadcast_observer_new _ _ _) as [o|] eqn:Eo; [|done]. intros [= <- <-].
  assert (observer_mutation o = jbl_gatt_new s2) as Ho.
  { unfold broadcast_observer_new in Eo. destruct (broadcast_confirmation config).
    - by simplify_eq/=.
    - destruct (with_callback_port _ _); [|done]. by simplify_eq/=. }
  split; cbn [BackendNative.jbl_identity BackendNative.aura_identity BackendNative.lifecycle
    core_unresolved aura jbl broadcast_observer native_core_new]; rewrite ?Ho; try done.
  by rewrite Hw.
Qed.

(** What is on disk when the journal is opened. *)
Definition opened_from (h : host) (j : FileUncertaintyJournal D) : Prop :=
  exists d0 metadata d1 d2, on_disk (host_state h) d0 /\
    dir_metadata d0 = (Ok metadata, d1) /\ open_records d1 = (Ok j, d2).

Lemma build_controller_silent config (h h' : host) r :
  build_controller (D := D) config h = (r, h') -> built_silently h h'.
Proof.
  unfold build_controller. cbv zeta.
  destruct (native_pair_backend_new _ _ _ h) as [[p|e] h1] eqn:E1;
    apply backend_new_silent in E1; [|by intros [= <- <-]].
  destruct (probe_new config _) as [[q|e] w2]; [|by intros [= <- <-]].
  by destruct (open_default _ _ _) as [[j|e] v3]; intros [= <- <-].
Qed.

Lemma backend_new_state config aura_config delay (h h' : host) (r : result pair _) :
  native_pair_backend_new config aura_config delay h = (r, h') -> host_state h' = host_state h.
Proof.
  unfold native_pair_backend_new. intros E.
  repeat match type of E with
  | context [match ?x with _ => _ end] => destruct x; try by simplify_eq/=
  end.
Qed.

Lemma build_controller_fresh config (h h' : host)
    (c : PairController pair probe (FileUncertaintyJournal D)) :
  build_controller config h = (Ok c, h') ->
  fresh_pair config h (ctl_backend c) /\ opened_from h (ctl_journal c) /\
  unresolved_action c = is_pending (ctl_journal c).
Proof.
  unfold build_controller. cbv zeta.
  destruct (native_pair_backend_new _ _ _ h) as [[p|e] h1] eqn:E1; [|done].
  pose proof (backend_new_state _ _ _ _ _ _ E1) as Hstate. apply backend_new_fresh in E1.
  destruct (probe_new config _) as [[q|e] w2]; [|done].
  cbn [host_state set_files]. rewrite Hstate.
  destruct (open_default _ _ _) as [[j|e] v3] eqn:E3; [|done]. intros [= <- <-].
  split; [done|]. split; [|done]. unfold opened_from. cbn [ctl_journal with_journal].
  by eapply open_default_disk.
Qed.

(** C8 The service is built under the ownership locks and without the devices.
    When it is built, it holds both lock files exclusively and dropping it
    gives up exactly what was taken; its pair has the configured identities,
    no connection, no unresolved action, and a client that accepts the pinned
    certificate and no other; and its controller is unresolved exactly when the
    record on disk is pending. When building fails, at whatever point, no
    descriptor is kept, and unless it failed behind the locks nothing else of
    the host was touched. Either way no packet was handed to the stack. *)
Theorem service_built_under_lock config (h h' : host) (r : result (NativeServiceActor (D := D)) _) :
  build_service config h = (r, h') ->
  sent (aura_stack h') = sent (aura_stack h) /\ sent (gatt_stack h') = sent (gatt_stack h) /\
  match r with
  | Ok a =>
      let lock := process_lock a in let c := controller (web_actor a) in
      opened (host_locks h') (operation_file lock) = Some true /\
      opened (host_locks h') (session_file lock) = Some true /\
      (forall x, opened (host_locks (snd (native_actor_drop a h'))) x = opened (host_locks h) x) /\
      fresh_pair config h (ctl_backend c) /\ opened_from h (ctl_journal c) /\
      unresolved_action c = is_pending (ctl_journal c)
  | Err e =>
      (forall x, opened (host_locks h') x = opened (host_locks h) x) /\
      (e <> ServiceRuntimeError.ControllerInitializationFailed ->
       h' = set_locks (host_locks h') h)
  end.
Proof.
  unfold build_service. destruct (acquire _ (host_locks h)) as [[lock|e] o] eqn:Ea.
  - pose proof (process_lock_all_or_nothing _ _ _ _ Ea) as (_ & Ho & Hs & _ & Hd).
    destruct (build_controller config (set_locks o h)) as [[c|e] h1] eqn:Eb;
      pose proof (build_controller_silent _ _ _ _ Eb) as (Hl & Ha & Hg); simpl in Hl, Ha, Hg;
      intros [= <- <-].
    + apply build_controller_fresh in Eb as (Hf & Hj & Hu). split; [done|]. split; [done|].
      cbn. rewrite Hl. split_and!; try done. destruct Hf. by split.
    + cbn. rewrite Hl. split_and!; [done..|]. intros He. destruct He.
      unfold build_controller in Eb. cbv zeta in Eb.
      repeat match type of Eb with
      | context [match ?x with _ => _ end] => destruct x; try by simplify_eq/=
      end.
  - intros [= <- <-]. pose proof (process_lock_all_or_nothing _ _ _ _ Ea) as Ho.
    cbn. split_and!; [done..|]. by intros _; destruct h.
Qed.

Context `{!WebLibrary, !WebLibraryLaws}.

(** C5 The assembled service fails closed. When a mutation ended without a known
    outcome, then whatever that process is asked afterwards short of an accepted
    recovery, and even if it exits and the host crashes at any point, a service
    that is built from its configuration on what the crash left on disk starts
    with the action unresolved. Over any sequence of requests that are not the
    explicit recovery it stays so, its LAN client and its broadcast observer are
    not used at all, and no packet leaves on its Aura connection. *)
Theorem native_service_fails_closed config n m (a a1 a2 : service) result (h h' : host)
    (fresh : NativeServiceActor) :
  mutate_if_revision n m a = (Ok result, a1) ->
  Latch.uncertain (result_outcome result) ->
  rtc unsettled_call a1 a2 ->
  (forall d, on_disk (host_state h) d -> crashed (directory (ctl_journal (controller a2))) d) ->
  build_service config h = (Ok fresh, h') ->
  forall security later, rtc plain_step (mkWebApp (web_actor fresh) security) later ->
    let c := controller (actor later) in
    let built := ctl_backend (controller (web_actor fresh)) in
    unresolved_action c = true /\
    jbl (ctl_backend c) = jbl built /\
    broadcast_observer (ctl_backend c) = broadcast_observer built /\
    sent (io_world (io (aura (ctl_backend c)))) = sent (aura_stack h).
Proof.
  intros Em Hunc Hs Hdisk Hb security later Hsteps c built.
  destruct (uncertain_stays _ _ _ _ _ _ Em Hunc Hs) as [_ Hl].
  unfold build_service in Hb. destruct (acquire _ (host_locks h)) as [[lock|e] o]; [|done].
  destruct (build_controller config _) as [[c0|e] h1] eqn:Ec; [|done]. simplify_eq.
  apply build_controller_fresh in Ec as (Hf & (d0 & metadata & d1 & d2 & Hd & Hm & Ho) & Hu).
  apply Hdisk in Hd. eapply crashed_metadata in Hd; [|exact Hm].
  destruct (latched_survives_crash _ _ _ _ Hl Hd Ho) as [Hp _].
  assert (unresolved_action c0 = true) as Hu0 by by rewrite Hu.
  apply plain_steps_spec in Hsteps.
  destruct (latched_steps_quiet _ _ Hsteps Hu0) as [Hu' Hq].
  apply (quiet_untouched (fun t : AuraControlCore (BluezIo BW BS) => sent (io_world (io t))))
    in Hq as (Hj & Hobs & Hw);
    [|intros; by eapply health_sends_nothing|intros; by eapply shutdown_sends_nothing].
  destruct Hf as [_ _ _ [Hsent _] _]. split_and!; [done..|].
  etransitivity; [exact Hw|exact Hsent].
Qed.
End Built.
