(* ===== verification/Legacy.v ===== *)
(** The socket backend (rust/src/backend_legacy.rs), which is compiled with the
    tests: one command line to the older supervisor on a Unix socket, one
    bounded reply, and what either is taken to mean.  The kernel is an
    interface ([UnixSockets]); serde_json's reading of the text is another. *)
From S2P Require Import Prelude.
From S2P Require Import Bytes.
From S2P Require Import Backend.
From S2P Require Import Journal.
From S2P Require Import Model.
From S2P Require Import Tcp.

Definition MAX_LEGACY_RESPONSE_BYTES : nat := 16 * 1024.
Definition BACKLOG_RETRY_DELAY : Z := from_millis 2.
#[global] Arguments MAX_LEGACY_RESPONSE_BYTES : simpl never.

(** * Commands *)

Module LegacyCommand.
Inductive t := Status | Start | Stop | Shutdown.
#[global] Instance eq_dec : EqDecision t. Proof. solve_decision. Defined.

Definition wire_line (command : t) : bytes :=
  match command with
  | Status => str "status" ++ [LF]
  | Start => str "start" ++ [LF]
  | Stop => str "stop" ++ [LF]
  | Shutdown => str "shutdown" ++ [LF]
  end.

Definition expected_lifecycle (command : t) : option PairLifecycle.t :=
  match command with
  | Status => None
  | Start => Some PairLifecycle.Linked
  | Stop => Some PairLifecycle.Ready
  | Shutdown => Some PairLifecycle.ShuttingDown
  end.
End LegacyCommand.

(** * The reply *)

Record LegacyWireResponse := mkLegacyWireResponse {
  response_ok : bool;
  response_state : option Value.t;
  last_error : option Value.t;
  response_aura_transport : option Value.t;
  response_idempotent : option Value.t;
}.

(** The value tree of a text, an object with all its entries in order. *)
Class LegacyJson := { legacy_json : bytes -> option Value.t }.

(** The derived decoder: unknown keys are ignored, a known key must not be
    repeated; an array gives the fields in order, the last ones may be missing. *)
Definition lenient_fields (names : list bytes) (v : Value.t) : option (list (option Value.t)) :=
  match v with
  | Value.Object fields =>
      if bool_decide (NoDup (filter (fun key => key ∈ names) (map fst fields)))
      then Some (map (fun name => field name fields) names)
      else None
  | Value.Array items =>
      if (length items <=? length names)%nat
      then Some (map Some items ++ replicate (length names - length items) None)
      else None
  | _ => None
  end.

(** An [Option<Value>] with a default: [null] reads as [None], too. *)
Definition optional_value (f : option Value.t) : option Value.t :=
  match f with Some Value.Null => None | _ => f end.

Definition decode_wire_response (v : Value.t) : option LegacyWireResponse :=
  fields ← lenient_fields [str "ok"; str "state"; str "last_error"; str "aura_transport";
                           str "idempotent"] v;
  match fields with
  | [ok; state; err; transport; idem] =>
      ok ← ok ≫= Value.as_bool;
      Some (mkLegacyWireResponse ok (optional_value state) (optional_value err)
              (optional_value transport) (optional_value idem))
  | _ => None
  end.

Definition legacy_response `{LegacyJson} (payload : bytes) : option LegacyWireResponse :=
  legacy_json payload ≫= decode_wire_response.

Record ParsedLegacyResponse := mkParsedLegacyResponse {
  parsed_lifecycle : PairLifecycle.t;
  parsed_reported_error : bool;
  parsed_aura_transport : AuraControlTransport.t;
}.

(** The names of the older supervisor. *)
Definition legacy_lifecycles : list (bytes * PairLifecycle.t) :=
  [(str "offline", PairLifecycle.Offline);
   (str "initializing", PairLifecycle.Initializing);
   (str "connecting", PairLifecycle.Connecting);
   (str "ready", PairLifecycle.Ready);
   (str "starting", PairLifecycle.Linking);
   (str "linked", PairLifecycle.Linked);
   (str "stopping", PairLifecycle.Unlinking);
   (str "degraded", PairLifecycle.Degraded);
   (str "recovering", PairLifecycle.Recovering);
   (str "shutting-down", PairLifecycle.ShuttingDown);
   (str "failed", PairLifecycle.Failed)].

Definition parse_lifecycle (value : option Value.t) : result PairLifecycle.t PairBackendError.t :=
  match value ≫= Value.as_str with
  | None => Err PairBackendError.InvalidLifecycle
  | Some state =>
      match find (fun '(name, _) => bool_decide (name = state)) legacy_lifecycles with
      | Some (_, lifecycle) => Ok lifecycle
      | None => Err PairBackendError.InvalidLifecycle
      end
  end.

Definition projected_error_presence (value : option Value.t) : bool :=
  match value with
  | None | Some Value.Null => false
  | Some (Value.String message) => negb (bool_decide (message = []))
  | Some _ => true
  end.

Definition projected_transport (value : option Value.t) : AuraControlTransport.t :=
  match value ≫= Value.as_str with
  | Some name =>
      if bool_decide (name = str "le") then AuraControlTransport.Le
      else if bool_decide (name = str "bredr") then AuraControlTransport.BrEdr
      else if bool_decide (name = str "unresolved") then AuraControlTransport.Unresolved
      else AuraControlTransport.Unknown
  | None => AuraControlTransport.Unknown
  end.

Definition parse_optional_bool (value : option Value.t) : result bool PairBackendError.t :=
  match value with
  | None => Ok false
  | Some (Value.Bool b) => Ok b
  | Some _ => Err PairBackendError.InvalidResponse
  end.

(** * The kernel *)

(** [errno] values and flags of Linux, as [libc] spells them. *)
Definition EINTR : Z := 4.
Definition EAGAIN : Z := 11.
Definition EISCONN : Z := 106.
Definition ETIMEDOUT : Z := 110.
Definition EALREADY : Z := 114.
Definition EINPROGRESS : Z := 115.
Definition O_NONBLOCK : Z := 0x800.
Definition POLLOUT : Z := 4.
Definition POLLNVAL : Z := 32.
Definition UCRED_SIZE : Z := 12.
Definition SUN_PATH_SIZE : nat := 108.
Definition SUN_PATH_OFFSET : Z := 2.
Definition c_int_max : Z := 2147483647.
Definition u128_max : Z := 2 ^ 128 - 1.
(** The largest [Instant]: an [i64] of seconds. *)
Definition instant_max : Z := 9223372036854775807 * 1000000000 + 999999999.

(** [io::Error::from_raw_os_error(errno).kind()]. *)
Definition error_kind (errno : Z) : IoErrorKind.t :=
  if (errno =? ETIMEDOUT)%Z then IoErrorKind.TimedOut
  else if (errno =? EAGAIN)%Z then IoErrorKind.WouldBlock
  else if (errno =? EINTR)%Z then IoErrorKind.Interrupted
  else IoErrorKind.Other.

(** One socket is used at a time; the calls act on it.  The error of a raw call
    is its [errno]. *)
Class UnixSockets (W : Type) := {
  unix_now : W -> Z * W;
  unix_euid : W -> Z;
  (** [fs::symlink_metadata]. *)
  path_metadata : bytes -> W -> result Metadata IoErrorKind.t * W;
  (** [socket(AF_UNIX, SOCK_STREAM | SOCK_NONBLOCK | SOCK_CLOEXEC, 0)]. *)
  unix_socket : W -> result unit Z * W;
  (** [connect] to an address: its [sun_path] and the length of the whole. *)
  unix_connect : bytes -> Z -> W -> result unit Z * W;
  unix_sleep : Z -> W -> W;
  (** [poll] for the given events and milliseconds: how many descriptors are
      ready, and [revents]. *)
  unix_poll : Z -> Z -> W -> result (Z * Z) Z * W;
  (** [getsockopt(SO_ERROR)]. *)
  unix_error : W -> result Z Z * W;
  fcntl_getfl : W -> result Z Z * W;
  fcntl_setfl : Z -> W -> result unit Z * W;
  (** [getsockopt(SO_PEERCRED)]: the user and the length of the answer. *)
  peer_credentials : W -> result (Z * Z) Z * W;
  unix_set_write_timeout : Z -> W -> result unit IoErrorKind.t * W;
  unix_set_read_timeout : Z -> W -> result unit IoErrorKind.t * W;
  unix_write : bytes -> W -> result nat IoErrorKind.t * W;
  unix_read : nat -> W -> result bytes IoErrorKind.t * W;
  (** [shutdown(Shutdown::Write)]. *)
  shutdown_write : W -> result unit IoErrorKind.t * W;
  (** The descriptor is dropped. *)
  unix_close : W -> W;
}.

Definition map_io_error (kind : IoErrorKind.t) : PairBackendError.t :=
  match kind with
  | IoErrorKind.TimedOut | IoErrorKind.WouldBlock => PairBackendError.TimedOut
  | _ => PairBackendError.Unavailable
  end.

Definition map_errno (errno : Z) : PairBackendError.t := map_io_error (error_kind errno).

(** [sun_path], padded with zeros, and the length of the address. *)
Definition socket_address (path : bytes) : result (bytes * Z) PairBackendError.t :=
  if bool_decide (path = []) || contains_byte (z2b 0) path || (SUN_PATH_SIZE <=? length path)%nat
  then Err PairBackendError.InvalidSocketPath
  else
  let address := path ++ replicate (SUN_PATH_SIZE - length path) (z2b 0) in
  let address_length := (SUN_PATH_OFFSET + Z.of_nat (length path) + 1)%Z in
  if (u32_max <? address_length)%Z then Err PairBackendError.InvalidSocketPath
  else Ok (address, address_length).

Definition poll_timeout_millis (timeout : Z) : Z :=
  let rounded_up := Z.min (as_millis timeout + 1) u128_max in
  Z.min rounded_up c_int_max.

Definition peer_uid_is_trusted (peer_uid effective_uid : Z) : bool := (peer_uid =? effective_uid)%Z.

Section Connection.
Context {W : Type} `{UnixSockets W}.
#[local] Abbreviation io T := (result T PairBackendError.t * W)%type.

Definition mapped {T} (call : result T IoErrorKind.t * W) : io T :=
  let '(r, w) := call in (map_err map_io_error r, w).
Definition mapped_raw {T} (call : result T Z * W) : io T :=
  let '(r, w) := call in (map_err map_errno r, w).

Definition remaining_before (deadline : Z) (w : W) : io Z :=
  let '(now, w) := unix_now w in
  let remaining := Z.max 0 (deadline - now) in
  (if (remaining =? 0)%Z then Err PairBackendError.TimedOut else Ok remaining, w).

Definition inspect_socket_path (path : bytes) (w : W) : io unit :=
  let?! (metadata, w) := mapped (path_metadata path w) in
  (if negb (bool_decide (file_type metadata = FileType.Socket))
      || negb (uid metadata =? unix_euid w)%Z
      || negb (Z.land (mode metadata) 511 =? 384)%Z
   then Err PairBackendError.UntrustedSocket else Ok tt, w).

Definition socket_error (w : W) : io Z := mapped_raw (unix_error w).

(** The loops, with fuel; [None] is out of fuel. *)
Fixpoint wait_for_connect (fuel : nat) (deadline : Z) (w : W) : option (io unit) :=
  match fuel with
  | O => None
  | S fuel =>
      let?* (remaining, w) := Some (remaining_before deadline w) in
      match unix_poll POLLOUT (poll_timeout_millis remaining) w with
      | (Ok (ready, revents), w) =>
          if (ready =? 0)%Z then Some (Err PairBackendError.TimedOut, w)
          else if negb (Z.land revents POLLNVAL =? 0)%Z
          then Some (Err PairBackendError.Unavailable, w)
          else
          let?* (errno, w) := Some (socket_error w) in
          if (errno =? 0)%Z then Some (Ok tt, w)
          else if (errno =? EINPROGRESS)%Z || (errno =? EALREADY)%Z
          then wait_for_connect fuel deadline w
          else if (errno =? EAGAIN)%Z then Some (Err PairBackendError.TimedOut, w)
          else Some (Err (map_errno errno), w)
      | (Err errno, w) =>
          if bool_decide (error_kind errno = IoErrorKind.Interrupted)
          then wait_for_connect fuel deadline w
          else Some (Err (map_errno errno), w)
      end
  end.

Fixpoint connect_descriptor (fuel : nat) (address : bytes) (address_length deadline : Z) (w : W)
  : option (io unit) :=
  match fuel with
  | O => None
  | S fuel =>
      match unix_connect address address_length w with
      | (Ok _, w) => Some (Ok tt, w)
      | (Err errno, w) =>
          if (errno =? EISCONN)%Z then Some (Ok tt, w)
          else if (errno =? EINPROGRESS)%Z || (errno =? EALREADY)%Z
          then wait_for_connect fuel deadline w
          else if (errno =? EAGAIN)%Z then
            let?* (remaining, w) := Some (remaining_before deadline w) in
            connect_descriptor fuel address address_length deadline
              (unix_sleep (Z.min remaining BACKLOG_RETRY_DELAY) w)
          else Some (Err (map_errno errno), w)
      end
  end.

Definition set_blocking (w : W) : io unit :=
  let?! (flags, w) := mapped_raw (fcntl_getfl w) in
  mapped_raw (fcntl_setfl (Z.land flags (Z.lnot O_NONBLOCK)) w).

Definition verify_peer_effective_uid (w : W) : io unit :=
  match peer_credentials w with
  | (Ok (peer_uid, answered), w) =>
      (if negb (answered =? UCRED_SIZE)%Z || negb (peer_uid_is_trusted peer_uid (unix_euid w))
       then Err PairBackendError.UntrustedSocket else Ok tt, w)
  | (Err _, w) => (Err PairBackendError.UntrustedSocket, w)
  end.

(** The descriptor goes out of scope: at every end, or at an error only. *)
Definition dropped {T} (r : option (T * W)) : option (T * W) :=
  match r with Some (r, w) => Some (r, unix_close w) | None => None end.
Definition dropped_on_error {T} (r : option (io T)) : option (io T) :=
  match r with
  | Some (Err e, w) => Some (Err e, unix_close w)
  | _ => r
  end.

Definition connect_trusted_until (fuel : nat) (path : bytes) (deadline : Z) (w : W)
  : option (io unit) :=
  match socket_address path with
  | Err e => Some (Err e, w)
  | Ok (address, address_length) =>
      let?* (_, w) := Some (inspect_socket_path path w) in
      let?* (_, w) := Some (mapped_raw (unix_socket w)) in
      dropped_on_error
        (let?* (_, w) := connect_descriptor fuel address address_length deadline w in
         let?* (_, w) := Some (set_blocking w) in
         Some (verify_peer_effective_uid w))
  end.

Fixpoint write_all_until (fuel : nat) (p : bytes) (deadline : Z) (w : W) : option (io unit) :=
  match p, fuel with
  | [], _ => Some (Ok tt, w)
  | _ :: _, O => None
  | _ :: _, S fuel =>
      let?* (remaining, w) := Some (remaining_before deadline w) in
      let?* (_, w) := Some (mapped (unix_set_write_timeout remaining w)) in
      match unix_write p w with
      | (Ok O, w) => Some (Err PairBackendError.Unavailable, w)
      | (Ok count, w) => write_all_until fuel (drop count p) deadline w
      | (Err IoErrorKind.Interrupted, w) => write_all_until fuel p deadline w
      | (Err error, w) => Some (Err (map_io_error error), w)
      end
  end.

Fixpoint read_one_bounded_reply (fuel : nat) (payload : bytes) (deadline : Z) (w : W)
  : option (io bytes) :=
  match fuel with
  | O => None
  | S fuel =>
      let?* (remaining, w) := Some (remaining_before deadline w) in
      let?* (_, w) := Some (mapped (unix_set_read_timeout remaining w)) in
      match unix_read 1024 w with
      | (Err IoErrorKind.Interrupted, w) => read_one_bounded_reply fuel payload deadline w
      | (Err error, w) => Some (Err (map_io_error error), w)
      | (Ok [], w) => Some (Err PairBackendError.InvalidResponse, w)
      | (Ok chunk, w) =>
          match split_once LF chunk with
          | Some (line, rest) =>
              if (MAX_LEGACY_RESPONSE_BYTES <? length payload + length line)%nat
              then Some (Err PairBackendError.ResponseTooLarge, w)
              else if existsb (fun byte => negb (is_ascii_whitespace byte)) rest
              then Some (Err PairBackendError.InvalidResponse, w)
              else Some (Ok (payload ++ line), w)
          | None =>
              if (MAX_LEGACY_RESPONSE_BYTES <? length payload + length chunk)%nat
              then Some (Err PairBackendError.ResponseTooLarge, w)
              else read_one_bounded_reply fuel (payload ++ chunk) deadline w
          end
      end
  end.
End Connection.

(** * The backend *)

(** The client; [kernel] is the state of the machine that its calls act on. *)
Record LegacyV04PairBackend (W : Type) := mkLegacyBackend {
  socket_path : bytes;
  timeout : Z;
  kernel : W;
}.
Arguments mkLegacyBackend {W}.
Arguments socket_path {W}.
Arguments timeout {W}.
Arguments kernel {W}.

Definition for_explicit_socket {W : Type} (path : bytes) (limit : Z) (w : W)
  : result (LegacyV04PairBackend W) PairBackendError.t :=
  if negb (is_absolute path) then Err PairBackendError.InvalidSocketPath
  else if (limit =? 0)%Z then Err PairBackendError.InvalidTimeout
  else Ok (mkLegacyBackend path limit w).

Definition rejected_before_send (why : PairBackendError.t) : PairActionResult.t :=
  PairActionResult.RejectedBeforeSend
    (mkPairActionFailure PairBackendKind.LegacyV04WholePair why None).

Definition outcome_unknown (why : PairBackendError.t) (observed : option PairLifecycle.t)
  : PairActionResult.t :=
  PairActionResult.OutcomeUnknown
    (mkPairActionFailure PairBackendKind.LegacyV04WholePair why observed).

Section Backend.
Context {W : Type} `{UnixSockets W} `{LegacyJson}.
Context (fuel : nat).
#[local] Abbreviation backend := (LegacyV04PairBackend W).

(** The end of [request]: what the reply to a command means. *)
Definition request_reply (command : LegacyCommand.t) (payload : bytes)
  : result ParsedLegacyResponse PairBackendError.t :=
  match legacy_response payload with
  | None => Err PairBackendError.InvalidResponse
  | Some response =>
      if negb (response_ok response) then Err PairBackendError.BackendReportedFailure
      else
      let? lifecycle := parse_lifecycle (response_state response) in
      let unexpected :=
        match LegacyCommand.expected_lifecycle command with
        | Some expected => bool_decide (lifecycle <> expected)
        | None => false
        end in
      if unexpected then Err PairBackendError.UnexpectedLifecycle
      else Ok (mkParsedLegacyResponse lifecycle
                 (projected_error_presence (last_error response))
                 (projected_transport (response_aura_transport response)))
  end.

Definition legacy_request (command : LegacyCommand.t) (b : backend)
  : option (result ParsedLegacyResponse PairBackendError.t * W) :=
  let '(now, w) := unix_now (kernel b) in
  match checked_add instant_max now (timeout b) with
  | None => Some (Err PairBackendError.InvalidTimeout, w)
  | Some deadline =>
      let?* (_, w) := connect_trusted_until fuel (socket_path b) deadline w in
      dropped
        (let?* (_, w) := write_all_until fuel (LegacyCommand.wire_line command) deadline w in
         let?* (_, w) := Some (mapped (shutdown_write w)) in
         let?* (payload, w) := read_one_bounded_reply fuel [] deadline w in
         Some (request_reply command payload, w))
  end.

(** The end of [action]: what the reply to a role command means. *)
Definition action_reply (command : LegacyCommand.t) (payload : bytes) : PairActionResult.t :=
  match legacy_response payload with
  | None => outcome_unknown PairBackendError.InvalidResponse None
  | Some response =>
      let observed_lifecycle := result_ok (parse_lifecycle (response_state response)) in
      if negb (response_ok response)
      then outcome_unknown PairBackendError.BackendReportedFailure observed_lifecycle
      else
      match observed_lifecycle with
      | None => outcome_unknown PairBackendError.InvalidLifecycle None
      | Some lifecycle =>
          if bool_decide (LegacyCommand.expected_lifecycle command <> Some lifecycle)
          then outcome_unknown PairBackendError.UnexpectedLifecycle (Some lifecycle)
          else
          match parse_optional_bool (response_idempotent response) with
          | Err why => outcome_unknown why (Some lifecycle)
          | Ok idem =>
              PairActionResult.Accepted
                (mkPairActionReceipt PairBackendKind.LegacyV04WholePair lifecycle
                   (if idem then PairBackendEvidence.LocalSessionState
                    else PairBackendEvidence.LifecycleAcknowledgement) idem)
          end
      end
  end.

(** From the first write on, every failure is an unknown outcome. *)
Definition exchange_action (command : LegacyCommand.t) (deadline : Z) (w : W)
  : option (PairActionResult.t * W) :=
  match write_all_until fuel (LegacyCommand.wire_line command) deadline w with
  | None => None
  | Some (Err why, w) => Some (outcome_unknown why None, w)
  | Some (Ok _, w) =>
  match shutdown_write w with
  | (Err error, w) => Some (outcome_unknown (map_io_error error) None, w)
  | (Ok _, w) =>
  match read_one_bounded_reply fuel [] deadline w with
  | None => None
  | Some (Err why, w) => Some (outcome_unknown why None, w)
  | Some (Ok payload, w) => Some (action_reply command payload, w)
  end end end.

Definition legacy_action (command : LegacyCommand.t) (b : backend)
  : option (PairActionResult.t * W) :=
  let '(now, w) := unix_now (kernel b) in
  match checked_add instant_max now (timeout b) with
  | None => Some (rejected_before_send PairBackendError.InvalidTimeout, w)
  | Some deadline =>
      match connect_trusted_until fuel (socket_path b) deadline w with
      | None => None
      | Some (Err why, w) => Some (rejected_before_send why, w)
      | Some (Ok _, w) => dropped (exchange_action command deadline w)
      end
  end.

Definition legacy_health (b : backend) : option (result PairHealth PairBackendError.t * W) :=
  let?* (response, w) := legacy_request LegacyCommand.Status b in
  Some (Ok (health_new PairBackendKind.LegacyV04WholePair (parsed_lifecycle response)
              (parsed_reported_error response) (parsed_aura_transport response)), w).
End Backend.
