(* ===== verification/LegacySpec.v ===== *)
(** The socket backend keeps the contract of a backend: what an action puts on
    a socket and to whom, how every outcome is classified, that every call
    returns and gives its descriptor back.  It is the second implementation of
    [PairBackend], so the theorems about the controller hold over it. *)
From S2P Require Import Prelude.
From S2P Require Import Bytes.
From S2P Require Import Backend.
From S2P Require Import Journal.
From S2P Require Import Model.
From S2P Require Import Tcp.
From S2P Require Import BodySpec.
From S2P Require Import Legacy.

(** * What the kernel promises *)

Section Calls.
Context {W : Type} `{UnixSockets W}.

(** A call that neither opens, connects, writes nor closes a socket. *)
Inductive quiet_call (w w' : W) : Prop :=
| quiet_now t : unix_now w = (t, w') -> quiet_call w w'
| quiet_metadata p r : path_metadata p w = (r, w') -> quiet_call w w'
| quiet_sleep d : unix_sleep d w = w' -> quiet_call w w'
| quiet_poll e t r : unix_poll e t w = (r, w') -> quiet_call w w'
| quiet_error r : unix_error w = (r, w') -> quiet_call w w'
| quiet_getfl r : fcntl_getfl w = (r, w') -> quiet_call w w'
| quiet_setfl f r : fcntl_setfl f w = (r, w') -> quiet_call w w'
| quiet_credentials r : peer_credentials w = (r, w') -> quiet_call w w'
| quiet_write_timeout t r : unix_set_write_timeout t w = (r, w') -> quiet_call w w'
| quiet_read_timeout t r : unix_set_read_timeout t w = (r, w') -> quiet_call w w'
| quiet_read n r : unix_read n w = (r, w') -> quiet_call w w'
| quiet_shutdown r : shutdown_write w = (r, w') -> quiet_call w w'.

Inductive kernel_call (w w' : W) : Prop :=
| call_quiet : quiet_call w w' -> kernel_call w w'
| call_socket r : unix_socket w = (r, w') -> kernel_call w w'
| call_connect a n r : unix_connect a n w = (r, w') -> kernel_call w w'
| call_write p r : unix_write p w = (r, w') -> kernel_call w w'
| call_close : unix_close w = w' -> kernel_call w w'.
End Calls.

(** Every socket so far with the user at its other end and what was written to
    it, the open descriptors, and the clock.  A call takes or yields no more
    bytes than it was given room for; only so many calls are interrupted, or
    find a connection ready that is still in progress; time passes at least as
    long as one sleeps; and the credentials are those of the peer. *)
Class UnixSocketsLaws (W : Type) `{UnixSockets W} := {
  sockets : W -> list (Z * bytes);
  descriptors : W -> nat;
  unix_clock : W -> Z;
  unix_interruptions : W -> nat;
  call_calm w w' : kernel_call w w' ->
    unix_euid w' = unix_euid w /\ unix_interruptions w' <= unix_interruptions w /\
    (unix_clock w <= unix_clock w')%Z;
  quiet_keeps w w' : quiet_call w w' ->
    sockets w' = sockets w /\ descriptors w' = descriptors w;
  now_clock w t w' : unix_now w = (t, w') -> t = unix_clock w';
  sleep_clock d w : (0 <= d)%Z -> (unix_clock w + d <= unix_clock (unix_sleep d w))%Z;
  poll_interrupted e t w errno w' :
    unix_poll e t w = (Err errno, w') -> error_kind errno = IoErrorKind.Interrupted ->
    unix_interruptions w' < unix_interruptions w;
  still_connecting w errno w' :
    unix_error w = (Ok errno, w') -> errno = EINPROGRESS \/ errno = EALREADY ->
    unix_interruptions w' < unix_interruptions w;
  socket_opened w w' :
    unix_socket w = (Ok tt, w') ->
    exists u, sockets w' = sockets w ++ [(u, [])] /\ descriptors w' = S (descriptors w);
  socket_refused w e w' :
    unix_socket w = (Err e, w') -> sockets w' = sockets w /\ descriptors w' = descriptors w;
  connect_keeps a n w r w' :
    unix_connect a n w = (r, w') -> sockets w' = sockets w /\ descriptors w' = descriptors w;
  credentials_true w u n w' old v p :
    peer_credentials w = (Ok (u, n), w') -> sockets w = old ++ [(v, p)] -> u = v;
  write_taken p w n w' old u q :
    unix_write p w = (Ok n, w') -> sockets w = old ++ [(u, q)] ->
    sockets w' = old ++ [(u, q ++ take n p)] /\ descriptors w' = descriptors w;
  write_refused p w e w' :
    unix_write p w = (Err e, w') -> sockets w' = sockets w /\ descriptors w' = descriptors w;
  write_interrupted p w w' :
    unix_write p w = (Err IoErrorKind.Interrupted, w') ->
    unix_interruptions w' < unix_interruptions w;
  read_interrupted n w w' :
    unix_read n w = (Err IoErrorKind.Interrupted, w') ->
    unix_interruptions w' < unix_interruptions w;
  close_keeps w : sockets (unix_close w) = sockets w;
  close_releases w : descriptors (unix_close w) = pred (descriptors w);
}.

(** * What the operations keep *)

Section Kept.
Context {W : Type} `{UnixSocketsLaws W}.

Definition calm (w w' : W) : Prop :=
  unix_euid w' = unix_euid w /\ unix_interruptions w' <= unix_interruptions w /\
  (unix_clock w <= unix_clock w')%Z.

(** Nothing was written, opened or closed. *)
Definition kept (w w' : W) : Prop :=
  calm w w' /\ sockets w' = sockets w /\ descriptors w' = descriptors w.

#[export] Instance calm_preorder : PreOrder calm.
Proof. split; [intros w; red; lia|]. intros w1 w2 w3 (?&?&?) (?&?&?). red. split; [congruence|lia]. Qed.

#[export] Instance kept_preorder : PreOrder kept.
Proof.
  split; [intros w; by split_and!|]. intros w1 w2 w3 (?&?&?) (?&?&?).
  split; [by etransitivity|]. split; congruence.
Qed.

Lemma kept_calm w w' : kept w w' -> calm w w'.
Proof. by intros []. Qed.

Lemma quiet_kept w w' : quiet_call w w' -> kept w w'.
Proof. intros Hq. split; [by apply call_calm, call_quiet|by apply quiet_keeps]. Qed.

Lemma connect_kept a n w r w' : unix_connect a n w = (r, w') -> kept w w'.
Proof. intros E. split; [by eapply call_calm, call_connect|by eapply connect_keeps]. Qed.

Lemma mapped_inv {T} (call : result T IoErrorKind.t * W) r w' :
  mapped call = (r, w') -> exists r0, call = (r0, w') /\ r = map_err map_io_error r0.
Proof. destruct call as [r0 w0]. intros [= <- <-]. eauto. Qed.

Lemma mapped_raw_inv {T} (call : result T Z * W) r w' :
  mapped_raw call = (r, w') -> exists r0, call = (r0, w') /\ r = map_err map_errno r0.
Proof. destruct call as [r0 w0]. intros [= <- <-]. eauto. Qed.

Lemma remaining_spec deadline w r w' :
  remaining_before deadline w = (r, w') ->
  kept w w' /\
  match r with
  | Ok time_left => time_left = (deadline - unix_clock w')%Z /\ (0 < time_left)%Z
  | Err e => e = PairBackendError.TimedOut
  end.
Proof.
  unfold remaining_before. destruct (unix_now w) as [t w1] eqn:E. intros [= <- <-].
  split; [by eapply quiet_kept, quiet_now|]. apply now_clock in E as ->.
  destruct (Z.eqb_spec (Z.max 0 (deadline - unix_clock w1)) 0); [done|lia].
Qed.

Lemma remaining_kept deadline w r w' : remaining_before deadline w = (r, w') -> kept w w'.
Proof. intros E. by apply remaining_spec in E as []. Qed.

Lemma inspect_kept path w r w' : inspect_socket_path path w = (r, w') -> kept w w'.
Proof.
  unfold inspect_socket_path. destruct (mapped _) as [[m|e] w1] eqn:E; intros [= _ <-];
    apply mapped_inv in E as (r0 & E & _); by eapply quiet_kept, quiet_metadata.
Qed.

Lemma set_blocking_kept w r w' : set_blocking w = (r, w') -> kept w w'.
Proof.
  unfold set_blocking. destruct (mapped_raw _) as [[f|e] w1] eqn:E;
    apply mapped_raw_inv in E as (r0 & E & _).
  - intros E'. apply mapped_raw_inv in E' as (r1 & E' & _).
    transitivity w1; by eapply quiet_kept; econstructor.
  - intros [= _ <-]. by eapply quiet_kept, quiet_getfl.
Qed.

Lemma verify_spec w r w' :
  verify_peer_effective_uid w = (r, w') ->
  kept w w' /\
  (r = Ok tt -> forall old v p, sockets w = old ++ [(v, p)] -> v = unix_euid w').
Proof.
  unfold verify_peer_effective_uid. destruct (peer_credentials w) as [[[u n]|e] w1] eqn:E;
    intros [= <- <-]; (split; [by eapply quiet_kept, quiet_credentials|]); [|done].
  intros Hr old v p Hs. destruct (negb _ || negb _) eqn:G; [done|]. bool_hyps.
  unfold peer_uid_is_trusted in *. bool_hyps. by eapply credentials_true in E as <-.
Qed.

Lemma wait_kept fuel deadline w r w' : wait_for_connect fuel deadline w = Some (r, w') -> kept w w'.
Proof.
  revert w. induction fuel as [|fuel IH]; intros w E; [done|]. cbn [wait_for_connect] in E.
  destruct (remaining_before deadline w) as [[t|e] w1] eqn:E1; apply remaining_kept in E1;
    [|by simplify_eq].
  destruct (unix_poll _ _ w1) as [[[ready revents]|errno] w2] eqn:E2;
    (assert (kept w w2) by (transitivity w1; [done|by eapply quiet_kept, quiet_poll])).
  - destruct (_ =? 0)%Z; [by simplify_eq|]. destruct (negb _); [by simplify_eq|].
    unfold socket_error in E. destruct (mapped_raw _) as [[err|e] w3] eqn:E3;
      apply mapped_raw_inv in E3 as (r0 & E3 & _);
      (assert (kept w w3) by (transitivity w2; [done|by eapply quiet_kept, quiet_error]));
      [|by simplify_eq].
    split_cases_in E. transitivity w3; [done|by apply IH].
  - case_bool_decide; [|by simplify_eq]. transitivity w2; [done|by apply IH].
Qed.

Lemma connect_descriptor_kept fuel a n deadline w r w' :
  connect_descriptor fuel a n deadline w = Some (r, w') -> kept w w'.
Proof.
  revert w. induction fuel as [|fuel IH]; intros w E; [done|]. cbn [connect_descriptor] in E.
  destruct (unix_connect a n w) as [[u|errno] w1] eqn:E1; apply connect_kept in E1;
    [by simplify_eq|].
  destruct (_ =? EISCONN)%Z; [by simplify_eq|].
  destruct (_ || _); [transitivity w1; [done|by eapply wait_kept]|].
  destruct (_ =? EAGAIN)%Z; [|by simplify_eq].
  destruct (remaining_before deadline w1) as [[t|e] w2] eqn:E2; apply remaining_kept in E2;
    [|simplify_eq; by transitivity w1].
  transitivity w1; [done|]. transitivity w2; [done|].
  transitivity (unix_sleep (Z.min t BACKLOG_RETRY_DELAY) w2); [by eapply quiet_kept, quiet_sleep|].
  by apply IH.
Qed.

Lemma read_kept fuel payload deadline w r w' :
  read_one_bounded_reply fuel payload deadline w = Some (r, w') -> kept w w'.
Proof.
  revert payload w. induction fuel as [|fuel IH]; intros payload w E; [done|].
  cbn [read_one_bounded_reply] in E.
  destruct (remaining_before deadline w) as [[t|e] w1] eqn:E1; apply remaining_kept in E1;
    [|by simplify_eq].
  destruct (mapped (unix_set_read_timeout t w1)) as [[u|e] w2] eqn:E2;
    apply mapped_inv in E2 as (r0 & E2 & _);
    (assert (kept w w2) by (transitivity w1; [done|by eapply quiet_kept, quiet_read_timeout]));
    [|by simplify_eq].
  destruct (unix_read 1024 w2) as [r3 w3] eqn:E3.
  assert (kept w w3) by (transitivity w2; [done|by eapply quiet_kept, quiet_read]).
  destruct r3 as [[|c chunk]|[]]; try by simplify_eq.
  - split_cases_in E. transitivity w3; [done|by eapply IH].
  - transitivity w3; [done|by eapply IH].
Qed.

(** Nothing but a part of the payload is written, to the one socket. *)
Lemma write_all_spec fuel p deadline w r w' old u q :
  write_all_until fuel p deadline w = Some (r, w') -> sockets w = old ++ [(u, q)] ->
  calm w w' /\ descriptors w' = descriptors w /\
  exists n, sockets w' = old ++ [(u, q ++ take n p)] /\ (r = Ok tt -> take n p = p).
Proof.
  revert p w q. induction fuel as [|fuel IH]; intros p w q E Hs; destruct p as [|c p].
  1,3: simplify_eq/=; split; [done|]; split; [done|]; exists 0; by rewrite app_nil_r.
  { done. }
  cbn [write_all_until] in E.
  assert (Hstop : forall w1 e, kept w w1 ->
    calm w w1 /\ descriptors w1 = descriptors w /\
    exists n, sockets w1 = old ++ [(u, q ++ take n (c :: p))] /\
      (@Err unit PairBackendError.t e = Ok tt -> take n (c :: p) = c :: p)).
  { intros w1 e (? & Ho & ?). split; [done|]. split; [done|]. exists 0. by rewrite Ho, Hs, app_nil_r. }
  destruct (remaining_before deadline w) as [[t|e] w1] eqn:E1; apply remaining_kept in E1;
    [|simplify_eq; by apply Hstop].
  destruct (mapped (unix_set_write_timeout t w1)) as [[u'|e] w2] eqn:E2;
    apply mapped_inv in E2 as (r0 & E2 & _);
    (assert (kept w w2) as Hk by (transitivity w1; [done|by eapply quiet_kept, quiet_write_timeout]));
    [|simplify_eq; by apply Hstop].
  destruct (unix_write (c :: p) w2) as [rw w3] eqn:E3.
  assert (calm w w3) as Hc3 by (transitivity w2; [by apply kept_calm|by eapply call_calm, call_write]).
  destruct Hk as (_ & Ho & Hd). destruct rw as [n|k].
  - eapply write_taken in E3 as [E3 Hd3]; [|by rewrite Ho]. destruct n as [|n].
    + simplify_eq. split; [done|]. split; [congruence|]. by exists 0.
    + destruct (IH _ _ _ E E3) as (Hc & Hd' & m & Hm & Hr). split; [by etransitivity|].
      split; [congruence|]. exists (S n + m). split.
      * rewrite Hm, <- app_assoc. do 4 f_equal. change (drop (S n) (c :: p)) with (drop n p).
        by rewrite <- take_take_drop.
      * intros Hok. specialize (Hr Hok). rewrite <- take_take_drop, Hr. apply take_drop.
  - apply write_refused in E3 as [E3 Hd3].
    assert (kept w w3) as Hk3 by (split; [done|]; split; congruence).
    destruct k; simplify_eq; try by apply Hstop.
    destruct (IH _ _ _ E ltac:(by rewrite E3, Ho)) as (Hc & Hd' & Hex).
    split; [by etransitivity|]. split; [congruence|done].
Qed.
End Kept.

(** * What an operation puts on a socket *)

Section Sent.
Context {W : Type} `{UnixSocketsLaws W} `{LegacyJson}.

Lemma unix_close_calm (w : W) : calm w (unix_close w).
Proof. by eapply call_calm, call_close. Qed.

(** A trusted connection is a fresh socket to a process of the same user;
    otherwise nothing was written and nothing stays open. *)
Lemma connect_trusted_spec fuel path deadline (w : W) r w' :
  connect_trusted_until fuel path deadline w = Some (r, w') ->
  calm w w' /\
  match r with
  | Ok _ => sockets w' = sockets w ++ [(unix_euid w, [])] /\ descriptors w' = S (descriptors w)
  | Err _ => descriptors w' = descriptors w /\
      (sockets w' = sockets w \/ exists u, sockets w' = sockets w ++ [(u, [])])
  end.
Proof.
  unfold connect_trusted_until. destruct (socket_address path) as [[a n]|e]; cycle 1.
  { intros [= <- <-]. split; [done|]. by auto. }
  destruct (inspect_socket_path path w) as [[[]|e] w1] eqn:E1; apply inspect_kept in E1 as (Hc1&Ho1&Hd1);
    [|intros [= <- <-]; auto].
  destruct (mapped_raw (unix_socket w1)) as [r2 w2] eqn:E2. apply mapped_raw_inv in E2 as (r0 & E2 & ->).
  assert (calm w w2) as Hc2 by (transitivity w1; [done|by eapply call_calm, call_socket]).
  destruct r0 as [[]|e]; simpl; cycle 1.
  { apply socket_refused in E2 as [Ho2 Hd2]. intros [= <- <-]. split; [done|].
    split; [congruence|left; congruence]. }
  apply socket_opened in E2 as (u & Ho2 & Hd2). rewrite Ho1 in Ho2. rewrite Hd1 in Hd2.
  assert (Herr : forall e w3, kept w2 w3 ->
    dropped_on_error (Some (@Err unit PairBackendError.t e, w3)) = Some (r, w') ->
    calm w w' /\ match r with
    | Ok _ => sockets w' = sockets w ++ [(unix_euid w, [])] /\ descriptors w' = S (descriptors w)
    | Err _ => descriptors w' = descriptors w /\
        (sockets w' = sockets w \/ exists u, sockets w' = sockets w ++ [(u, [])]) end).
  { intros e w3 (Hc3 & Ho3 & Hd3) [= <- <-]. split.
    - transitivity w2; [done|]. transitivity w3; [done|apply unix_close_calm].
    - rewrite close_releases, close_keeps, Hd3, Hd2, Ho3, Ho2. eauto. }
  destruct (connect_descriptor _ _ _ _ w2) as [[[[]|e] w3]|] eqn:E3; [| |done];
    apply connect_descriptor_kept in E3; [|by eapply Herr].
  destruct (set_blocking w3) as [[[]|e] w4] eqn:E4; apply set_blocking_kept in E4;
    (assert (kept w2 w4) as Hk4 by by transitivity w3); [|by eapply Herr].
  destruct (verify_peer_effective_uid w4) as [r5 w5] eqn:E5.
  apply verify_spec in E5 as [Hk5 Htrust].
  assert (kept w2 w5) as Hk by by transitivity w4. destruct r5 as [[]|e]; [|by eapply Herr].
  intros [= <- <-]. destruct Hk as (Hc5 & Ho5 & Hd5).
  split; [by transitivity w2|]. split; [|congruence]. rewrite Ho5, Ho2.
  destruct Hc2 as [Hu2 _], Hc5 as [Hu5 _].
  rewrite <- Hu2, <- Hu5. do 3 f_equal. eapply (Htrust eq_refl).
  destruct Hk4 as (_ & Ho4 & _). by rewrite Ho4, Ho2.
Qed.

(** What a reply must say for a role command to count as accepted. *)
Definition acknowledges (command : LegacyCommand.t) (payload : bytes) (receipt : PairActionReceipt) : Prop :=
  exists response,
    legacy_response payload = Some response /\ response_ok response = true /\
    LegacyCommand.expected_lifecycle command = Some (receipt_lifecycle receipt) /\
    parse_lifecycle (response_state response) = Ok (receipt_lifecycle receipt) /\
    parse_optional_bool (response_idempotent response) = Ok (idempotent receipt) /\
    receipt_backend receipt = PairBackendKind.LegacyV04WholePair /\
    receipt_evidence receipt =
      (if idempotent receipt then PairBackendEvidence.LocalSessionState
       else PairBackendEvidence.LifecycleAcknowledgement).

Lemma action_reply_spec command payload :
  match action_reply command payload with
  | PairActionResult.Accepted receipt => acknowledges command payload receipt
  | PairActionResult.OutcomeUnknown f => failure_backend f = PairBackendKind.LegacyV04WholePair
  | PairActionResult.RejectedBeforeSend _ => False
  end.
Proof.
  unfold action_reply. destruct (legacy_response payload) as [response|] eqn:E1; [|done].
  destruct (response_ok response) eqn:E2; [|done]. cbn [negb].
  destruct (parse_lifecycle _) as [l|e] eqn:E3; [|done]. cbn [result_ok].
  case_bool_decide as E4; [done|].
  destruct (parse_optional_bool _) as [i|e] eqn:E5; [|done].
  exists response. by split_and!.
Qed.

(** The outcome of an action with what it left on the sockets. *)
Definition classified (command : LegacyCommand.t) (w : W) (r : PairActionResult.t)
    (sent : list (Z * bytes)) : Prop :=
  let line := LegacyCommand.wire_line command in
  match r with
  | PairActionResult.RejectedBeforeSend f =>
      failure_backend f = PairBackendKind.LegacyV04WholePair /\
      (sent = [] \/ exists u, sent = [(u, [])])
  | PairActionResult.OutcomeUnknown f =>
      failure_backend f = PairBackendKind.LegacyV04WholePair /\
      exists part, sent = [(unix_euid w, part)] /\ part `prefix_of` line
  | PairActionResult.Accepted receipt =>
      sent = [(unix_euid w, line)] /\ exists payload, acknowledges command payload receipt
  end.

Lemma exchange_action_spec fuel command deadline (w : W) r w' old u :
  exchange_action fuel command deadline w = Some (r, w') -> sockets w = old ++ [(u, [])] ->
  calm w w' /\ descriptors w' = descriptors w /\
  exists part, sockets w' = old ++ [(u, part)] /\ part `prefix_of` LegacyCommand.wire_line command /\
  match r with
  | PairActionResult.Accepted receipt =>
      part = LegacyCommand.wire_line command /\ exists payload, acknowledges command payload receipt
  | PairActionResult.OutcomeUnknown f => failure_backend f = PairBackendKind.LegacyV04WholePair
  | PairActionResult.RejectedBeforeSend _ => False
  end.
Proof.
  unfold exchange_action. intros E Hs. set (line := LegacyCommand.wire_line command) in *.
  destruct (write_all_until _ _ _ w) as [[r1 w1]|] eqn:E1; [|done].
  destruct (write_all_spec _ _ _ _ _ _ _ _ _ E1 Hs) as (Hc1 & Hd1 & n & Ho1 & Hn).
  rewrite app_nil_l in Ho1.
  assert (take n line `prefix_of` line) as Hp by (exists (drop n line); by rewrite take_drop).
  assert (Hend : forall w2, kept w1 w2 ->
    calm w w2 /\ descriptors w2 = descriptors w /\ sockets w2 = old ++ [(u, take n line)]).
  { intros w2 (Hc & Ho & Hd). split; [by transitivity w1|]. split; congruence. }
  assert (Hfail : forall w2 why, kept w1 w2 -> (r, w') = (outcome_unknown why None, w2) ->
    calm w w' /\ descriptors w' = descriptors w /\
    exists part, sockets w' = old ++ [(u, part)] /\ part `prefix_of` line /\
    match r with
    | PairActionResult.Accepted receipt => part = line /\ exists payload, acknowledges command payload receipt
    | PairActionResult.OutcomeUnknown f => failure_backend f = PairBackendKind.LegacyV04WholePair
    | PairActionResult.RejectedBeforeSend _ => False end).
  { intros w2 why Hk [= -> ->]. destruct (Hend w2 Hk) as (? & ? & ?).
    split; [done|]. split; [done|]. exists (take n line). by split_and!. }
  destruct r1 as [[]|why]; [|injection E as <- <-; by eapply Hfail].
  destruct (shutdown_write w1) as [r2 w2] eqn:E2.
  assert (kept w1 w2) as Hk2 by by eapply quiet_kept, quiet_shutdown.
  destruct r2 as [[]|e]; [|injection E as <- <-; by eapply Hfail].
  destruct (read_one_bounded_reply _ _ _ w2) as [[r3 w3]|] eqn:E3; [|done].
  apply read_kept in E3. assert (kept w1 w3) as Hk3 by by transitivity w2.
  destruct r3 as [payload|e]; injection E as <- <-; [|by eapply Hfail].
  destruct (Hend w3 Hk3) as (Hc & Hd & Ho). split; [done|]. split; [done|].
  exists (take n line). split; [done|]. split; [done|].
  pose proof (action_reply_spec command payload) as Hr.
  destruct (action_reply command payload); [|done..]. split; [by apply Hn|eauto].
Qed.

Lemma legacy_action_spec fuel command (b : LegacyV04PairBackend W) r w' :
  legacy_action fuel command b = Some (r, w') ->
  calm (kernel b) w' /\ descriptors w' = descriptors (kernel b) /\
  exists sent, sockets w' = sockets (kernel b) ++ sent /\ classified command (kernel b) r sent.
Proof.
  unfold legacy_action. set (w := kernel b). destruct (unix_now w) as [now w1] eqn:E1.
  assert (kept w w1) as (Hc1 & Ho1 & Hd1) by by eapply quiet_kept, quiet_now.
  destruct (checked_add _ _ _) as [deadline|]; cycle 1.
  { intros [= <- <-]. split; [done|]. split; [done|]. exists []. rewrite app_nil_r. split; [done|].
    split; [done|by left]. }
  destruct (connect_trusted_until _ _ _ w1) as [[r2 w2]|] eqn:E2; [|done].
  apply connect_trusted_spec in E2 as (Hc2 & E2). destruct r2 as [[]|why].
  - destruct E2 as [Ho2 Hd2]. destruct (exchange_action _ _ _ w2) as [[r3 w3]|] eqn:E3; [|done].
    intros [= <- <-]. destruct (exchange_action_spec _ _ _ _ _ _ _ _ E3 Ho2) as (Hc3&Hd3&part&Ho3&Hp&Hr).
    assert (unix_euid w1 = unix_euid w) as Hu by apply Hc1.
    split; [transitivity w1; [done|]; transitivity w2; [done|]; transitivity w3;
      [done|apply unix_close_calm]|].
    rewrite close_releases, close_keeps, Hd3, Hd2, Ho3, Ho1, Hu.
    split; [done|]. exists [(unix_euid w, part)]. split; [done|].
    destruct r3; simpl; [|done|by eauto]. destruct Hr as [-> Hr]. eauto.
  - destruct E2 as [Hd2 Ho2]. intros [= <- <-]. split; [by transitivity w1|]. split; [congruence|].
    rewrite Ho1 in Ho2. destruct Ho2 as [->|[u ->]]; [exists []|exists [(u, [])]].
    + rewrite app_nil_r. split; [done|]. split; [done|by left].
    + split; [done|]. split; [done|]. right. by exists u.
Qed.

Lemma legacy_request_spec fuel command (b : LegacyV04PairBackend W) r w' :
  legacy_request fuel command b = Some (r, w') ->
  calm (kernel b) w' /\ descriptors w' = descriptors (kernel b) /\
  exists sent, sockets w' = sockets (kernel b) ++ sent /\
    (sent = [] \/ (exists u, sent = [(u, [])]) \/
     exists part, sent = [(unix_euid (kernel b), part)] /\ part `prefix_of` LegacyCommand.wire_line command).
Proof.
  unfold legacy_request. set (w := kernel b). destruct (unix_now w) as [now w1] eqn:E1.
  assert (kept w w1) as (Hc1 & Ho1 & Hd1) by by eapply quiet_kept, quiet_now.
  destruct (checked_add _ _ _) as [deadline|]; cycle 1.
  { intros [= <- <-]. split; [done|]. split; [done|]. exists []. rewrite app_nil_r. auto. }
  destruct (connect_trusted_until _ _ _ w1) as [[r2 w2]|] eqn:E2; [|done].
  apply connect_trusted_spec in E2 as (Hc2 & E2). destruct r2 as [[]|why]; cycle 1.
  { destruct E2 as [Hd2 Ho2]. intros [= <- <-]. split; [by transitivity w1|]. split; [congruence|].
    rewrite Ho1 in Ho2. destruct Ho2 as [->|[u ->]]; [exists []|exists [(u, [])]];
      rewrite ?app_nil_r; eauto. }
  destruct E2 as [Ho2 Hd2]. set (line := LegacyCommand.wire_line command).
  destruct (write_all_until _ line _ w2) as [[r3 w3]|] eqn:E3; [|done].
  destruct (write_all_spec _ _ _ _ _ _ _ _ _ E3 Ho2) as (Hc3 & Hd3 & n & Ho3 & _).
  rewrite app_nil_l in Ho3.
  assert (Hend : forall (r4 : result ParsedLegacyResponse PairBackendError.t) w4, kept w3 w4 ->
    dropped (Some (r4, w4)) = Some (r, w') ->
    calm w w' /\ descriptors w' = descriptors w /\
    exists sent, sockets w' = sockets w ++ sent /\
      (sent = [] \/ (exists u, sent = [(u, [])]) \/
       exists part, sent = [(unix_euid w, part)] /\ part `prefix_of` line)).
  { intros r4 w4 (Hc4 & Ho4 & Hd4) [= <- <-]. assert (unix_euid w1 = unix_euid w) as Hu by apply Hc1.
    split; [transitivity w1; [done|]; transitivity w2; [done|]; transitivity w3; [done|];
      transitivity w4; [done|apply unix_close_calm]|].
    rewrite close_releases, close_keeps, Hd4, Hd3, Hd2, Ho4, Ho3, Ho1, Hu. split; [done|].
    eexists. split; [done|]. right. right. eexists. split; [done|]. exists (drop n line).
    by rewrite take_drop. }
  destruct r3 as [[]|e]; [|by eapply Hend].
  destruct (mapped (shutdown_write w3)) as [[[]|e] w4] eqn:E4; apply mapped_inv in E4 as (r0 & E4 & _);
    (assert (kept w3 w4) by by eapply quiet_kept, quiet_shutdown); [|by eapply Hend].
  destruct (read_one_bounded_reply _ _ _ w4) as [[[payload|e] w5]|] eqn:E5; [| |done];
    apply read_kept in E5; (eapply Hend; by transitivity w4).
Qed.
End Sent.

(** * Every call returns *)

Section Ends.
Context {W : Type} `{UnixSocketsLaws W} `{LegacyJson}.

Definition returns {T} (call : option (T * W)) : Prop := exists r, call = Some r.

Lemma returned {T} (r : T * W) : returns (Some r).
Proof. by exists r. Qed.

Lemma wait_ends fuel deadline w :
  unix_interruptions w < fuel -> returns (wait_for_connect fuel deadline w).
Proof.
  revert w. induction fuel as [|fuel IH]; intros w Hf; [lia|]. cbn [wait_for_connect].
  destruct (remaining_before deadline w) as [[t|e] w1] eqn:E1;
    apply remaining_kept in E1 as ((_ & Hi1 & _) & _); [|apply returned].
  destruct (unix_poll _ _ w1) as [[[ready revents]|errno] w2] eqn:E2;
    (assert (calm w1 w2) as (_ & Hi2 & _) by by eapply kept_calm, quiet_kept, quiet_poll).
  - destruct (_ =? 0)%Z; [apply returned|]. destruct (negb _); [apply returned|].
    unfold socket_error. destruct (unix_error w2) as [[errno|e] w3] eqn:E3; cbn [mapped_raw map_err];
      [|apply returned].
    destruct (errno =? 0)%Z; [apply returned|].
    destruct (_ || _) eqn:G.
    + apply IH. apply orb_true_iff in G as [G|G]; apply Z.eqb_eq in G;
        apply still_connecting in E3; auto; lia.
    + destruct (_ =? EAGAIN)%Z; apply returned.
  - case_bool_decide as Hk; [|apply returned]. apply IH.
    pose proof (poll_interrupted _ _ _ _ _ E2 Hk). lia.
Qed.

Lemma connect_ends fuel a n deadline w k :
  (deadline - unix_clock w <= BACKLOG_RETRY_DELAY * Z.of_nat k)%Z ->
  S (k + unix_interruptions w) < fuel -> returns (connect_descriptor fuel a n deadline w).
Proof.
  revert k w. induction fuel as [|fuel IH]; intros k w Hk Hf; [lia|]. cbn [connect_descriptor].
  destruct (unix_connect a n w) as [[u|errno] w1] eqn:E1; [apply returned|].
  apply connect_kept in E1 as ((_ & Hi1 & Hc1) & _).
  destruct (_ =? EISCONN)%Z; [apply returned|].
  destruct (_ || _); [apply wait_ends; lia|].
  destruct (_ =? EAGAIN)%Z; [|apply returned].
  destruct (remaining_before deadline w1) as [r2 w2] eqn:E2.
  apply remaining_spec in E2 as [((_ & Hi2 & Hc2) & _) Hr]. destruct r2 as [t|e]; [|apply returned].
  destruct Hr as [-> Hpos]. set (d := Z.min _ _).
  assert (0 < BACKLOG_RETRY_DELAY)%Z as HD by by vm_compute.
  assert (calm w2 (unix_sleep d w2)) as (_ & Hi3 & _) by by eapply kept_calm, quiet_kept, quiet_sleep.
  pose proof (sleep_clock d w2 ltac:(unfold d; lia)) as Hs.
  destruct k as [|k]; [lia|]. apply (IH k); [|lia]. unfold d in *. nia.
Qed.

Lemma write_ends fuel p deadline w :
  length p + unix_interruptions w <= fuel -> returns (write_all_until fuel p deadline w).
Proof.
  revert p w. induction fuel as [|fuel IH]; intros p w Hf; destruct p as [|c p];
    try apply returned; [simpl in Hf; lia|]. cbn [write_all_until].
  destruct (remaining_before deadline w) as [[t|e] w1] eqn:E1;
    apply remaining_kept in E1 as ((_ & Hi1 & _) & _); [|apply returned].
  unfold mapped. destruct (unix_set_write_timeout t w1) as [[u|e] w2] eqn:E2; cbn [map_err];
    [|apply returned].
  assert (calm w1 w2) as (_ & Hi2 & _) by by eapply kept_calm, quiet_kept, quiet_write_timeout.
  destruct (unix_write (c :: p) w2) as [r3 w3] eqn:E3.
  assert (calm w2 w3) as (_ & Hi3 & _) by by eapply call_calm, call_write.
  destruct r3 as [[|count]|[]]; try apply returned.
  - apply IH. cbn [length] in *. rewrite length_drop. simpl. lia.
  - apply IH. apply write_interrupted in E3. lia.
Qed.

Lemma read_ends fuel payload deadline w :
  length payload <= MAX_LEGACY_RESPONSE_BYTES ->
  MAX_LEGACY_RESPONSE_BYTES - length payload + unix_interruptions w < fuel ->
  returns (read_one_bounded_reply fuel payload deadline w).
Proof.
  revert payload w. induction fuel as [|fuel IH]; intros payload w Hm Hf; [lia|].
  cbn [read_one_bounded_reply].
  destruct (remaining_before deadline w) as [[t|e] w1] eqn:E1;
    apply remaining_kept in E1 as ((_ & Hi1 & _) & _); [|apply returned].
  unfold mapped. destruct (unix_set_read_timeout t w1) as [[u|e] w2] eqn:E2; cbn [map_err];
    [|apply returned].
  assert (calm w1 w2) as (_ & Hi2 & _) by by eapply kept_calm, quiet_kept, quiet_read_timeout.
  destruct (unix_read 1024 w2) as [r3 w3] eqn:E3.
  assert (calm w2 w3) as (_ & Hi3 & _) by by eapply kept_calm, quiet_kept, quiet_read.
  destruct r3 as [[|c chunk]|[]]; try apply returned.
  - destruct (split_once LF _) as [[line rest]|].
    + destruct (_ <? _)%nat; [apply returned|]. destruct (existsb _ rest); apply returned.
    + destruct (_ <? _)%nat eqn:G; [apply returned|]. apply Nat.ltb_ge in G. cbn [length] in G.
      apply IH; rewrite length_app; cbn [length]; lia.
  - apply read_interrupted in E3. apply IH; lia.
Qed.

(** Enough turns: one per retry of a full backlog, one per byte of the longest
    reply, and the interruptions. *)
Definition legacy_fuel (b : LegacyV04PairBackend W) : nat :=
  Z.to_nat (timeout b / BACKLOG_RETRY_DELAY) + MAX_LEGACY_RESPONSE_BYTES + 16 +
  unix_interruptions (kernel b).

Lemma command_length command : length (LegacyCommand.wire_line command) <= 9.
Proof. by destruct command; apply Nat.leb_le. Qed.

Lemma connect_trusted_ends fuel path deadline w k :
  (deadline - unix_clock w <= BACKLOG_RETRY_DELAY * Z.of_nat k)%Z ->
  S (k + unix_interruptions w) < fuel -> returns (connect_trusted_until fuel path deadline w).
Proof.
  intros Hk Hf. unfold connect_trusted_until.
  destruct (socket_address path) as [[a n]|e]; [|apply returned].
  destruct (inspect_socket_path path w) as [[u|e] w1] eqn:E1;
    apply inspect_kept in E1 as ((_ & Hi1 & Hc1) & _); [|apply returned].
  destruct (unix_socket w1) as [[u2|e] w2] eqn:E2; cbn [mapped_raw map_err]; [|apply returned].
  assert (calm w1 w2) as (_ & Hi2 & Hc2) by by eapply call_calm, call_socket.
  destruct (connect_ends fuel a n deadline w2 k) as [[[u3|e] w3] ->]; [lia..| |apply returned].
  destruct (set_blocking w3) as [[u4|e] w4]; [|apply returned].
  destruct (verify_peer_effective_uid w4) as [[u5|e] w5]; apply returned.
Qed.

Section Enough.
Context (command : LegacyCommand.t) (b : LegacyV04PairBackend W).
Hypothesis Htimeout : (0 <= timeout b)%Z.
#[local] Abbreviation fuel := (legacy_fuel b).

(** The connection that a call starts with. *)
Lemma connected_ends now w1 :
  unix_now (kernel b) = (now, w1) ->
  returns (connect_trusted_until fuel (socket_path b) (now + timeout b) w1) /\
  unix_interruptions w1 <= unix_interruptions (kernel b).
Proof.
  intros E. assert (calm (kernel b) w1) as (_ & Hi & _) by by eapply kept_calm, quiet_kept, quiet_now.
  split; [|done]. apply now_clock in E as ->.
  apply (connect_trusted_ends _ _ _ _ (S (Z.to_nat (timeout b / BACKLOG_RETRY_DELAY)))).
  - assert (0 < BACKLOG_RETRY_DELAY)%Z as HD by by vm_compute.
    pose proof (Z.div_mod (timeout b) BACKLOG_RETRY_DELAY ltac:(lia)).
    pose proof (Z.mod_pos_bound (timeout b) BACKLOG_RETRY_DELAY HD).
    assert (0 <= timeout b / BACKLOG_RETRY_DELAY)%Z by (apply Z.div_pos; lia). nia.
  - unfold legacy_fuel. lia.
Qed.

Lemma sent_ends deadline w :
  unix_interruptions w <= unix_interruptions (kernel b) ->
  returns (write_all_until fuel (LegacyCommand.wire_line command) deadline w).
Proof.
  intros Hi. apply write_ends. pose proof (command_length command). unfold legacy_fuel. lia.
Qed.

Lemma answered_ends deadline w :
  unix_interruptions w <= unix_interruptions (kernel b) ->
  returns (read_one_bounded_reply fuel [] deadline w).
Proof. intros Hi. apply read_ends; unfold legacy_fuel; cbn [length]; lia. Qed.

Lemma legacy_action_ends : returns (legacy_action fuel command b).
Proof.
  unfold legacy_action. destruct (unix_now (kernel b)) as [now w1] eqn:E1.
  destruct (checked_add _ _ _) as [deadline|] eqn:Ea; [|apply returned].
  unfold checked_add in Ea. case_match; [|done]. injection Ea as <-.
  destruct (connected_ends _ _ E1) as [[[[u|e] w2] E2] Hi1]; rewrite E2; [|apply returned].
  apply connect_trusted_spec in E2 as [(_ & Hi2 & _) [Ho2 _]].
  assert (returns (exchange_action fuel command (now + timeout b) w2)) as [[r w'] ->];
    [|apply returned].
  unfold exchange_action.
  destruct (sent_ends (now + timeout b) w2) as [[[u3|e] w3] E3]; [lia|rewrite E3..]; [|apply returned].
  destruct (write_all_spec _ _ _ _ _ _ _ _ _ E3 Ho2) as [(_ & Hi3 & _) _]. destruct (shutdown_write w3) as [[u4|e] w4] eqn:E4; [|apply returned].
  assert (calm w3 w4) as (_ & Hi4 & _) by by eapply kept_calm, quiet_kept, quiet_shutdown.
  destruct (answered_ends (now + timeout b) w4) as [[[payload|e] w5] ->]; [lia|apply returned..].
Qed.

Lemma legacy_request_ends : returns (legacy_request fuel command b).
Proof.
  unfold legacy_request. destruct (unix_now (kernel b)) as [now w1] eqn:E1.
  destruct (checked_add _ _ _) as [deadline|] eqn:Ea; [|apply returned].
  unfold checked_add in Ea. case_match; [|done]. injection Ea as <-.
  destruct (connected_ends _ _ E1) as [[[[u|e] w2] E2] Hi1]; rewrite E2; [|apply returned].
  apply connect_trusted_spec in E2 as [(_ & Hi2 & _) [Ho2 _]].
  destruct (sent_ends (now + timeout b) w2) as [[[u3|e] w3] E3]; [lia|rewrite E3..]; [|apply returned].
  destruct (write_all_spec _ _ _ _ _ _ _ _ _ E3 Ho2) as [(_ & Hi3 & _) _]. unfold mapped.
  destruct (shutdown_write w3) as [[u4|e] w4] eqn:E4; cbn [map_err]; [|apply returned].
  assert (calm w3 w4) as (_ & Hi4 & _) by by eapply kept_calm, quiet_kept, quiet_shutdown.
  destruct (answered_ends (now + timeout b) w4) as [[[payload|e] w5] ->]; [lia|apply returned..].
Qed.
End Enough.
End Ends.

(** * The backend behind the trait *)

Section Instance.
Context {W : Type} `{UnixSocketsLaws W} `{LegacyJson}.
#[local] Abbreviation backend := (LegacyV04PairBackend W).

(** A call with enough fuel; the fallback is never taken ([legacy_call_ends]). *)
Definition completed {T} (b : backend) (fallback : T) (call : option (T * W)) : T * backend :=
  match call with
  | Some (r, w) => (r, mkLegacyBackend (socket_path b) (timeout b) w)
  | None => (fallback, b)
  end.

Definition legacy_call (command : LegacyCommand.t) (b : backend) : PairActionResult.t * backend :=
  completed b (outcome_unknown PairBackendError.Unavailable None)
    (legacy_action (legacy_fuel b) command b).

Definition legacy_health_call (b : backend) : result PairHealth PairBackendError.t * backend :=
  completed b (Err PairBackendError.Unavailable) (legacy_health (legacy_fuel b) b).

Definition legacy_kind (b : backend) : PairBackendKind.t := PairBackendKind.LegacyV04WholePair.

#[export] Instance Legacy_backend : PairBackend backend := {
  backend_kind := legacy_kind;
  backend_health := legacy_health_call;
  backend_start := legacy_call LegacyCommand.Start;
  backend_stop := legacy_call LegacyCommand.Stop;
  backend_shutdown := legacy_call LegacyCommand.Shutdown;
  backend_recover_stop := recover_stop_default legacy_kind;
  backend_teardown_transport := teardown_transport_default;
}.

(** A socket on which more than a part of the status command was written. *)
Definition role_socket (s : Z * bytes) : bool :=
  negb (bool_decide (snd s `prefix_of` LegacyCommand.wire_line LegacyCommand.Status)).
Definition legacy_role_writes (b : backend) : nat :=
  length (List.filter role_socket (sockets (kernel b))).

Lemma silent_sockets (b b' : backend) sent :
  sockets (kernel b') = sockets (kernel b) ++ sent ->
  (forall s, s ∈ sent -> snd s `prefix_of` LegacyCommand.wire_line LegacyCommand.Status) ->
  legacy_role_writes b' = legacy_role_writes b.
Proof.
  intros Hs Hp. unfold legacy_role_writes. rewrite Hs, List.filter_app, length_app.
  assert (List.filter role_socket sent = []) as ->; [|simpl; lia].
  clear Hs. induction sent as [|s sent IH]; [done|]. cbn [List.filter]. unfold role_socket at 1.
  rewrite bool_decide_eq_true_2 by (apply Hp; constructor). cbn [negb]. apply IH.
  intros t Ht. apply Hp. by constructor.
Qed.

Lemma legacy_call_rejected command (b b' : backend) f :
  legacy_call command b = (PairActionResult.RejectedBeforeSend f, b') ->
  legacy_role_writes b' = legacy_role_writes b.
Proof.
  unfold legacy_call, completed. destruct (legacy_action _ _ b) as [[r w']|] eqn:E; [|done].
  intros [= -> <-]. apply legacy_action_spec in E as (_ & _ & sent & Hs & _ & Hsent).
  apply (silent_sockets b (mkLegacyBackend _ _ w') sent); [done|].
  intros s Hin. destruct Hsent as [->|[u ->]]; [by apply elem_of_nil in Hin|].
  apply list_elem_of_singleton in Hin as ->. apply prefix_nil.
Qed.

Lemma legacy_health_inv (b : backend) r w' :
  legacy_health (legacy_fuel b) b = Some (r, w') ->
  exists r0, legacy_request (legacy_fuel b) LegacyCommand.Status b = Some (r0, w').
Proof.
  unfold legacy_health. destruct (legacy_request _ _ b) as [[[p|e] w]|]; [..|done];
    intros [= <- <-]; eauto.
Qed.

Lemma legacy_health_silent (b b' : backend) r :
  legacy_health_call b = (r, b') -> legacy_role_writes b' = legacy_role_writes b.
Proof.
  unfold legacy_health_call, completed. destruct (legacy_health _ b) as [[r0 w']|] eqn:E;
    [|by intros [= _ <-]].
  intros [= _ <-]. apply legacy_health_inv in E as [r1 E].
  apply legacy_request_spec in E as (_ & _ & sent & Hs & Hsent).
  apply (silent_sockets b (mkLegacyBackend _ _ w') sent); [done|]. intros s Hin.
  destruct Hsent as [->|[[u ->]|(part & -> & Hp)]]; [by apply elem_of_nil in Hin|..];
    apply list_elem_of_singleton in Hin as ->; [apply prefix_nil|done].
Qed.

#[export] Instance Legacy_laws : PairBackendLaws backend.
Proof.
  refine {| role_writes := legacy_role_writes |}; cbn;
    eauto using legacy_call_rejected, legacy_health_silent.
  - by intros b f b' [= _ <-].
  - by intros b r b' [= _ <-].
Defined.

(** It names no route, so the client accepts every health it reports. *)
#[export] Instance Legacy_sound_health : SoundHealth backend.
Proof.
  refine {| health_ok _ := True |}; [|done]. intros b h b' _. cbn.
  unfold legacy_health_call, completed, legacy_health.
  destruct (legacy_request _ _ b) as [[[p|e] w]|]; [|done..]. by intros [= <- _].
Defined.

(** C25 The socket backend classifies every action by what it put on a socket.
    An action that is reported as rejected wrote no byte; one whose outcome is
    unknown wrote at most its own command line, once, on one socket, to a
    process of the same user; and one that is accepted wrote exactly that line,
    to such a process, and was answered by a reply that reports success in
    exactly the lifecycle the command leads to. The action always returns, and
    gives back the descriptor it opened, whatever happens on the way. *)
Theorem legacy_action_classified command (b : backend) :
  (0 <= timeout b)%Z ->
  exists r w', legacy_action (legacy_fuel b) command b = Some (r, w') /\
    descriptors w' = descriptors (kernel b) /\
    exists sent, sockets w' = sockets (kernel b) ++ sent /\ classified command (kernel b) r sent.
Proof.
  intros Ht. destruct (legacy_action_ends command b Ht) as [[r w'] E]. exists r, w'.
  split; [done|]. by apply legacy_action_spec in E as [_ E].
Qed.

(** The fallback of the trait's methods is not taken. *)
Lemma legacy_call_ends command (b : backend) :
  (0 <= timeout b)%Z ->
  legacy_action (legacy_fuel b) command b =
    Some (let '(r, b') := legacy_call command b in (r, kernel b')) /\
  legacy_health (legacy_fuel b) b =
    Some (let '(r, b') := legacy_health_call b in (r, kernel b')).
Proof.
  intros Ht. unfold legacy_call, legacy_health_call, completed.
  destruct (legacy_action_ends command b Ht) as [[r w'] ->].
  unfold legacy_health. destruct (legacy_request_ends LegacyCommand.Status b Ht) as [[[p|e] w2] ->]; done.
Qed.
End Instance.
