(* ===== verification/Session.v ===== *)
(** A session of the command line with the service: any number of mutations,
    one after the other, over a network that delivers.  It is the same sequence
    of mutations of the controller, and the service that is built satisfies
    what that needs. *)
From stdpp Require Import relations.
From S2P Require Import Prelude Bytes Tcp LocalModel LocalClient Web WebSpec Http HttpSpec ClientSpec.
From S2P Require Import Backend Model Controller ControllerSpec Bluez AuraBluez BluezIo BluezIoSpec.
From S2P Require Import JblGatt BroadcastGena GenaBody GenaHttp BackendNative Gena NativeSpec.
From S2P Require Import JblClient BodySpec JblSpec PrivateFile Tls Service ServiceSpec System.
From S2P Require Import Config Signals Cli Native NativeServiceSpec Journal Loopback.

(** * How far a call moves the revision *)

Section Revisions.
Context {B P J : Type} `{PairBackend B} `{PairConfigurationProbe P} `{UncertaintyJournalLaws J}.
#[local] Abbreviation ctl := (PairController B P J).

Lemma status_revision_step now (c c' : ctl) s :
  Controller.status now c = (s, c') -> wf c ->
  (revision c <= revision c' <= revision c + 1)%Z.
Proof.
  intros (_&_&_&_&_&Hr)%status_spec Hwf. pose proof (wf_revision _ Hwf) as Hb.
  destruct Hr as [[_ ->]|(_ & _ & ->)]; unfold saturating_succ; lia.
Qed.

Lemma mutate_revision_step now action (c c' : ctl) r :
  Controller.mutate now action c = (r, c') -> wf c ->
  (revision c <= revision c' <= revision c + 2)%Z.
Proof.
  intros [_ Hcase]%mutate_spec Hwf. pose proof (wf_revision _ Hwf) as Hb.
  destruct Hcase as [Href|(c1 & raw & attempted & c2 & Hadm & _ & _ & _ & -> & Hv & _)].
  - rewrite (refusal_revision _ _ _ _ Href). unfold saturating_succ. lia.
  - rewrite Hv, (admitted_state _ _ _ Hadm). simpl. unfold saturating_succ. lia.
Qed.
End Revisions.

(** * The two sides of a session *)

(** What the client runs for a mutation of the web boundary. *)
Definition client_call {W} `{TcpStream W} `{LocalLibrary} (fuel : nat) (port : Z) (m : WebMutation.t)
  : W -> option (result LocalActionResult LocalClientError.t * W) :=
  match m with
  | WebMutation.Start => LocalClient.start fuel port
  | WebMutation.Stop => LocalClient.stop fuel port
  | WebMutation.RecoverStop => LocalClient.recover_stop fuel port
  end.

Fixpoint client_session {W} `{TcpStream W} `{LocalLibrary} (fuel : nat) (port : Z)
    (ms : list WebMutation.t) (w : W)
  : option (list (result LocalActionResult LocalClientError.t) * W) :=
  match ms with
  | [] => Some ([], w)
  | m :: ms =>
      '(r, w) ← client_call fuel port m w;
      '(rs, w) ← client_session fuel port ms w;
      Some (r :: rs, w)
  end.

(** The same mutations on the controller, each behind the status read that
    yields its revision. *)
Fixpoint controller_session {B P J K} `{PairBackend B} `{PairConfigurationProbe P}
    `{UncertaintyJournal J} `{Clock K} (ms : list WebMutation.t) (a : ControllerWebActor B P J K)
  : list (ControllerStatus * ControllerActionResult) * ControllerWebActor B P J K :=
  match ms with
  | [] => ([], a)
  | m :: ms =>
      let '(s, a) := on_controller Controller.status a in
      let '(r, a) := on_controller (controller_mutation m) a in
      let '(out, a) := controller_session ms a in
      ((s, r) :: out, a)
  end.

(** The service's parser reads the two bodies that the client sends. *)
Definition reads_client_bodies `{WebLibrary} : Prop :=
  from_slice EMPTY_OBJECT = Some (Value.Object []) /\
  from_slice RECOVER_BODY =
    Some (Value.Object [(str "confirm", Value.String (str "recover-stop"))]).

Section Session.
Context `{WebLibraryLaws, !LocalLibrary} {B P J K : Type}.
Context `{PairBackendLaws B, !SoundHealth B} `{SoundProbe P} `{UncertaintyJournalLaws J} `{Clock K}.
#[local] Abbreviation web_actor := (ControllerWebActor B P J K).
#[local] Abbreviation world := (Loopback web_actor).

Definition exchanged (bodies : ControllerStatus * ControllerActionResult) : Prop :=
  reads_back (Body.Status (status_body (fst bodies))) /\
  reads_back (Body.Action (action_body (snd bodies))).

Lemma controller_step m (a a1 a2 : web_actor) s r sec :
  on_controller Controller.status a = (s, a1) ->
  on_controller (controller_mutation m) a1 = (r, a2) ->
  serving (mkWebApp a sec) ->
  serving (mkWebApp a2 sec) /\
  (revision (controller a) <= revision (controller a1) <= revision (controller a) + 1)%Z /\
  (revision (controller a2) <= revision (controller a) + 3)%Z.
Proof.
  intros Es Em [Hm Hp Hwf Hok]. cbn [actor security] in *.
  apply on_controller_spec in Es as (t1 & Es & _). apply on_controller_spec in Em as (t2 & Em & _).
  rewrite controller_mutation_action in Em.
  pose proof (wf_status _ _ _ _ Es Hwf) as Hwf1. pose proof (wf_mutate _ _ _ _ _ Em Hwf1) as Hwf2.
  pose proof (status_revision_step _ _ _ _ Es Hwf). pose proof (mutate_revision_step _ _ _ _ _ Em Hwf1).
  split; [|lia]. split; [done|done|done|]. cbn [actor].
  eapply reachable_health_ok; [|exact Hok].
  eapply rtc_l; [by eapply step_status|]. apply rtc_once. by eapply step_mutate.
Qed.

Lemma client_call_mutation fuel port m (w : world) :
  reads_client_bodies ->
  exists path rule content,
    mutation_route path = Some (m, rule) /\ body_matches rule content = true /\
    length content <= Web.MAX_BODY_BYTES /\
    client_call fuel port m w =
      mutate_with_body fuel port path (local_action_name (action_of m)) content w.
Proof.
  intros [H1' H2']. assert (length EMPTY_OBJECT <= Web.MAX_BODY_BYTES /\ length RECOVER_BODY <= Web.MAX_BODY_BYTES)
    as [L1 L2] by (split; apply Nat.leb_le; by vm_compute).
  destruct m;
    [exists (str "/api/start"), MutationBody.EmptyObject, EMPTY_OBJECT
    |exists (str "/api/stop"), MutationBody.EmptyObject, EMPTY_OBJECT
    |exists (str "/internal/recover-stop"), MutationBody.RecoverStopConfirmation, RECOVER_BODY];
    (split; [by vm_compute|]); (split; [|by split]); unfold body_matches;
    rewrite ?H1', ?H2'; by vm_compute.
Qed.

Lemma session_drives_controller fuel ms (w : world) :
  serving (hosted w) -> (MAX_RESPONSE_BYTES < Z.of_nat fuel)%Z -> reads_client_bodies ->
  small (page_html (csrf_token (security (hosted w)))) ->
  (revision (controller (actor (hosted w))) + 3 * Z.of_nat (length ms) < u64_max)%Z ->
  Forall exchanged (fst (controller_session ms (actor (hosted w)))) ->
  exists w', hosted w' = mkWebApp (snd (controller_session ms (actor (hosted w)))) (security (hosted w)) /\
    client_session fuel (bind_port (security (hosted w))) ms w =
      Some (map (fun '(_, r) => Ok (local_action_result r))
              (fst (controller_session ms (actor (hosted w)))), w').
Proof.
  intros Hs Hf Hb Hp. revert w Hs Hp. induction ms as [|m ms IH]; intros w Hs Hp Hrev Hex.
  { exists w. by destruct (hosted w). }
  cbn [client_session controller_session length] in *.
  destruct (on_controller Controller.status (actor (hosted w))) as [s a1] eqn:Es.
  destruct (on_controller (controller_mutation m) a1) as [r a2] eqn:Em.
  destruct (controller_session ms a2) as [out a3] eqn:Eo. cbn [fst snd map] in *.
  apply Forall_cons in Hex as [[Hst Hact] Hex].
  assert (serving (mkWebApp (actor (hosted w)) (security (hosted w)))) as Hs0
    by by destruct (hosted w).
  destruct (controller_step _ _ _ _ _ _ _ Es Em Hs0) as (Hs2 & Hr1 & Hr2).
  destruct (client_call_mutation fuel (bind_port (security (hosted w))) m w Hb)
    as (path & rule & content & Hroute & Hmatch & Hlen & ->).
  destruct (client_drives_controller fuel w path m rule content s a1 r a2) as (w1 & Hw1 & ->);
    try done.
  { pose proof (wf_revision _ (sv_wf _ Hs0)). unfold unsaturated. cbn [actor] in *. lia. }
  cbn [mbind option_bind].
  destruct (IH w1) as (w2 & Hw2 & E2); rewrite ?Hw1; cbn [actor security]; rewrite ?Eo; try done; [lia|].
  rewrite Hw1 in Hw2, E2. cbn [actor security] in Hw2, E2. rewrite Eo in Hw2, E2.
  cbn [fst snd] in Hw2, E2. exists w2. split; [done|]. by rewrite E2.
Qed.
End Session.

(** * The service that is built *)

Section Built.
Context {W F O L V D A R BW BS NW K G : Type}.
Context `{!PrivateFs W F, !ProcessEnv W, !OpenSsl W}.
Context `{!AgentFactory (PinnedOpenSslConnector W) A, !Ureq A R, !UreqLaws A R, !JblLibrary}.
Context `{!BluezStack BW BS, !BluezStackLaws BW BS, !BluezDiscovery BW, !BluezDiscoveryLaws BW BS}.
Context `{!GenaNet NW, !GenaLibrary, !RuntimeOs O L, !EqDecision L, !RuntimeOsLaws O L}.
Context `{!JournalRoot V D, !JournalDir D, !JournalRootLaws V D, !JournalDirLaws D}.
Context `{!Clock K, !SignalOs G, !WebLibrary, !WebLibraryLaws, !LocalLibrary}.
#[local] Abbreviation host := (ServiceHost W O V BW NW K G).

(** It is well-formed, and its transport has no bearer to be unsound. *)
Lemma built_serving config (h h' : host) (a : NativeServiceActor (D := D) (BS := BS)) sec :
  build_service config h = (Ok a, h') -> minted sec -> valid_port (bind_port sec) ->
  serving (mkWebApp (web_actor a) sec) /\ revision (controller (web_actor a)) = 0%Z.
Proof.
  unfold build_service. intros E Hm Hp.
  destruct (acquire _ (host_locks h)) as [[lock|e] o]; [|done].
  destruct (build_controller config _) as [[c|e] h1] eqn:Ec; [|done]. simplify_eq.
  pose proof (build_controller_fresh _ _ _ _ Ec) as ([_ _ [Hbearer _] _ _] & _).
  revert Ec. unfold build_controller. cbv zeta.
  destruct (native_pair_backend_new _ _ _ _) as [[p|e] h2]; [|done].
  destruct (probe_new config _) as [[q|e] w3]; [|done].
  destruct (open_default _ _ _) as [[j|e] v4]; [|done]. intros [= <- _].
  split; [|done]. split; [done..|apply wf_init|].
  cbn. intros b Hb. cbn in Hbearer. congruence.
Qed.

(** C9 The command line and the service that is built agree on every session.
    Over a network that delivers, any number of mutations that the client runs
    against the service, as it was built from its configuration, are exactly
    the same mutations of its controller, in order and once each, at the
    revision that the status before it reported; the client reports for each
    the controller's own result, and in the end the service is in the state
    that those mutations lead to. Token, origin, revision, framing and JSON
    checks never stand in the way of the genuine client, at any length of the
    session short of the last revisions of sixty-four bits. *)
Theorem client_session_drives_service config (h h' : host) (a : NativeServiceActor (D := D) (BS := BS))
    sec fuel ms w :
  build_service config h = (Ok a, h') -> minted sec -> valid_port (bind_port sec) ->
  (MAX_RESPONSE_BYTES < Z.of_nat fuel)%Z -> reads_client_bodies ->
  small (page_html (csrf_token sec)) -> (3 * Z.of_nat (length ms) < u64_max)%Z ->
  hosted w = mkWebApp (web_actor a) sec ->
  let '(out, a') := controller_session ms (web_actor a) in
  Forall exchanged out ->
  exists w', hosted w' = mkWebApp a' sec /\
    client_session fuel (bind_port sec) ms w =
      Some (map (fun '(_, r) => Ok (local_action_result r)) out, w').
Proof.
  intros E Hm Hp Hf Hb Hpage Hlen Hw.
  destruct (built_serving config h h' a sec E Hm Hp) as [Hs Hr].
  pose proof (session_drives_controller fuel ms w) as Hd. rewrite Hw in Hd.
  cbn [actor security] in Hd. rewrite Hr in Hd.
  destruct (controller_session ms (web_actor a)) as [out a']. cbn [fst snd] in Hd.
  intros Hex. apply Hd; [done..|lia|done].
Qed.
End Built.
