(* ===== verification/Process.v ===== *)
(** The process of the service (serve of rust/src/main.rs) as one machine: the
    host that the service is built on, the network that the accept loop serves,
    and the signals that arrive between two polls of the flag.  Each interface
    that [Cli.run_service] asks for is answered by the part that owns it. *)
From stdpp Require Import relations.
From S2P Require Import Prelude Bytes Tcp LocalModel LocalClient Web WebSpec Http HttpSpec ClientSpec.
From S2P Require Import Backend Journal Model Controller ControllerSpec Bluez AuraBluez BluezIo BluezIoSpec.
From S2P Require Import JblGatt BroadcastGena GenaBody GenaHttp BackendNative Gena NativeSpec.
From S2P Require Import JblClient BodySpec JblSpec PrivateFile Tls Service ServiceSpec WebServer.
From S2P Require Import WebServerSpec ServerLoop System Config Signals Cli Native NativeServiceSpec.

(** * An actor behind a part of another *)

(** The boundary does not notice that its actor is a part of a larger one, as
    [ControllerWebActor] is of [NativeServiceActor]. *)
Section Delegation.
Context `{WebLibrary} {A1 A2 : Type} `{WebActor A1, WebActor A2}.
Context (get : A2 -> A1) (put : A1 -> A2 -> A2).
Hypothesis put_get : forall a, put (get a) a = a.
Hypothesis get_put : forall x a, get (put x a) = x.
Hypothesis put_put : forall x y a, put x (put y a) = put x a.
Hypothesis status_delegated : forall a,
  actor_status a = let '(s, x) := actor_status (get a) in (s, put x a).
Hypothesis mutate_delegated : forall n m a,
  mutate_if_revision n m a = let '(r, x) := mutate_if_revision n m (get a) in (r, put x a).

Definition inner_app (app : WebApp A2) : WebApp A1 := mkWebApp (get (actor app)) (security app).
Definition outer_app (a : A2) (app : WebApp A1) : WebApp A2 :=
  mkWebApp (put (actor app) a) (security app).

Lemma outer_inner (app : WebApp A2) : outer_app (actor app) (inner_app app) = app.
Proof. destruct app. unfold outer_app. simpl. by rewrite put_get. Qed.

Lemma mutation_delegated request m rule (app : WebApp A2) :
  mutation_response request m rule app =
    let '(resp, x) := mutation_response request m rule (inner_app app) in
    (resp, outer_app (actor app) x).
Proof.
  unfold mutation_response. change (mutation_gate (inner_app app)) with (mutation_gate app).
  destruct (mutation_gate app request rule); [|by rewrite outer_inner].
  rewrite mutate_delegated. cbn [actor inner_app].
  by destruct (mutate_if_revision _ _ (get (actor app))) as [[|] x].
Qed.

Lemma handle_delegated raw (app : WebApp A2) :
  handle raw app =
    let '(resp, x) := handle raw (inner_app app) in (resp, outer_app (actor app) x).
Proof.
  unfold handle. change (security (inner_app app)) with (security app).
  destruct (parse_request raw) as [request|]; [|by rewrite outer_inner].
  destruct (check_authority _ _); [|by rewrite outer_inner].
  unfold route. change (page_response (inner_app app)) with (page_response app).
  destruct (method request); [..|by rewrite outer_inner].
  - destruct (bool_decide _); [by rewrite outer_inner|].
    destruct (bool_decide _); [|destruct (bool_decide _); by rewrite outer_inner].
    rewrite status_delegated. cbn [actor inner_app].
    by destruct (actor_status (get (actor app))) as [s x].
  - rewrite !mutation_delegated. repeat (destruct (bool_decide _); [done|]). by rewrite outer_inner.
Qed.

Lemma inner_outer a (app : WebApp A1) : inner_app (outer_app a app) = app.
Proof. destruct app. unfold inner_app. simpl. by rewrite get_put. Qed.

Lemma handled_delegated requests (app : WebApp A2) :
  handled_all requests app = outer_app (actor app) (handled_all requests (inner_app app)).
Proof.
  revert app. induction requests as [|raw requests IH]; intros app; [by rewrite outer_inner|].
  cbn [handled_all fold_left]. unfold handled_all in IH. rewrite IH, handle_delegated.
  destruct (handle raw (inner_app app)) as [resp x]. cbn [snd]. rewrite inner_outer.
  unfold outer_app. cbn [actor security]. by rewrite put_put.
Qed.
End Delegation.

(** * The machine *)

(** The signals that were delivered to the process when it polls its flag. *)
Class SignalQueue (N : Type) := { signals_before_poll : N -> list Z * N }.

(** [delivered_signals] is the history of them. *)
Record Machine (H N : Type) := mkMachine {
  machine_host : H;
  machine_net : N;
  delivered_signals : list Z;
}.
Arguments mkMachine {H N}.
Arguments machine_host {H N}.
Arguments machine_net {H N}.
Arguments delivered_signals {H N}.

Section Wiring.
Context {W F O L V D A R BW BS NW K G N : Type}.
#[local] Abbreviation host := (ServiceHost W O V BW NW K G).
#[local] Abbreviation machine := (Machine host N).

Definition on_host {T} (call : host -> T * host) (m : machine) : T * machine :=
  let '(r, h) := call (machine_host m) in (r, mkMachine h (machine_net m) (delivered_signals m)).
Definition on_files {T} (call : W -> T * W) : machine -> T * machine :=
  on_host (fun h => let '(r, w) := call (host_files h) in (r, set_files w h)).
Definition on_net {T} (call : N -> T * N) (m : machine) : T * machine :=
  let '(r, n) := call (machine_net m) in (r, mkMachine (machine_host m) n (delivered_signals m)).
Definition set_net (n : N) (m : machine) : machine :=
  mkMachine (machine_host m) n (delivered_signals m).

#[export] Instance Machine_env `{!ProcessEnv W} : ProcessEnv machine := {
  var_os key m := var_os key (host_files (machine_host m));
  current_dir m := current_dir (host_files (machine_host m));
}.
#[export] Instance Machine_files `{!PrivateFs W F} : PrivateFs machine F := {
  openat2 path flags resolve := on_files (openat2 path flags resolve);
  file_metadata file := on_files (file_metadata file);
  effective_uid m := effective_uid (host_files (machine_host m));
  take_read_to_end file limit := on_files (take_read_to_end file limit);
}.
#[export] Instance Machine_tcp `{!TcpStream N} : TcpStream machine := {
  instant_now := on_net instant_now;
  connect_timeout port t := on_net (connect_timeout port t);
  set_write_timeout t := on_net (set_write_timeout t);
  set_read_timeout t := on_net (set_read_timeout t);
  tcp_write p := on_net (tcp_write p);
  tcp_read n := on_net (tcp_read n);
  set_nonblocking b := on_net (set_nonblocking b);
  tcp_peek n := on_net (tcp_peek n);
  shutdown_both m := set_net (shutdown_both (machine_net m)) m;
}.

(** The accept loop polls the flag that the handlers set, not one of the
    network. *)
Definition deliver_all `{!SignalOs G} (signals : list Z) (s : SignalState G) : SignalState G :=
  fold_left after_event (map Event.Signal signals) s.
Definition poll_flag `{!SignalOs G, !SignalQueue N} (m : machine) : bool * machine :=
  let '(signals, n) := signals_before_poll (machine_net m) in
  let s := deliver_all signals (host_signals (machine_host m)) in
  (match SIGNAL_FLAG s with Some flag => flag_set flag s | None => false end,
   mkMachine (set_signals s (machine_host m)) n (delivered_signals m ++ signals)).

#[export] Instance Machine_listener `{!WebListener N, !SignalOs G, !SignalQueue N}
  : WebListener machine := {
  shutdown_requested := poll_flag;
  accept := on_net accept;
  thread_sleep d m := set_net (thread_sleep d (machine_net m)) m;
  stream_local_addr := on_net stream_local_addr;
  stream_peer_addr := on_net stream_peer_addr;
  csrf_random := on_net csrf_random;
  tcp_bind addr := on_net (tcp_bind addr);
  listener_local_addr := on_net listener_local_addr;
  listener_set_nonblocking := on_net listener_set_nonblocking;
}.

Context `{!PrivateFs W F, !ProcessEnv W, !OpenSsl W}.
Context `{!AgentFactory (PinnedOpenSslConnector W) A, !Ureq A R, !JblLibrary}.
Context `{!BluezStack BW BS, !BluezDiscovery BW, !GenaNet NW, !GenaLibrary}.
Context `{!RuntimeOs O L, !JournalRoot V D, !JournalDir D, !Clock K, !SignalOs G}.
#[local] Abbreviation native_actor :=
  (NativeServiceActor (L := L) (D := D) (A := A) (BW := BW) (BS := BS) (NW := NW) (K := K)).

#[export] Instance Machine_runtime : NativeRuntime machine native_actor := {
  build_native_service_actor config := on_host (build_service config);
  install_termination_handlers := on_host install_handlers;
  validate_native_runtime config := on_host (validate_runtime config);
  jbl_lan_client_new config := on_host (jbl_lan_client_new (A := native_actor) config);
}.
End Wiring.

(** * What the parts promise to the machine *)

(** Binding opens no connection, and the token is the thirty-two bytes that were
    asked for. *)
Class MachineNetLaws (N : Type) `{WebListenerLaws N, SignalQueue N} := {
  csrf_connections n r n' : csrf_random n = (r, n') -> connections n' = connections n;
  csrf_length n token n' : csrf_random n = (Ok token, n') -> length token = 32;
  bind_connections a n r n' : tcp_bind a n = (r, n') -> connections n' = connections n;
  listener_addr_connections n r n' :
    listener_local_addr n = (r, n') -> connections n' = connections n;
  listener_nonblocking_connections n r n' :
    listener_set_nonblocking n = (r, n') -> connections n' = connections n;
  signals_connections n s n' : signals_before_poll n = (s, n') -> connections n' = connections n;
}.

Section Laws.
Context {W O V BW NW K G N : Type} `{MachineNetLaws N} `{!SignalOs G, !SignalOsLaws G}.
#[local] Abbreviation machine := (Machine (ServiceHost W O V BW NW K G) N).

Lemma poll_net (m m' : machine) b :
  poll_flag m = (b, m') ->
  exists signals, signals_before_poll (machine_net m) = (signals, machine_net m') /\
    machine_host m' = set_signals (deliver_all signals (host_signals (machine_host m))) (machine_host m) /\
    delivered_signals m' = delivered_signals m ++ signals /\
    let s := host_signals (machine_host m') in
    b = match SIGNAL_FLAG s with Some flag => flag_set flag s | None => false end.
Proof.
  unfold poll_flag. destruct (signals_before_poll _) as [signals n]. intros [= <- <-].
  exists signals. split_and!; try done.
Qed.

#[export] Instance Machine_net_laws : WebListenerLaws machine.
Proof.
  refine {| connections m := connections (machine_net m) |}; intros;
    simpl in *; unfold on_net in *;
    try (match goal with E : (let '(_, _) := ?call in _) = _ |- _ => destruct call eqn:Ec end);
    simplify_eq/=.
  - by eapply accept_connections.
  - by eapply accept_failed_connections.
  - by eapply read_connections.
  - by eapply read_failed_connections.
  - by eapply instant_now_connections.
  - match goal with E : poll_flag _ = _ |- _ => apply poll_net in E as (s & Es & _) end.
    by eapply signals_connections.
  - by eapply read_timeout_connections.
  - by eapply write_timeout_connections.
  - by eapply write_connections.
  - by eapply nonblocking_connections.
  - by eapply peek_connections.
  - apply shutdown_connections.
  - apply sleep_connections.
  - by eapply local_addr_connections.
  - by eapply peer_addr_connections.
Defined.

(** The handlers are in force, and have seen the signals [seen] since. *)
Lemma deliver_in_force flag seen signals (s : SignalState G) :
  in_force flag seen s ->
  in_force flag (seen || existsb is_termination_signal signals) (deliver_all signals s).
Proof.
  revert seen s. unfold deliver_all. induction signals as [|x signals IH]; intros seen s Hs; simpl.
  - by rewrite orb_false_r.
  - rewrite orb_assoc. apply IH. exact (event_in_force _ _ _ (Event.Signal x) Hs).
Qed.

(** A call of the loop leaves the host to itself; only a poll hands the
    signals to the handlers. *)
Definition serving_kept (m m' : machine) : Prop :=
  exists signals, delivered_signals m' = delivered_signals m ++ signals /\
    machine_host m' = set_signals (deliver_all signals (host_signals (machine_host m))) (machine_host m).

Lemma no_signal_kept (m m' : machine) :
  machine_host m' = machine_host m -> delivered_signals m' = delivered_signals m -> serving_kept m m'.
Proof.
  intros Eh Es. exists []. rewrite app_nil_r. split; [done|]. rewrite Eh. by destruct (machine_host m).
Qed.

Lemma on_net_kept {T} (call : N -> T * N) (m m' : machine) r :
  on_net call m = (r, m') -> serving_kept m m'.
Proof. unfold on_net. destruct (call _). intros [= _ <-]. by apply no_signal_kept. Qed.

Lemma call_kept (m m' : machine) : server_call m m' -> serving_kept m m'.
Proof.
  intros [b E|r E|d ->|r E|r E|t E|t r E|t r E|n r E|p r E|b r E|n r E| ->];
    try exact (on_net_kept _ _ _ _ E); try (by apply no_signal_kept).
  apply poll_net in E as (s & _ & Eh & Es & _). by exists s.
Qed.

Lemma calls_kept (m m' : machine) : rtc server_call m m' -> serving_kept m m'.
Proof.
  induction 1 as [m|m m1 m2 (s1 & E1 & Eh1)%call_kept _ (s2 & E2 & Eh2)]; [by apply no_signal_kept|].
  exists (s1 ++ s2). rewrite E2, E1, app_assoc. split; [done|]. rewrite Eh2, Eh1.
  unfold deliver_all. rewrite map_app, fold_left_app. by destruct (machine_host m).
Qed.
End Laws.

(** The operator ends the service at some time: a termination signal comes
    within so many polls. *)
Class SignalDue (N : Type) `{TcpStream N, WebListener N, SignalQueue N} := {
  due : N -> nat;
  due_calls n n' : server_call n n' -> due n' <= due n;
  due_polled n signals n' : signals_before_poll n = (signals, n') ->
    due n' <= due n /\ (existsb is_termination_signal signals = true \/ due n' < due n);
}.

Section Progress.
Context {W O V BW NW K G N : Type}.
Context `{!TcpStream N, !TcpStreamLaws N, !TcpClockLaws N, !WebListener N, !SignalQueue N, !SignalDue N}.
Context `{!SignalOs G, !SignalOsLaws G}.
#[local] Abbreviation machine := (Machine (ServiceHost W O V BW NW K G) N).

Lemma on_net_inv {T} (call : N -> T * N) (m m' : machine) r :
  on_net call m = (r, m') -> call (machine_net m) = (r, machine_net m').
Proof. unfold on_net. destruct (call _). by intros [= -> <-]. Qed.

#[export] Instance Machine_tcp_laws : TcpStreamLaws machine.
Proof.
  refine {| interruptions m := interruptions (machine_net m) |}; intros;
    match goal with E : _ = _ |- _ => apply on_net_inv in E end.
  - by eapply instant_now_calm.
  - by eapply connect_calm.
  - by eapply set_write_timeout_calm.
  - by eapply set_read_timeout_calm.
  - by eapply write_calm.
  - by eapply write_interrupted.
  - by eapply write_fits.
  - by eapply read_calm.
  - by eapply read_interrupted.
  - by eapply read_fits.
Defined.

#[export] Instance Machine_clock_laws : TcpClockLaws machine.
Proof.
  refine {| clock m := clock (machine_net m) |}.
  - intros m t m' E%on_net_inv. by eapply now_clock.
  - intros t m r m' E%on_net_inv. by eapply write_timeout_clock.
  - intros p m r m' E%on_net_inv. by eapply write_clock.
  - intros p m e m' E%on_net_inv. by eapply write_blocked_clock.
Defined.

Lemma call_due (m m' : machine) : server_call m m' -> due (machine_net m') <= due (machine_net m).
Proof.
  intros [b E|r E|d ->|r E|r E|t E|t r E|t r E|n r E|p r E|b r E|n r E| ->];
    try (apply on_net_inv in E; apply due_calls; by eauto with server_call).
  - apply poll_net in E as (s & E & _). by eapply due_polled.
  - apply due_calls. by eauto with server_call.
  - apply due_calls. by eauto with server_call.
Qed.

(** Once the handlers are in force, a termination signal stops the loop. *)
#[export] Instance Machine_stops : StopRequested machine.
Proof.
  refine {| awaited m := exists flag seen, in_force flag seen (host_signals (machine_host m));
            polls m := due (machine_net m) |}.
  - intros m m' E (flag & seen & Hf). split; [|by apply call_due].
    apply call_kept in E as (s & _ & ->). exists flag. eexists. by apply deliver_in_force.
  - intros m m' (s & E & Eh & _ & Hb)%poll_net (flag & seen & Hf).
    apply due_polled in E as [_ [Ht|?]]; [|done]. rewrite Eh in Hb. cbn in Hb.
    apply (deliver_in_force _ _ s) in Hf as [Hstatic _ Hflag].
    rewrite Hstatic in Hb. unfold flag_set in Hb. by rewrite Hflag, Ht, orb_true_r in Hb.
Defined.
End Progress.
