(* ===== verification/ProcessSpec.v ===== *)
(** What a run of the service process is, from its configuration to its exit:
    nothing before it owns the pair, then the complete requests in order, then
    the exit; it ends when it is asked to; and a pending record binds it. *)
From stdpp Require Import relations.
From S2P Require Import Prelude Bytes Tcp LocalModel LocalClient Web WebSpec Http HttpSpec ClientSpec.
From S2P Require Import Backend Journal Model Controller ControllerSpec Bluez AuraBluez BluezIo BluezIoSpec.
From S2P Require Import JblGatt BroadcastGena GenaBody GenaHttp BackendNative Gena NativeSpec.
From S2P Require Import JblClient BodySpec JblSpec PrivateFile Tls Service ServiceSpec WebServer.
From S2P Require Import WebServerSpec ServerLoop System Config Signals Cli Native NativeServiceSpec Process.

(** * The configuration *)

Section Load.
Context {W F O V BW NW K G N : Type} `{!ProcessEnv W, !PrivateFs W F}.
#[local] Abbreviation machine := (Machine (ServiceHost W O V BW NW K G) N).

(** Reads of the machine that are reads of its files. *)
Definition files_only {T} (outer : machine -> T * machine) (inner : W -> T * W) : Prop :=
  forall m, outer m = on_files inner m.

Lemma open_private_files path : files_only (open_private path) (open_private path).
Proof.
  intros m. unfold open_private, on_files, on_host. cbn [openat2 Machine_files].
  destruct (contains_byte _ path); [by destruct m as [[]]|]. unfold on_files, on_host.
  by destruct (openat2 _ _ _ (host_files (machine_host m))) as [[f|e] w].
Qed.

Lemma read_files path max kind :
  files_only (read_private_file_if_present path max kind) (read_private_file_if_present path max kind).
Proof.
  intros m. unfold read_private_file_if_present. rewrite open_private_files.
  unfold on_files, on_host.
  destruct (open_private path (host_files (machine_host m))) as [[f|[]] w]; try done.
  unfold validate_metadata. cbn [file_metadata Machine_files]. unfold on_files, on_host.
  cbn [machine_host host_files set_files].
  destruct (file_metadata f w) as [[d|e] w1]; [|done].
  cbn [effective_uid Machine_files machine_host host_files set_files machine_net delivered_signals].
  repeat (match goal with |- context [if ?b then Err _ else _] => destruct b; [done|] end).
  destruct (checked_add _ _ _); [|done]. cbn [take_read_to_end Machine_files].
  unfold on_files, on_host. cbn [machine_host host_files set_files].
  destruct (take_read_to_end f _ w1) as [[p|e] w2]; [|done]. by destruct (_ <? _)%Z.
Qed.

Lemma config_values_files source :
  files_only (config_values (H := F) source) (config_values (H := F) source).
Proof.
  intros m. unfold config_values, read_private_file. destruct source as [path|path|].
  - rewrite read_files. unfold on_files, on_host.
    destruct (read_private_file_if_present path _ _ (host_files (machine_host m))) as [[[p|]|e] w];
      try done; simpl; repeat case_match; by simplify_eq.
  - rewrite read_files. unfold on_files, on_host.
    destruct (read_private_file_if_present path _ _ (host_files (machine_host m))) as [[[p|]|e] w];
      try done; simpl; repeat case_match; by simplify_eq.
  - by destruct m as [[]].
Qed.

Lemma overrides_files (m : machine) :
  environment_overrides m = environment_overrides (host_files (machine_host m)).
Proof.
  unfold environment_overrides. generalize ALLOWED_KEYS, (∅ : settings).
  intros keys. induction keys as [|key keys IH]; intros values; [done|].
  cbn [overrides_from var_os Machine_env]. destruct (var_os key _); [|apply IH].
  destruct (utf8_valid _); [apply IH|done].
Qed.

Lemma load_files path : files_only (load (H := F) path) (load (H := F) path).
Proof.
  intros m. unfold load.
  change (automatic_config_path m) with (automatic_config_path (host_files (machine_host m))).
  rewrite overrides_files.
  cbn [var_os Machine_env]. unfold on_files, on_host.
  destruct (environment_overrides _) as [overrides|e]; [|by destruct m as [[]]].
  unfold load_from_source. rewrite config_values_files. unfold on_files, on_host.
  by destruct (config_values _ (host_files (machine_host m))) as [[values|e] w].
Qed.
End Load.

(** * Building and binding *)

Section Start.
Context {W F O L V D A R BW BS NW K G N : Type}.
Context `{!PrivateFs W F, !ProcessEnv W, !OpenSsl W}.
Context `{!AgentFactory (PinnedOpenSslConnector W) A, !Ureq A R, !UreqLaws A R, !JblLibrary}.
Context `{!BluezStack BW BS, !BluezStackLaws BW BS, !BluezDiscovery BW, !BluezDiscoveryLaws BW BS}.
Context `{!GenaNet NW, !GenaLibrary, !RuntimeOs O L, !EqDecision L, !RuntimeOsLaws O L}.
Context `{!JournalRoot V D, !JournalDir D, !JournalRootLaws V D, !JournalDirLaws D}.
Context `{!Clock K, !SignalOs G, !SignalOsLaws G, !WebLibrary, !WebLibraryLaws}.
Context `{!TcpStream N, !WebListener N, !WebListenerLaws N, !SignalQueue N, !MachineNetLaws N}.
#[local] Abbreviation host := (ServiceHost W O V BW NW K G).
#[local] Abbreviation machine := (Machine host N).
#[local] Abbreviation native_actor :=
  (NativeServiceActor (L := L) (D := D) (A := A) (BW := BW) (BS := BS) (NW := NW) (K := K)).

(** No connection was accepted and no packet handed to the Bluetooth stacks. *)
Record quiet_since (m m' : machine) : Prop := {
  qs_connections : connections (machine_net m') = connections (machine_net m);
  qs_aura : sent (aura_stack (machine_host m')) = sent (aura_stack (machine_host m));
  qs_gatt : sent (gatt_stack (machine_host m')) = sent (gatt_stack (machine_host m));
}.

Lemma quiet_trans m1 m2 m3 : quiet_since m1 m2 -> quiet_since m2 m3 -> quiet_since m1 m3.
Proof. intros [] []. split; congruence. Qed.

Lemma backend_new_signals config aura_config delay (h h' : host)
    (r : result (native_pair A NW BW BS) _) :
  native_pair_backend_new config aura_config delay h = (r, h') -> host_signals h' = host_signals h.
Proof.
  unfold native_pair_backend_new. intros E.
  repeat match type of E with
  | context [match ?x with _ => _ end] => destruct x; try by simplify_eq/=
  end.
Qed.

Lemma build_controller_signals config (h h' : host) r :
  build_controller (D := D) (A := A) (BS := BS) config h = (r, h') ->
  host_signals h' = host_signals h.
Proof.
  unfold build_controller. cbv zeta.
  destruct (native_pair_backend_new _ _ _ h) as [[p|e] h1] eqn:E1;
    apply backend_new_signals in E1; [|by intros [= <- <-]].
  destruct (probe_new config _) as [[q|e] w2]; [|by intros [= <- <-]].
  by destruct (open_default _ _ _) as [[j|e] v3]; intros [= <- <-].
Qed.

Lemma build_service_parts config (h h' : host) (r : result native_actor _) :
  build_service config h = (r, h') ->
  sent (aura_stack h') = sent (aura_stack h) /\ sent (gatt_stack h') = sent (gatt_stack h) /\
  host_signals h' = host_signals h /\
  match r with
  | Ok a =>
      opened (host_locks h') (operation_file (process_lock a)) = Some true /\
      opened (host_locks h') (session_file (process_lock a)) = Some true /\
      fresh_pair config h (ctl_backend (controller (web_actor a))) /\
      opened_from h (ctl_journal (controller (web_actor a))) /\
      wf (controller (web_actor a)) /\
      unresolved_action (controller (web_actor a)) = is_pending (ctl_journal (controller (web_actor a)))
  | Err _ => True
  end.
Proof.
  unfold build_service. destruct (acquire _ (host_locks h)) as [[lock|e] o] eqn:Ea;
    [|by intros [= <- <-]].
  destruct (build_controller config (set_locks o h)) as [[c|e] h1] eqn:E;
    pose proof (build_controller_signals _ _ _ _ E) as Hs;
    pose proof (build_controller_silent _ _ _ _ E) as (Hl & Ha & Hg);
    simpl in Hs, Hl, Ha, Hg; intros [= <- <-]; split_and!; try done; cbn [web_actor process_lock].
  - rewrite Hl. by destruct (process_lock_all_or_nothing _ _ _ _ Ea) as (_ & Ho & _).
  - rewrite Hl. by destruct (process_lock_all_or_nothing _ _ _ _ Ea) as (_ & _ & Ho & _).
  - apply build_controller_fresh in E as ([] & _ & _). by split.
  - by apply build_controller_fresh in E as (_ & Ho & _).
  - revert E. unfold build_controller. cbv zeta.
    destruct (native_pair_backend_new _ _ _ _) as [[p|e] h2]; [|done].
    destruct (probe_new config _) as [[q|e] w3]; [|done].
    destruct (open_default _ _ _) as [[j|e] v4]; [|done]. intros [= <- _]. apply wf_init.
  - by apply build_controller_fresh in E as (_ & _ & Hu).
Qed.

(** A part of the start that leaves the host alone. *)
Definition net_only (m m' : machine) : Prop :=
  quiet_since m m' /\ machine_host m' = machine_host m /\ delivered_signals m' = delivered_signals m.

Lemma net_only_trans m1 m2 m3 : net_only m1 m2 -> net_only m2 m3 -> net_only m1 m3.
Proof. intros (?&?&?) (?&?&?). split_and!; [by eapply quiet_trans|congruence..]. Qed.

Lemma on_net_only {T} (call : N -> T * N) (m m' : machine) r :
  on_net call m = (r, m') ->
  (forall n r n', call n = (r, n') -> connections n' = connections n) -> net_only m m'.
Proof.
  unfold on_net. destruct (call (machine_net m)) as [x n] eqn:E. intros [= _ <-] Hc.
  split_and!; [split; cbn [machine_net machine_host]; [by eapply Hc|done..]|done..].
Qed.

Lemma bind_on_machine (a : native_actor) addr (m m' : machine) r :
  bind a addr m = (r, m') ->
  net_only m m' /\
  forall s, r = Ok s -> minted (security (app s)) /\ bind_port (security (app s)) = snd addr /\
    actor (app s) = a.
Proof.
  unfold bind, bind_with_options.
  assert (Herr : forall e (m1 : machine), net_only m m1 ->
    net_only m m1 /\ forall s, (Err e : result (WebServer native_actor) WebServerError.t) = Ok s ->
      minted (security (app s)) /\ bind_port (security (app s)) = snd addr /\ actor (app s) = a)
    by done.
  assert (net_only m m) as Q0 by (split_and!; [by split|done..]).
  destruct (negb _); [intros [= <- <-]; by apply Herr|]. cbn [csrf_random Machine_listener].
  destruct (on_net csrf_random m) as [[token|e] m1] eqn:E1;
    pose proof (on_net_only _ _ _ _ E1 csrf_connections) as Q1; [|intros [= <- <-]; by apply Herr].
  destruct (web_security_new _ _ token) as [sec|e] eqn:Es; [|intros [= <- <-]; by apply Herr].
  cbn [tcp_bind Machine_listener].
  destruct (on_net (tcp_bind _) m1) as [[[]|e] m2] eqn:E2;
    pose proof (net_only_trans _ _ _ Q1 (on_net_only _ _ _ _ E2 (bind_connections _))) as Q2;
    [|intros [= <- <-]; by apply Herr].
  cbn [listener_local_addr Machine_listener].
  destruct (on_net listener_local_addr m2) as [[local|e] m3] eqn:E3;
    pose proof (net_only_trans _ _ _ Q2 (on_net_only _ _ _ _ E3 listener_addr_connections)) as Q3;
    [|intros [= <- <-]; by apply Herr].
  destruct (_ || _); [intros [= <- <-]; by apply Herr|].
  cbn [listener_set_nonblocking Machine_listener].
  destruct (on_net listener_set_nonblocking m3) as [[[]|e] m4] eqn:E4;
    pose proof (net_only_trans _ _ _ Q3 (on_net_only _ _ _ _ E4 listener_nonblocking_connections)) as Q4;
    [|intros [= <- <-]; by apply Herr].
  intros [= <- <-]. split; [done|]. intros s [= <-]. cbn [app security actor].
  split_and!; [|unfold web_security_new in Es; repeat case_match; by simplify_eq|done].
  exists (fst addr), (snd addr), token. split; [|done]. apply on_net_inv in E1. by eapply csrf_length.
Qed.

(** * From the first call to the exit *)

#[local] Abbreviation run := (run_service (F := F) (A := native_actor) (W := machine)).
#[local] Abbreviation web := (ControllerWebActor (native_pair A NW BW BS)
  (JblPairConfigurationProbe A) (FileUncertaintyJournal D) K).

(** The process reports a failure before it accepted a connection and before
    anything was handed to the Bluetooth stacks. *)
Definition failed_first (m m' : machine) (r : result unit CliError.t) : Prop :=
  is_err r = true /\ quiet_since m m'.

(** What a process that served was: the actor that its configuration builds, the
    complete requests among the bytes of its connections, one after the other,
    and the exit, with what the listener ended with. *)
Record process_run (path : option bytes) (m m' : machine) (r : result unit CliError.t)
    (a last : native_actor) (requests : list bytes) (listener : option WebServerError.t) : Prop := {
  pr_built : exists config w h,
    load path (host_files (machine_host m)) = (Ok config, w) /\
    build_service config (set_files w (machine_host m)) = (Ok a, h);
  pr_requests : exists opened,
    connections (machine_net m') = connections (machine_net m) ++ opened /\
    requests `sublist_of` opened /\
    Forall (fun raw => request_frame raw = RequestFrame.Complete) requests;
  pr_exit : exists sec, minted sec /\ bind_port sec = DEFAULT_WEB_PORT /\
    finish_service (actor (handled_all requests (mkWebApp a sec))) listener = (r, last);
  pr_listener : listener = None \/ listener = Some WebServerError.AcceptFailed;
}.

(** The process stopped serving because it was asked to. *)
Definition asked_to_stop (m m' : machine) : Prop :=
  exists signals, delivered_signals m' = delivered_signals m ++ signals /\
    existsb is_termination_signal signals = true.

Definition owns_pair (m : machine) (a : native_actor) : Prop :=
  opened (host_locks (machine_host m)) (operation_file (process_lock a)) = Some true /\
  opened (host_locks (machine_host m)) (session_file (process_lock a)) = Some true.

Definition unhandled (m : machine) : Prop :=
  forall signal, handled signal (dispositions (host_signals (machine_host m))) = false.

Lemma serve_on_machine fuel (s : WebServer native_actor) flag (m m' : machine) r :
  serve fuel s m = Some (r, m') -> in_force flag false (host_signals (machine_host m)) ->
  host_locks (machine_host m') = host_locks (machine_host m) /\
  (is_ok r = true -> asked_to_stop m m').
Proof.
  intros (m1 & Hc & Hr)%serve_calls Hf.
  assert (serving_kept m m') as (signals & Es & Eh).
  { apply calls_kept. etrans; [exact Hc|]. destruct r as [a|[e a]].
    - apply rtc_once. by eapply call_poll.
    - by destruct Hr as [_ ->]. }
  split; [by rewrite Eh|]. destruct r as [a|]; [intros _|done].
  exists signals. split; [done|]. apply poll_net in Hr as (s1 & _ & _ & _ & Hb).
  rewrite Eh in Hb. cbn [host_signals set_signals] in Hb.
  apply (deliver_in_force _ _ signals) in Hf as [Hstatic _ Hflag].
  rewrite Hstatic in Hb. unfold flag_set in Hb. by rewrite Hflag in Hb.
Qed.

Lemma run_service_spec fuel path (m m' : machine) r :
  run fuel path m = Some (r, m') -> unhandled m ->
  failed_first m m' r \/
  exists a last requests listener,
    process_run path m m' r a last requests listener /\ owns_pair m' a /\
    (listener = None -> asked_to_stop m m').
Proof.
  unfold run_service, lifted. rewrite load_files. unfold on_files, on_host. intros E Hn.
  destruct (load path (host_files (machine_host m))) as [[config|e] w] eqn:El;
    [|simplify_eq/=; left; by repeat split].
  cbn [build_native_service_actor Machine_runtime map_err] in E.
  unfold on_host in E. cbn [machine_host machine_net delivered_signals] in E.
  destruct (build_service config _) as [r1 h] eqn:Eb.
  destruct (build_service_parts _ _ _ _ Eb) as (Ha & Hg & Hs & Hparts). cbn in Ha, Hg, Hs.
  destruct r1 as [a|e]; [|simplify_eq/=; left; by repeat split]. cbn [map_err] in E.
  cbn [install_termination_handlers Machine_runtime] in E. unfold on_host, install_handlers in E.
  cbn [machine_host machine_net delivered_signals] in E.
  destruct (Signals.install_termination_handlers (host_signals h)) as [[flag|e] g] eqn:Ei;
    [|simplify_eq/=; left; by repeat split]. cbn [map_ok map_err] in E.
  apply install_in_force in Ei; [|by rewrite Hs].
  destruct (bind a _ _) as [[server|e] m2] eqn:Ebd; pose proof (bind_on_machine _ _ _ _ _ Ebd)
    as (([Qc Qa Qg] & Hh2 & Hd2) & Hserver); cbn in Qc, Qa, Qg, Hh2, Hd2;
    [|simplify_eq/=; left; split; [done|]; split; congruence].
  cbn [map_err] in E. destruct (Hserver _ eq_refl) as (Hmint & Hport & Hactor).
  destruct (serve fuel server m2) as [[out m3]|] eqn:Esv; [|done]. right.
  destruct (serve_on_machine _ _ flag _ _ _ Esv) as [Hlocks Hstop]; [by rewrite Hh2|].
  destruct (server_runs_complete_requests _ _ _ _ _ Esv) as (opened & requests & Hc & Hsub & Hall & Hout & _).
  change (connections (machine_net m3) = connections (machine_net m2) ++ opened) in Hc.
  assert (app server = mkWebApp a (security (app server))) as Happ
    by (rewrite <- Hactor; by destruct (app server)).
  assert (Hrun : forall listener last, finish_service (actor (handled_all requests (app server))) listener = (r, last) ->
    listener = None \/ listener = Some WebServerError.AcceptFailed ->
    process_run path m m3 r a last requests listener).
  { intros listener last Ef Hl. split; [by eauto| | |done].
    - exists opened. by rewrite Hc, Qc.
    - exists (security (app server)). by rewrite <- Happ. }
  assert (owns_pair m3 a) as Hown.
  { unfold owns_pair. rewrite Hlocks, Hh2. cbn. split; apply Hparts. }
  destruct Hout as [-> | ->]; injection E as E <-.
  - eexists a, _, requests, None. split_and!; [apply Hrun; [|by left]|done|].
    + rewrite <- E. apply surjective_pairing.
    + intros _. destruct (Hstop eq_refl) as (signals & Es & Ht). exists signals. by rewrite <- Hd2.
  - eexists a, _, requests, (Some WebServerError.AcceptFailed).
    split_and!; [apply Hrun; [|by right]|done|done]. rewrite <- E. apply surjective_pairing.
Qed.

(** ** The actor that is handed back *)

Lemma handled_native requests (a : native_actor) sec :
  handled_all requests (mkWebApp a sec) =
    let app := handled_all requests (mkWebApp (web_actor a) sec) in
    mkWebApp (mkNativeServiceActor (actor app) (process_lock a)) (security app).
Proof.
  apply (handled_delegated (A1 := web) web_actor (fun x a => mkNativeServiceActor x (process_lock a)));
    by try intros []; try intros ? []; try intros ? ? [].
Qed.

Lemma handled_wf requests (app : WebApp web) :
  wf (controller (actor app)) -> wf (controller (actor (handled_all requests app))).
Proof.
  revert app. induction requests as [|raw requests IH]; intros app Hw; [done|]. apply IH.
  destruct (handle raw app) as [resp app'] eqn:E. cbn [snd].
  apply handle_dispatched in E as [_ [->|request s _ _ _ E|request mu n r _ _ E]]; [done|..].
  - exact (proj1 (actor_status_ok (A := web) _ _ _ E Hw)).
  - exact (proj1 (actor_mutate_ok (A := web) _ _ _ _ _ E Hw)).
Qed.

(** The exit of a run, on the actor of the controller. *)
Lemma process_exit path (m m' : machine) r a last requests listener :
  process_run path m m' r a last requests listener ->
  exists sec e, let b := actor (handled_all requests (mkWebApp (web_actor a) sec)) in
    wf (controller b) /\ shutdown_for_exit b = (e, web_actor last) /\
    (r = Ok tt -> e = Ok tt /\ listener = None) /\
    (forall error, e = Err error -> r = Err (CliError.ServiceRuntime error)).
Proof.
  intros [(config & w & h & _ & Hb) _ (sec & _ & _ & He) _].
  apply build_service_parts in Hb as (_ & _ & _ & _ & _ & _ & _ & Hwf & _).
  exists sec. rewrite handled_native in He. cbv zeta in *. cbn [actor] in He.
  revert He. unfold finish_service. cbn [exit_shutdown NativeServiceActor_service]. unfold on_web_actor.
  cbn [web_actor exit_shutdown ControllerWebActor_exit].
  destruct (shutdown_for_exit _) as [[[]|e] b] eqn:Es; intros [= <- <-]; eexists;
    (split; [by apply handled_wf|]); (split; [done|]); (split; [|congruence]); [|done].
  intros Hr. by destruct listener.
Qed.


(** Whatever journal can be opened on what is on disk, its record is pending. *)
Definition pending_on_disk (v : V) : Prop :=
  forall d0 metadata d1 j d2, on_disk v d0 -> dir_metadata d0 = (Ok metadata, d1) ->
    open_records d1 = (Ok j, d2) -> is_pending j = true.

Lemma exit_plain (a a' : web) r :
  shutdown_for_exit a = (r, a') -> rtc non_recovery_step (controller a) (controller a').
Proof.
  intros (now & res & c & E & Hc)%exit_steps.
  eapply rtc_l; [by eapply plain_mutate; [|exact E]|]. destruct Hc as [-> |[r' Et]]; [done|].
  apply rtc_once. by eapply plain_teardown.
Qed.

Lemma handled_plain requests (app : WebApp web) :
  Forall plain_request requests -> rtc plain_step app (handled_all requests app).
Proof.
  intros Hf. revert app. induction Hf as [|raw requests Hp _ IH]; intros app; [done|].
  eapply rtc_l; [|apply IH]. eapply plain_served; [apply surjective_pairing|done].
Qed.

(** C6 A process that starts behind a pending record never acts. When the record
    on disk is pending and no connection asks for the explicit recovery, then
    whatever else the peers send and whenever the process is stopped, it exits
    with a failure; and if it got as far as serving, its action is still
    unresolved and its journal untouched at the exit, its LAN client and its
    broadcast observer were not used at all, and not one packet left on its
    Aura connection. *)
Theorem pending_process_stays_silent fuel path (m m' : machine) r :
  run fuel path m = Some (r, m') -> unhandled m -> pending_on_disk (host_state (machine_host m)) ->
  (forall opened, connections (machine_net m') = connections (machine_net m) ++ opened ->
     Forall plain_request opened) ->
  failed_first m m' r \/
  exists a last requests listener,
    process_run path m m' r a last requests listener /\
    r = Err (CliError.ServiceRuntime ServiceRuntimeError.GracefulShutdownRejected) /\
    let before := controller (web_actor a) in let after := controller (web_actor last) in
    unresolved_action after = true /\ ctl_journal after = ctl_journal before /\
    jbl (ctl_backend after) = jbl (ctl_backend before) /\
    broadcast_observer (ctl_backend after) = broadcast_observer (ctl_backend before) /\
    sent (io_world (io (aura (ctl_backend after)))) = sent (aura_stack (machine_host m)).
Proof.
  intros E Hn Hd Hplain.
  destruct (run_service_spec _ _ _ _ _ E Hn) as [?|(a & last & q & l & Hp & _ & _)]; [by left|].
  right. exists a, last, q, l. split; [done|].
  destruct (process_exit _ _ _ _ _ _ _ _ Hp) as (sec & e & Hwf & He & _ & Herr).
  destruct Hp as [(config & w & h & _ & Hb) (opened & Hc & Hsub & _) _ _].
  apply build_service_parts in Hb as (_ & _ & _ & _ & _ & Hf & Hj & _ & Hu).
  destruct Hj as (d0 & metadata & d1 & d2 & Hdisk & Hm & Ho).
  rewrite (Hd _ _ _ _ _ Hdisk Hm Ho) in Hu. clear Hdisk Hm Ho.
  assert (Forall plain_request q) as Hq.
  { specialize (Hplain _ Hc). rewrite Forall_forall in Hplain |- *.
    intros raw Hin. apply Hplain. by eapply elem_of_sublist. }
  pose proof (plain_steps_spec _ _ (handled_plain q (mkWebApp (web_actor a) sec) Hq)) as Hserved.
  pose proof (exit_plain _ _ _ He) as Hexit. cbn [actor] in Hserved.
  destruct (latched_steps_quiet _ _ Hserved Hu) as [Hu1 _].
  destruct (exit_is_safe _ _ _ He Hwf) as (Hsafe & _). destruct (Hsafe Hu1) as (Hr & _).
  split; [by apply Herr|]. cbv zeta.
  assert (rtc non_recovery_step (controller (web_actor a)) (controller (web_actor last))) as Hall
    by by etrans.
  destruct (latched_steps_quiet _ _ Hall Hu) as [Hu2 Hquiet].
  destruct (latch_holds_steps _ _ Hu Hall) as (_ & Hjournal & _).
  apply (quiet_untouched (fun t : AuraControlCore (BluezIo BW BS) => sent (io_world (io t))))
    in Hquiet as (Hjbl & Hobs & Hw);
    [|intros; by eapply health_sends_nothing|intros; by eapply shutdown_sends_nothing].
  split_and!; [done..|]. rewrite Hw. apply (fp_silent _ _ _ Hf).
Qed.

(** ** The process ends *)

Context `{!TcpStreamLaws N, !TcpClockLaws N, !SignalDue N}.

(** C38 The service process can always be stopped. When a termination signal
    comes at some time, every run of the process ends: no peer can hold it,
    whatever it sends, however it splits its bytes and however slowly it reads
    the answer, because every loop polls the flag except the write, which has
    its deadline; and the flag that is polled is the one the handlers set. *)
Theorem service_process_ends path (m : machine) :
  unhandled m -> ends (fun fuel => run fuel path m).
Proof.
  intros Hn. unfold run_service, lifted.
  destruct (load path m) as [[config|e] m1] eqn:El; [|by eapply ends_value].
  cbn [map_err]. rewrite load_files in El. unfold on_files, on_host in El.
  destruct (load path (host_files (machine_host m))) as [c w]. simplify_eq.
  cbn [build_native_service_actor Machine_runtime]. unfold on_host at 1.
  cbn [machine_host machine_net delivered_signals].
  destruct (build_service config _) as [r1 h] eqn:Eb.
  destruct (build_service_parts _ _ _ _ Eb) as (_ & _ & Hs & _). cbn in Hs.
  destruct r1 as [a|e]; [|by eapply ends_value]. cbn [map_err].
  cbn [install_termination_handlers Machine_runtime]. unfold on_host, install_handlers.
  cbn [machine_host machine_net delivered_signals].
  destruct (Signals.install_termination_handlers (host_signals h)) as [[flag|e] g] eqn:Ei;
    [|by eapply ends_value]. cbn [map_ok map_err].
  apply install_in_force in Ei; [|by rewrite Hs].
  destruct (bind a _ _) as [[server|e] m2] eqn:Ebd; [|by eapply ends_value]. cbn [map_err].
  destruct (bind_on_machine _ _ _ _ _ Ebd) as ((_ & Hh & _) & _).
  destruct (serve_ends server m2) as (x & k & Hk); [exists flag, false; by rewrite Hh|].
  destruct x as [[b|[e b]] m3]; eexists _, k; intros fuel Hf; by rewrite Hk.
Qed.
End Start.
