(* ===== verification/Simulation.v ===== *)
(** A concrete installation: a scripted Bluetooth stack, Aura link, JBL client,
    business observer and membership probe, which satisfy the interfaces and
    their laws.  It instantiates the parameters in the witnesses; it models no
    code of the program. *)
From stdpp Require Import relations.
From S2P Require Import Prelude Bytes Backend Model Journal JournalSim Control Controller AuraWake.
From S2P Require Import Bluez AuraBluez JblGatt BroadcastGena BackendNative NativeSpec.

(** The head of a script, or what happens when it is exhausted. *)
Definition next {R} (usual : R) (script : list R) : R := default usual (head script).

(** * BlueZ *)

(** Every call succeeds; the packets to be received are scripted. *)
Record SimStack := mkSimStack {
  stack_sent : list bytes;
  stack_queue : list Recv.t;
  stack_peer : SocketAddr;
  stack_clock : Z;
  stack_paired : bool;
}.
Definition no_peer : SocketAddr := mkSocketAddr [] AddressType.BrEdr 0 0.
Definition sim_stack (queue : list Recv.t) : SimStack := mkSimStack [] queue no_peer 0 true.

Definition local_address : bytes := map z2b [2; 0; 0; 0; 0; 9]%Z.

(** The resolvable address under which the Aura speaker advertises. *)
Definition private_address : bytes := map z2b [0x5a; 1; 2; 3; 4; 5]%Z.

#[export] Instance SimStack_bluez : BluezStack SimStack unit := {
  now w := (stack_clock w, w);
  session_new _ w := (Ok tt, w);
  adapter_open _ w := (Ok tt, w);
  adapter_is_powered _ w := (Ok true, w);
  adapter_address _ w := (Ok local_address, w);
  adapter_device _ w := (Ok tt, w);
  device_address_type a _ w :=
    (Ok (if bool_decide (a = private_address) then AddressType.LeRandom else AddressType.BrEdr), w);
  device_is_paired _ _ w := (Ok (stack_paired w), w);
  device_is_trusted _ _ w := (Ok true, w);
  device_is_blocked _ _ w := (Ok false, w);
  socket_open w := (Ok tt, w);
  socket_bind _ _ w := (Ok tt, w);
  socket_set_security _ w := (Ok tt, w);
  socket_connect _ a _ w := (Ok tt, mkSimStack (stack_sent w) (stack_queue w) a (stack_clock w)
    (stack_paired w));
  socket_peer_addr _ w := (Ok (stack_peer w), w);
  socket_send _ p _ w :=
    (Ok (length p),
     mkSimStack (stack_sent w ++ [p]) (stack_queue w) (stack_peer w) (stack_clock w)
       (stack_paired w));
  socket_recv _ _ w :=
    (next Recv.TimedOut (stack_queue w),
     mkSimStack (stack_sent w) (tail (stack_queue w)) (stack_peer w) (stack_clock w)
       (stack_paired w));
  socket_try_recv _ w := (None, w);
  socket_poll _ w := (0%Z, 0%Z, w);
  socket_peek _ w := ((-1)%Z, true, w);
}.

#[export] Instance SimStack_laws : BluezStackLaws SimStack unit.
Proof.
  refine {| sent := stack_sent |}; intros; simpl in *; simplify_eq/=; auto.
Defined.

Definition mtu_reply : Recv.t := Recv.Packet (map z2b [3; 0; 2]%Z).
Definition write_reply : Recv.t := Recv.Packet [JblGatt.ATT_WRITE_RESPONSE].

(** * The Aura link *)

Record SimLink := mkSimLink {
  link_writes : nat;
  link_ready : bool;
  link_acks : list (result AckObservation.t AuraFailureReason.t);
}.

#[export] Instance SimLink_io : AuraIo SimLink := {
  io_connect_verified _ l := (Ok tt, mkSimLink (link_writes l) true (link_acks l));
  io_health l := (if link_ready l then AuraHealth.Ready else AuraHealth.Offline, l);
  prepare_command l := (Ok tt, l);
  begin_write _ l := (Ok tt, mkSimLink (S (link_writes l)) (link_ready l) (link_acks l));
  wait_for_ack l :=
    (next (Ok AckObservation.Accepted) (link_acks l),
     mkSimLink (link_writes l) (link_ready l) (tail (link_acks l)));
  io_shutdown l := (Ok tt, mkSimLink (link_writes l) false (link_acks l));
  io_bearer l :=
    if link_ready l then Some (AuraBearerTransport.BrEdr, AuraAcquisitionRoute.StableDirect)
    else None;
}.

#[export] Instance SimLink_laws : AuraIoLaws SimLink.
Proof. refine {| io_writes := link_writes |}; intros; simpl in *; simplify_eq/=; lia. Defined.

(** * The JBL client, the business observer and the probe *)

Record SimJbl := mkSimJbl { sim_jbl_writes : nat; jbl_script : list PlayTogetherWriteResult.t }.

Definition sim_jbl_call (j : SimJbl) : PlayTogetherWriteResult.t * SimJbl :=
  let r := next (PlayTogetherWriteResult.Accepted BasicResponse.Accepted) (jbl_script j) in
  (r, mkSimJbl
        (match r with
         | PlayTogetherWriteResult.Rejected JblError.ControlCommandRejected
         | PlayTogetherWriteResult.Accepted _
         | PlayTogetherWriteResult.OutcomeUnknown _ => S (sim_jbl_writes j)
         | PlayTogetherWriteResult.Rejected _ => sim_jbl_writes j
         end) (tail (jbl_script j))).

#[export] Instance SimJbl_control : JblRoleControl SimJbl := {
  enter := sim_jbl_call; exit := sim_jbl_call;
}.

#[export] Instance SimJbl_laws : JblRoleControlLaws SimJbl.
Proof.
  refine {| jbl_writes := sim_jbl_writes |}. intros j e j' E He.
  simpl in E. unfold sim_jbl_call in E. injection E as E1 <-. rewrite E1. simpl.
  by destruct e.
Defined.

Record SimBusiness := mkSimBusiness { business_script : list (result unit GenaFailure.t) }.

#[export] Instance SimBusiness_observer : BroadcastBusinessObserver SimBusiness := {
  arm_business_observer b := (Ok tt, b);
  observe_business_result _ b :=
    (next (Ok tt) (business_script b), mkSimBusiness (tail (business_script b)));
  cancel_business_observer b := (Ok tt, b);
}.

Record SimProbe := mkSimProbe { probe_script : list (result PairConfigurationObservation PairProbeError.t) }.

Definition exact_pair : PairConfigurationObservation :=
  mkObservation true
    (fixed_member PairMemberName.JblAuthentics300 PairMemberVerification.Verified
       [PairMemberChannel.FrontLeft; PairMemberChannel.FrontRight],
     fixed_member PairMemberName.AuraStudio5 PairMemberVerification.Verified
       [PairMemberChannel.Stereo]).

#[export] Instance SimProbe_probe : PairConfigurationProbe SimProbe := {
  pair_configuration p := (next (Ok exact_pair) (probe_script p), mkSimProbe (tail (probe_script p)));
}.

(** * The assembled service *)

#[global] Abbreviation sim_gatt := (JblGattBroadcastTransport SimStack unit).
#[global] Abbreviation sim_observer := (ProductionBroadcastObserver SimBusiness sim_gatt).
#[global] Abbreviation sim_aura := (AuraControlCore SimLink).
#[global] Abbreviation sim_pair := (NativePairCore SimJbl sim_aura sim_observer).
#[global] Abbreviation sim_journal := (FileUncertaintyJournal SimDir).
#[global] Abbreviation sim_controller := (PairController sim_pair SimProbe sim_journal).

Definition gatt_with (queue : list Recv.t) : sim_gatt := jbl_gatt_new (sim_stack queue).
Definition gena_with (queue : list Recv.t) (results : list (result unit GenaFailure.t))
  : sim_observer := Gena (mkCoordinator (mkSimBusiness results) (gatt_with queue)).

Definition pair_with (jbl : list PlayTogetherWriteResult.t)
    (acks : list (result AckObservation.t AuraFailureReason.t)) (observer : sim_observer)
  : sim_pair :=
  native_core_new (mkSimJbl 0 jbl) (core_new (mkSimLink 0 false acks)) observer
    jbl_fixture aura_fixture (from_secs 2).

(** The replies of two whole broadcast transactions. *)
Definition two_transactions : list Recv.t := [mtu_reply; write_reply; mtu_reply; write_reply].

Definition controller_with (pair : sim_pair) (probe : SimProbe) (f : list bool) : sim_controller :=
  with_journal pair probe (fresh_journal f).

(** Everything works. *)
Definition good_pair : sim_pair := pair_with [] [] (gena_with two_transactions []).
Definition good : sim_controller := controller_with good_pair (mkSimProbe []) [].

(** The Aura speaker does not acknowledge its first role command. *)
Definition silent_pair : sim_pair :=
  pair_with [] [Err AuraFailureReason.AcknowledgementTimedOut] (gena_with two_transactions []).
Definition silent : sim_controller := controller_with silent_pair (mkSimProbe []) [].

(** The JBL broadcaster never answers. *)
Definition mute_pair : sim_pair := pair_with [] [] (gena_with [] []).
Definition mute : sim_controller := controller_with mute_pair (mkSimProbe []) [].

(** The whole service runs a START and a STOP on the good installation, sending
    one role command per speaker and one broadcast frame per action. *)
Example good_start_stop :
  let '(r1, c1) := start 0 good in
  let '(r2, c2) := stop 1 c1 in
  result_outcome r1 = ControllerActionOutcome.Accepted /\
  result_managed_state r1 = ManagedLiveState.Linked /\
  result_outcome r2 = ControllerActionOutcome.Accepted /\
  result_managed_state r2 = ManagedLiveState.Ready /\
  native_writes (ctl_backend c1) = 3 /\ native_writes (ctl_backend c2) = 6.
Proof. by vm_compute. Qed.

(** On the other two the start is uncertain, or rejected before sending. *)
Example silent_and_mute_start :
  result_outcome (fst (start 0 silent)) = ControllerActionOutcome.OutcomeUnknown /\
  result_outcome (fst (start 0 mute)) = ControllerActionOutcome.RejectedBeforeSend /\
  native_writes (ctl_backend (snd (start 0 mute))) = 0.
Proof. by vm_compute. Qed.
