(* ===== verification/BluezSimulation.v ===== *)
(** A concrete Bluetooth stack for the native Aura transport: the scripted stack
    of [Simulation] with one advertisement per discovery.  It satisfies the
    interface and its laws; it models no code of the program. *)
From S2P Require Import Prelude Bytes Backend Model Control AuraWake Bluez AuraBluez BluezIo BluezIoSpec.
From S2P Require Import Simulation.

(** The advertisement of the Aura speaker, on a device that appears. *)
Definition aura_service_data : ServiceData :=
  {[ HARMAN_FDDF_UUID :=
       AURA_STUDIO_5_PID ++ replicate (STABLE_IDENTITY_OFFSET - 2) (z2b 0) ++ binary aura_fixture ]}.

#[export] Instance SimStack_discovery : BluezDiscovery SimStack := {
  uuid_from_str text := Some text;
  dbus_path_new text := Some text;
  runtime_build w := (Ok tt, w);
  sleep_until_at _ w := w;
  adapter_set_discovery_filter _ _ w := (Ok tt, w);
  adapter_device_addresses _ w := (Ok [binary jbl_fixture], w);
  adapter_discover_devices _ w := (Ok tt, w);
  device_events _ _ w := (Ok tt, w);
  device_service_data _ _ w := (Ok (Some aura_service_data), w);
  device_is_connected _ _ w := (Ok false, w);
  device_connect_profile _ _ _ w := (Ok tt, w);
  device_disconnect_profile _ _ _ w := (Ok tt, w);
  select_turns _ _ := 1;
  select_event _ w := (RawEvent.DeviceAdded private_address, w);
  dbus_new_system w := (Ok tt, w);
  get_managed_objects _ w := (Ok ∅, w);
  thread_sleep d w :=
    mkSimStack (stack_sent w) (stack_queue w) (stack_peer w) (stack_clock w + Z.max 0 d)
      (stack_paired w);
}.

#[export] Instance SimStack_discovery_laws : BluezDiscoveryLaws SimStack unit.
Proof. by constructor. Defined.

#[export] Instance SimStack_bluez_clock : BluezClock SimStack unit.
Proof.
  refine {| bluez_clock := stack_clock |}.
  - intros w t w' [= <- <-]. lia.
  - intros d w. simpl. lia.
  - intros d w Hd. simpl. lia.
Defined.

#[global] Abbreviation native_aura := (AuraControlCore (BluezIo SimStack unit)).

(** The transport as it is built, on a stack with these packets to come. *)
Definition stack_with (paired : bool) (queue : list Recv.t) : SimStack :=
  mkSimStack [] queue no_peer 0 paired.
Definition fresh_transport (w : SimStack) : native_aura :=
  core_new (mkBluezIo w default_bluez_config None).

Definition ack_reply : Recv.t :=
  Recv.Packet ([ATT_HANDLE_VALUE_NOTIFICATION] ++ u16_to_le_bytes ATT_AURA_NOTIFY_HANDLE ++ SUCCESS_ACK).
