(* ===== verification/NetSimulation.v ===== *)
(** A concrete service: a scripted LAN client, a library that reads a fixed set
    of bodies, the assembled service over the simulated installation, and small
    worlds of sockets, lock files and a service manager, which satisfy the
    interfaces and their laws.  It instantiates the parameters in the witnesses;
    it models no code of the program. *)
From S2P Require Import Prelude Bytes Tcp LocalModel LocalClient Web WebSpec Http HttpSpec ClientSpec.
From S2P Require Import Backend Journal JournalSim Model Control Controller ControllerSpec.
From S2P Require Import AuraBluez BackendNative NativeSpec JblClient BodySpec JblSpec Simulation.
From S2P Require Import Service ServiceSpec WebServer WebServerSpec Loopback.

(** * The speaker on the LAN *)

(** A response is its status and its body; a read names the resource. *)
Record SimLan := mkSimLan { lan_posts : nat; lan_status : Z }.

#[export] Instance SimLan_ureq : Ureq SimLan (Z * bytes) := {
  http_status r := fst r;
  agent_get _ url _ w := (Ok (200%Z, url), w);
  agent_post a _ _ _ w :=
    match a with
    | Agent.Write => (Ok (lan_status w, str "{}"), mkSimLan (S (lan_posts w)) (lan_status w))
    | _ => (Ok (200%Z, str "<a/>"), w)
    end;
  read_limited n r w := (Ok (take (Z.to_nat n) (snd r)), w);
}.

#[export] Instance SimLan_laws : UreqLaws SimLan (Z * bytes).
Proof.
  refine {| posts := lan_posts |}; intros; simpl in *; simplify_eq; simpl; try lia; done.
Defined.

Definition object_of (entries : list (bytes * Value.t)) : Value.t := Value.Object entries.

#[export] Instance sim_jbl_library : JblLibrary := {
  json_from_slice payload :=
    if decide (payload = str "{}")
    then Some (object_of [(str "error_code", number_value 0)])
    else if decide (payload = str "model")
    then Some (object_of [(str "hm_product_name", Value.String SUPPORTED_JBL_MODEL)])
    else if ends_with (Command.api_name Command.DeviceInfo) payload
    then Some (object_of [(str "error_code", number_value 0); (str "device_info", Value.Object [])])
    else Some group_fixture;
  xml_descendants _ := Some [mkXmlNode true (str "Status") (Some (str "model"))];
}.

Definition lan (status : Z) : JblLanClient SimLan :=
  mkJblClient true (str "192.0.2.7") JBL_HTTPS_PORT JBL_UPNP_PORT (mkSimLan 0 status).

Definition sim_probe : JblPairConfigurationProbe SimLan :=
  mkProbe (lan 200) SUPPORTED_JBL_MODEL jbl_fixture aura_fixture.

#[export] Instance SimLink_bearer : AuraBearerLaws SimLink.
Proof.
  refine {| bearer_ok _ := True |}; try done.
  intros i t r _ E. simpl in E. destruct (link_ready i); by simplify_eq.
Defined.

(** * The service *)

#[export] Instance sim_clock : Clock Z := { clock_now k := (k, (k + 1)%Z) }.

#[global] Abbreviation lan_pair := (NativePairCore (JblLanClient SimLan) sim_aura sim_observer).
#[global] Abbreviation sim_service :=
  (ControllerWebActor lan_pair (JblPairConfigurationProbe SimLan) sim_journal Z).

Definition pair_over (acks : list (result AckObservation.t AuraFailureReason.t)) : lan_pair :=
  native_core_new (lan 200) (core_new (mkSimLink 0 false acks)) (gena_with two_transactions [])
    jbl_fixture aura_fixture (from_secs 2).

Definition service_over (acks : list (result AckObservation.t AuraFailureReason.t)) : sim_service :=
  actor_new (with_journal (pair_over acks) sim_probe (fresh_journal [])) 0%Z.

Definition healthy_service : sim_service := service_over [].
Definition silent_service : sim_service := service_over [Err AuraFailureReason.AcknowledgementTimedOut].

(** * The libraries of the HTTP boundary *)

Definition sim_status : ControllerStatus := fst (on_controller Controller.status healthy_service).
Definition after_status : sim_service := snd (on_controller Controller.status healthy_service).
Definition sim_result : ControllerActionResult :=
  fst (on_controller (controller_mutation WebMutation.Start) after_status).
Definition after_start : sim_service :=
  snd (on_controller (controller_mutation WebMutation.Start) after_status).

#[export] Instance sim_web_library : WebLibrary := {
  from_slice content :=
    if decide (content = EMPTY_OBJECT) then Some (Value.Object [])
    else if decide (content = RECOVER_BODY)
    then Some (Value.Object [(str "confirm", Value.String (str "recover-stop"))])
    else None;
  to_vec b :=
    match b with
    | Body.Status _ => str "status" | Body.Action _ => str "action"
    | Body.Error e => e | Body.Readiness _ => READY_BODY
    end;
  memcmp_eq a b := bool_decide (a = b);
  page_html _ := str "page";
}.

#[export] Instance sim_web_library_laws : WebLibraryLaws.
Proof. constructor. intros a b _. apply bool_decide_eq_true. Defined.

#[export] Instance sim_local_library : LocalLibrary := {
  read_json content :=
    if decide (content = str "status") then Some (body_value (Body.Status (status_body sim_status)))
    else if decide (content = str "action")
    then Some (body_value (Body.Action (action_body sim_result)))
    else None;
}.

Definition sim_token : bytes := replicate 32 (z2b 90).
Definition sim_security : WebSecurity :=
  mkWebSecurity IpAddr.V4_LOCALHOST DEFAULT_WEB_PORT (concat (map hex_lower sim_token)).

Lemma sim_security_minted : minted sim_security.
Proof. exists IpAddr.V4_LOCALHOST, DEFAULT_WEB_PORT, sim_token. split; by vm_compute. Qed.

Definition sim_app : WebApp sim_service := mkWebApp healthy_service sim_security.
Definition sim_network : Loopback sim_service := mkLoopback sim_app [] [] None.

(** The whole service starts the pair, over the LAN client and the Aura link. *)
Example healthy_service_starts :
  cs_pair_configuration sim_status = PairConfigurationState.Ready /\
  result_outcome sim_result = ControllerActionOutcome.Accepted /\
  result_managed_state sim_result = ManagedLiveState.Linked.
Proof. by vm_compute. Qed.

(** * Sockets of the server *)

(** The connections still to come and what the accepted one still holds, in the
    pieces they arrive in; when none is left the service is asked to stop. *)
Record SimNet := mkSimNet {
  net_pending : list (list bytes);
  net_current : list bytes;
  net_connections : list bytes;
  net_stopping : bool;
}.
Definition sim_net (pending : list (list bytes)) : SimNet := mkSimNet pending [] [] false.

Definition sim_address : Addr := (IpAddr.V4_LOCALHOST, DEFAULT_WEB_PORT).
Definition sim_peer : Addr := (IpAddr.V4_LOCALHOST, 40000%Z).

#[export] Instance SimNet_tcp : TcpStream SimNet := {
  instant_now w := (0%Z, w);
  connect_timeout _ _ w := (Err IoErrorKind.Other, w);
  set_write_timeout _ w := (Ok tt, w);
  set_read_timeout _ w := (Ok tt, w);
  tcp_write p w := (Ok (length p), w);
  tcp_read n w :=
    let piece := default [] (head (net_current w)) in
    let rest := match drop n piece with [] => [] | more => [more] end in
    (Ok (take n piece),
     mkSimNet (net_pending w) (rest ++ tail (net_current w))
       (append_last (take n piece) (net_connections w)) (net_stopping w));
  set_nonblocking _ w := (Ok tt, w);
  tcp_peek _ w :=
    (match net_current w with [] => Err IoErrorKind.WouldBlock | _ => Ok 1 end, w);
  shutdown_both w := w;
}.

#[export] Instance SimNet_listener : WebListener SimNet := {
  shutdown_requested w := (net_stopping w, w);
  accept w :=
    match net_pending w with
    | pieces :: pending => (Ok sim_peer, mkSimNet pending pieces (net_connections w ++ [[]]) false)
    | [] => (Err IoErrorKind.WouldBlock, mkSimNet [] [] (net_connections w) true)
    end;
  thread_sleep _ w := w;
  stream_local_addr w := (Ok sim_address, w);
  stream_peer_addr w := (Ok sim_peer, w);
  csrf_random w := (Ok sim_token, w);
  tcp_bind _ w := (Ok tt, w);
  listener_local_addr w := (Ok sim_address, w);
  listener_set_nonblocking w := (Ok tt, w);
}.

#[export] Instance SimNet_laws : WebListenerLaws SimNet.
Proof.
  refine {| connections := net_connections |}; intros; simpl in *; try (by simplify_eq).
  - by destruct (net_pending w); simplify_eq.
  - by destruct (net_pending w); simplify_eq.
  - simplify_eq. simpl. rewrite <- append_last_app. by f_equal.
Defined.

(** * Descriptors and locks *)

(** A descriptor is an index; a closed one keeps its place. *)
Record SimOs := mkSimOs {
  os_table : list (option (FileType.t * bool));
  os_reserved : bool;
}.
Definition os_entry (w : SimOs) (fd : nat) : option (FileType.t * bool) := mjoin (os_table w !! fd).
Definition os_put (fd : nat) (v : option (FileType.t * bool)) (w : SimOs) : SimOs :=
  mkSimOs (<[fd := v]> (os_table w)) (os_reserved w).
Definition os_open (kind : FileType.t) (w : SimOs) : result nat unit * SimOs :=
  (Ok (length (os_table w)), mkSimOs (os_table w ++ [Some (kind, false)]) (os_reserved w)).

#[export] Instance SimOs_os : RuntimeOs SimOs nat := {
  os_geteuid _ := 1000%Z;
  open_dir _ w := os_open FileType.Directory w;
  openat_dir _ _ w := os_open FileType.Directory w;
  mkdirat _ _ w := (MkdirResult.Exists, w);
  openat_lock _ _ w := os_open FileType.Regular w;
  os_fstat fd w :=
    (match os_entry w fd with
     | Some (kind, _) => Ok (mkMetadata kind 1000 384 1 0)
     | None => Err tt
     end, w);
  fstatat _ _ w := (if os_reserved w then StatResult.Found else StatResult.NotFound, w);
  flock fd w :=
    match os_entry w fd with
    | Some (kind, _) => (FlockResult.Locked, os_put fd (Some (kind, true)) w)
    | None => (FlockResult.Failed, w)
    end;
  os_close fd w := os_put fd None w;
}.

Lemma os_put_entry fd v w x :
  is_Some (os_entry w fd) \/ v = None ->
  os_entry (os_put fd v w) x = if decide (x = fd) then v else os_entry w x.
Proof.
  intros Hv. unfold os_entry, os_put. simpl. case_decide as Hx; cycle 1.
  { by rewrite list_lookup_insert_ne. }
  subst x. destruct (decide (fd < length (os_table w))) as [Hl|Hl].
  - by rewrite list_lookup_insert_eq.
  - rewrite list_insert_ge by lia. destruct Hv as [[? He]| ->]; [|by rewrite lookup_ge_None_2 by lia].
    unfold os_entry in He. by rewrite lookup_ge_None_2 in He by lia.
Qed.

Lemma os_open_entry kind w fd w' :
  os_open kind w = (Ok fd, w') ->
  snd <$> os_entry w fd = None /\
  forall x, snd <$> os_entry w' x = if decide (x = fd) then Some false else snd <$> os_entry w x.
Proof.
  intros [= <- <-]. unfold os_entry. simpl. split; [by rewrite lookup_ge_None_2 by lia|]. intros x.
  case_decide; [subst; by rewrite list_lookup_middle|].
  destruct (decide (x < length (os_table w))); [by rewrite lookup_app_l by lia|].
  rewrite !lookup_ge_None_2; [done|lia|rewrite length_app; simpl; lia].
Qed.

#[export] Instance SimOs_laws : RuntimeOsLaws SimOs nat.
Proof.
  refine {| opened w fd := snd <$> os_entry w fd |}.
  1, 3, 5: intros; match goal with E : _ = (Ok _, _) |- _ => exact (os_open_entry _ _ _ _ E) end.
  1, 2, 3, 4, 5, 6: intros; by simplify_eq/=.
  - intros fd w w' E x. simpl in E.
    destruct (os_entry w fd) as [[kind held]|] eqn:Ee; simplify_eq.
    rewrite os_put_entry by (left; by eexists). by case_decide.
  - intros fd w r w' E Hr x. simpl in E. by destruct (os_entry w fd) as [[kind held]|]; simplify_eq.
  - intros fd w x. simpl. rewrite os_put_entry by by right. by case_decide.
Defined.

(** * The service manager *)

Record SimManager := mkSimManager { sm_clock : Z; sm_starts : nat; sm_up : bool }.

#[export] Instance SimManager_manager : ServiceManager SimManager := {
  sm_now e := (sm_clock e, e);
  sm_sleep d e := mkSimManager (sm_clock e + d)%Z (sm_starts e) (sm_up e);
  probe_ready e := (if sm_up e then Ok tt else Err LocalClientError.Unavailable, e);
  spawn_start e := (Ok tt, mkSimManager (sm_clock e) (S (sm_starts e)) true);
  try_wait e := (ChildState.Exited true, e);
  kill_and_wait e := e;
}.

#[export] Instance SimManager_laws : ServiceManagerLaws SimManager.
Proof.
  refine {| starts := sm_starts; sm_time := sm_clock |}; intros; simpl in *; simplify_eq; simpl;
    split_and?; lia.
Defined.
