(* ===== verification/HostSimulation.v ===== *)
(** A concrete host: a configuration directory and an environment over the
    in-memory file system, a TLS library that hands the presented certificates
    to the callback, and the command line on the loopback network.  They satisfy
    the interfaces and their laws; they model no code of the program. *)
From S2P Require Import Prelude Bytes Tcp LocalModel LocalClient Web WebSpec Http HttpSpec ClientSpec.
From S2P Require Import Backend Journal JournalSim Model Control Controller ControllerSpec.
From S2P Require Import AuraBluez BackendNative NativeSpec JblClient BodySpec JblSpec Simulation.
From S2P Require Import Service ServiceSpec WebServer WebServerSpec System Loopback NetSimulation.
From S2P Require Import PrivateFile Tls Config ConfigSpec Cli CliSpec.

(** * Files and environment *)

Definition sim_environment : list (bytes * bytes) :=
  [(str "HOME", str "/home/user");
   (str "XDG_RUNTIME_DIR", str "/run/user/1000");
   (str "JBL_IP", str "192.0.2.10");
   (str "JBL_LOCAL_API_CERT", str "/private/client-cert.pem");
   (str "JBL_LOCAL_API_KEY", str "/private/client-key.pem");
   (str "JBL_LOCAL_API_TLS_SHA256", concat (replicate 32 (str "0f")));
   (str "JBL_GENA_CALLBACK_PORT", str "48098");
   (str "JBL_BT_MAC", str "02:00:00:00:00:01");
   (str "AURA_BT_MAC", str "020000000002")].

Fixpoint variable (key : bytes) (l : list (bytes * bytes)) : option bytes :=
  match l with
  | [] => None
  | (k, v) :: rest => if decide (k = key) then Some v else variable key rest
  end.

#[export] Instance SimDir_environment : ProcessEnv SimDir := {
  var_os key _ := variable key sim_environment;
  current_dir _ := Some (str "/");
}.

#[export] Instance SimDir_config : ConfigDirectory SimDir := {
  create_private_dir_all _ d := (Ok tt, d);
  path_metadata path d :=
    if bool_decide (file_name path = Some (str "devices.env")) then
      match content_of (str "devices.env") d with
      | Some c => (Ok (sim_metadata c), d)
      | None => (Err IoError.NotFound, d)
      end
    else (Ok (mkMetadata FileType.Directory 0 448 2 0), d);
}.

#[export] Instance SimDir_config_laws : ConfigDirectoryLaws SimDir.
Proof.
  constructor; intros p w r w' E; simpl in E; repeat case_match; simplify_eq;
    by apply sim_untouched_refl; [|left].
Defined.

(** A file is known by its name; only what the directory holds can be opened. *)
#[export] Instance SimDir_private : PrivateFs SimDir bytes := {
  openat2 path _ _ d :=
    match file_name path with
    | Some n =>
        match content_of n d with Some _ => (Ok n, d) | None => (Err (Some ENOENT), d) end
    | None => (Err (Some EINVAL), d)
    end;
  file_metadata n d :=
    match content_of n d with Some c => (Ok (sim_metadata c), d) | None => (Err tt, d) end;
  effective_uid _ := 0%Z;
  take_read_to_end n k d :=
    match content_of n d with Some c => (Ok (take (Z.to_nat k) c), d) | None => (Err tt, d) end;
}.

#[export] Instance SimDir_private_laws : PrivateFsLaws SimDir bytes.
Proof.
  refine {| content d n := default [] (content_of n d) |}.
  intros n k d p d' E. simpl in E. destruct (content_of n d) as [c|]; simplify_eq/=. done.
Defined.

(** * TLS *)

(** The world is the list of the certificates that the peer presents; the
    digest is the certificate itself. *)
#[export] Instance SimTls : OpenSsl (list X509StoreContext) := {
  X509 := bytes; PKey := bytes; Builder := unit; SslConnector := unit; Configuration := unit;
  Io := unit; SslStream := unit;
  x509_from_pem pem := Some pem;
  private_key_from_pem pem := Some pem;
  connector_builder := Some tt;
  set_certificate _ b := Some b;
  set_private_key _ b := Some b;
  check_private_key _ := true;
  build b := b;
  configure c := Some c;
  sha256_digest der := der;
  ssl_connect _ _ callback pin _ _ w := (Ok tt, after_callbacks callback w pin, w);
}.

#[export] Instance SimTls_laws : OpenSslLaws (list X509StoreContext).
Proof.
  refine {| presented _ _ _ _ _ w := w |}. intros c o callback pin n i w r pin' w' E.
  simpl in E. by simplify_eq.
Defined.

(** * The command line on the loopback network *)

#[global] Abbreviation sim_host := (Loopback sim_service).

(** The readiness probe is the client's; the unit need not be started. *)
#[export] Instance SimHost_manager : ServiceManager sim_host := {
  sm_now w := (0%Z, w);
  sm_sleep _ w := w;
  probe_ready w :=
    match ready 100 DEFAULT_WEB_PORT w with
    | Some answer => answer
    | None => (Err LocalClientError.TimedOut, w)
    end;
  spawn_start w := (Ok tt, w);
  try_wait w := (ChildState.Exited true, w);
  kill_and_wait w := w;
}.

#[export] Instance SimHost_output : CliOutput sim_host := {
  stdout_line _ w := (Ok tt, w);
  stderr_line _ w := w;
  status_json _ := None; action_json _ := None; report_json _ := None; group_json _ := None;
}.

#[export] Instance SimHost_wire : LocalCommandWire sim_host.
Proof.
  constructor; try by intros; simpl in *; simplify_eq.
  intros w r w' E. simpl in E.
  assert (Hsame : exists sent, wire w = wire w ++ sent /\ probes sent)
    by (exists []; rewrite app_nil_r; split; [done|constructor]).
  destruct (ready 100 DEFAULT_WEB_PORT w) as [[r1 w1]|] eqn:Er; [|by simplify_eq].
  unfold ready in Er.
  destruct (request _ _ _ _ _ _ _ w) as [[[response|e] w2]|] eqn:E2; [| |done];
    apply request_wire in E2 as (sent & Hw & Ho); unfold checked in Er; simplify_eq;
    exists sent; (split; [done|]); destruct Ho as [[->|(part & -> & Hp)] _];
    first [by constructor | by repeat constructor].
Defined.
