(* ===== verification/GenaSimulation.v ===== *)
(** A concrete network for the business observer: scripted connections and
    callbacks on a clock that only sleeps move, and parsers that know the
    documents of the examples.  They satisfy the interface and its laws; they
    model no code of the program. *)
From S2P Require Import Prelude.
From S2P Require Import Bytes.
From S2P Require Import Backend.
From S2P Require Import Model.
From S2P Require Import Tcp.
From S2P Require Import BackendNative.
From S2P Require Import BroadcastGena.
From S2P Require Import GenaBody.
From S2P Require Import GenaHttp.
From S2P Require Import GenaHttpSpec.
From S2P Require Import Gena.
From S2P Require Import GenaSpec.

(** * The network *)

(** Where a connection comes from, and its segments. *)
Record SimPeer := mkSimPeer { peer_address : SocketAddr.t; segments : list bytes }.

Record SimNet := mkSimNet {
  sim_clock : Z;
  sim_listeners : list nat;
  (** Callbacks still to come, answers of the event service still to come. *)
  callbacks : list SimPeer;
  answers : list (list bytes);
  (** The segments left on the one open connection, and all that was sent. *)
  inbound : list bytes;
  sent : list bytes;
}.

Definition set_inbound (l : list bytes) (w : SimNet) : SimNet :=
  mkSimNet (sim_clock w) (sim_listeners w) (callbacks w) (answers w) l (sent w).

(** One segment per read, as much of it as fits. *)
Definition read_segments (n : nat) (l : list bytes) : bytes * list bytes :=
  match l with
  | [] => ([], [])
  | segment :: rest =>
      (take n segment,
       match drop n segment with [] => rest | more => more :: rest end)
  end.

Definition sim_local : SocketAddr.t :=
  SocketAddr.V4 (mkSocketAddrV4 (mkIpv4 192 0 2 7) 50000).

#[export] Instance SimNet_net : GenaNet SimNet := {
  Listener := nat; Stream := unit; Datagram := unit;
  gena_now w := (sim_clock w, w);
  gena_sleep d w :=
    mkSimNet (sim_clock w + Z.max 0 d) (sim_listeners w) (callbacks w) (answers w)
      (inbound w) (sent w);
  rand_bytes n w := (Some (replicate n (z2b 0xa5)), w);
  udp_bind _ w := (Some tt, w);
  udp_connect _ _ w := (Some tt, w);
  udp_local_addr _ w := (Some sim_local, w);
  drop_datagram _ w := w;
  listener_bind _ w :=
    let l := S (list_max (sim_listeners w)) in
    (Some l, mkSimNet (sim_clock w) (l :: sim_listeners w) (callbacks w) (answers w)
               (inbound w) (sent w));
  listener_set_nonblocking _ w := (Some tt, w);
  listener_accept _ w :=
    match callbacks w with
    | [] => (Err IoErrorKind.WouldBlock, w)
    | peer :: rest =>
        (Ok (tt, peer_address peer),
         mkSimNet (sim_clock w) (sim_listeners w) rest (answers w) (segments peer) (sent w))
    end;
  drop_listener l w :=
    mkSimNet (sim_clock w) (filter (fun k => k <> l) (sim_listeners w)) (callbacks w) (answers w)
      (inbound w) (sent w);
  stream_connect_timeout _ _ w :=
    match answers w with
    | [] => (None, w)
    | answer :: rest =>
        (Some tt, mkSimNet (sim_clock w) (sim_listeners w) (callbacks w) rest answer (sent w))
    end;
  stream_set_read_timeout _ t w := (if (t <=? 0)%Z then None else Some tt, w);
  stream_set_write_timeout _ t w := (if (t <=? 0)%Z then None else Some tt, w);
  stream_write _ text w :=
    (Some tt, mkSimNet (sim_clock w) (sim_listeners w) (callbacks w) (answers w) (inbound w)
                (sent w ++ [text]));
  stream_flush _ w := (Some tt, w);
  stream_read _ n w :=
    let (chunk, rest) := read_segments n (inbound w) in (Some chunk, set_inbound rest w);
  drop_stream _ w := set_inbound [] w;
}.

Lemma list_max_fresh l : S (list_max l) ∉ l.
Proof.
  intros Hin. assert (S (list_max l) <= list_max l); [|lia].
  pose proof (proj1 (list_max_le l (list_max l)) (Nat.le_refl _)) as Hall.
  rewrite List.Forall_forall in Hall. apply Hall. by apply list_elem_of_In.
Qed.

#[export] Instance SimNet_laws : GenaNetLaws SimNet.
Proof.
  refine {| clock := sim_clock; is_open l w := l ∈ sim_listeners w |}.
  all: try (intros; simpl in *; repeat case_match; simplify_eq; split; simpl; [lia|done]).
  all: try (simpl; lia).
  - intros l w. simpl. destruct (callbacks w); (split; simpl; [lia|done]).
  - intros a t w. simpl. destruct (answers w); (split; simpl; [lia|done]).
  - intros a w l w' [= <- <-]. split_and!; [done|apply list_max_fresh|].
    intros l'. cbn [sim_listeners]. apply elem_of_cons.
  - intros a w w' E. discriminate E.
  - intros l w. split; [done|]. intros l'.
    exact (list_elem_of_filter (fun k => k <> l) (sim_listeners w) l').
Defined.

(** The same segments as a stream of their own, for the reader; an empty one is
    none. *)
Definition read_list (n : nat) (l : list bytes) : option bytes * list bytes :=
  let (chunk, rest) := read_segments n (filter (fun s => s <> []) l) in (Some chunk, rest).

Lemma concat_filter (l : list bytes) : concat (filter (fun s => s <> []) l) = concat l.
Proof.
  induction l as [|s l IH]; [done|]. rewrite filter_cons. destruct (decide _) as [|Hn]; simpl.
  - by rewrite IH.
  - destruct s; [done|]. by destruct Hn.
Qed.

Lemma read_list_segmented : segmented_stream read_list (@concat byte).
Proof.
  split; unfold read_list.
  - intros n l chunk l' E. rewrite <- (concat_filter l).
    destruct (filter _ l) as [|segment rest]; simpl in *; simplify_eq; [done|].
    rewrite <- (take_drop n segment) at 1. rewrite <- app_assoc. f_equal.
    by destruct (drop n segment).
  - intros l Hne. rewrite <- (concat_filter l) in Hne.
    assert (Forall (fun s => s <> []) (filter (fun s : bytes => s <> []) l)) as Hall
      by (apply Forall_forall; intros s Hs; by apply list_elem_of_filter in Hs as [? _]).
    destruct (filter _ l) as [|segment rest]; [done|]. apply Forall_cons in Hall as [Hs _].
    eexists _, _. split; [done|]. by destruct segment.
Qed.

(** * The documents *)

Definition quoted (s : bytes) : bytes := [DQUOTE] ++ s ++ [DQUOTE].
Definition code_text (code : Z) : bytes :=
  str "{" ++ quoted (str "info") ++ str ":{" ++ quoted (str "action_code") ++ str ":" ++ dec code
    ++ str "}}".
Definition code_value (code : Z) : Value.t :=
  Value.Object [(str "info", Value.Object [(str "action_code", Value.Number (Number.PosInt code))])].

(** The preferred shape, its payload as text, and the typed one. *)
Definition snake_text (code : Z) : bytes := str "snake " ++ dec code.
Definition snake_value (code : Z) : Value.t :=
  Value.Object [(str "pass_through", Value.Object [(str "pass_string", Value.Object
    [(str "command", Value.String NOTIFICATION_COMMAND);
     (str "payload", Value.String (code_text code))])])].
Definition camel_text (code : Z) : bytes := str "{camel " ++ dec code.
Definition camel_value (code : Z) : Value.t :=
  Value.Object [(str "passThrough", Value.Object [(str "passString", Value.Object
    [(str "command", Value.String NOTIFICATION_COMMAND);
     (NOTIFICATION_COMMAND, code_value code)])])].

Definition event_text (code : Z) : bytes := str "<event " ++ dec code ++ str "/>".
Definition property (name : bytes) (children : list Xml.t) : Xml.t :=
  Xml.Element (str "property") (Some EVENT_NAMESPACE) [] [Xml.Element name None [] children].
Definition event_document (properties : list Xml.t) : XmlDocument :=
  [Xml.Element (str "propertyset") (Some EVENT_NAMESPACE) [] properties].

Definition examples {T} (text : Z -> bytes) (value : Z -> T) : list (bytes * T) :=
  map (fun code => (text code, value code)) [31; 32; 33; 34]%Z.
Definition known {T} (table : list (bytes * T)) (text : bytes) : option T :=
  snd <$> List.find (fun entry => bool_decide (fst entry = text)) table.

#[export] Instance SimLibrary : GenaLibrary := {
  xml_parse := known (examples event_text (fun code =>
    event_document [property (str "PassThrough") [Xml.Text (snake_text code)]]));
  json_from_str := known (examples code_text code_value ++ examples snake_text snake_value
    ++ examples camel_text camel_value);
}.
