(* ===== verification/NativeSimulation.v ===== *)
(** A concrete host for the assembled native service: credentials in an in-memory
    directory, a TLS library that takes any of them, one scripted stack per
    Bluetooth transport, the scripted LAN, lock descriptors, a journal
    directory, and signal dispositions.  They satisfy the interfaces and their
    laws; they model no code of the program. *)
From stdpp Require Import relations.
From S2P Require Import Prelude Bytes Web WebSpec Http HttpSpec LocalModel LocalClient ClientSpec.
From S2P Require Import Backend Journal JournalSim Model Control Controller ControllerSpec Bluez AuraBluez.
From S2P Require Import BluezIo BluezIoSpec JblGatt BroadcastGena GenaBody GenaHttp BackendNative Gena.
From S2P Require Import NativeSpec JblClient BodySpec JblSpec PrivateFile Tls Service ServiceSpec System.
From S2P Require Import Config Signals Cli Native NativeServiceSpec Simulation BluezSimulation.
From S2P Require Import Loopback GenaSimulation NetSimulation HostSimulation.

(** * Parts *)

#[export] Instance SimDir_tls : OpenSsl SimDir := {
  X509 := bytes; PKey := bytes; Builder := unit; SslConnector := unit; Configuration := unit;
  Io := unit; SslStream := unit;
  x509_from_pem pem := Some pem;
  private_key_from_pem pem := Some pem;
  connector_builder := Some tt;
  set_certificate _ b := Some b;
  set_private_key _ b := Some b;
  check_private_key _ := true;
  build b := b;
  configure c := Some c;
  sha256_digest der := der;
  ssl_connect _ _ _ pin _ _ w := (Ok tt, pin, w);
}.

#[export] Instance SimLan_agents : AgentFactory (PinnedOpenSslConnector SimDir) SimLan := {
  build_agents _ _ _ := mkSimLan 0 200;
}.

#[export] Instance SimDir_root : JournalRoot SimDir SimDir := {
  root_euid _ := 0%Z;
  create_dir_all _ v := (Ok tt, v);
  create_dir _ v := (Ok tt, v);
  symlink_metadata _ v := (Ok (mkMetadata FileType.Directory 0 448 2 0), v);
  openat2_directory _ _ v := (Ok v, v);
}.
#[export] Instance SimDir_root_laws : JournalRootLaws SimDir SimDir.
Proof. refine {| on_disk v d := d = v |}; intros; simpl in *; by simplify_eq. Defined.

(** The signals with a handler. *)
#[export] Instance SimSignals : SignalOs (list Z) := {
  sigemptyset w := (true, w);
  sigaction signal w := (true, signal :: w);
  handled signal w := bool_decide (signal ∈ w);
}.
#[export] Instance SimSignals_laws : SignalOsLaws (list Z).
Proof.
  constructor.
  - done.
  - intros signal w w' other [= <-]. simpl. rewrite (bool_decide_ext _ _ (elem_of_cons w other signal)).
    apply bool_decide_or.
  - done.
Defined.

(** * The whole *)

#[global] Abbreviation native_host :=
  (ServiceHost SimDir SimOs SimDir SimStack GenaSimulation.SimNet Z (list Z)).
#[global] Abbreviation native_service :=
  (ControllerWebActor (native_pair SimLan GenaSimulation.SimNet SimStack unit)
     (JblPairConfigurationProbe SimLan) (FileUncertaintyJournal SimDir) Z).

Definition credentials : SimDir :=
  sim_new [(str "client-cert.pem", Some (CERTIFICATE_BEGIN ++ str "c" ++ CERTIFICATE_END));
           (str "client-key.pem", Some (PRIVATE_KEY_BEGIN ++ str "k" ++ PRIVATE_KEY_END))] [].

Definition native_config : RuntimeConfig := {|
  Config.address := str "192.0.2.10";
  certificate := str "/private/client-cert.pem";
  private_key := str "/private/client-key.pem";
  tls_sha256 := concat (replicate 32 (str "0f"));
  Config.jbl_identity := jbl_fixture;
  expected_model := SUPPORTED_JBL_MODEL;
  Config.aura_identity := aura_fixture;
  Config.timeout := from_secs 5;
  gena_callback_port := 48098;
  broadcast_confirmation := BroadcastConfirmation.Ack;
|}.

(** The Aura speaker connects, and answers [answers] afterwards. *)
Definition native_host_with (answers : list Recv.t) (network : GenaSimulation.SimNet) (disk : SimDir)
  : native_host :=
  mkServiceHost credentials (mkSimOs [] false) disk
    (stack_with true (write_reply :: answers)) (sim_stack two_transactions) network 0%Z
    (mkSignalState [] None []).
