(* ===== verification/LegacySimulation.v ===== *)
(** A concrete kernel for the socket backend: a supervisor behind one socket
    that takes a few bytes at a time and whose reply arrives in chunks, with a
    backlog that may be full and a peer that may be another user.  It
    instantiates the parameters in the witnesses; it models no code of the
    program. *)
From S2P Require Import Prelude.
From S2P Require Import Bytes.
From S2P Require Import Backend.
From S2P Require Import Journal.
From S2P Require Import Model.
From S2P Require Import Controller.
From S2P Require Import Tcp.
From S2P Require Import Legacy.
From S2P Require Import LegacySpec.

Record SimUnix := mkSimUnix {
  su_clock : Z;
  su_sockets : list (Z * bytes);
  su_open : nat;
  (** The user at the other end. *)
  su_peer : Z;
  (** How many connections find the backlog full. *)
  su_backlog : nat;
  (** What the reads yield. *)
  su_replies : list bytes;
}.

Definition sim_unix (peer : Z) (backlog : nat) (replies : list bytes) : SimUnix :=
  mkSimUnix 0 [] 0 peer backlog replies.

Definition su_tick (d : Z) (w : SimUnix) : SimUnix :=
  mkSimUnix (su_clock w + Z.max 0 d) (su_sockets w) (su_open w) (su_peer w) (su_backlog w)
    (su_replies w).
Definition su_set_sockets (s : list (Z * bytes)) (n : nat) (w : SimUnix) : SimUnix :=
  mkSimUnix (su_clock w) s n (su_peer w) (su_backlog w) (su_replies w).

(** The socket in use is the last one. *)
Definition su_append (p : bytes) (s : list (Z * bytes)) : list (Z * bytes) :=
  match reverse s with
  | (u, q) :: rest => reverse rest ++ [(u, q ++ p)]
  | [] => []
  end.

Lemma su_append_app p old u q : su_append p (old ++ [(u, q)]) = old ++ [(u, q ++ p)].
Proof. unfold su_append. by rewrite reverse_snoc, reverse_involutive. Qed.

#[export] Instance SimUnix_sockets : UnixSockets SimUnix := {
  unix_now w := let w := su_tick 1000 w in (su_clock w, w);
  unix_euid _ := 0%Z;
  path_metadata _ w := (Ok (mkMetadata FileType.Socket 0 49536 1 0), w);
  unix_socket w := (Ok tt, su_set_sockets (su_sockets w ++ [(su_peer w, [])]) (S (su_open w)) w);
  unix_connect _ _ w :=
    match su_backlog w with
    | O => (Ok tt, w)
    | S n => (Err EAGAIN, mkSimUnix (su_clock w) (su_sockets w) (su_open w) (su_peer w) n (su_replies w))
    end;
  unix_sleep d w := su_tick d w;
  unix_poll _ _ w := (Ok (1, POLLOUT)%Z, w);
  unix_error w := (Ok 0%Z, w);
  fcntl_getfl w := (Ok O_NONBLOCK, w);
  fcntl_setfl _ w := (Ok tt, w);
  peer_credentials w :=
    (match last (su_sockets w) with Some (u, _) => Ok (u, UCRED_SIZE) | None => Err 107%Z end, w);
  unix_set_write_timeout _ w := (Ok tt, w);
  unix_set_read_timeout _ w := (Ok tt, w);
  unix_write p w :=
    let n := Nat.min 4 (length p) in
    (Ok n, su_set_sockets (su_append (take n p) (su_sockets w)) (su_open w) w);
  unix_read n w :=
    (Ok (take n (default [] (head (su_replies w)))),
     mkSimUnix (su_clock w) (su_sockets w) (su_open w) (su_peer w) (su_backlog w)
       (tail (su_replies w)));
  shutdown_write w := (Ok tt, w);
  unix_close w := su_set_sockets (su_sockets w) (pred (su_open w)) w;
}.

#[export] Instance SimUnix_laws : UnixSocketsLaws SimUnix.
Proof.
  refine {| sockets := su_sockets; descriptors := su_open; unix_clock := su_clock;
            unix_interruptions _ := 0 |}.
  - intros w w' [[]|?|???|?|]; simpl in *; repeat case_match; simplify_eq/=; split_and!; try done; lia.
  - intros w w' []; simpl in *; repeat case_match; by simplify_eq/=.
  - intros w t w'. by simpl; intros [= <- <-].
  - intros d w Hd. simpl. lia.
  - done.
  - intros w errno w' [= <- _] [?|?]; done.
  - intros w w' [= <-]. by exists (su_peer w).
  - done.
  - intros a n w r w' E. simpl in E. repeat case_match; by simplify_eq/=.
  - intros w u n w' old v p E Hs. simpl in E. rewrite Hs, last_snoc in E. by simplify_eq/=.
  - intros p w n w' old u q [= <- <-] Hs. simpl. by rewrite Hs, su_append_app.
  - done.
  - done.
  - done.
  - done.
  - done.
Defined.

(** * The supervisor *)

Definition reply_value (state : bytes) (idem : bool) : Value.t :=
  Value.Object [(str "ok", Value.Bool true); (str "state", Value.String state);
                (str "aura_transport", Value.String (str "le")); (str "idempotent", Value.Bool idem)].

(** The texts it reads: the name of a state stands for the reply that reports it. *)
#[export] Instance sim_legacy_json : LegacyJson := {
  legacy_json p :=
    if decide (p = str "refused") then Some (Value.Object [(str "ok", Value.Bool false)])
    else if decide (p = str "again") then Some (reply_value (str "linked") true)
    else if decide (p = str "garbage") then None
    else Some (reply_value p false);
}.

Definition legacy_with (peer : Z) (backlog : nat) (replies : list bytes)
  : LegacyV04PairBackend SimUnix :=
  mkLegacyBackend (str "/run/supervisor.sock") (from_secs 1) (sim_unix peer backlog replies).

Record ReadyProbe := mkReadyProbe {}.
#[export] Instance ReadyProbe_probe : PairConfigurationProbe ReadyProbe := {
  pair_configuration p := (Ok observation_ready, p);
}.
