(* ===== verification/Witnesses.v ===== *)
(** The properties of the library at concrete inputs: every hypothesis of a
    property holds on the simulated installation. *)
From stdpp Require Import relations.
From S2P Require Import Prelude Bytes Backend Model Journal JournalSim Control Controller ControllerSpec.
From S2P Require Import AuraWake Bluez AuraBluez JblGatt BroadcastGena BackendNative NativeSpec.
From S2P Require Import Simulation.

(** A run and its result: [p = (fst p, snd p)]. *)
Ltac run :=
  match goal with
  | |- ?g => tryif has_evar g then apply surjective_pairing else (vm_compute; reflexivity)
  end.

(** * The controller *)

Definition silent_started : sim_controller := snd (start 0 silent).
Definition silent_retried : sim_controller := snd (stop 1 (snd (status 1 silent_started))).

Lemma unresolved_latch_holds_witness :
  unresolved_action silent_started = true /\ unresolved_action silent_retried = true /\
  role_writes (ctl_backend silent_retried) = role_writes (ctl_backend silent_started).
Proof.
  split; [by vm_compute|].
  destruct (unresolved_latch_holds silent_started silent_retried) as (U & _ & W).
  - by vm_compute.
  - eapply rtc_l; [eapply (plain_status 1); run|]. eapply rtc_l; [|apply rtc_refl].
    by eapply (plain_mutate 1 ControllerAction.Stop); [|run].
  - by split.
Defined.

Lemma backend_runs_behind_latch_witness :
  latched (ctl_journal (snd (admit_action 0 ControllerAction.Start good))) /\
  exists p, exact_membership (ctl_probe good) p.
Proof.
  assert (admit_action 0 ControllerAction.Start good =
    (None, snd (admit_action 0 ControllerAction.Start good))) as E by by vm_compute.
  pose proof (backend_runs_behind_latch _ _ _ _ E) as T.
  exact (conj (proj1 T) (proj1 (proj2 (proj2 T)))).
Defined.

Lemma uncertain_outcome_stays_latched_witness :
  unresolved_action silent_retried = true /\ latched (ctl_journal silent_retried).
Proof.
  apply (uncertain_outcome_stays_latched 0 ControllerAction.Start silent silent_started
    silent_retried (fst (start 0 silent))); [run|by vm_compute; left|].
  eapply rtc_l; [eapply (unsettled_status 1); run|]. eapply rtc_l; [|apply rtc_refl].
  apply (unsettled_mutate 1 ControllerAction.Stop (snd (status 1 silent_started))
    (fst (stop 1 (snd (status 1 silent_started))))); [run|].
  vm_compute. by intros [?|?].
Defined.

Definition muted : sim_controller := snd (start 0 mute).

Lemma rejected_sends_nothing_witness :
  result_outcome (fst (start 0 mute)) = ControllerActionOutcome.RejectedBeforeSend /\
  role_writes (ctl_backend muted) = role_writes (ctl_backend mute).
Proof.
  split; [by vm_compute|].
  apply (rejected_sends_nothing 0 ControllerAction.Start mute muted (fst (start 0 mute)));
    [run|left; by vm_compute].
Defined.

Definition linked : sim_controller := snd (start 0 good).


Lemma silent_started_reachable : reachable silent_started.
Proof.
  exists silent_pair, (mkSimProbe []), (fresh_journal []).
  eapply rtc_l; [|apply rtc_refl]. eapply (step_mutate 0 ControllerAction.Start). run.
Qed.

Lemma reachable_invariant_witness : wf silent_started.
Proof.
  apply (reachable_invariant silent_started). exact silent_started_reachable.
Defined.

Lemma revision_advances_witness :
  (revision good < revision linked)%Z /\ result_revision (fst (start 0 good)) = revision linked.
Proof.
  destruct (revision_advances 0 ControllerAction.Start good linked (fst (start 0 good)))
    as (L & R & _); [by vm_compute|run|]. by split.
Defined.

Lemma recovery_gate_witness :
  result_failure (fst (recover_stop 0 good)) = Some ControllerFailure.RecoveryNotAllowed /\
  ctl_backend (snd (recover_stop 0 good)) = ctl_backend good.
Proof.
  destruct (recovery_gate 0 good (snd (recover_stop 0 good)) (fst (recover_stop 0 good)))
    as [G N]; [run|].
  assert (F : result_failure (fst (recover_stop 0 good)) = Some ControllerFailure.RecoveryNotAllowed).
  { apply G. by apply not_recoverable. }
  split; [exact F|]. by apply N.
Defined.

Lemma mutate_refines_latch_witness :
  Latch.step (abstract silent_started) ControllerAction.Stop
    (result_outcome (fst (stop 1 silent_started))) (result_failure (fst (stop 1 silent_started)))
    (abstract (snd (stop 1 silent_started))).
Proof.
  apply (mutate_refines_latch 1 ControllerAction.Stop silent_started
    (snd (stop 1 silent_started)) (fst (stop 1 silent_started)));
    [exact silent_started_reachable|run].
Defined.

(** * The native pair *)

Definition good_armed := snd (native_start good_pair).

Lemma native_start_order_witness :
  lifecycle good_armed = PairLifecycle.Linked /\
  exists response, enter (jbl good_pair) = (PlayTogetherWriteResult.Accepted response, jbl good_armed).
Proof.
  destruct (native_start_order good_pair good_armed (fst (native_start good_pair)))
    as (_ & B & _ & A); [run|].
  split; [|apply B; by vm_compute].
  destruct (A (mkPairActionReceipt PairBackendKind.NativePair PairLifecycle.Linked
    PairBackendEvidence.BroadcastBusinessNotification false)) as (_ & L & _); [by vm_compute|done].
Defined.

Definition good_stopped := snd (native_stop good_armed).

Lemma native_stop_order_witness :
  lifecycle good_stopped = PairLifecycle.Ready /\
  exists a0 a, freshly_acquired (aura_identity good_armed) a0 a /\
    aura_stop a = (AuraActionResult.Accepted, aura good_stopped).
Proof.
  destruct (native_stop_order good_armed good_stopped (fst (native_stop good_armed)))
    as (B & _ & A); [run|].
  split; [|apply B; by vm_compute].
  destruct (A (mkPairActionReceipt PairBackendKind.NativePair PairLifecycle.Ready
    PairBackendEvidence.BroadcastBusinessNotification false)) as (_ & L & _); [by vm_compute|done].
Defined.

Definition silent_failure : PairActionFailure :=
  mkPairActionFailure PairBackendKind.NativePair PairBackendError.AuraAcknowledgementTimedOut
    (Some PairLifecycle.Linking).

Lemma native_latch_terminal_witness :
  fst (native_start silent_pair) = PairActionResult.OutcomeUnknown silent_failure /\
  fst (native_stop (snd (native_start silent_pair))) = PairActionResult.OutcomeUnknown silent_failure.
Proof.
  split; [by vm_compute|].
  destruct (native_latch_terminal silent_pair (snd (native_start silent_pair))
    (snd (native_start silent_pair)) silent_failure) as (_ & _ & E & _).
  - left. by vm_compute.
  - apply rtc_refl.
  - by rewrite E.
Defined.

Lemma native_health_conservative_witness :
  health_level_of (fst (native_health good_armed)) = PairHealthLevel.Healthy.
Proof.
  apply (native_health_conservative good_armed (snd (native_health good_armed))
    (fst (native_health good_armed))); [run|].
  split_and!; [by vm_compute|right; by vm_compute|left; by vm_compute].
Defined.

Definition armed_coordinator :=
  snd (coordinator_arm BroadcastAction.Stop jbl_fixture
    (mkCoordinator (mkSimBusiness []) (gatt_with two_transactions))).

Lemma coordinator_confirms_and_cleans_up_witness :
  jbl_bearer (mutation (snd (coordinator_execute BroadcastAction.Stop jbl_fixture armed_coordinator)))
    = None.
Proof.
  pose proof (coordinator_confirms_and_cleans_up BroadcastAction.Stop jbl_fixture armed_coordinator
    (snd (coordinator_execute BroadcastAction.Stop jbl_fixture armed_coordinator))
    (fst (coordinator_execute BroadcastAction.Stop jbl_fixture armed_coordinator))
    (surjective_pairing _)) as E.
  destruct (execute_mutation _ _) as [sent m1]. destruct E as [E _]. exact (f_equal jbl_bearer E).
Defined.

(** * The links *)

Definition silent_core : sim_aura :=
  mkAuraControlCore (mkSimLink 0 true [Err AuraFailureReason.AcknowledgementTimedOut]) None.
Definition silent_core1 := snd (command AuraPlayTogetherCommand.On silent_core).

Lemma aura_command_sent_once_witness :
  core_writes silent_core1 = 1 /\
  forall cmd, command cmd silent_core1 =
    (AuraActionResult.OutcomeUnknown AuraFailureReason.AcknowledgementTimedOut, silent_core1).
Proof.
  split; [by vm_compute|].
  destruct (aura_command_sent_once AuraPlayTogetherCommand.On silent_core silent_core1
    (fst (command AuraPlayTogetherCommand.On silent_core))) as (_ & _ & _ & U); [done|run|].
  apply (U AuraFailureReason.AcknowledgementTimedOut silent_core1); [by vm_compute|apply rtc_refl].
Defined.

Definition gatt0 : sim_gatt := gatt_with two_transactions.
Definition gatt1 := snd (jbl_gatt_arm jbl_fixture gatt0).
Definition gatt2 := snd (jbl_gatt_execute BroadcastCommand.Stop gatt1).

Lemma jbl_gatt_one_frame_per_arm_witness :
  fst (jbl_gatt_execute BroadcastCommand.Stop gatt1) = Ok tt /\ jbl_bearer gatt2 = None.
Proof.
  split; [by vm_compute|].
  apply (jbl_gatt_one_frame_per_arm jbl_fixture BroadcastCommand.Stop gatt0 gatt1 gatt2
    (fst (jbl_gatt_arm jbl_fixture gatt0)) (fst (jbl_gatt_execute BroadcastCommand.Stop gatt1)));
    run.
Defined.

(** The profile connects, the advertisement comes, and the release is seen. *)
Record SimWake := mkSimWake { wake_released : result bool AuraWakeIoFailure.t }.

#[export] Instance SimWake_bluez : AuraWakeBluez SimWake := {
  inspect_stable_device _ b := (Ok (mkStableAuraState true StableAddressKind.Public true true false), b);
  connect_profile _ _ _ b := (Ok tt, b);
  disconnect_profile _ _ _ b := (Ok tt, b);
  wait_profile_released _ _ _ b := (wake_released b, b);
}.
#[export] Instance SimWake_observer : AuraWakeFddfObserver SimWake := {
  wait_for_fresh_fddf _ _ o :=
    (Ok (Some (mkFreshFddfObservation true FddfAddressKind.ResolvablePrivate
                 AURA_STUDIO_5_PRODUCT_ID true)), o);
}.

Lemma acquire_aura_wake_cleans_up_witness :
  let b := mkSimWake (Ok true) in
  fst (acquire_aura_wake aura_fixture default_wake_timings b) =
    Ok (mkAuraWakeSuccess true AuraWakeCleanup.Released) /\
  exists b2 r1 b3, disconnect_profile aura_fixture A2DP_SINK_PROFILE_UUID
    (release_timeout default_wake_timings) b2 = (r1, b3).
Proof.
  split; [by vm_compute|].
  destruct (acquire_aura_wake_cleans_up aura_fixture default_wake_timings (mkSimWake (Ok true))
    (mkSimWake (Ok true)) (Ok (mkAuraWakeSuccess true AuraWakeCleanup.Released)))
    as [(_ & f & E)|(_ & _ & _ & _ & _ & b2 & r1 & b3 & _ & _ & _ & _ & _ & D & _)].
  - by vm_compute.
  - discriminate E.
  - exists b2, r1, b3. exact D.
Defined.

(** The stable connection fails in its setup, the wake works, and the second
    stable connection succeeds. *)
Record SimCold := mkSimCold { stable_script : list (result unit AuraFailureReason.t) }.
#[export] Instance SimCold_ops : ColdConnectOps SimCold unit := {
  connect_stable _ o := (next (Ok tt) (stable_script o), mkSimCold (tail (stable_script o)));
  wake_once o := (Ok tt, o);
  connect_le o := (Ok tt, o);
}.
Definition cold : SimCold := mkSimCold [Err AuraFailureReason.NotificationSetupFailed].

Lemma connect_cold_bearer_order_witness :
  exists e1 ew rest,
    calls (snd (connect_cold_bearer (mkRecorded cold []))) =
      (ColdCall.Stable, Some e1) :: (ColdCall.Wake, ew) :: rest.
Proof.
  destruct (connect_cold_bearer_order cold (fst (connect_cold_bearer (mkRecorded cold [])))
    (snd (connect_cold_bearer (mkRecorded cold [])))) as [[E _]|(e1 & ew & rest & _ & E & _)];
    [run|vm_compute in E; discriminate E|].
  exists e1, ew, rest. exact E.
Defined.

(** A clock that advances by what is paused for. *)
#[export] Instance SimPoll : ReleasePoll Z := {
  poll_now e := (e, e);
  observe_release _ e := (Ok MediaControlReleaseObservation.Connected, e);
  pause d e := (e + d)%Z;
}.
#[export] Instance SimPoll_laws : ReleasePollLaws Z.
Proof. refine {| time e := e |}; intros; simpl in *; simplify_eq/=; lia. Defined.

Lemma poll_media_control_release_terminates_witness :
  exists r e, poll_media_control_release 101 (from_secs 1) 0%Z = Some (r, e) /\ r <> Ok false.
Proof.
  destruct (poll_media_control_release_terminates 100 (from_secs 1) 0%Z) as (r & e & E & _ & N);
    [by vm_compute|].
  exists r, e. by split.
Defined.

(** The advertisement of the fixture, seen on a device known before. *)
Definition fddf_uuid : bytes := HARMAN_FDDF_UUID.
Definition aura_payload : bytes :=
  AURA_STUDIO_5_PID ++ replicate (STABLE_IDENTITY_OFFSET - 2) (z2b 0) ++ binary aura_fixture.
Definition aura_event : ScanEvent.t :=
  ScanEvent.DevicePropertyChanged (str "a") (DeviceProperty.ServiceData_ {[ fddf_uuid := aura_payload ]})
    true (Some AddressType.LeRandom).

Lemma scan_once_fresh_only_witness :
  exists before event after map,
    [ScanEvent.AdapterPropertyChanged; aura_event] = before ++ event :: after /\
    fresh_evidence fddf_uuid aura_fixture (str "a") event map.
Proof.
  destruct (scan_once_fresh_only {[ str "a" ]} {[ str "a" ]} true fddf_uuid aura_fixture
    [ScanEvent.AdapterPropertyChanged; aura_event] (str "a"))
    as (before & event & after & map & E & F & _); [by vm_compute|].
  exists before, event, after, map. by split.
Defined.
