(* ===== verification/NetWitnesses.v ===== *)
(** The properties of the service boundary at concrete inputs: every hypothesis
    holds on the simulated service. *)
From stdpp Require Import relations.
From S2P Require Import Prelude Bytes Tcp LocalModel LocalClient Web WebSpec Http HttpSpec ClientSpec.
From S2P Require Import Backend Journal JournalSim Model Control Controller ControllerSpec.
From S2P Require Import AuraBluez BackendNative NativeSpec JblClient BodySpec JblSpec Simulation.
From S2P Require Import Service ServiceSpec WebServer WebServerSpec System Loopback NetSimulation.

(** A run and its result: [p = (fst p, snd p)]. *)
Ltac run :=
  match goal with
  | |- ?g => tryif has_evar g then apply surjective_pairing else (vm_compute; reflexivity)
  end.

(** A run that ended well. *)
Definition ran_ok {T E W} (o : option (result T E * W)) : bool :=
  match o with Some (Ok _, _) => true | _ => false end.
Lemma ran_ok_inv {T E W} (o : option (result T E * W)) :
  ran_ok o = true -> exists r w, o = Some (Ok r, w).
Proof. destruct o as [[[r|e] w]|]; [|done|done]. eauto. Qed.
Lemma pair_of_fst {A B} (p : A * B) a : fst p = a -> p = (a, snd p).
Proof. by intros <-; destruct p. Qed.
Lemma is_ok_inv {T E} (r : result T E) : is_ok r = true -> exists x, r = Ok x.
Proof. destruct r; [eauto|done]. Qed.

(** * The HTTP boundary *)

Definition healthz_request : bytes := encode_request DEFAULT_WEB_PORT GET (str "/healthz") [] [].
Definition start_request (n : Z) : bytes :=
  encode_request DEFAULT_WEB_PORT POST (str "/api/start")
    (mutation_headers DEFAULT_WEB_PORT (csrf_token sim_security) n) EMPTY_OBJECT.

Lemma framing_agrees_with_parsing_witness :
  request_frame healthz_request = RequestFrame.Complete /\
  is_err (parse_request (healthz_request ++ str "GET")) = true.
Proof.
  split; [by vm_compute|].
  apply (framing_agrees_with_parsing healthz_request (str "GET")); [done|by vm_compute].
Defined.

Lemma mutation_needs_authorization_witness :
  response_status (fst (handle (start_request 0) sim_app)) = 200%Z /\
  security (snd (handle (start_request 0) sim_app)) = sim_security.
Proof.
  split; [by vm_compute|].
  apply (mutation_needs_authorization (start_request 0) sim_app
    (snd (handle (start_request 0) sim_app)) (fst (handle (start_request 0) sim_app))).
  apply surjective_pairing.
Defined.

Lemma sim_port : valid_port DEFAULT_WEB_PORT.
Proof. unfold valid_port, DEFAULT_WEB_PORT. lia. Qed.

Lemma wf_healthy : wf (controller healthy_service).
Proof. apply wf_init. Qed.

Lemma unsaturated_healthy : unsaturated (controller healthy_service).
Proof. by vm_compute. Qed.

Lemma server_responses_read_back_witness :
  is_ok (parse_response (to_http1_bytes (fst (handle healthz_request sim_app)))) = true.
Proof.
  rewrite (server_responses_read_back healthz_request sim_app
    (snd (handle healthz_request sim_app)) (fst (handle healthz_request sim_app)));
    [done|apply surjective_pairing|exact sim_security_minted|exact wf_healthy|by vm_compute].
Defined.

(** * The client *)

#[local] Abbreviation start_once fuel :=
  (mutate_with_body fuel DEFAULT_WEB_PORT (str "/api/start") LocalActionName.Start EMPTY_OBJECT
    sim_network).

Lemma mutation_posts_once_witness :
  exists r w, start_once 100 = Some (Ok r, w) /\ LocalModel.action r = LocalActionName.Start.
Proof.
  destruct (ran_ok_inv (start_once 100)) as (r & w & E); [by vm_compute|].
  exists r, w. split; [done|].
  destruct (mutation_posts_once 100 DEFAULT_WEB_PORT (str "/api/start") EMPTY_OBJECT
    LocalActionName.Start sim_network (Ok r) w E) as (sent & _ & _ & H).
  exact (proj1 (H r eq_refl)).
Defined.

Definition plenty : nat := Z.to_nat 65537.

Lemma mutation_ends_witness : exists r w, start_once plenty = Some (r, w).
Proof.
  apply (mutation_ends plenty DEFAULT_WEB_PORT).
  - exact sim_port.
  - apply Nat.leb_le. by vm_compute.
  - apply Nat.leb_le. by vm_compute.
  - unfold enough, plenty. rewrite Z2Nat.id by lia. by vm_compute.
Defined.

Lemma client_start_delivered :
  exists w, hosted w = mkWebApp after_start sim_security /\
    start_once plenty = Some (Ok (local_action_result sim_result), w).
Proof.
  apply (client_drives_controller plenty sim_network (str "/api/start") WebMutation.Start
    MutationBody.EmptyObject EMPTY_OBJECT sim_status after_status sim_result after_start).
  - split; [exact sim_security_minted|exact sim_port|exact wf_healthy|exact I].
  - unfold plenty. rewrite Z2Nat.id by lia. by vm_compute.
  - by vm_compute.
  - by vm_compute.
  - apply Nat.leb_le. by vm_compute.
  - apply surjective_pairing.
  - by vm_compute.
  - apply surjective_pairing.
  - by vm_compute.
  - split; by vm_compute.
  - split; by vm_compute.
Defined.

(** * The actor and the process *)

#[local] Abbreviation start_at n a := (mutate_if_revision n WebMutation.Start (a : sim_service)).

Lemma one_mutation_per_revision_witness :
  is_ok (fst (start_at 0 healthy_service)) = true /\
  fst (start_at 0 (snd (start_at 0 healthy_service))) = Err tt.
Proof.
  split; [by vm_compute|].
  destruct (is_ok_inv (fst (start_at 0 healthy_service))) as [result E]; [by vm_compute|].
  destruct (one_mutation_per_revision 0 WebMutation.Start healthy_service
    (snd (start_at 0 healthy_service)) (Ok result)) as (_ & _ & H).
  - exact (pair_of_fst _ _ E).
  - exact unsaturated_healthy.
  - destruct (H result eq_refl) as [_ Hr]. exact (f_equal fst (Hr WebMutation.Start)).
Defined.

#[local] Abbreviation silent_after := (snd (start_at 0 silent_service)).

Lemma wf_silent : wf (controller silent_service).
Proof. apply wf_init. Qed.

Lemma wf_started n (a : sim_service) : wf (controller a) -> wf (controller (snd (start_at n a))).
Proof.
  intros Ha. destruct (start_at n a) as [r a'] eqn:E.
  exact (proj1 (actor_mutate_ok _ _ _ _ _ E Ha)).
Qed.

Lemma wf_silent_after : wf (controller silent_after).
Proof. exact (wf_started 0 silent_service wf_silent). Qed.

Lemma exit_is_safe_witness :
  unresolved_action (controller silent_after) = true /\
  fst (shutdown_for_exit silent_after) = Err ServiceRuntimeError.GracefulShutdownRejected.
Proof.
  assert (unresolved_action (controller silent_after) = true) as U by by vm_compute.
  split; [exact U|].
  exact (proj1 (proj1 (exit_is_safe silent_after (snd (shutdown_for_exit silent_after))
    (fst (shutdown_for_exit silent_after)) (surjective_pairing _) wf_silent_after) U)).
Defined.

Definition runtime_os : SimOs := mkSimOs [] false.
#[local] Abbreviation lock_taken := (acquire (Some (str "/run/user/1000")) runtime_os).

Lemma process_lock_all_or_nothing_witness :
  exists lock, fst lock_taken = Ok lock /\ opened (snd lock_taken) (session_file lock) = Some true.
Proof.
  destruct (is_ok_inv (fst lock_taken)) as [lock E]; [by vm_compute|].
  exists lock. split; [done|].
  pose proof (process_lock_all_or_nothing (Some (str "/run/user/1000")) runtime_os (fst lock_taken)
    (snd lock_taken) (surjective_pairing _)) as H. rewrite E in H. apply H.
Defined.

Lemma service_started_at_most_once_witness :
  exists r e, ensure_user_service 202 (mkSimManager 0 0 false) = Some (r, e) /\ starts e <= 1.
Proof.
  destruct (service_started_at_most_once 202 (mkSimManager 0 0 false)) as (r & e & E & H & _); [lia|].
  exists r, e. split; [exact E|exact (proj2 H)].
Defined.

(** A START whose speaker stays silent, the exit, and the next process. *)
Definition crashed_dir : SimDir := rebooted (directory (ctl_journal (controller silent_after))).

Definition silent_result : ControllerActionResult :=
  default sim_result (result_ok (fst (start_at 0 silent_service))).

Lemma uncertainty_outlives_crash_witness :
  exists j, fst (open_records crashed_dir) = Ok j /\
    unresolved_action (with_journal (pair_over []) sim_probe j) = true.
Proof.
  destruct (is_ok_inv (fst (open_records crashed_dir))) as [j Ej]; [by vm_compute|].
  exists j. split; [exact Ej|].
  assert (start_at 0 silent_service = (Ok silent_result, silent_after)) as E
    by (apply (pair_of_fst (start_at 0 silent_service) (Ok silent_result)); vm_compute; reflexivity).
  assert (Latch.uncertain (result_outcome silent_result)) as U.
  { assert (result_outcome silent_result = ControllerActionOutcome.OutcomeUnknown) as -> by
      (vm_compute; reflexivity). by left. }
  exact (proj1 (uncertainty_outlives_crash 0 WebMutation.Start silent_service silent_after
    silent_after silent_result crashed_dir j (snd (open_records crashed_dir)) E U (rtc_refl _ _)
    (crashed_rebooted _) (pair_of_fst _ _ Ej) (pair_over []) sim_probe 0%Z sim_security
    (mkWebApp (actor_new (with_journal (pair_over []) sim_probe j) 0%Z) sim_security)
    eq_refl eq_refl)).
Defined.

Lemma served_status_accepted_witness :
  exists s, s = fst (Controller.status 0 (controller healthy_service)) /\
    decode_status (status_value (status_body s)) = Some (local_status s).
Proof.
  destruct (Controller.status 0 (controller healthy_service)) as [s c] eqn:E.
  exists s. split; [reflexivity|].
  exact (proj1 (served_status_accepted 0 (controller healthy_service) c s E wf_healthy I)).
Defined.

(** * The server *)

(** A START split in two, and a request with bytes queued behind it. *)
Definition sim_traffic : SimNet :=
  sim_net [[take 40 (start_request 0); drop 40 (start_request 0)]; [healthz_request; str "x"]].
Definition sim_server : WebServer sim_service := mkWebServer sim_address sim_app default_options.

Lemma server_runs_complete_requests_witness :
  exists r w requests, serve 50 sim_server sim_traffic = Some (r, w) /\
    Forall (fun raw => request_frame raw = RequestFrame.Complete) requests /\
    r = Ok (actor (handled_all requests sim_app)).
Proof.
  destruct (ran_ok_inv (serve 50 sim_server sim_traffic)) as (a & w & E); [by vm_compute|].
  destruct (server_runs_complete_requests 50 sim_server sim_traffic (Ok a) w E)
    as (opened & requests & _ & _ & Hf & [Hr|Hr] & _); [|discriminate Hr].
  exists (Ok a), w, requests. split; [exact E|]. by split.
Defined.

(** * The speaker on the LAN *)

#[local] Abbreviation entered := (send_play_together PlayTogetherCommand.Enter (lan 503)).


#[local] Abbreviation membership :=
  (pair_configuration_status SUPPORTED_JBL_MODEL jbl_fixture aura_fixture (lan 200)).

Lemma membership_read_exact_witness :
  is_ok (fst membership) = true /\ client_posts (snd membership) = 0.
Proof.
  split; [by vm_compute|].
  exact (proj1 (membership_read_exact SUPPORTED_JBL_MODEL jbl_fixture aura_fixture (lan 200)
    (snd membership) (fst membership) (surjective_pairing _))).
Defined.
