(* ===== verification/HostWitnesses.v ===== *)
(** The properties of the host side (private files, TLS, configuration, command
    line) at concrete inputs: every hypothesis holds on the simulated host. *)
From S2P Require Import Prelude Bytes Tcp LocalModel LocalClient Web WebSpec Http HttpSpec ClientSpec.
From S2P Require Import Backend Journal JournalSim Model Control Controller ControllerSpec.
From S2P Require Import AuraBluez BackendNative NativeSpec JblClient BodySpec JblSpec Simulation.
From S2P Require Import Service ServiceSpec WebServer WebServerSpec System Loopback NetSimulation.
From S2P Require Import PrivateFile Tls Config ConfigSpec Cli CliSpec HostSimulation.

(** * Private files *)

Definition home_dir : SimDir := sim_new [(str "devices.env", Some (str "# nothing"))] [].
Definition home_path : bytes := str "/home/user/.config/jbl-aura-link-rust/devices.env".

#[local] Abbreviation read_home max :=
  (read_private_file_if_present (H := bytes) home_path max PrivateFileKind.Config home_dir).

Lemma private_file_whole_or_refused_witness :
  read_home 9 = (Ok (Some (str "# nothing")), home_dir) /\
  (Z.of_nat (length (str "# nothing")) <= 9)%Z /\
  fst (read_home 8) = Err JblError.ConfigTooLarge.
Proof.
  split; [by vm_compute|]. split; [|by vm_compute].
  assert (read_home 9 = (Ok (Some (str "# nothing")), home_dir)) as E by by vm_compute.
  assert (0 <= 9 < u64_max)%Z as L by by vm_compute.
  destruct (private_file_whole_or_refused home_path 9 PrivateFileKind.Config home_dir
    _ home_dir L E) as (file & w1 & m & w2 & H).
  exact (proj2 (proj2 (proj2 (proj2 H)))).
Defined.

(** * TLS *)

Definition pinned : PinnedOpenSslConnector (list X509StoreContext) :=
  mkPinnedOpenSslConnector (W := list X509StoreContext) tt (str "pin").
Definition genuine : list X509StoreContext :=
  [mkX509StoreContext 1 (Some (str "issuer")); mkX509StoreContext 0 (Some (str "pin"))].
Definition impostor : list X509StoreContext := [mkX509StoreContext 0 (Some (str "other"))].

Lemma pinned_session_only_witness :
  is_ok (fst (connect pinned (str "jbl") tt genuine)) = true /\
  fst (connect pinned (str "jbl") tt impostor) = Err pin_mismatch /\
  fst (connect pinned (str "jbl") tt []) = Err pin_mismatch /\
  exists leaf, last_leaf genuine = Some leaf /\ carries_pin (str "pin") leaf.
Proof.
  split; [by vm_compute|]. split; [by vm_compute|]. split; [by vm_compute|].
  assert (connect pinned (str "jbl") tt genuine = (Ok tt, genuine)) as E by by vm_compute.
  exact (pinned_session_only pinned (str "jbl") tt genuine (Ok tt) genuine tt eq_refl E).
Defined.

(** * The configuration *)

Definition sim_config : RuntimeConfig := {|
  Config.address := str "192.0.2.10";
  certificate := str "/private/client-cert.pem";
  private_key := str "/private/client-key.pem";
  tls_sha256 := concat (replicate 32 (str "0f"));
  jbl_identity := mkDeviceIdentity (z2b 2) (z2b 0) (z2b 0) (z2b 0) (z2b 0) (z2b 1);
  expected_model := str "JBL Authentics 300";
  aura_identity := mkDeviceIdentity (z2b 2) (z2b 0) (z2b 0) (z2b 0) (z2b 0) (z2b 2);
  timeout := from_secs 5;
  gena_callback_port := 48098;
  broadcast_confirmation := BroadcastConfirmation.Ack;
|}.

Lemma sim_config_loads :
  load (H := bytes) None (sim_new [] []) = (Ok sim_config, sim_new [] []).
Proof. by vm_compute. Qed.

Lemma loaded_config_valid_witness : valid_config sim_config.
Proof.
  exact (loaded_config_valid (H := bytes) None (sim_new [] []) sim_config (sim_new [] [])
           sim_config_loads).
Defined.

#[local] Abbreviation configured :=
  (install_private_default_from_environment (F := bytes) (sim_new [] [])).

(** What the configure command makes of the environment. *)
Lemma environment_config overrides config :
  environment_overrides (sim_new [] []) = Ok overrides ->
  load_from_source (H := bytes) ConfigSource.None_ overrides (sim_new [] []) =
    (Ok config, sim_new [] []) ->
  config = sim_config.
Proof.
  assert ((let? overrides := environment_overrides (sim_new [] []) in
           fst (load_from_source (H := bytes) ConfigSource.None_ overrides (sim_new [] [])))
          = Ok sim_config) as E by by vm_compute.
  intros Eo El. rewrite Eo in E. cbn beta iota in E. rewrite El in E. by injection E.
Qed.

Lemma installed_config_loads_back_witness :
  fst configured = Ok tt /\
  durable (str "devices.env") (config_payload sim_config) (snd configured) /\
  load_from_source (H := bytes) (ConfigSource.Required home_path) ∅ (snd configured) =
    (Ok (reloaded sim_config), snd configured) /\
  reloaded sim_config = sim_config.
Proof.
  assert (configured = (Ok tt, snd configured)) as E by by vm_compute.
  split; [by rewrite E|].
  destruct (installed_config_loads_back (F := bytes) (sim_new [] []) (snd configured))
    as (overrides & config & Eo & El & Hd & Hl & Hr).
  - by intros directory [= <-].
  - exact E.
  - pose proof (environment_config overrides config Eo El) as ->.
    split; [exact Hd|]. split; [apply Hl; by vm_compute|]. apply Hr. by vm_compute.
Defined.

(** White space around the model is accepted by the installation, and lost by
    the next load: the installed text names another model. *)
Definition spaced_config : RuntimeConfig := {|
  Config.address := Config.address sim_config;
  certificate := certificate sim_config;
  private_key := private_key sim_config;
  tls_sha256 := tls_sha256 sim_config;
  jbl_identity := jbl_identity sim_config;
  expected_model := str "JBL Authentics 300 ";
  aura_identity := aura_identity sim_config;
  timeout := timeout sim_config;
  gena_callback_port := gena_callback_port sim_config;
  broadcast_confirmation := broadcast_confirmation sim_config;
|}.

Lemma installed_model_loses_white_space :
  let run := install_private_config home_path spaced_config (sim_new [] []) in
  fst run = Ok tt /\
  fst (load_from_source (H := bytes) (ConfigSource.Required home_path) ∅ (snd run)) =
    Ok (reloaded spaced_config) /\
  reloaded spaced_config = sim_config.
Proof. split_and!; by vm_compute. Qed.

Lemma configure_all_or_nothing_witness :
  fst configured = Ok tt /\
  exists config, valid_config config /\
    durable (str "devices.env") (config_payload config) (snd configured).
Proof.
  assert (fst configured = Ok tt) as E by by vm_compute.
  split; [exact E|].
  destruct (configure_all_or_nothing (F := bytes) (sim_new [] []) (fst configured) (snd configured)
    (surjective_pairing _)) as [[H _]|(config & V & _ & D)].
  - rewrite E in H. discriminate H.
  - exists config. split; [exact V|exact (D E)].
Defined.

(** * The command line *)

Definition start_options : Options := mkOptions CliCommand.Start None false false false.

Lemma arguments_exact_witness :
  parse_options_from [str "--json"; str "stop"] =
    Ok (mkOptions CliCommand.Stop None true false false) /\
  is_err (parse_options_from [str "recover-stop"]) = true.
Proof. split; by vm_compute. Defined.

Definition ran_fine {T E W} (o : option (result T E * W)) : bool :=
  match o with Some (Ok _, _) => true | _ => false end.

Lemma ran_fine_inv {E W} (o : option (result unit E * W)) :
  ran_fine o = true -> exists w, o = Some (Ok tt, w).
Proof. destruct o as [[[[]|e] w]|]; [|done..]. eauto. Qed.

#[local] Abbreviation start_command := (run_local_command 100 start_options sim_network).

