(* ===== verification/GenaWitnesses.v ===== *)
(** The properties of the business observer at concrete inputs: every hypothesis
    holds on the simulated network; and the examples of the source's tests. *)
From stdpp Require Import relations.
From S2P Require Import Prelude Bytes Backend Model Journal JournalSim Control Controller ControllerSpec.
From S2P Require Import AuraWake Bluez AuraBluez JblGatt BackendNative NativeSpec Simulation.
From S2P Require Import Tcp BroadcastGena GenaBody GenaHttp GenaHttpSpec Gena GenaSpec GenaSimulation.

(** * The examples *)

Definition jbl_socket : SocketAddr.t :=
  SocketAddr.V4 (mkSocketAddrV4 (mkIpv4 192 0 2 10) 41000).
Definition stranger : SocketAddr.t :=
  SocketAddr.V4 (mkSocketAddrV4 (mkIpv4 192 0 2 66) 41000).

Example constructor_addresses :
  map (fun a => is_ok (with_callback_port (W := SimNet) (str a) 8098))
    ["::1"; "0.0.0.0"; "127.0.0.1"; "224.0.0.1"; "255.255.255.255"; "192.0.2.010"; "192.0.2.10"]%string
    = [false; false; false; false; false; false; true] /\
  is_ok (with_callback_port (W := SimNet) (str "192.0.2.10") 80) = false.
Proof. by vm_compute. Qed.

Example direct_property : parse_event_body (event_text 33) = Ok (Some 33%Z).
Proof. by vm_compute. Qed.

Example head_rejections :
  map (fun h => is_ok (parse_http_head h MessageKind.Request false))
    [str "NOTIFY / HTTP/1.1" ++ CRLF ++ str "Content-Length: 1" ++ CRLF ++ str "Content-Length: 1";
     str "NOTIFY / HTTP/1.1" ++ CRLF ++ str "Transfer-Encoding: chunked";
     str "NOTIFY / HTTP/1.1" ++ CRLF ++ str "Content-Length: 65537";
     str "NOTIFY / HTTP/1.1" ++ CRLF ++ str "Content-Length: 65536"]
    = [false; false; false; true] /\
  is_ok (parse_http_head (str "NOTIFY / HTTP/1.1") MessageKind.Request true) = false.
Proof. by vm_compute. Qed.

(** * A subscription and its notification *)

Definition lines (l : list bytes) : bytes := concat (map (fun line => line ++ CRLF) l).
Definition sim_sid : bytes := str "uuid:synthetic-subscription".
Definition sim_path : bytes := CALLBACK_PREFIX ++ concat (replicate 32 (str "a5")).

Definition subscribed_answer : list bytes :=
  [lines [str "HTTP/1.1 200 OK"; str "SID: " ++ sim_sid; str "Timeout: Second-30"; []]].
Definition unsubscribed_answer : list bytes := [str "HTTP/1.1 200 O"; str "K" ++ CRLF; CRLF].

Definition notify_head (seq : Z) (content : bytes) : bytes :=
  str "NOTIFY " ++ sim_path ++ str " HTTP/1.1" ++ CRLF ++ str "SID: " ++ sim_sid ++ CRLF
    ++ str "SEQ: " ++ dec seq ++ CRLF ++ str "NT: upnp:event" ++ CRLF
    ++ str "NTS: upnp:propchange" ++ CRLF ++ str "Content-Type: text/xml; charset=utf-8" ++ CRLF
    ++ str "Content-Length: " ++ dec (Z.of_nat (length content)).
Definition notify (seq code : Z) : bytes :=
  notify_head seq (event_text code) ++ HEADER_END ++ event_text code.

(** In segments of seven bytes. *)
Fixpoint cut (fuel : nat) (s : bytes) : list bytes :=
  match fuel, s with
  | _, [] | O, _ => []
  | S fuel, _ => take 7 s :: cut fuel (drop 7 s)
  end.
Definition segmented (s : bytes) : list bytes := cut (length s) s.

(** A stranger connects first, then the JBL reports another action and the
    stop. *)
Definition sim_net : SimNet :=
  mkSimNet 0 []
    [mkSimPeer stranger [str "x"]; mkSimPeer jbl_socket (segmented (notify 4 33));
     mkSimPeer jbl_socket (segmented (notify 5 34))]
    [subscribed_answer; unsubscribed_answer] [] [].
Definition sim_observer : GenaBroadcastObserver SimNet :=
  mkGenaBroadcastObserver (mkIpv4 192 0 2 10) EVENT_PORT 8098 false None.

Definition armed : GenaBroadcastObserver SimNet * SimNet := snd (business_arm (sim_observer, sim_net)).

Example armed_listens :
  sim_listeners (snd armed) = [1] /\
  subscription (fst armed) = Some (mkSubscription (W := SimNet) 1 sim_sid sim_path None).
Proof. by vm_compute. Qed.

Lemma sim_never_open l : ~ is_open l sim_net.
Proof. simpl. by apply not_elem_of_nil. Qed.

Lemma sim_listening : listening_inv sim_observer sim_net.
Proof. intros l. split; [intros Ho; by destruct (sim_never_open l)|done]. Qed.

Lemma armed_step : arm sim_observer sim_net = (Ok tt, fst armed, snd armed).
Proof. by vm_compute. Qed.

Lemma listener_open_iff_subscribed_witness :
  listening_inv (fst armed) (snd armed) /\
  forall r o w, observe_for OBSERVE_FUEL GenaAction.Stop BUSINESS_TIMEOUT (fst armed) (snd armed)
                  = Some (r, o, w) ->
    forall l, ~ is_open l w.
Proof.
  assert (with_callback_port (str "192.0.2.10") 8098 = Ok sim_observer) as E by by vm_compute.
  assert (rtc observer_step (sim_observer, sim_net) (fst armed, snd armed)) as R
    by (eapply rtc_once, step_arm, armed_step).
  destruct (listener_open_iff_subscribed (str "192.0.2.10") 8098 sim_observer
    (fst armed) (snd armed) sim_net E sim_never_open R) as (Hi & _ & Ho).
  split; [exact Hi|]. intros r o w Er. exact (proj2 (Ho _ _ _ _ _ Er)).
Defined.

Definition sim_coordinator :=
  snd (coordinator_arm BroadcastAction.Stop jbl_fixture
    (mkCoordinator (sim_observer, sim_net) (gatt_with two_transactions))).
Definition sim_confirmed := coordinator_execute BroadcastAction.Stop jbl_fixture sim_coordinator.


(** * The reader *)

Definition short_head : bytes := str "NOTIFY / HTTP/1.1" ++ CRLF ++ str "Content-Length: 2".
Definition short_message : HttpMessage :=
  mkHttpMessage (StartLine.Request (str "NOTIFY") (str "/"))
    {[ str "content-length" := str "2" ]} (str "ok").

Lemma message_framing_witness :
  exists rest, concat rest = [] /\
    read_http_message read_list (segmented (short_head ++ HEADER_END ++ str "ok"))
      MessageKind.Request true = (Ok short_message, rest).
Proof.
  destruct (message_framing read_list (@concat byte) MessageKind.Request true read_list_segmented)
    as (_ & _ & Hback).
  apply (Hback short_head (str "ok")).
  - split; [vm_compute; reflexivity|].
    split; [apply Nat.leb_le; vm_compute; reflexivity|vm_compute; reflexivity].
  - vm_compute. reflexivity.
Defined.
