(* ===== verification/BluezWitnesses.v ===== *)
(** The properties of the native Aura transport at concrete inputs: every
    hypothesis holds on the simulated stack. *)
From stdpp Require Import relations.
From S2P Require Import Prelude Bytes Backend Model Control AuraWake Bluez AuraBluez BluezIo BluezIoSpec.
From S2P Require Import Simulation BluezSimulation.

(** Directly, after a wake, and over the advertisement. *)
Definition connected_direct : native_aura :=
  snd (core_connect_verified aura_fixture
    (fresh_transport (stack_with true [write_reply; ack_reply]))).
Definition connected_woken : native_aura :=
  snd (core_connect_verified aura_fixture
    (fresh_transport (stack_with true [Recv.Packet [z2b 1]; write_reply; ack_reply]))).
Definition connected_le : native_aura :=
  snd (core_connect_verified aura_fixture
    (fresh_transport (stack_with false [write_reply; ack_reply]))).

Example routes :
  map (fun c : native_aura => (transport c, acquisition_route c))
      [connected_direct; connected_woken; connected_le] =
    [(Some AuraBearerTransport.BrEdr, AuraAcquisitionRoute.StableDirect);
     (Some AuraBearerTransport.BrEdr, AuraAcquisitionRoute.A2dpWakeThenStable);
     (Some AuraBearerTransport.Le, AuraAcquisitionRoute.FreshLe)].
Proof. by vm_compute. Qed.

Definition started : AuraActionResult.t * native_aura :=
  command AuraPlayTogetherCommand.On connected_direct.

Lemma aura_role_on_the_wire_witness :
  fst started = AuraActionResult.Accepted /\
  transport_sent (snd started) =
    transport_sent connected_direct ++ [role_packet AuraPlayTogetherCommand.On].
Proof.
  assert (unresolved connected_direct = None) as U by by vm_compute.
  assert (fst started = AuraActionResult.Accepted) as A by by vm_compute.
  split; [exact A|].
  destruct (aura_role_on_the_wire AuraPlayTogetherCommand.On connected_direct (snd started)
    (fst started) U (surjective_pairing _)) as (_ & _ & Hacc & _).
  exact (proj1 (Hacc A)).
Defined.

