(* ===== verification/NativeWitnesses.v ===== *)
(** The properties of the assembled native service at concrete inputs: a service
    is built on the simulated host, loses an acknowledgement, crashes, and is
    built again. *)
From stdpp Require Import relations.
From S2P Require Import Prelude Bytes Web WebSpec Http HttpSpec LocalModel LocalClient ClientSpec.
From S2P Require Import Backend Journal JournalSim Model Control Controller ControllerSpec Bluez AuraBluez.
From S2P Require Import BluezIo BluezIoSpec JblGatt BroadcastGena GenaBody GenaHttp BackendNative Gena.
From S2P Require Import NativeSpec JblClient BodySpec JblSpec PrivateFile Tls Service ServiceSpec System.
From S2P Require Import Config Signals Cli Native NativeServiceSpec Simulation BluezSimulation.
From S2P Require Import Loopback GenaSimulation NetSimulation HostSimulation NativeSimulation.

Definition quiet_network : GenaSimulation.SimNet := GenaSimulation.mkSimNet 0 [] [] [] [] [].

Lemma is_ok_value {T E} (r : result T E) : is_ok r = true -> exists x, r = Ok x.
Proof. destruct r; [eauto|done]. Qed.
Lemma with_fst {X Y} (p : X * Y) x : fst p = x -> p = (x, snd p).
Proof. by intros <-; destruct p. Qed.

(** * The first process *)

(** The Aura speaker does not acknowledge its first role command. *)
Definition host0 : native_host := native_host_with [] quiet_network (sim_new [] []).
#[local] Abbreviation process0 := (build_service native_config host0).

Lemma service_built_under_lock_witness :
  exists a, fst process0 = Ok a /\
    opened (host_locks (snd process0)) (session_file (process_lock a)) = Some true /\
    unresolved_action (controller (web_actor a)) = false.
Proof.
  destruct (is_ok_value (fst process0)) as [a Ea]; [by vm_compute|].
  exists a. split; [exact Ea|].
  destruct (service_built_under_lock native_config host0 (snd process0) (Ok a) (with_fst _ _ Ea))
    as (_ & _ & _ & Hs & _ & _ & _ & Hu).
  split; [exact Hs|]. rewrite Hu. clear Hs Hu.
  assert (option_map (fun a => is_pending (ctl_journal (controller (web_actor a))))
    (result_ok (fst process0)) = Some false) as Hp by by vm_compute.
  rewrite Ea in Hp. by injection Hp.
Defined.

Definition idle_pair : native_pair SimLan GenaSimulation.SimNet SimStack unit :=
  native_core_new (mkJblClient true [] 443 59152 (mkSimLan 0 200)) (fresh_transport (sim_stack []))
    (Ack (jbl_gatt_new (sim_stack []))) jbl_fixture aura_fixture (from_secs 2).
Definition idle_service : native_service :=
  actor_new (with_journal idle_pair sim_probe (mkFileJournal (sim_new [] []) JournalState.Clean)) 0%Z.

Definition service0 : native_service :=
  match fst process0 with Ok a => web_actor a | Err _ => idle_service end.
#[local] Abbreviation start0 := (mutate_if_revision 0 WebMutation.Start service0).
Definition result0 : ControllerActionResult :=
  match fst start0 with Ok r => r | Err _ => sim_result end.
Definition lost : native_service := snd start0.

(** The whole sequence of a START ran: both JBL commands were acknowledged and
    the role command of the receiver left last. *)
Example acknowledgement_lost :
  result_failure result0 = Some ControllerFailure.AuraAckTimeout /\
  length (role_packets (stack_sent (io_world (io (aura (ctl_backend (controller lost))))))) = 1 /\
  lan_posts (agents (jbl (ctl_backend (controller lost)))) = 1.
Proof. by vm_compute. Qed.

(** * The next process *)

Definition host1 : native_host :=
  native_host_with [] quiet_network (rebooted (directory (ctl_journal (controller lost)))).
#[local] Abbreviation process1 := (build_service native_config host1).

Definition status_request : bytes := encode_request DEFAULT_WEB_PORT GET (str "/api/status") [] [].

Lemma status_request_plain : plain_request status_request.
Proof.
  intros request E.
  assert (option_map Web.target (result_ok (parse_request status_request)) =
    Some (str "/api/status")) as Ht
    by by vm_compute.
  rewrite E in Ht. injection Ht as ->. by vm_compute.
Qed.

Lemma native_service_fails_closed_witness :
  exists a app, fst process1 = Ok a /\
    app = snd (handle status_request (mkWebApp (web_actor a) sim_security)) /\
    unresolved_action (controller (actor app)) = true /\
    Bluez.sent (io_world (io (aura (ctl_backend (controller (actor app)))))) =
      Bluez.sent (aura_stack host1).
Proof.
  destruct (is_ok_value (fst process1)) as [a Ea]; [by vm_compute|].
  eexists a, _. split; [exact Ea|]. split; [reflexivity|].
  assert (start0 = (Ok result0, lost)) as E
    by (apply (with_fst start0 (Ok result0)); vm_compute; reflexivity).
  assert (Latch.uncertain (result_outcome result0)) as U.
  { assert (result_outcome result0 = ControllerActionOutcome.OutcomeUnknown) as -> by
      (vm_compute; reflexivity). by left. }
  assert (forall d, on_disk (host_state host1) d ->
    crashed (directory (ctl_journal (controller lost))) d) as C
    by (intros d ->; apply crashed_rebooted).
  destruct (native_service_fails_closed native_config 0 WebMutation.Start service0 lost lost result0
    host1 (snd process1) a E U (rtc_refl _ _) C (with_fst _ _ Ea) sim_security
    (snd (handle status_request (mkWebApp (web_actor a) sim_security)))) as (Hu & _ & _ & Hs).
  - apply rtc_once. eapply plain_served; [apply surjective_pairing|exact status_request_plain].
  - split; [exact Hu|exact Hs].
Defined.

(** * Signals *)

Definition installed := Signals.install_termination_handlers (mkSignalState [] None ([] : list Z)).

Lemma termination_flag_tracks_signals_witness :
  flag_set 0 (fold_left after_event [Event.InstallAgain; Event.Signal 1; Event.Signal SIGTERM]
    (snd installed)) = true.
Proof.
  exact (proj1 (termination_flag_tracks_signals (mkSignalState [] None ([] : list Z)) (snd installed)
    0 [Event.InstallAgain; Event.Signal 1; Event.Signal SIGTERM] eq_refl
    (fun signal => bool_decide_eq_false_2 _ (not_elem_of_nil _)))).
Defined.
