(* ===== verification/LegacyWitnesses.v ===== *)
(** The socket backend at concrete inputs, alone and under the controller. *)
From S2P Require Import Prelude.
From S2P Require Import Bytes.
From S2P Require Import Backend.
From S2P Require Import Journal.
From S2P Require Import Model.
From S2P Require Import Controller.
From S2P Require Import Tcp.
From S2P Require Import Legacy.
From S2P Require Import LegacySpec.
From S2P Require Import LegacySimulation.

(** The reply comes in two chunks, after the backlog was full twice. *)
Definition patient : LegacyV04PairBackend SimUnix :=
  legacy_with 0 2 [str "lin"; str "ked" ++ [LF]].

Lemma legacy_action_classified_witness :
  (0 <= timeout patient)%Z /\
  exists r w', legacy_action (legacy_fuel patient) LegacyCommand.Start patient = Some (r, w') /\
    descriptors w' = 0 /\
    exists sent, sockets w' = [] ++ sent /\
      classified LegacyCommand.Start (kernel patient) r sent.
Proof.
  assert (0 <= timeout patient)%Z as Ht by by vm_compute.
  split; [exact Ht|]. exact (legacy_action_classified LegacyCommand.Start patient Ht).
Defined.

(** What an action returns and what it left on the sockets. *)
Definition observed (command : LegacyCommand.t) (b : LegacyV04PairBackend SimUnix) :=
  let '(r, b') := legacy_call command b in (r, su_sockets (kernel b'), su_open (kernel b')).

Example start_acknowledged :
  observed LegacyCommand.Start patient =
    (PairActionResult.Accepted
       (mkPairActionReceipt PairBackendKind.LegacyV04WholePair PairLifecycle.Linked
          PairBackendEvidence.LifecycleAcknowledgement false),
     [(0%Z, str "start" ++ [LF])], 0).
Proof. by vm_compute. Qed.

Example start_idempotent :
  fst (fst (observed LegacyCommand.Start (legacy_with 0 0 [str "again" ++ [LF]]))) =
    PairActionResult.Accepted
      (mkPairActionReceipt PairBackendKind.LegacyV04WholePair PairLifecycle.Linked
         PairBackendEvidence.LocalSessionState true).
Proof. by vm_compute. Qed.

(** The peer is another user: nothing is written. *)
Example stranger_rejected :
  observed LegacyCommand.Stop (legacy_with 7 0 [str "ready" ++ [LF]]) =
    (rejected_before_send PairBackendError.UntrustedSocket, [(7%Z, [])], 0).
Proof. by vm_compute. Qed.

(** The backlog stays full until the deadline. *)
Example backlog_times_out :
  observed LegacyCommand.Stop (legacy_with 0 1000 []) =
    (rejected_before_send PairBackendError.TimedOut, [(0%Z, [])], 0).
Proof. by vm_compute. Qed.

(** The connection ends without a reply: the outcome is unknown. *)
Example silence_is_unknown :
  observed LegacyCommand.Stop (legacy_with 0 0 []) =
    (outcome_unknown PairBackendError.InvalidResponse None, [(0%Z, str "stop" ++ [LF])], 0).
Proof. by vm_compute. Qed.

(** Even a clear refusal is, and so is the wrong lifecycle or a second line. *)
Example refusal_is_unknown :
  map (fun reply => fst (fst (observed LegacyCommand.Start (legacy_with 0 0 [reply]))))
    [str "refused" ++ [LF]; str "ready" ++ [LF]; str "linked" ++ [LF] ++ str "x"] =
  [outcome_unknown PairBackendError.BackendReportedFailure None;
   outcome_unknown PairBackendError.UnexpectedLifecycle (Some PairLifecycle.Ready);
   outcome_unknown PairBackendError.InvalidResponse None].
Proof. by vm_compute. Qed.

Example health_reported :
  fst (legacy_health_call (legacy_with 0 0 [str "linked" ++ [LF]])) =
    Ok (health_new PairBackendKind.LegacyV04WholePair PairLifecycle.Linked false
          AuraControlTransport.Le).
Proof. by vm_compute. Qed.

(** Under the controller, a lost reply latches, and the next action opens no
    socket at all. *)
Definition supervised := controller_new (legacy_with 0 0 []) (mkReadyProbe).
Example lost_reply_latches :
  let '(first, c1) := mutate 0 ControllerAction.Start supervised in
  let '(second, c2) := mutate 1 ControllerAction.Stop c1 in
  (result_outcome first, unresolved_action c1) = (ControllerActionOutcome.OutcomeUnknown, true) /\
  result_failure second = Some ControllerFailure.UnresolvedPriorAction /\
  su_sockets (kernel (ctl_backend c2)) = su_sockets (kernel (ctl_backend c1)).
Proof. by vm_compute. Qed.
