(* ===== verification/SessionWitnesses.v ===== *)
(** A session of the command line with the native service, on the simulated
    host: a START whose acknowledgement is lost, a STOP that is refused, and the
    recovery that settles it. *)
From stdpp Require Import relations.
From S2P Require Import Prelude Bytes Web WebSpec Http HttpSpec LocalModel LocalClient ClientSpec.
From S2P Require Import Backend JournalSim Model Control Controller ControllerSpec Bluez AuraBluez.
From S2P Require Import BluezIo BluezIoSpec JblGatt BroadcastGena GenaBody GenaHttp BackendNative Gena.
From S2P Require Import NativeSpec JblClient BodySpec JblSpec PrivateFile Tls Service ServiceSpec System.
From S2P Require Import Config Signals Cli Native NativeServiceSpec Simulation BluezSimulation Journal.
From S2P Require Import Loopback GenaSimulation NetSimulation HostSimulation NativeSimulation.
From S2P Require Import NetWitnesses NativeWitnesses Session.

Definition conversation_of : list WebMutation.t :=
  [WebMutation.Start; WebMutation.Stop; WebMutation.RecoverStop].
#[local] Abbreviation process0 := (build_service native_config host0).
#[local] Abbreviation session0 := (controller_session conversation_of service0).

(** A text per body, and the bodies of this session read back from it. *)
Definition body_text (b : Body.t) : bytes :=
  match b with
  | Body.Status s => str "status " ++ dec (body_revision s)
  | Body.Action a => str "action " ++ dec (action_body_revision a)
  | Body.Error e => e
  | Body.Readiness _ => READY_BODY
  end.
Definition session_bodies : list Body.t :=
  concat (map (fun '(s, r) => [Body.Status (status_body s); Body.Action (action_body r)]) (fst session0)).

#[local] Instance session_web : WebLibrary := {|
  from_slice := @from_slice sim_web_library;
  to_vec := body_text;
  memcmp_eq := @memcmp_eq sim_web_library;
  page_html := @page_html sim_web_library;
|}.
Definition library_of (bodies : list Body.t) : LocalLibrary := {|
  read_json content := body_value <$> find (fun b => bool_decide (body_text b = content)) bodies;
|}.
#[local] Instance session_local : LocalLibrary := library_of session_bodies.
#[local] Instance session_web_laws : WebLibraryLaws.
Proof. constructor. intros a b _. apply bool_decide_eq_true. Defined.

(** The STOP is refused while the START is unresolved, and the recovery does not
    reach the speaker, either. *)
Example session_outcomes :
  map (fun '(_, r) => (result_outcome r, result_failure r)) (fst session0) =
    [(ControllerActionOutcome.OutcomeUnknown, Some ControllerFailure.AuraAckTimeout);
     (ControllerActionOutcome.RejectedBeforeSend, Some ControllerFailure.UnresolvedPriorAction);
     (ControllerActionOutcome.RejectedBeforeSend, Some ControllerFailure.AuraNotificationSetupFailed)].
Proof. by vm_compute. Qed.

#[local] Instance Body_eq_dec : EqDecision Body.t.
Proof.
  assert (EqDecision MemberBody) by solve_decision. assert (EqDecision HealthBody) by solve_decision.
  assert (EqDecision LastActionBody) by solve_decision. assert (EqDecision StatusBody) by solve_decision.
  assert (EqDecision ActionBody) by solve_decision. solve_decision.
Defined.

Definition read_backb (bodies : list Body.t) (b : Body.t) : bool :=
  bool_decide (find (fun c => bool_decide (body_text c = body_text b)) bodies = Some b)
  && (Z.of_nat (length (body_text b)) <=? 32768)%Z.

Lemma read_backb_true bodies b : read_backb bodies b = true -> @reads_back session_web (library_of bodies) b.
Proof.
  unfold read_backb. intros [Hf Hl]%andb_true_iff. apply bool_decide_eq_true in Hf.
  split; [|by apply Z.leb_le]. simpl. by rewrite Hf.
Qed.

Definition exchangedb (bodies : list Body.t) (x : ControllerStatus * ControllerActionResult) : bool :=
  read_backb bodies (Body.Status (status_body (fst x)))
  && read_backb bodies (Body.Action (action_body (snd x))).

Lemma exchangedb_true bodies out :
  forallb (exchangedb bodies) out = true -> Forall (@exchanged session_web (library_of bodies)) out.
Proof.
  rewrite forallb_forall. intros H. apply Forall_forall. intros x Hx%list_elem_of_In.
  apply H in Hx. unfold exchangedb in Hx. apply andb_true_iff in Hx as [Hs Ha].
  split; by apply read_backb_true.
Qed.

Lemma session_exchanged : Forall exchanged (fst session0).
Proof. apply exchangedb_true. by vm_compute. Qed.

Lemma client_session_drives_service_witness :
  exists a w, fst process0 = Ok a /\
    client_session plenty DEFAULT_WEB_PORT conversation_of
      (mkLoopback (mkWebApp (web_actor a) sim_security) [] [] None) =
      Some (map (fun '(_, r) => Ok (local_action_result r))
              (fst (controller_session conversation_of (web_actor a))), w).
Proof.
  destruct (is_ok_value (fst process0)) as [a Ea]; [by vm_compute|].
  assert (web_actor a = service0) as Ha by (unfold service0; by rewrite Ea).
  pose proof (client_session_drives_service native_config host0 (snd process0) a sim_security plenty
    conversation_of (mkLoopback (mkWebApp (web_actor a) sim_security) [] [] None)
    (with_fst _ _ Ea) sim_security_minted sim_port) as H.
  destruct (controller_session conversation_of (web_actor a)) as [out a'] eqn:Eo.
  destruct H as (w' & _ & H).
  - unfold plenty. rewrite Z2Nat.id by lia. by vm_compute.
  - split; by vm_compute.
  - by vm_compute.
  - by vm_compute.
  - reflexivity.
  - assert (out = fst session0) as -> by (rewrite <- Ha, Eo; reflexivity). exact session_exchanged.
  - exists a, w'. split; [exact Ea|]. rewrite Eo. exact H.
Defined.
