(* ===== verification/ProcessWitnesses.v ===== *)
(** The process of the service at concrete inputs: a network of scripted
    connections with a schedule of signals, which satisfies the interfaces and
    their laws, and two runs on the simulated host: one that starts clean, and
    one behind a record that is pending.  It models no code of the program. *)
From stdpp Require Import relations.
From S2P Require Import Prelude Bytes Tcp LocalModel LocalClient Web WebSpec Http HttpSpec ClientSpec.
From S2P Require Import Backend Journal JournalSim Model Control Controller ControllerSpec Bluez AuraBluez.
From S2P Require Import BluezIo BluezIoSpec JblGatt BroadcastGena GenaBody GenaHttp BackendNative Gena.
From S2P Require Import NativeSpec JblClient BodySpec JblSpec PrivateFile Tls Service ServiceSpec WebServer.
From S2P Require Import WebServerSpec ServerLoop System Config Signals Cli Native NativeServiceSpec Process.
From S2P Require Import ProcessSpec Simulation BluezSimulation Loopback GenaSimulation NetSimulation.
From S2P Require Import HostSimulation NativeSimulation NetWitnesses NativeWitnesses.

(** * The network *)

(** The connections of [SimNet], and the signals that come before each poll;
    when the schedule is over, a termination signal comes. *)
Record SimLoop := mkSimLoop { loop_net : NetSimulation.SimNet; loop_signals : list (list Z) }.

Definition on_loop {T} (call : NetSimulation.SimNet -> T * NetSimulation.SimNet) (l : SimLoop) : T * SimLoop :=
  let '(r, n) := call (loop_net l) in (r, mkSimLoop n (loop_signals l)).
Definition in_loop (call : NetSimulation.SimNet -> NetSimulation.SimNet) (l : SimLoop) : SimLoop :=
  mkSimLoop (call (loop_net l)) (loop_signals l).

#[export] Instance SimLoop_tcp : TcpStream SimLoop := {
  instant_now := on_loop instant_now;
  connect_timeout port t := on_loop (connect_timeout port t);
  set_write_timeout t := on_loop (set_write_timeout t);
  set_read_timeout t := on_loop (set_read_timeout t);
  tcp_write p := on_loop (tcp_write p);
  tcp_read n := on_loop (tcp_read n);
  set_nonblocking b := on_loop (set_nonblocking b);
  tcp_peek n := on_loop (tcp_peek n);
  shutdown_both := in_loop shutdown_both;
}.
#[export] Instance SimLoop_listener : WebListener SimLoop := {
  shutdown_requested l := (false, l);
  accept := on_loop accept;
  thread_sleep d := in_loop (thread_sleep d);
  stream_local_addr := on_loop stream_local_addr;
  stream_peer_addr := on_loop stream_peer_addr;
  csrf_random := on_loop csrf_random;
  tcp_bind addr := on_loop (tcp_bind addr);
  listener_local_addr := on_loop listener_local_addr;
  listener_set_nonblocking := on_loop listener_set_nonblocking;
}.
#[export] Instance SimLoop_signals : SignalQueue SimLoop := {
  signals_before_poll l :=
    match loop_signals l with
    | [] => ([SIGTERM], l)
    | signals :: rest => (signals, mkSimLoop (loop_net l) rest)
    end;
}.

Lemma on_loop_inv {T} (call : NetSimulation.SimNet -> T * NetSimulation.SimNet) (l l' : SimLoop) r :
  on_loop call l = (r, l') ->
  call (loop_net l) = (r, loop_net l') /\ loop_signals l' = loop_signals l.
Proof. unfold on_loop. destruct (call _). by intros [= -> <-]. Qed.

#[export] Instance SimLoop_laws : WebListenerLaws SimLoop.
Proof.
  refine {| connections l := connections (loop_net l) |}; intros;
    try (match goal with E : _ = _ |- _ => apply on_loop_inv in E as [E _] end).
  - by eapply accept_connections.
  - by eapply accept_failed_connections.
  - by eapply read_connections.
  - by eapply read_failed_connections.
  - by eapply instant_now_connections.
  - by simplify_eq/=.
  - by eapply read_timeout_connections.
  - by eapply write_timeout_connections.
  - by eapply write_connections.
  - by eapply nonblocking_connections.
  - by eapply peek_connections.
  - apply shutdown_connections.
  - apply sleep_connections.
  - by eapply local_addr_connections.
  - by eapply peer_addr_connections.
Defined.

#[export] Instance SimLoop_tcp_laws : TcpStreamLaws SimLoop.
Proof.
  refine {| interruptions _ := 0 |}; try (by intros; lia);
    intros; match goal with E : _ = _ |- _ => apply on_loop_inv in E as [E _] end;
    simpl in *; simplify_eq; try done.
  rewrite length_take. lia.
Defined.

#[export] Instance SimLoop_clock : TcpClockLaws SimLoop.
Proof.
  refine {| clock _ := 0%Z |}; intros; try lia;
    match goal with E : _ = _ |- _ => apply on_loop_inv in E as [E _] end;
    simpl in *; simplify_eq; lia.
Defined.

Lemma loop_calls (l l' : SimLoop) :
  server_call l l' -> length (loop_signals l') = length (loop_signals l).
Proof.
  intros [b E|r E|d ->|r E|r E|t E|t r E|t r E|n r E|p r E|b r E|n r E| ->]; try done;
    try (apply on_loop_inv in E as [_ E]; by rewrite E). by simplify_eq/=.
Qed.

#[export] Instance SimLoop_machine : MachineNetLaws SimLoop.
Proof.
  constructor; simpl; try (intros l r l' [E _]%on_loop_inv; simpl in E; injection E as _ E; by rewrite E).
  - intros l token l' [E _]%on_loop_inv. simpl in E. injection E as <- _. reflexivity.
  - intros a l r l' [E _]%on_loop_inv. simpl in E. injection E as _ E. by rewrite E.
  - intros l s l' E. destruct (loop_signals l); by simplify_eq.
Defined.

#[export] Instance SimLoop_due : SignalDue SimLoop.
Proof.
  refine {| due l := length (loop_signals l) |}.
  - intros l l' E%loop_calls. lia.
  - intros l s l' E. simpl in E. destruct (loop_signals l) eqn:Es; simplify_eq/=.
    + rewrite Es. split; [done|by left].
    + split; [lia|right; lia].
Defined.

(** * Two processes *)

#[global] Abbreviation sim_machine := (Machine native_host SimLoop).
#[global] Abbreviation sim_run := (run_service (F := bytes) (W := sim_machine)
  (A := NativeServiceActor (L := nat) (D := SimDir) (A := SimLan) (BW := SimStack) (BS := unit)
    (NW := GenaSimulation.SimNet) (K := Z))).

(** The traffic of the loopback tests, and a termination signal after [n] polls. *)
Definition machine_with (disk : SimDir) (pending : list (list bytes)) (n : nat) : sim_machine :=
  mkMachine (native_host_with [] quiet_network disk)
    (mkSimLoop (sim_net pending) (replicate n [])) [].
Definition clean_machine : sim_machine :=
  machine_with (sim_new [] []) [[take 40 healthz_request; drop 40 healthz_request]] 20.

(** A START behind the record that the first process of [NativeWitnesses] left. *)
Definition dirty_disk : SimDir := rebooted (directory (ctl_journal (controller lost))).
Definition dirty_machine : sim_machine := machine_with dirty_disk [[start_request 0]] 20.

Lemma sim_unhandled disk pending n : unhandled (machine_with disk pending n).
Proof. intros signal. apply bool_decide_eq_false_2, not_elem_of_nil. Qed.

Lemma ran_with {T X} (o : option (T * X)) x : option_map fst o = Some x -> exists s, o = Some (x, s).
Proof. destruct o as [[y s]|]; [|done]. intros [= ->]. by exists s. Qed.


Lemma dirty_pending : pending_on_disk (host_state (machine_host dirty_machine)).
Proof.
  intros d0 metadata d1 j d2 Hd Hm Ho. cbn in Hd. subst d0. injection Hm as _ <-.
  assert (option_map is_pending (result_ok (fst (open_records dirty_disk))) = Some true) as Hp
    by by vm_compute.
  change (open_records dirty_disk = (Ok j, d2)) in Ho. rewrite Ho in Hp. by injection Hp.
Qed.

Lemma start_request_plain : plain_request (start_request 0).
Proof.
  intros request E.
  assert (option_map Web.target (result_ok (parse_request (start_request 0))) = Some (str "/api/start"))
    as Ht by by vm_compute.
  rewrite E in Ht. injection Ht as ->. by vm_compute.
Qed.

Lemma pending_process_stays_silent_witness :
  exists r m, sim_run 60 None dirty_machine = Some (r, m) /\
    exists a last requests listener, process_run None dirty_machine m r a last requests listener /\
    Bluez.sent (io_world (io (aura (ctl_backend (controller (web_actor last)))))) =
      Bluez.sent (aura_stack (machine_host dirty_machine)).
Proof.
  set (r := Err (CliError.ServiceRuntime ServiceRuntimeError.GracefulShutdownRejected)
    : result unit CliError.t).
  assert (option_map (fun '(x, m) => (x, net_connections (loop_net (machine_net m))))
    (sim_run 60 None dirty_machine) = Some (r, [start_request 0])) as E by by vm_compute.
  destruct (sim_run 60 None dirty_machine) as [[x m]|] eqn:Er; [|discriminate E].
  injection E as -> Hc. exists r, m. split; [reflexivity|].
  destruct (pending_process_stays_silent 60 None dirty_machine m r Er (sim_unhandled _ _ _) dirty_pending)
    as [Hfirst|(a & last & q & l & Hrun & _ & _ & _ & _ & _ & Hs)].
  - intros opened Ho. cbn in Ho. rewrite Hc in Ho. subst opened. constructor; [|constructor].
    exact start_request_plain.
  - destruct Hfirst as [_ [Hq _ _]]. cbn in Hq. rewrite Hc in Hq. discriminate Hq.
  - exists a, last, q, l. split; [exact Hrun|exact Hs].
Defined.

Lemma service_process_ends_witness :
  due (machine_net clean_machine) = 20 /\ ends (fun fuel => sim_run fuel None clean_machine).
Proof.
  split; [reflexivity|]. exact (service_process_ends None clean_machine (sim_unhandled _ _ _)).
Defined.
